(** * Allie Chess: the position core ([lib/game.cpp])

    A shallow embedding of [Chess::Game] and of the functions of
    [lib/game.cpp], with the properties of the position core stated
    and proved (or refuted) over it.

    Conventions of the embedding:
    - a [BitBoard] is a 64-bit unsigned integer, modelled as a [Z] with bit
      [i] standing for square [i];
    - a [Square] is one byte, modelled as a [Z];
    - [Q_ASSERT] and [Q_UNREACHABLE] are programming errors: a run that trips
      one ends in [AssertFail] (the behaviour of a debug build); every
      statement about a result [Ok _] is therefore also a statement about a
      release build on a run that trips no assertion;
    - the global option [UCI_Chess960] is the parameter [chess960];
    - the global [Movegen] tables are a parameter [gen] of the functions
      that consult them. *)

From Stdlib Require Import String Ascii ZArith List Bool Lia FinFun.
Import ListNotations.
Local Open Scope Z_scope.

(* ================================================================= *)
(** ** Programming errors *)

Inductive exec (A : Type) : Type :=
| Ok (a : A)
| AssertFail.
Arguments Ok {A} a.
Arguments AssertFail {A}.

Definition bind {A B : Type} (c : exec A) (k : A -> exec B) : exec B :=
  match c with
  | Ok a => k a
  | AssertFail => AssertFail
  end.

Notation "x <- c ;; k" := (bind c (fun x => k))
  (at level 61, c at next level, right associativity).

(** [Q_ASSERT(cond)] *)
Definition q_assert (cond : bool) : exec unit :=
  if cond then Ok tt else AssertFail.

(* ================================================================= *)
(** ** Enumerations of namespace [Chess] *)

Inductive Army : Type := White | Black.

Inductive PieceType : Type :=
| Unknown | King | Queen | Rook | Bishop | Knight | Pawn.

Inductive Castle : Type := KingSide | QueenSide.

Definition Army_eqb (a b : Army) : bool :=
  match a, b with
  | White, White | Black, Black => true
  | _, _ => false
  end.

Definition PieceType_eqb (a b : PieceType) : bool :=
  match a, b with
  | Unknown, Unknown | King, King | Queen, Queen | Rook, Rook
  | Bishop, Bishop | Knight, Knight | Pawn, Pawn => true
  | _, _ => false
  end.

Definition Castle_eqb (a b : Castle) : bool :=
  match a, b with
  | KingSide, KingSide | QueenSide, QueenSide => true
  | _, _ => false
  end.

(** [army == White ? Black : White] *)
Definition otherArmy (a : Army) : Army :=
  match a with White => Black | Black => White end.

(* ================================================================= *)
(** ** Square *)

(** Modelled from the spec: [square.h] is not part of the sources.  A square
    is one byte, [file + 8 * rank]; it is valid iff the byte is below 64; the
    default-constructed square is the invalid sentinel. *)
Definition Square : Type := Z.

Definition mkSquare (file rank : Z) : Square := (file + 8 * rank) mod 256.
Definition invalidSquare : Square := 64.
Definition sq_isValid (s : Square) : bool := (0 <=? s) && (s <? 64).
Definition sq_file (s : Square) : Z := s mod 8.
Definition sq_rank (s : Square) : Z := s / 8.
Definition sq_data (s : Square) : Z := s.

(* ================================================================= *)
(** ** BitBoard *)

(** Modelled from the spec: [bitboard.h] is not part of the sources.  A
    bitboard is a 64-bit set of squares with the usual bitwise algebra and an
    iterator that yields the occupied squares in ascending order. *)
Definition BitBoard : Type := Z.

Definition emptyBoard : BitBoard := 0.
Definition testBit (b : BitBoard) (index : Z) : bool := Z.testbit b index.
Definition setBit (b : BitBoard) (index : Z) (bit : bool) : BitBoard :=
  if bit then Z.setbit b index else Z.clearbit b index.
Definition isClear (b : BitBoard) : bool := b =? 0.
Definition squareBoard (s : Square) : BitBoard := Z.setbit 0 s.

Definition allSquares : list Square := map Z.of_nat (seq 0 64).

Definition occupiedSquares (b : BitBoard) : list Square :=
  filter (testBit b) allSquares.

Definition bb_count (b : BitBoard) : Z := Z.of_nat (length (occupiedSquares b)).

(* ================================================================= *)
(** ** Move *)

(** Modelled from the spec: [move.h] is not part of the sources.  A move
    carries its two squares, the moving piece, the promotion piece and its
    flags; a default move has invalid squares, unknown pieces, no flag and
    castle side [KingSide] (as [testBasicStructures] checks). *)
Record Move : Type := mkMove {
  mv_start : Square;
  mv_end : Square;
  mv_piece : PieceType;
  mv_promotion : PieceType;
  mv_isCapture : bool;
  mv_isCheck : bool;
  mv_isCheckMate : bool;
  mv_isStaleMate : bool;
  mv_isEnPassant : bool;
  mv_isCastle : bool;
  mv_castleSide : Castle
}.

Definition defaultMove : Move :=
  mkMove invalidSquare invalidSquare Unknown Unknown
         false false false false false false KingSide.

Definition mv_isValid (m : Move) : bool :=
  sq_isValid (mv_start m) && sq_isValid (mv_end m).

Definition setStart (s : Square) (m : Move) : Move :=
  mkMove s (mv_end m) (mv_piece m) (mv_promotion m) (mv_isCapture m)
         (mv_isCheck m) (mv_isCheckMate m) (mv_isStaleMate m)
         (mv_isEnPassant m) (mv_isCastle m) (mv_castleSide m).
Definition setEnd (s : Square) (m : Move) : Move :=
  mkMove (mv_start m) s (mv_piece m) (mv_promotion m) (mv_isCapture m)
         (mv_isCheck m) (mv_isCheckMate m) (mv_isStaleMate m)
         (mv_isEnPassant m) (mv_isCastle m) (mv_castleSide m).
Definition setPiece (p : PieceType) (m : Move) : Move :=
  mkMove (mv_start m) (mv_end m) p (mv_promotion m) (mv_isCapture m)
         (mv_isCheck m) (mv_isCheckMate m) (mv_isStaleMate m)
         (mv_isEnPassant m) (mv_isCastle m) (mv_castleSide m).
Definition setPromotion (p : PieceType) (m : Move) : Move :=
  mkMove (mv_start m) (mv_end m) (mv_piece m) p (mv_isCapture m)
         (mv_isCheck m) (mv_isCheckMate m) (mv_isStaleMate m)
         (mv_isEnPassant m) (mv_isCastle m) (mv_castleSide m).
Definition setCapture (b : bool) (m : Move) : Move :=
  mkMove (mv_start m) (mv_end m) (mv_piece m) (mv_promotion m) b
         (mv_isCheck m) (mv_isCheckMate m) (mv_isStaleMate m)
         (mv_isEnPassant m) (mv_isCastle m) (mv_castleSide m).
Definition setCheck (b : bool) (m : Move) : Move :=
  mkMove (mv_start m) (mv_end m) (mv_piece m) (mv_promotion m)
         (mv_isCapture m) b (mv_isCheckMate m) (mv_isStaleMate m)
         (mv_isEnPassant m) (mv_isCastle m) (mv_castleSide m).
Definition setEnPassant (b : bool) (m : Move) : Move :=
  mkMove (mv_start m) (mv_end m) (mv_piece m) (mv_promotion m)
         (mv_isCapture m) (mv_isCheck m) (mv_isCheckMate m)
         (mv_isStaleMate m) b (mv_isCastle m) (mv_castleSide m).
Definition setCastle (b : bool) (m : Move) : Move :=
  mkMove (mv_start m) (mv_end m) (mv_piece m) (mv_promotion m)
         (mv_isCapture m) (mv_isCheck m) (mv_isCheckMate m)
         (mv_isStaleMate m) (mv_isEnPassant m) b (mv_castleSide m).
Definition setCastleSide (c : Castle) (m : Move) : Move :=
  mkMove (mv_start m) (mv_end m) (mv_piece m) (mv_promotion m)
         (mv_isCapture m) (mv_isCheck m) (mv_isCheckMate m)
         (mv_isStaleMate m) (mv_isEnPassant m) (mv_isCastle m) c.

(* ================================================================= *)
(** ** Game: the position *)

(** The member variables of [Chess::Game], as [game.cpp] names them. *)
Record Game : Type := mkGame {
  m_lastMove : Move;
  m_halfMoveClock : Z;            (* quint16 *)
  m_halfMoveNumber : Z;           (* quint16 *)
  m_fileOfKingsRook : Z;          (* quint8 *)
  m_fileOfQueensRook : Z;         (* quint8 *)
  m_repetitions : Z;
  m_enPassantTarget : Square;
  m_whitePositionBoard : BitBoard;
  m_blackPositionBoard : BitBoard;
  m_kingsBoard : BitBoard;
  m_queensBoard : BitBoard;
  m_rooksBoard : BitBoard;
  m_bishopsBoard : BitBoard;
  m_knightsBoard : BitBoard;
  m_pawnsBoard : BitBoard;
  m_hasWhiteKingCastle : bool;
  m_hasBlackKingCastle : bool;
  m_hasWhiteQueenCastle : bool;
  m_hasBlackQueenCastle : bool;
  m_activeArmy : Army
}.

Definition with_lastMove (v : Move) (g : Game) : Game :=
  mkGame v (m_halfMoveClock g) (m_halfMoveNumber g) (m_fileOfKingsRook g)
    (m_fileOfQueensRook g) (m_repetitions g) (m_enPassantTarget g)
    (m_whitePositionBoard g) (m_blackPositionBoard g) (m_kingsBoard g)
    (m_queensBoard g) (m_rooksBoard g) (m_bishopsBoard g) (m_knightsBoard g)
    (m_pawnsBoard g) (m_hasWhiteKingCastle g) (m_hasBlackKingCastle g)
    (m_hasWhiteQueenCastle g) (m_hasBlackQueenCastle g) (m_activeArmy g).
Definition with_halfMoveClock (v : Z) (g : Game) : Game :=
  mkGame (m_lastMove g) v (m_halfMoveNumber g) (m_fileOfKingsRook g)
    (m_fileOfQueensRook g) (m_repetitions g) (m_enPassantTarget g)
    (m_whitePositionBoard g) (m_blackPositionBoard g) (m_kingsBoard g)
    (m_queensBoard g) (m_rooksBoard g) (m_bishopsBoard g) (m_knightsBoard g)
    (m_pawnsBoard g) (m_hasWhiteKingCastle g) (m_hasBlackKingCastle g)
    (m_hasWhiteQueenCastle g) (m_hasBlackQueenCastle g) (m_activeArmy g).
Definition with_halfMoveNumber (v : Z) (g : Game) : Game :=
  mkGame (m_lastMove g) (m_halfMoveClock g) v (m_fileOfKingsRook g)
    (m_fileOfQueensRook g) (m_repetitions g) (m_enPassantTarget g)
    (m_whitePositionBoard g) (m_blackPositionBoard g) (m_kingsBoard g)
    (m_queensBoard g) (m_rooksBoard g) (m_bishopsBoard g) (m_knightsBoard g)
    (m_pawnsBoard g) (m_hasWhiteKingCastle g) (m_hasBlackKingCastle g)
    (m_hasWhiteQueenCastle g) (m_hasBlackQueenCastle g) (m_activeArmy g).
Definition with_fileOfKingsRook (v : Z) (g : Game) : Game :=
  mkGame (m_lastMove g) (m_halfMoveClock g) (m_halfMoveNumber g) v
    (m_fileOfQueensRook g) (m_repetitions g) (m_enPassantTarget g)
    (m_whitePositionBoard g) (m_blackPositionBoard g) (m_kingsBoard g)
    (m_queensBoard g) (m_rooksBoard g) (m_bishopsBoard g) (m_knightsBoard g)
    (m_pawnsBoard g) (m_hasWhiteKingCastle g) (m_hasBlackKingCastle g)
    (m_hasWhiteQueenCastle g) (m_hasBlackQueenCastle g) (m_activeArmy g).
Definition with_fileOfQueensRook (v : Z) (g : Game) : Game :=
  mkGame (m_lastMove g) (m_halfMoveClock g) (m_halfMoveNumber g)
    (m_fileOfKingsRook g) v (m_repetitions g) (m_enPassantTarget g)
    (m_whitePositionBoard g) (m_blackPositionBoard g) (m_kingsBoard g)
    (m_queensBoard g) (m_rooksBoard g) (m_bishopsBoard g) (m_knightsBoard g)
    (m_pawnsBoard g) (m_hasWhiteKingCastle g) (m_hasBlackKingCastle g)
    (m_hasWhiteQueenCastle g) (m_hasBlackQueenCastle g) (m_activeArmy g).
Definition with_repetitions (v : Z) (g : Game) : Game :=
  mkGame (m_lastMove g) (m_halfMoveClock g) (m_halfMoveNumber g)
    (m_fileOfKingsRook g) (m_fileOfQueensRook g) v (m_enPassantTarget g)
    (m_whitePositionBoard g) (m_blackPositionBoard g) (m_kingsBoard g)
    (m_queensBoard g) (m_rooksBoard g) (m_bishopsBoard g) (m_knightsBoard g)
    (m_pawnsBoard g) (m_hasWhiteKingCastle g) (m_hasBlackKingCastle g)
    (m_hasWhiteQueenCastle g) (m_hasBlackQueenCastle g) (m_activeArmy g).
Definition with_enPassantTarget (v : Square) (g : Game) : Game :=
  mkGame (m_lastMove g) (m_halfMoveClock g) (m_halfMoveNumber g)
    (m_fileOfKingsRook g) (m_fileOfQueensRook g) (m_repetitions g) v
    (m_whitePositionBoard g) (m_blackPositionBoard g) (m_kingsBoard g)
    (m_queensBoard g) (m_rooksBoard g) (m_bishopsBoard g) (m_knightsBoard g)
    (m_pawnsBoard g) (m_hasWhiteKingCastle g) (m_hasBlackKingCastle g)
    (m_hasWhiteQueenCastle g) (m_hasBlackQueenCastle g) (m_activeArmy g).
Definition with_activeArmy (v : Army) (g : Game) : Game :=
  mkGame (m_lastMove g) (m_halfMoveClock g) (m_halfMoveNumber g)
    (m_fileOfKingsRook g) (m_fileOfQueensRook g) (m_repetitions g)
    (m_enPassantTarget g)
    (m_whitePositionBoard g) (m_blackPositionBoard g) (m_kingsBoard g)
    (m_queensBoard g) (m_rooksBoard g) (m_bishopsBoard g) (m_knightsBoard g)
    (m_pawnsBoard g) (m_hasWhiteKingCastle g) (m_hasBlackKingCastle g)
    (m_hasWhiteQueenCastle g) (m_hasBlackQueenCastle g) v.

(** Writes to the two colour bitboards and the six piece bitboards. *)
Definition with_armyBoard (a : Army) (v : BitBoard) (g : Game) : Game :=
  mkGame (m_lastMove g) (m_halfMoveClock g) (m_halfMoveNumber g)
    (m_fileOfKingsRook g) (m_fileOfQueensRook g) (m_repetitions g)
    (m_enPassantTarget g)
    (match a with White => v | Black => m_whitePositionBoard g end)
    (match a with Black => v | White => m_blackPositionBoard g end)
    (m_kingsBoard g) (m_queensBoard g) (m_rooksBoard g) (m_bishopsBoard g)
    (m_knightsBoard g) (m_pawnsBoard g)
    (m_hasWhiteKingCastle g) (m_hasBlackKingCastle g)
    (m_hasWhiteQueenCastle g) (m_hasBlackQueenCastle g) (m_activeArmy g).

Definition with_pieceBoard (p : PieceType) (v : BitBoard) (g : Game) : Game :=
  mkGame (m_lastMove g) (m_halfMoveClock g) (m_halfMoveNumber g)
    (m_fileOfKingsRook g) (m_fileOfQueensRook g) (m_repetitions g)
    (m_enPassantTarget g)
    (m_whitePositionBoard g) (m_blackPositionBoard g)
    (match p with King => v | _ => m_kingsBoard g end)
    (match p with Queen => v | _ => m_queensBoard g end)
    (match p with Rook => v | _ => m_rooksBoard g end)
    (match p with Bishop => v | _ => m_bishopsBoard g end)
    (match p with Knight => v | _ => m_knightsBoard g end)
    (match p with Pawn => v | _ => m_pawnsBoard g end)
    (m_hasWhiteKingCastle g) (m_hasBlackKingCastle g)
    (m_hasWhiteQueenCastle g) (m_hasBlackQueenCastle g) (m_activeArmy g).

(** Writes to the four castle rights. *)
Definition with_castle (a : Army) (c : Castle) (v : bool) (g : Game) : Game :=
  mkGame (m_lastMove g) (m_halfMoveClock g) (m_halfMoveNumber g)
    (m_fileOfKingsRook g) (m_fileOfQueensRook g) (m_repetitions g)
    (m_enPassantTarget g)
    (m_whitePositionBoard g) (m_blackPositionBoard g)
    (m_kingsBoard g) (m_queensBoard g) (m_rooksBoard g) (m_bishopsBoard g)
    (m_knightsBoard g) (m_pawnsBoard g)
    (match a, c with White, KingSide => v | _, _ => m_hasWhiteKingCastle g end)
    (match a, c with Black, KingSide => v | _, _ => m_hasBlackKingCastle g end)
    (match a, c with White, QueenSide => v | _, _ => m_hasWhiteQueenCastle g end)
    (match a, c with Black, QueenSide => v | _, _ => m_hasBlackQueenCastle g end)
    (m_activeArmy g).

(** Modelled from the spec: the inline accessors of [game.h] are not part of
    the sources.  [board(army)] and [board(piece)] read the bitboard of a
    colour and of a piece kind (there is none for [Unknown]);
    [isCastleAvailable] reads the castle right of an army and a side. *)
Definition boardA (g : Game) (a : Army) : BitBoard :=
  match a with
  | White => m_whitePositionBoard g
  | Black => m_blackPositionBoard g
  end.

Definition boardP (g : Game) (p : PieceType) : BitBoard :=
  match p with
  | King => m_kingsBoard g
  | Queen => m_queensBoard g
  | Rook => m_rooksBoard g
  | Bishop => m_bishopsBoard g
  | Knight => m_knightsBoard g
  | Pawn => m_pawnsBoard g
  | Unknown => emptyBoard
  end.

Definition isCastleAvailable (g : Game) (a : Army) (c : Castle) : bool :=
  match a, c with
  | White, KingSide => m_hasWhiteKingCastle g
  | White, QueenSide => m_hasWhiteQueenCastle g
  | Black, KingSide => m_hasBlackKingCastle g
  | Black, QueenSide => m_hasBlackQueenCastle g
  end.

Definition activeArmy (g : Game) : Army := m_activeArmy g.
Definition fileOfKingsRook (g : Game) : Z := m_fileOfKingsRook g.
Definition fileOfQueensRook (g : Game) : Z := m_fileOfQueensRook g.
Definition enPassantTarget (g : Game) : Square := m_enPassantTarget g.

(** Modelled from the spec: [togglePieceAt] is declared in [game.h], which is
    not part of the sources.  It sets or clears the bit of the square in the
    bitboard of the army and in the bitboard of the piece kind; a square out
    of range or the kind [Unknown] is a programming error. *)
Definition togglePieceAt (index : Z) (army : Army) (piece : PieceType)
    (bit : bool) (g : Game) : exec Game :=
  _ <- q_assert ((0 <=? index) && (index <? 64)) ;;
  _ <- q_assert (negb (PieceType_eqb piece Unknown)) ;;
  Ok (with_pieceBoard piece (setBit (boardP g piece) index bit)
        (with_armyBoard army (setBit (boardA g army) index bit) g)).

(** [Game::hasPieceAt] *)
Definition hasPieceAt (g : Game) (index : Z) (army : Army) : bool :=
  match army with
  | White => testBit (m_whitePositionBoard g) index
  | Black => testBit (m_blackPositionBoard g) index
  end.

(** [Game::pieceTypeAt]: from most numerous piece type to least. *)
Definition pieceTypeAt (g : Game) (index : Z) : PieceType :=
  let has (type : PieceType) :=
    testBit (Z.land (boardP g type) (m_whitePositionBoard g)) index
    || testBit (Z.land (boardP g type) (m_blackPositionBoard g)) index in
  if has Pawn then Pawn
  else if has Knight then Knight
  else if has Bishop then Bishop
  else if has Rook then Rook
  else if has Queen then Queen
  else if has King then King
  else Unknown.

(** [Game::hasPieceTypeAt] *)
Definition hasPieceTypeAt (g : Game) (index : Z) (piece : PieceType) : bool :=
  testBit (boardP g piece) index.

(* ================================================================= *)
(** ** Making a move *)

(** The home rank of an army: [army == White ? 0 : 7]. *)
Definition homeRank (army : Army) : Z :=
  match army with White => 0 | Black => 7 end.

(** The rank behind a pawn of [army]: [rank - 1] in the White branch of
    [processMove], [rank + 1] in its Black branch. *)
Definition rankBehind (army : Army) (rank : Z) : Z :=
  match army with White => rank - 1 | Black => rank + 1 end.

(** [Game::fillOutStart]: it only reports whether the start square is
    there (the rest of its body prints a diagnostic). *)
Definition fillOutStart (g : Game) (army : Army) (move : Move) : bool :=
  if negb (mv_isValid move) then false
  else if sq_isValid (mv_start move) then true
  else false.

(** The first statement of [Game::fillOutMove]: a move flagged as a castle
    that is not valid gets the end square of the castle. *)
Definition castleEnd (army : Army) (move : Move) : Move :=
  if mv_isCastle move && negb (mv_isValid move) then
    match mv_castleSide move with
    | KingSide => setEnd (mkSquare 6 (homeRank army)) move
    | QueenSide => setEnd (mkSquare 2 (homeRank army)) move
    end
  else move.

(** [Game::fillOutMove].  [Ok None] stands for [return false], and
    [Ok (Some mv)] for [return true] with [*move] filled out as [mv]. *)
Definition fillOutMove (chess960 : bool) (g : Game) (army : Army)
    (move : Move) : exec (option Move) :=
  let move := castleEnd army move in
  if negb (mv_isValid move) then Ok None (* not enough info to do anything *)
  else
  let move :=
    if PieceType_eqb (mv_piece move) Unknown
    then setPiece (pieceTypeAt g (sq_data (mv_start move))) move
    else move in
  if PieceType_eqb (mv_piece move) Unknown then Ok None
  else
  if negb (sq_isValid (mv_start move)) && negb (fillOutStart g army move)
  then Ok None
  else
  let move :=
    if PieceType_eqb (mv_piece move) Pawn
       && PieceType_eqb (mv_promotion move) Unknown
       && ((Army_eqb army White && (sq_rank (mv_end move) =? 7))
           || (Army_eqb army Black && (sq_rank (mv_end move) =? 0)))
    then setPromotion Queen move
    else move in
  let move :=
    if PieceType_eqb (mv_piece move) Pawn
       && (mv_end move =? m_enPassantTarget g)
    then setEnPassant true move
    else move in
  if PieceType_eqb (mv_piece move) King && negb (mv_isCastle move) then
    let rankStart := sq_rank (mv_start move) in
    let rankEnd := sq_rank (mv_end move) in
    if ((rankStart =? 0) && (rankEnd =? 0))
       || ((rankStart =? 7) && (rankEnd =? 7)) then
      let fileStart := sq_file (mv_start move) in
      let fileEnd := sq_file (mv_end move) in
      if (fileStart =? 4) && (fileEnd =? 6) then
        Ok (Some (setCastle true (setCastleSide KingSide move)))
      else if (fileStart =? 4) && (fileEnd =? 2) then
        Ok (Some (setCastleSide QueenSide (setCastle true move)))
      else if chess960
              && negb (isClear (Z.land (Z.land (boardA g army) (boardP g Rook))
                                       (squareBoard (mv_end move)))) then
        if fileEnd =? fileOfKingsRook g then
          Ok (Some (setCastle true (setCastleSide KingSide move)))
        else if fileEnd =? fileOfQueensRook g then
          Ok (Some (setCastle true (setCastleSide QueenSide move)))
        else AssertFail (* Q_UNREACHABLE *)
      else Ok (Some move)
    else Ok (Some move)
  else Ok (Some move).

(** The first part of [Game::processMove]: the castle rights of the mover and
    the en-passant target. *)
Definition updateRights (army : Army) (move : Move) (g : Game) : Game :=
  if PieceType_eqb (mv_piece move) King then
    with_castle army QueenSide false (with_castle army KingSide false g)
  else if PieceType_eqb (mv_piece move) Rook then
    if mv_start move =? mkSquare (m_fileOfQueensRook g) (homeRank army) then
      with_castle army QueenSide false g
    else if mv_start move =? mkSquare (m_fileOfKingsRook g) (homeRank army) then
      with_castle army KingSide false g
    else g
  else if PieceType_eqb (mv_piece move) Pawn
          && (Z.abs (sq_rank (mv_start move) - sq_rank (mv_end move)) =? 2) then
    with_enPassantTarget
      (mkSquare (sq_file (mv_end move)) (rankBehind army (sq_rank (mv_end move))))
      g
  else g.

(** The capture block of [Game::processMove], entered when [capture] holds. *)
Definition processCapture (army : Army) (move : Move) (g : Game) : exec Game :=
  let g := with_lastMove (setCapture true (m_lastMove g)) g in
  let capturedPieceIndex :=
    if mv_isEnPassant move
    then sq_data (mkSquare (sq_file (mv_end move))
                           (rankBehind army (sq_rank (mv_end move))))
    else sq_data (mv_end move) in
  let type := pieceTypeAt g capturedPieceIndex in
  _ <- q_assert (negb (PieceType_eqb type Unknown)) ;;
  g <- togglePieceAt capturedPieceIndex (otherArmy army) type false g ;;
  Ok (if PieceType_eqb type Rook then
        if sq_file (mv_end move) =? m_fileOfKingsRook g
        then with_castle (otherArmy army) KingSide false g
        else with_castle (otherArmy army) QueenSide false g
      else g).

(** The last part of a branch of [Game::processMove]: the mover leaves its
    start square; a castle moves the rook, a promotion sets the promoted
    piece, any other move sets the mover on the end square. *)
Definition placeMover (army : Army) (move : Move) (g : Game) : exec Game :=
  g <- togglePieceAt (sq_data (mv_start move)) army (mv_piece move) false g ;;
  if mv_isCastle move then (* have to move the rook *)
    match mv_castleSide move with
    | KingSide =>
        g <- togglePieceAt (sq_data (mkSquare (m_fileOfKingsRook g) (homeRank army)))
               army Rook false g ;;
        g <- togglePieceAt (sq_data (mkSquare 5 (homeRank army))) army Rook true g ;;
        togglePieceAt (sq_data (mkSquare 6 (homeRank army))) army King true g
    | QueenSide =>
        g <- togglePieceAt (sq_data (mkSquare (m_fileOfQueensRook g) (homeRank army)))
               army Rook false g ;;
        g <- togglePieceAt (sq_data (mkSquare 3 (homeRank army))) army Rook true g ;;
        togglePieceAt (sq_data (mkSquare 2 (homeRank army))) army King true g
    end
  else if negb (PieceType_eqb (mv_promotion move) Unknown) then
    togglePieceAt (sq_data (mv_end move)) army (mv_promotion move) true g
  else
    togglePieceAt (sq_data (mv_end move)) army (mv_piece move) true g.

(** The update of [m_halfMoveClock] in [Game::processMove]. *)
Definition tickClock (move : Move) (capture : bool) (g : Game) : Game :=
  if negb (PieceType_eqb (mv_piece move) Pawn) && negb capture
  then with_halfMoveClock ((m_halfMoveClock g + 1) mod 65536) g
  else with_halfMoveClock 0 g.

(** The last three statements of [Game::processMove]. *)
Definition endTurn (g : Game) : Game :=
  let g := with_repetitions (-1) g in
  let g := with_halfMoveNumber ((m_halfMoveNumber g + 1) mod 65536) g in
  with_activeArmy (otherArmy (m_activeArmy g)) g.

(** [Game::processMove].  Its White and Black branches are the same text up
    to the army, the home rank ([0] or [7]) and the rank behind a pawn
    ([rank - 1] or [rank + 1]); the embedding writes the branch once, over
    [army], [homeRank army] and [rankBehind army]. *)
Definition processMove (army : Army) (move : Move) (g : Game) : exec Game :=
  let g := with_lastMove move g in
  let g := with_enPassantTarget invalidSquare g in
  let g := updateRights army move g in
  let capture :=
    hasPieceAt g (sq_data (mv_end move)) (otherArmy army)
    || mv_isEnPassant move in
  g <- (if capture then processCapture army move g else Ok g) ;;
  g <- placeMover army move (tickClock move capture g) ;;
  Ok (endTurn g).

(** [Game::makeMove]: the returned boolean and the position afterwards. *)
Definition makeMove (chess960 : bool) (move : Move) (g : Game)
    : exec (bool * Game) :=
  ok <- fillOutMove chess960 g (activeArmy g) move ;;
  match ok with
  | None => Ok (false, g) (* move is malformed *)
  | Some mv =>
      g' <- processMove (activeArmy g) mv g ;;
      Ok (true, g')
  end.

(* ================================================================= *)
(** ** Movegen: the attack tables consulted by the position *)

(** The interface of [Movegen] as [game.cpp] calls it: each query takes the
    square of the piece, the friendly occupancy and the enemy occupancy. *)
Record Movegen : Type := mkMovegen {
  kingMoves : Square -> BitBoard -> BitBoard -> BitBoard;
  queenMoves : Square -> BitBoard -> BitBoard -> BitBoard;
  rookMoves : Square -> BitBoard -> BitBoard -> BitBoard;
  bishopMoves : Square -> BitBoard -> BitBoard -> BitBoard;
  knightMoves : Square -> BitBoard -> BitBoard -> BitBoard;
  pawnMoves : Army -> Square -> BitBoard -> BitBoard -> BitBoard;
  pawnAttacks : Army -> Square -> BitBoard -> BitBoard -> BitBoard
}.

(** [for (sq : pieces) bits = bits | moves(sq)] *)
Definition unionOver (moves : Square -> BitBoard) (pieces : BitBoard)
    : BitBoard :=
  fold_left (fun bits sq => Z.lor bits (moves sq)) (occupiedSquares pieces) 0.

(** The loop over the kings of an army, with its [Q_ASSERT(i < 1)]. *)
Fixpoint kingLoop {A : Type} (body : Square -> A -> A) (sqs : list Square)
    (i : Z) (acc : A) : exec A :=
  match sqs with
  | [] => Ok acc
  | sq :: rest =>
      _ <- q_assert (i <? 1) ;;
      kingLoop body rest (i + 1) (body sq acc)
  end.

Definition friendsOf (g : Game) (army : Army) : BitBoard :=
  match army with
  | White => m_whitePositionBoard g
  | Black => m_blackPositionBoard g
  end.

Definition enemiesOf (g : Game) (army : Army) : BitBoard :=
  match army with
  | Black => m_whitePositionBoard g
  | White => m_blackPositionBoard g
  end.

(** [Game::kingAttackBoard] *)
Definition kingAttackBoard (gen : Movegen) (g : Game) (army : Army)
    : exec BitBoard :=
  let friends := friendsOf g army in
  let enemies := enemiesOf g army in
  let pieces := Z.land friends (boardP g King) in
  kingLoop (fun sq bits => Z.lor bits (kingMoves gen sq friends enemies))
           (occupiedSquares pieces) 0 0.

(** [Game::queenAttackBoard] *)
Definition queenAttackBoard (gen : Movegen) (g : Game) (army : Army)
    : BitBoard :=
  let friends := friendsOf g army in
  let enemies := enemiesOf g army in
  unionOver (fun sq => queenMoves gen sq friends enemies)
            (Z.land friends (boardP g Queen)).

(** [Game::rookAttackBoard] *)
Definition rookAttackBoard (gen : Movegen) (g : Game) (army : Army)
    : BitBoard :=
  let friends := friendsOf g army in
  let enemies := enemiesOf g army in
  unionOver (fun sq => rookMoves gen sq friends enemies)
            (Z.land friends (boardP g Rook)).

(** [Game::bishopAttackBoard] *)
Definition bishopAttackBoard (gen : Movegen) (g : Game) (army : Army)
    : BitBoard :=
  let friends := friendsOf g army in
  let enemies := enemiesOf g army in
  unionOver (fun sq => bishopMoves gen sq friends enemies)
            (Z.land friends (boardP g Bishop)).

(** [Game::knightAttackBoard] *)
Definition knightAttackBoard (gen : Movegen) (g : Game) (army : Army)
    : BitBoard :=
  let friends := friendsOf g army in
  let enemies := enemiesOf g army in
  unionOver (fun sq => knightMoves gen sq friends enemies)
            (Z.land friends (boardP g Knight)).

(** [enemiesPlusEnpassant]: the enemies, and the en-passant target when there
    is one. *)
Definition enemiesPlusEnpassant (g : Game) (enemies : BitBoard) : BitBoard :=
  if sq_isValid (m_enPassantTarget g)
  then setBit enemies (sq_data (m_enPassantTarget g)) true
  else enemies.

(** [Game::pawnAttackBoard] *)
Definition pawnAttackBoard (gen : Movegen) (g : Game) (army : Army)
    : BitBoard :=
  let friends := friendsOf g army in
  let enemies := enemiesOf g army in
  unionOver (fun sq => pawnAttacks gen army sq friends
                         (enemiesPlusEnpassant g enemies))
            (Z.land friends (boardP g Pawn)).

(* ================================================================= *)
(** ** Pseudo-legal moves *)

(** [Game::generateMove]: the moves handed to [parent->generatePotential], in
    the order of the calls. *)
Definition generateMove (g : Game) (piece : PieceType) (start end_ : Square)
    : list Move :=
  let army := activeArmy g in
  let isPromotion :=
    PieceType_eqb piece Pawn
    && (match army with
        | White => sq_rank end_ =? 7
        | Black => sq_rank end_ =? 0
        end) in
  let isCapture := testBit (boardA g (otherArmy army)) end_ in
  let mv := setCapture isCapture
              (setEnd end_ (setStart start (setPiece piece defaultMove))) in
  if negb isPromotion then [mv]
  else [setPromotion Queen mv; setPromotion Knight mv;
        setPromotion Rook mv; setPromotion Bishop mv].

(** [QVector::first()] *)
Definition q_first {A : Type} (l : list A) : exec A :=
  match l with
  | [] => AssertFail
  | x :: _ => Ok x
  end.

(** [Game::generateCastle]: all castles are encoded internally as king takes
    chosen castling rook. *)
Definition generateCastle (g : Game) (army : Army) (castleSide : Castle)
    : exec (list Move) :=
  start <- q_first (occupiedSquares (Z.land (boardP g King) (boardA g army))) ;;
  let mv := setStart start (setPiece King defaultMove) in
  let mv :=
    match castleSide with
    | KingSide => setEnd (mkSquare (fileOfKingsRook g) (homeRank army)) mv
    | QueenSide => setEnd (mkSquare (fileOfQueensRook g) (homeRank army)) mv
    end in
  Ok [setCastleSide castleSide (setCastle true mv)].

(** The two inner loops of [pseudoLegalMoves]: every destination of a piece
    standing on [sq] is handed to [generateMove]. *)
Definition movesFrom (g : Game) (piece : PieceType) (sq : Square)
    (moves : BitBoard) : list Move :=
  flat_map (fun newSq => generateMove g piece sq newSq) (occupiedSquares moves).

Definition movesOfKind (g : Game) (piece : PieceType)
    (movesFn : Square -> BitBoard) (pieces : BitBoard) : list Move :=
  flat_map (fun sq => movesFrom g piece sq (movesFn sq)) (occupiedSquares pieces).

(** The test of the pawn-push loop: [forwardTwo] and [forwardOne] occupied,
    in which case the loop [continue]s (can't move through another piece). *)
Definition pushBlocked (army : Army) (friends enemies : BitBoard)
    (sq newSq : Square) : bool :=
  let forwardTwo := Z.abs (sq_rank newSq - sq_rank sq) >? 1 in
  let forwardOne := mkSquare (sq_file newSq) (rankBehind army (sq_rank newSq)) in
  forwardTwo && testBit (Z.lor friends enemies) (sq_data forwardOne).

(** The body of the pawn loop for the pawn on [sq]: pushes, then attacks. *)
Definition pawnMovesFrom (gen : Movegen) (g : Game) (army : Army)
    (friends enemies : BitBoard) (sq : Square) : list Move :=
  flat_map (fun newSq =>
              if pushBlocked army friends enemies sq newSq then []
              else generateMove g Pawn sq newSq)
           (occupiedSquares (pawnMoves gen army sq friends enemies))
  ++ movesFrom g Pawn sq
       (pawnAttacks gen army sq friends (enemiesPlusEnpassant g enemies)).

(** [boardBetweenOnSameRank] *)
Definition boardBetweenOnSameRank (a b : Square) (inclusive : bool)
    : exec BitBoard :=
  _ <- q_assert (sq_rank a =? sq_rank b) ;;
  let result :=
    if inclusive
    then setBit (setBit emptyBoard (sq_data a) true) (sq_data b) true
    else emptyBoard in
  let files := Z.abs (sq_file a - sq_file b) - 1 in
  let start := (if sq_file a <? sq_file b then sq_file a else sq_file b) + 1 in
  Ok (fold_left
        (fun result f => setBit result (sq_data (mkSquare f (sq_rank a))) true)
        (map (fun k => start + Z.of_nat k) (seq 0 (Z.to_nat files)))
        result).

(** The union [atb] of the six attack boards of an army. *)
Definition attackBoard (gen : Movegen) (g : Game) (attackArmy : Army)
    : exec BitBoard :=
  kab <- kingAttackBoard gen g attackArmy ;;
  Ok (Z.lor (Z.lor (Z.lor (Z.lor (Z.lor kab
        (queenAttackBoard gen g attackArmy))
        (rookAttackBoard gen g attackArmy))
        (bishopAttackBoard gen g attackArmy))
        (knightAttackBoard gen g attackArmy))
        (pawnAttackBoard gen g attackArmy)).

(** The first part of [Game::isCastleLegal], up to the test on
    [throughMinusKAndR]: [None] when one of its tests answers [return false],
    and otherwise the boards [kingMovesThrough] and [rookMovesThrough]. *)
Definition castlePaths (g : Game) (army : Army) (castle : Castle)
    : exec (option (BitBoard * BitBoard)) :=
  (* 1) The king and the chosen rook are on the player's first rank.
     2) Neither the king nor the chosen rook has previously moved. *)
  if negb (isCastleAvailable g army castle) then Ok None
  else
  (* Get the chosen rook *)
  let rookBoard :=
    Z.land (Z.land
      (squareBoard (mkSquare (match castle with
                              | KingSide => fileOfKingsRook g
                              | QueenSide => fileOfQueensRook g
                              end) (homeRank army)))
      (boardP g Rook)) (boardA g army) in
  (* If it does not exist, then castle is clearly illegal *)
  if isClear rookBoard then Ok None
  else
  _ <- q_assert (bb_count rookBoard =? 1) ;;
  chosenRook <- q_first (occupiedSquares rookBoard) ;;
  (* Get the king *)
  let kingBoard := Z.land (boardP g King) (boardA g army) in
  king <- q_first (occupiedSquares kingBoard) ;;
  (* Get the board between king and chosen rook *)
  let pieces := Z.lor (boardA g White) (boardA g Black) in
  bb <- boardBetweenOnSameRank king chosenRook false ;;
  let between := Z.land bb pieces in
  (* 3) There are no pieces between the king and the chosen rook. *)
  if negb (isClear between) then Ok None
  else
  let kingTo := mkSquare (match castle with KingSide => 6 | QueenSide => 2 end)
                         (sq_rank king) in
  kingMovesThrough <- boardBetweenOnSameRank king kingTo true ;;
  let rookTo := mkSquare (match castle with KingSide => 5 | QueenSide => 3 end)
                         (sq_rank chosenRook) in
  rookMovesThrough <- boardBetweenOnSameRank chosenRook rookTo true ;;
  (* Rook and King cannot jump over anything but each other *)
  let throughMinusKAndR :=
    Z.land (Z.lxor (Z.lxor (Z.lor kingMovesThrough rookMovesThrough) rookBoard)
                   kingBoard) pieces in
  if negb (isClear throughMinusKAndR) then Ok None
  else Ok (Some (kingMovesThrough, rookMovesThrough)).

(** [Game::isCastleLegal]: the tests of [castlePaths], then the attacks. *)
Definition isCastleLegal (gen : Movegen) (g : Game) (army : Army)
    (castle : Castle) : exec bool :=
  paths <- castlePaths g army castle ;;
  match paths with
  | None => Ok false
  | Some (kingMovesThrough, rookMovesThrough) =>
      atb <- attackBoard gen g (otherArmy army) ;;
      (* 4) The king is not currently in check.
         5) The king does not pass through a square that is attacked by an
            enemy piece.
         6) The king does not end up in check. *)
      if negb (isClear (Z.land kingMovesThrough atb)) then Ok false
      else Ok true
  end.

(** [Game::pseudoLegalMoves]: the moves written to the node [parent], in the
    order in which they are written. *)
Definition pseudoLegalMoves (gen : Movegen) (g : Game) : exec (list Move) :=
  let army := activeArmy g in
  let friends := friendsOf g army in
  let enemies := enemiesOf g army in
  kings <- kingLoop
             (fun sq out => out ++ movesFrom g King sq
                                     (kingMoves gen sq friends enemies))
             (occupiedSquares (Z.land friends (boardP g King))) 0 [] ;;
  let queens := movesOfKind g Queen (fun sq => queenMoves gen sq friends enemies)
                  (Z.land friends (boardP g Queen)) in
  let rooks := movesOfKind g Rook (fun sq => rookMoves gen sq friends enemies)
                 (Z.land friends (boardP g Rook)) in
  let bishops := movesOfKind g Bishop
                   (fun sq => bishopMoves gen sq friends enemies)
                   (Z.land friends (boardP g Bishop)) in
  let knights := movesOfKind g Knight
                   (fun sq => knightMoves gen sq friends enemies)
                   (Z.land friends (boardP g Knight)) in
  let pawns := flat_map (pawnMovesFrom gen g army friends enemies)
                 (occupiedSquares (Z.land friends (boardP g Pawn))) in
  (* Add castle moves *)
  legalK <- isCastleLegal gen g army KingSide ;;
  castleK <- (if legalK then generateCastle g army KingSide else Ok []) ;;
  legalQ <- isCastleLegal gen g army QueenSide ;;
  castleQ <- (if legalQ then generateCastle g army QueenSide else Ok []) ;;
  Ok (kings ++ queens ++ rooks ++ bishops ++ knights ++ pawns
      ++ castleK ++ castleQ).

(* ================================================================= *)
(** ** Check *)

(** [Game::isChecked]: the returned boolean and the position afterwards (the
    method is not [const]: it writes the check flag of [m_lastMove]). *)
Definition isChecked (gen : Movegen) (g : Game) (army : Army)
    : exec (bool * Game) :=
  let friends := match army with White => White | Black => Black end in
  let enemies := match army with Black => White | White => Black end in
  let kingBoard := Z.land (boardA g friends) (boardP g King) in
  let hit := Ok (true, with_lastMove (setCheck true (m_lastMove g)) g) in
  if negb (isClear (Z.land kingBoard (queenAttackBoard gen g enemies))) then hit
  else if negb (isClear (Z.land kingBoard (rookAttackBoard gen g enemies))) then hit
  else if negb (isClear (Z.land kingBoard (bishopAttackBoard gen g enemies))) then hit
  else if negb (isClear (Z.land kingBoard (knightAttackBoard gen g enemies))) then hit
  else
    (* Checks for illegality... *)
    kab <- kingAttackBoard gen g enemies ;;
    if negb (isClear (Z.land kingBoard kab)) then hit
    else if negb (isClear (Z.land kingBoard (pawnAttackBoard gen g enemies))) then hit
    else Ok (false, with_lastMove (setCheck false (m_lastMove g)) g).

(* ================================================================= *)
(** ** Structural equality *)

(** [Game::isSamePosition] *)
Definition isSamePosition (g other : Game) : bool :=
  Army_eqb (m_activeArmy g) (m_activeArmy other)
  && (m_fileOfKingsRook g =? m_fileOfKingsRook other)
  && (m_fileOfQueensRook g =? m_fileOfQueensRook other)
  && (m_enPassantTarget g =? m_enPassantTarget other)
  && (m_whitePositionBoard g =? m_whitePositionBoard other)
  && (m_blackPositionBoard g =? m_blackPositionBoard other)
  && (m_kingsBoard g =? m_kingsBoard other)
  && (m_queensBoard g =? m_queensBoard other)
  && (m_rooksBoard g =? m_rooksBoard other)
  && (m_bishopsBoard g =? m_bishopsBoard other)
  && (m_knightsBoard g =? m_knightsBoard other)
  && (m_pawnsBoard g =? m_pawnsBoard other)
  && Bool.eqb (m_hasWhiteKingCastle g) (m_hasWhiteKingCastle other)
  && Bool.eqb (m_hasBlackKingCastle g) (m_hasBlackKingCastle other)
  && Bool.eqb (m_hasWhiteQueenCastle g) (m_hasWhiteQueenCastle other)
  && Bool.eqb (m_hasBlackQueenCastle g) (m_hasBlackQueenCastle other).

(* ================================================================= *)
(** ** Text: [QChar], [QString] and [Notation] *)

(** A [QString] is modelled by the list of its characters and a [QChar] by an
    8-bit character.  The text of a FEN is ASCII: the classification below is
    the one of [QChar] on the ASCII range. *)
Definition QString : Type := list ascii.

Definition qs (s : string) : QString := list_ascii_of_string s.

Definition code (c : ascii) : Z := Z.of_N (N_of_ascii c).
Definition chr (n : Z) : ascii := ascii_of_N (Z.to_N n).

Definition isUpper (c : ascii) : bool := (65 <=? code c) && (code c <=? 90).
Definition isLower (c : ascii) : bool := (97 <=? code c) && (code c <=? 122).
Definition isLetter (c : ascii) : bool := isUpper c || isLower c.
Definition isNumber (c : ascii) : bool := (48 <=? code c) && (code c <=? 57).
Definition toUpper (c : ascii) : ascii :=
  if isLower c then chr (code c - 32) else c.
Definition toLower (c : ascii) : ascii :=
  if isUpper c then chr (code c + 32) else c.

Definition ascii_eqb (a b : ascii) : bool := code a =? code b.

Fixpoint qs_eqb (a b : QString) : bool :=
  match a, b with
  | [], [] => true
  | x :: a', y :: b' => ascii_eqb x y && qs_eqb a' b'
  | _, _ => false
  end.

(** [QString::split(sep)], which keeps the empty parts. *)
Fixpoint split (sep : ascii) (s : QString) : list QString :=
  match s with
  | [] => [[]]
  | c :: rest =>
      if ascii_eqb c sep then [] :: split sep rest
      else match split sep rest with
           | part :: parts => (c :: part) :: parts
           | [] => [[c]]
           end
  end.

(** [QStringList::join(sep)] *)
Fixpoint join (sep : QString) (l : list QString) : QString :=
  match l with
  | [] => []
  | [x] => x
  | x :: rest => x ++ sep ++ join sep rest
  end.

(** [QString::number(n)] for [0 <= n < 10 ^ 20]: the decimal digits of [n]. *)
Fixpoint numberAux (fuel : nat) (n : Z) (acc : QString) : QString :=
  match fuel with
  | O => acc
  | S fuel' =>
      let acc' := chr (48 + n mod 10) :: acc in
      if n / 10 =? 0 then acc' else numberAux fuel' (n / 10) acc'
  end.

Definition number (n : Z) : QString := numberAux 20 n [].

(** [QChar::isSpace] on the ASCII range: the space and the control
    characters from the tabulator to the carriage return. *)
Definition isSpace (c : ascii) : bool :=
  ((9 <=? code c) && (code c <=? 13)) || (code c =? 32).

Fixpoint skipSpace (s : QString) : QString :=
  match s with
  | c :: rest => if isSpace c then skipSpace rest else s
  | [] => []
  end.

(** The text without its leading and trailing white space. *)
Definition trimmed (s : QString) : QString :=
  rev (skipSpace (rev (skipSpace s))).

(** [QString::toInt()]: leading and trailing white space is skipped; what is
    left is an optional sign and decimal digits that denote an [int]; [0]
    when the conversion fails. *)
Fixpoint digitsValue (s : QString) (acc : Z) : option Z :=
  match s with
  | [] => Some acc
  | c :: rest =>
      if isNumber c then digitsValue rest (10 * acc + (code c - 48)) else None
  end.

Definition toInt (s : QString) : Z :=
  let signed (neg : bool) (ds : QString) : Z :=
    match ds with
    | [] => 0
    | _ => match digitsValue ds 0 with
           | Some v =>
               let v := if neg then - v else v in
               if (-2147483648 <=? v) && (v <=? 2147483647) then v else 0
           | None => 0
           end
    end in
  match trimmed s with
  | c :: rest =>
      if ascii_eqb c "-" then signed true rest
      else if ascii_eqb c "+" then signed false rest
      else signed false (c :: rest)
  | [] => 0
  end.

(** [qCeil(v)] for a [double] that holds the whole number [v]: [int(ceil(v))].
    The conversion of a [double] outside the range of [int] is not defined by
    C++; the x86-64 conversion instruction answers [INT_MIN] for it, which is
    what this function answers. *)
Definition qCeil (v : Z) : Z :=
  if (-2147483648 <=? v) && (v <=? 2147483647) then v else -2147483648.

(** Modelled from the spec: [notation.h] is not part of the sources.  Piece
    letters are the upper-case letters of FEN; a pawn has no letter of its own
    in [pieceToChar] (the emitter writes ['P'] for a null character); files
    are the letters [a]-[h] and ranks the digits [1]-[8]. *)
Definition charToPiece (c : ascii) : PieceType :=
  if ascii_eqb c "K" then King
  else if ascii_eqb c "Q" then Queen
  else if ascii_eqb c "R" then Rook
  else if ascii_eqb c "B" then Bishop
  else if ascii_eqb c "N" then Knight
  else if ascii_eqb c "P" then Pawn
  else Unknown.

Definition pieceToChar (p : PieceType) : option ascii :=
  match p with
  | King => Some "K"%char
  | Queen => Some "Q"%char
  | Rook => Some "R"%char
  | Bishop => Some "B"%char
  | Knight => Some "N"%char
  | Pawn => None
  | Unknown => None
  end.

Definition fileToChar (file : Z) : ascii := chr (97 + file).
Definition rankToChar (rank : Z) : ascii := chr (49 + rank).

Definition squareToString (s : Square) : QString :=
  [fileToChar (sq_file s); rankToChar (sq_rank s)].

Definition stringToSquare (s : QString) : Square :=
  match s with
  | [f; r] =>
      if (97 <=? code f) && (code f <=? 104)
         && (49 <=? code r) && (code r <=? 56)
      then mkSquare (code f - 97) (code r - 49)
      else invalidSquare
  | _ => invalidSquare
  end.

(* ================================================================= *)
(** ** FEN *)

(** [std::stable_sort] of the rooks by file: a rook is inserted, from the
    last rook of the list to the first, before the rooks sorted so far that
    are not on a lower file, so that rooks on one file keep their order. *)
Fixpoint insertByFile (s : Square) (l : list Square) : list Square :=
  match l with
  | [] => [s]
  | x :: rest =>
      if sq_file s <=? sq_file x then s :: l else x :: insertByFile s rest
  end.

Definition sortByFile (l : list Square) : list Square :=
  fold_right insertByFile [] l.

(** [QVector::last()] *)
Definition q_last {A : Type} (l : list A) : exec A := q_first (rev l).

(** [castlingFromFen], with [c] already lower-cased by the caller. *)
Definition castlingFromFen (chess960 : bool) (c : ascii) (king : Square)
    (rooks : list Square) : exec (Castle * Square) :=
  (* Support ill-formed or fabricated fen *)
  if match rooks with [] => true | _ => false end || negb (sq_isValid king)
  then Ok (if ascii_eqb c "k" then KingSide else QueenSide, invalidSquare)
  else
  result <-
    (if ascii_eqb c "k" then
       second <- q_last rooks ;;
       _ <- q_assert (sq_file second >? sq_file king) ;;
       Ok (KingSide, second)
     else if ascii_eqb c "q" then
       second <- q_first rooks ;;
       _ <- q_assert (sq_file second <? sq_file king) ;;
       Ok (QueenSide, second)
     else
       _ <- q_assert chess960 ;;
       Ok (match find (fun sq => ascii_eqb (fileToChar (sq_file sq)) c) rooks with
           | Some sq =>
               (if sq_file sq >? sq_file king then KingSide else QueenSide, sq)
           | None => (KingSide, invalidSquare)
           end)) ;;
  _ <- q_assert (sq_isValid (snd result)) ;;
  _ <- q_assert (negb (sq_file (snd result) =? sq_file king)) ;;
  Ok result.

(** [fenFromCastling] *)
Definition fenFromCastling (chess960 : bool) (castle : Castle) (king : Square)
    (rooks : list Square) (fileOfCastlingRook : Z) : exec ascii :=
  (* Support ill-formed or fabricated fen *)
  match rooks with
  | [] => Ok (match castle with KingSide => "k"%char | QueenSide => "q"%char end)
  | _ =>
    _ <- q_assert (forallb (fun sq => negb (sq_file sq =? sq_file king)) rooks) ;;
    let rooksToTheLeft := filter (fun sq => sq_file sq <? sq_file king) rooks in
    let rooksToTheRight := filter (fun sq => sq_file sq >? sq_file king) rooks in
    match castle with
    | KingSide =>
        outer <- q_last rooksToTheRight ;;
        if sq_file outer =? fileOfCastlingRook then Ok "k"%char
        else
          _ <- q_assert chess960 ;;
          if existsb (fun sq => sq_file sq =? fileOfCastlingRook) rooksToTheRight
          then Ok (fileToChar fileOfCastlingRook)
          else AssertFail (* Q_UNREACHABLE *)
    | QueenSide =>
        outer <- q_first rooksToTheLeft ;;
        if sq_file outer =? fileOfCastlingRook then Ok "q"%char
        else
          _ <- q_assert chess960 ;;
          if existsb (fun sq => sq_file sq =? fileOfCastlingRook) rooksToTheLeft
          then Ok (fileToChar fileOfCastlingRook)
          else AssertFail (* Q_UNREACHABLE *)
    end
  end.

(** What the loops over the piece placement carry besides the position. *)
Record Found : Type := mkFound {
  whiteRooks : list Square;
  blackRooks : list Square;
  whiteKing : Square;
  blackKing : Square
}.

Definition noneFound : Found := mkFound [] [] invalidSquare invalidSquare.

Definition note (army : Army) (piece : PieceType) (square : Square)
    (fd : Found) : Found :=
  match army, piece with
  | White, Rook => mkFound (whiteRooks fd ++ [square]) (blackRooks fd)
                           (whiteKing fd) (blackKing fd)
  | White, King => mkFound (whiteRooks fd) (blackRooks fd) square (blackKing fd)
  | Black, Rook => mkFound (whiteRooks fd) (blackRooks fd ++ [square])
                           (whiteKing fd) (blackKing fd)
  | Black, King => mkFound (whiteRooks fd) (blackRooks fd) (whiteKing fd) square
  | _, _ => fd
  end.

Definition kingOf (fd : Found) (army : Army) : Square :=
  match army with White => whiteKing fd | Black => blackKing fd end.

Definition rooksOf (fd : Found) (army : Army) : list Square :=
  match army with White => whiteRooks fd | Black => blackRooks fd end.

(** The inner loop of [setFen] over the characters of the rank with index
    [i]; [j] is the index of the character and [blank] the running offset. *)
Fixpoint parseRank (i : Z) (rank : QString) (j blank : Z) (st : Game * Found)
    : exec (Game * Found) :=
  match rank with
  | [] => Ok st
  | c :: rest =>
      let f := j + blank in
      let r := 7 - i in
      let square := mkSquare f r in
      if isLetter c && isUpper c then (* white *)
        let piece := charToPiece c in
        g <- togglePieceAt (sq_data square) White piece true (fst st) ;;
        parseRank i rest (j + 1) blank (g, note White piece square (snd st))
      else if isLetter c && isLower c then (* black *)
        let piece := charToPiece (toUpper c) in
        g <- togglePieceAt (sq_data square) Black piece true (fst st) ;;
        parseRank i rest (j + 1) blank (g, note Black piece square (snd st))
      else if isNumber c then (* blank *)
        parseRank i rest (j + 1) (blank + (toInt [c] - 1)) st
      else parseRank i rest (j + 1) blank st
  end.

(** The outer loop of [setFen] over the ranks. *)
Fixpoint parseRanks (ranks : list QString) (i : Z) (st : Game * Found)
    : exec (Game * Found) :=
  match ranks with
  | [] => Ok st
  | rank :: rest =>
      st <- parseRank i rank 0 0 st ;;
      parseRanks rest (i + 1) st
  end.

(** The body of the loop of [setFen] over the castling field. *)
Definition parseCastle (chess960 : bool) (fd : Found) (c : ascii) (g : Game)
    : exec Game :=
  let castleArmy := if isUpper c then White else Black in
  pair <- castlingFromFen chess960 (toLower c) (kingOf fd castleArmy)
            (rooksOf fd castleArmy) ;;
  match fst pair with
  | KingSide =>
      Ok (with_fileOfKingsRook (sq_file (snd pair) mod 256)
            (with_castle castleArmy KingSide true g))
  | QueenSide =>
      Ok (with_fileOfQueensRook (sq_file (snd pair) mod 256)
            (with_castle castleArmy QueenSide true g))
  end.

Fixpoint parseCastling (chess960 : bool) (fd : Found) (castling : QString)
    (g : Game) : exec Game :=
  match castling with
  | [] => Ok g
  | c :: rest =>
      g <- parseCastle chess960 fd c g ;;
      parseCastling chess960 fd rest g
  end.

(** The resets at the head of [Game::setFen]. *)
Definition clearForFen (g : Game) : Game :=
  mkGame (m_lastMove g) 0 2 (* fen assumes fullmovenumber starts with 1 *)
    0 0 (m_repetitions g) invalidSquare
    emptyBoard emptyBoard emptyBoard emptyBoard emptyBoard emptyBoard
    emptyBoard emptyBoard false false false false White.

(** [Game::setFen] *)
Definition setFen (chess960 : bool) (fen : QString) (g : Game) : exec Game :=
  let g := clearForFen g in
  let list := split " " fen in
  _ <- q_assert (Z.of_nat (length list) >=? 4) ;;
  let ranks := split "/" (nth 0 list []) in
  _ <- q_assert (Z.of_nat (length ranks) =? 8) ;;
  st <- parseRanks ranks 0 (g, noneFound) ;;
  let g := fst st in
  _ <- q_assert (sq_isValid (whiteKing (snd st))) ;;
  _ <- q_assert (sq_isValid (blackKing (snd st))) ;;
  (* Sort the rooks by file *)
  let fd := mkFound (sortByFile (whiteRooks (snd st)))
                    (sortByFile (blackRooks (snd st)))
                    (whiteKing (snd st)) (blackKing (snd st)) in
  let g := with_activeArmy (if qs_eqb (nth 1 list []) (qs "w")
                            then White else Black) g in
  (* Should work for regular fen and UCI fen for chess960... *)
  let castling := nth 2 list [] in
  g <- (if negb (qs_eqb castling (qs "-"))
        then parseCastling chess960 fd castling g else Ok g) ;;
  let enPassant := nth 3 list [] in
  let g := if negb (qs_eqb enPassant (qs "-"))
           then with_enPassantTarget (stringToSquare enPassant) g else g in
  let g := if Z.of_nat (length list) >? 4
           then with_halfMoveClock (toInt (nth 4 list []) mod 65536) g else g in
  let g := if Z.of_nat (length list) >? 5
           then with_halfMoveNumber
                  (qCeil (toInt (nth 5 list []) * 2) mod 65536) g
           else g in
  Ok g.

(** The member initialisers of the constructor [Game::Game]. *)
Definition blankGame : Game :=
  mkGame defaultMove 0 2 0 0 (-1) invalidSquare
    emptyBoard emptyBoard emptyBoard emptyBoard emptyBoard emptyBoard
    emptyBoard emptyBoard false false false false White.

Definition startFen : QString :=
  qs "rnbqkbnr/pppppppp/8/8/8/8/PPPPPPPP/RNBQKBNR w KQkq - 0 1".

(** [Game::Game(fen)]; an empty [fen] stands for the starting position. *)
Definition newGame (chess960 : bool) (fen : QString) : exec Game :=
  match fen with
  | [] => setFen chess960 startFen blankGame
  | _ => setFen chess960 fen blankGame
  end.

(** The indices [0 .. 7] of the two loops of [stateOfGameToFen]. *)
Definition upto8 : list Z := [0; 1; 2; 3; 4; 5; 6; 7].

(** The body of the inner loop of [stateOfGameToFen] for file [j] of the rank
    with index [i]: the text of the rank so far, the count of blanks and the
    rooks and kings found. *)
Definition emitSquare (g : Game) (i : Z) (st : QString * Z * Found) (j : Z)
    : QString * Z * Found :=
  let '(rank, blank, fd) := st in
  let square := mkSquare j (7 - i) in
  let index := sq_data square in
  if hasPieceAt g index White then
    let piece := pieceTypeAt g index in
    let rank := if blank >? 0 then rank ++ number blank else rank in
    let rank := match pieceToChar piece with
                | Some ch => rank ++ [toUpper ch]
                | None => rank ++ ["P"%char]
                end in
    (rank, 0, note White piece square fd)
  else if hasPieceAt g index Black then
    let piece := pieceTypeAt g index in
    let rank := if blank >? 0 then rank ++ number blank else rank in
    let rank := match pieceToChar piece with
                | Some ch => rank ++ [toLower ch]
                | None => rank ++ ["p"%char]
                end in
    (rank, 0, note Black piece square fd)
  else (rank, blank + 1, fd).

(** One round of the outer loop: the text of the rank with index [i]. *)
Definition emitRank (g : Game) (st : list QString * Found) (i : Z)
    : list QString * Found :=
  let '(rank, blank, fd) := fold_left (emitSquare g i) upto8 ([], 0, snd st) in
  let rank := if blank >? 0 then rank ++ number blank else rank in
  (fst st ++ [rank], fd).

(** One of the four appends to [castling] in [stateOfGameToFen]. *)
Definition emitCastle (chess960 : bool) (g : Game) (fd : Found) (army : Army)
    (castle : Castle) (castling : QString) : exec QString :=
  if isCastleAvailable g army castle then
    let file := match castle with
                | KingSide => m_fileOfKingsRook g
                | QueenSide => m_fileOfQueensRook g
                end in
    c <- fenFromCastling chess960 castle (kingOf fd army) (rooksOf fd army)
           file ;;
    Ok (castling ++ [match army with White => toUpper c | Black => c end])
  else Ok castling.

(** [Game::stateOfGameToFen] *)
Definition stateOfGameToFen (chess960 : bool) (g : Game)
    (includeMoveNumbers : bool) : exec QString :=
  let '(rankList, found) := fold_left (emitRank g) upto8 ([], noneFound) in
  _ <- q_assert (sq_isValid (whiteKing found)) ;;
  _ <- q_assert (sq_isValid (blackKing found)) ;;
  (* Sort the rooks by file *)
  let fd := mkFound (sortByFile (whiteRooks found))
                    (sortByFile (blackRooks found))
                    (whiteKing found) (blackKing found) in
  let ranks := join (qs "/") rankList in
  let active := match m_activeArmy g with
                | White => qs "w"
                | Black => qs "b"
                end in
  castling <- emitCastle chess960 g fd White KingSide [] ;;
  castling <- emitCastle chess960 g fd White QueenSide castling ;;
  castling <- emitCastle chess960 g fd Black KingSide castling ;;
  castling <- emitCastle chess960 g fd Black QueenSide castling ;;
  let castling := match castling with [] => qs "-" | _ => castling end in
  let enPassant := if sq_isValid (enPassantTarget g)
                   then squareToString (enPassantTarget g) else qs "-" in
  let fen := [ranks; active; castling; enPassant] in
  let fen :=
    if includeMoveNumbers
    then fen ++ [number (m_halfMoveClock g);
                 number ((m_halfMoveNumber g + 1) / 2)]
    else fen in
  Ok (join (qs " ") fen).

(* ================================================================= *)
(** ** The attack tables of the spec *)

(** Modelled from the spec: [movegen.h] and [movegen.cpp] are not part of the
    sources.  King, knight and pawn-attack destinations come from per-square
    offsets; a pawn is pushed one square iff the target is empty and two
    squares iff it stands on its home rank and both squares are empty; rook,
    bishop and queen destinations are explicit ray scans that stop at, and
    include, the first blocker.  Friendly occupancy is subtracted from every
    result; pawn attacks are restricted to the enemy occupancy. *)
Definition onBoard (file rank : Z) : bool :=
  (0 <=? file) && (file <? 8) && (0 <=? rank) && (rank <? 8).

Definition offsetBoard (sq : Square) (offsets : list (Z * Z)) : BitBoard :=
  fold_left
    (fun bits d =>
       let file := sq_file sq + fst d in
       let rank := sq_rank sq + snd d in
       if onBoard file rank then setBit bits (mkSquare file rank) true else bits)
    offsets emptyBoard.

Definition kingOffsets : list (Z * Z) :=
  [(-1, -1); (0, -1); (1, -1); (-1, 0); (1, 0); (-1, 1); (0, 1); (1, 1)].

Definition knightOffsets : list (Z * Z) :=
  [(-2, -1); (-1, -2); (1, -2); (2, -1); (-2, 1); (-1, 2); (1, 2); (2, 1)].

Definition pawnDirection (army : Army) : Z :=
  match army with White => 1 | Black => -1 end.

Definition pawnHomeRank (army : Army) : Z :=
  match army with White => 1 | Black => 6 end.

Definition pawnAttackOffsets (army : Army) : list (Z * Z) :=
  [(-1, pawnDirection army); (1, pawnDirection army)].

Fixpoint ray (fuel : nat) (file rank dfile drank : Z) (occupied : BitBoard)
    : BitBoard :=
  match fuel with
  | O => emptyBoard
  | S fuel' =>
      let file' := file + dfile in
      let rank' := rank + drank in
      if onBoard file' rank' then
        let sq := mkSquare file' rank' in
        if testBit occupied sq then squareBoard sq
        else Z.lor (squareBoard sq) (ray fuel' file' rank' dfile drank occupied)
      else emptyBoard
  end.

Definition rays (sq : Square) (directions : list (Z * Z)) (occupied : BitBoard)
    : BitBoard :=
  fold_left
    (fun bits d => Z.lor bits (ray 7 (sq_file sq) (sq_rank sq) (fst d) (snd d)
                                   occupied))
    directions emptyBoard.

Definition rookDirections : list (Z * Z) := [(0, 1); (0, -1); (1, 0); (-1, 0)].
Definition bishopDirections : list (Z * Z) := [(1, 1); (1, -1); (-1, 1); (-1, -1)].

Definition specKingMoves (sq : Square) (friends enemies : BitBoard) : BitBoard :=
  Z.ldiff (offsetBoard sq kingOffsets) friends.

Definition specKnightMoves (sq : Square) (friends enemies : BitBoard)
    : BitBoard :=
  Z.ldiff (offsetBoard sq knightOffsets) friends.

Definition specRookMoves (sq : Square) (friends enemies : BitBoard) : BitBoard :=
  Z.ldiff (rays sq rookDirections (Z.lor friends enemies)) friends.

Definition specBishopMoves (sq : Square) (friends enemies : BitBoard)
    : BitBoard :=
  Z.ldiff (rays sq bishopDirections (Z.lor friends enemies)) friends.

Definition specQueenMoves (sq : Square) (friends enemies : BitBoard)
    : BitBoard :=
  Z.lor (specRookMoves sq friends enemies) (specBishopMoves sq friends enemies).

Definition specPawnAttacks (army : Army) (sq : Square)
    (friends enemies : BitBoard) : BitBoard :=
  Z.land (Z.ldiff (offsetBoard sq (pawnAttackOffsets army)) friends) enemies.

Definition specPawnMoves (army : Army) (sq : Square)
    (friends enemies : BitBoard) : BitBoard :=
  let occupied := Z.lor friends enemies in
  let file := sq_file sq in
  let one := sq_rank sq + pawnDirection army in
  let two := sq_rank sq + 2 * pawnDirection army in
  let single :=
    if onBoard file one && negb (testBit occupied (mkSquare file one))
    then squareBoard (mkSquare file one) else emptyBoard in
  let double :=
    if (sq_rank sq =? pawnHomeRank army)
       && onBoard file two
       && negb (testBit occupied (mkSquare file one))
       && negb (testBit occupied (mkSquare file two))
    then squareBoard (mkSquare file two) else emptyBoard in
  Z.lor single double.

Definition specMovegen : Movegen :=
  mkMovegen specKingMoves specQueenMoves specRookMoves specBishopMoves
            specKnightMoves specPawnMoves specPawnAttacks.

(** A table-only push generator, which leaves the blocker of a double push to
    the caller: the destinations are the one or two squares ahead that are
    themselves empty. *)
Definition tablePawnMoves (army : Army) (sq : Square)
    (friends enemies : BitBoard) : BitBoard :=
  let file := sq_file sq in
  let one := sq_rank sq + pawnDirection army in
  let two := sq_rank sq + 2 * pawnDirection army in
  let single :=
    if onBoard file one then squareBoard (mkSquare file one) else emptyBoard in
  let double :=
    if (sq_rank sq =? pawnHomeRank army) && onBoard file two
    then squareBoard (mkSquare file two) else emptyBoard in
  Z.ldiff (Z.ldiff (Z.lor single double) friends) enemies.

Definition tableMovegen : Movegen :=
  mkMovegen specKingMoves specQueenMoves specRookMoves specBishopMoves
            specKnightMoves tablePawnMoves specPawnAttacks.

(* ================================================================= *)
(** ** Supplying moves and positions *)

(** A move supplied with its two squares only, as [Notation::stringToMove]
    hands one to [makeMove] for a text such as [e2e4]. *)
Definition moveOf (start end_ : string) : Move :=
  setEnd (stringToSquare (qs end_))
         (setStart (stringToSquare (qs start)) defaultMove).

(** The position of [makeMove], when it returns [true]. *)
Definition moved (chess960 : bool) (move : Move) (g : Game) : exec Game :=
  r <- makeMove chess960 move g ;;
  _ <- q_assert (fst r) ;;
  Ok (snd r).

(** The position [Game(fen)] of a FEN that parses, outside Chess960 mode. *)
Definition gameOf (fen : string) : Game :=
  match newGame false (qs fen) with
  | Ok g => g
  | AssertFail => blankGame
  end.

(** The starting position [s_startPos]. *)
Definition startPosition : Game :=
  Eval vm_compute in
    gameOf "rnbqkbnr/pppppppp/8/8/8/8/PPPPPPPP/RNBQKBNR w KQkq - 0 1".

(** The position after [e2e4] from the starting position. *)
Definition afterE2E4 : Game :=
  Eval vm_compute in
    match makeMove false (moveOf "e2" "e4") startPosition with
    | Ok (_, g) => g
    | AssertFail => startPosition
    end.

(* ================================================================= *)
(** ** Contract of the pawn tables *)

(** What [pseudoLegalMoves] relies on from [Movegen] for pawns: a push
    destination is one or two ranks straight ahead of the pawn, an attack
    destination is one rank ahead on another file. *)
Definition pawnGeometry (gen : Movegen) : Prop :=
  forall army sq friends enemies newSq,
    0 <= sq < 64 -> 0 <= newSq < 64 ->
    (testBit (pawnMoves gen army sq friends enemies) newSq = true ->
     sq_file newSq = sq_file sq
     /\ (sq_rank newSq = sq_rank sq + pawnDirection army
         \/ sq_rank newSq = sq_rank sq + 2 * pawnDirection army))
    /\ (testBit (pawnAttacks gen army sq friends enemies) newSq = true ->
        sq_rank newSq = sq_rank sq + pawnDirection army
        /\ sq_file newSq <> sq_file sq).

(** What [pawnAttackBoard] relies on when it adds the en-passant target to
    the enemies it hands to the pawn-attack table, and [pseudoLegalMoves] when
    it writes every destination of that table as a move: the destinations are
    among the enemies handed in, that is, captures. *)
Definition pawnCaptures (gen : Movegen) : Prop :=
  forall army sq friends enemies n,
    testBit (pawnAttacks gen army sq friends enemies) n = true ->
    testBit enemies n = true.

(** The moves of the sink that [generateMove] writes for one piece on one
    pair of squares: same piece, same squares, no castle flag. *)
Definition sameMoveSquares (m m' : Move) : bool :=
  PieceType_eqb (mv_piece m) (mv_piece m')
  && (mv_start m =? mv_start m') && (mv_end m =? mv_end m')
  && negb (mv_isCastle m').

(** The last rank of an army, on which its pawns promote. *)
Definition lastRank (army : Army) : Z :=
  match army with White => 7 | Black => 0 end.

(** The move [mv] that [generateMove] builds before it looks at promotions. *)
Definition baseMove (g : Game) (piece : PieceType) (start end_ : Square) : Move :=
  setCapture (testBit (boardA g (otherArmy (activeArmy g))) end_)
    (setEnd end_ (setStart start (setPiece piece defaultMove))).

(* ================================================================= *)
(** ** The board invariants *)

Fixpoint pairwiseDisjoint (l : list BitBoard) : bool :=
  match l with
  | [] => true
  | b :: rest =>
      forallb (fun b' => isClear (Z.land b b')) rest && pairwiseDisjoint rest
  end.

Definition pieceBoards (g : Game) : list BitBoard :=
  [m_kingsBoard g; m_queensBoard g; m_rooksBoard g; m_bishopsBoard g;
   m_knightsBoard g; m_pawnsBoard g].

(** Each square has at most one piece: the colour boards are disjoint, the
    piece boards are pairwise disjoint, and the union of the colour boards is
    the union of the piece boards. *)
Definition cellInvariants (g : Game) : bool :=
  isClear (Z.land (m_whitePositionBoard g) (m_blackPositionBoard g))
  && pairwiseDisjoint (pieceBoards g)
  && (Z.lor (m_whitePositionBoard g) (m_blackPositionBoard g)
      =? fold_right Z.lor 0 (pieceBoards g)).

(** Exactly one king of the army. *)
Definition oneKing (g : Game) (army : Army) : bool :=
  bb_count (Z.land (boardP g King) (boardA g army)) =? 1.

Definition boardInvariants (g : Game) : bool :=
  cellInvariants g && oneKing g White && oneKing g Black.

(** *** Squares as cells *)

(** What stands on a square: nothing, or a piece of an army. *)
Definition Cell : Type := option (Army * PieceType).

Definition armyBit (c : Cell) (a : Army) : bool :=
  match c with
  | Some (a', _) => Army_eqb a a'
  | None => false
  end.

Definition pieceBit (c : Cell) (p : PieceType) : bool :=
  match c with
  | Some (_, p') => PieceType_eqb p p'
  | None => false
  end.

Definition properCell (c : Cell) : Prop :=
  match c with
  | Some (_, Unknown) => False
  | _ => True
  end.

(** The cell that the code reads on a square, as [stateOfGameToFen] does:
    [hasPieceAt] for White, then for Black, and [pieceTypeAt]. *)
Definition cellOf (g : Game) (n : Z) : Cell :=
  if hasPieceAt g n White then Some (White, pieceTypeAt g n)
  else if hasPieceAt g n Black then Some (Black, pieceTypeAt g n)
  else None.

(** The bitboards of [g] hold exactly the cells of [beta]. *)
Definition Repr (g : Game) (beta : Z -> Cell) : Prop :=
  forall n, 0 <= n ->
    properCell (beta n)
    /\ (forall a, testBit (boardA g a) n = armyBit (beta n) a)
    /\ (forall p, testBit (boardP g p) n = pieceBit (beta n) p).

Definition upd (beta : Z -> Cell) (index : Z) (c : Cell) : Z -> Cell :=
  fun n => if n =? index then c else beta n.

(** The position that [togglePieceAt] leaves when its assertions hold. *)
Definition toggled (index : Z) (army : Army) (piece : PieceType) (bit : bool)
    (g : Game) : Game :=
  with_pieceBoard piece (setBit (boardP g piece) index bit)
    (with_armyBoard army (setBit (boardA g army) index bit) g).

(** Two positions with the same eight bitboards. *)
Definition sameBoards (g g' : Game) : Prop :=
  (forall a, boardA g' a = boardA g a) /\ (forall p, boardP g' p = boardP g p).

Definition isKingOf (a : Army) (c : Cell) : bool :=
  match c with
  | Some (a', King) => Army_eqb a a'
  | _ => false
  end.

(** The kings of an army among the cells of the 64 squares. *)
Definition kingCount (beta : Z -> Cell) (a : Army) : nat :=
  length (filter (fun n => isKingOf a (beta n)) allSquares).

(** *** Moves that keep the invariants *)

Definition emptyAt (g : Game) (n : Z) : bool :=
  negb (testBit (Z.lor (m_whitePositionBoard g) (m_blackPositionBoard g)) n).

(** A castle that finds its rook and finds the castle squares of king and rook
    empty, but for the king and the rook themselves. *)
Definition soundCastle (g : Game) (army : Army) (mv : Move) : bool :=
  let rookFrom :=
    mkSquare (match mv_castleSide mv with
              | KingSide => m_fileOfKingsRook g
              | QueenSide => m_fileOfQueensRook g
              end) (homeRank army) in
  let rookTo := mkSquare (match mv_castleSide mv with
                          | KingSide => 5 | QueenSide => 3 end)
                         (homeRank army) in
  let kingTo := mkSquare (match mv_castleSide mv with
                          | KingSide => 6 | QueenSide => 2 end)
                         (homeRank army) in
  let free (t : Square) :=
    (t =? mv_start mv) || (t =? rookFrom) || emptyAt g t in
  PieceType_eqb (mv_piece mv) King
  && sq_isValid rookFrom
  && testBit (Z.land (boardA g army) (boardP g Rook)) rookFrom
  && free rookTo && free kingTo
  && negb (hasPieceAt g (mv_end mv) (otherArmy army))
  && negb (mv_isEnPassant mv).

(** What a move that is not a castle may take: on an en-passant, the end
    square is empty and an enemy piece other than the king stands behind it;
    otherwise the end square holds no piece of the mover and not the enemy
    king. *)
Definition soundCapture (g : Game) (army : Army) (mv : Move) : bool :=
  if mv_isEnPassant mv then
    let behind := mkSquare (sq_file (mv_end mv))
                           (rankBehind army (sq_rank (mv_end mv))) in
    emptyAt g (mv_end mv) && sq_isValid behind
    && hasPieceAt g behind (otherArmy army)
    && negb (PieceType_eqb (pieceTypeAt g behind) King)
  else
    negb (hasPieceAt g (mv_end mv) army)
    && negb (hasPieceAt g (mv_end mv) (otherArmy army)
             && PieceType_eqb (pieceTypeAt g (mv_end mv)) King).

(** Only pawns promote, and to a queen, a rook, a bishop or a knight. *)
Definition soundPromotion (mv : Move) : bool :=
  match mv_promotion mv with
  | Unknown => true
  | Queen | Rook | Bishop | Knight => PieceType_eqb (mv_piece mv) Pawn
  | King | Pawn => false
  end.

(** A filled-out move that moves a piece of the side to move, of the kind it
    names, from its start square, and is sound in the three senses above. *)
Definition soundMove (g : Game) (mv : Move) : bool :=
  let army := activeArmy g in
  mv_isValid mv
  && testBit (Z.land (boardA g army) (boardP g (mv_piece mv))) (mv_start mv)
  && (if mv_isCastle mv then soundCastle g army mv
      else soundCapture g army mv && soundPromotion mv).

(** Two positions with the same bitboards and the same castle-rook files. *)
Definition sameBoardsFiles (g g' : Game) : Prop :=
  sameBoards g g'
  /\ m_fileOfKingsRook g' = m_fileOfKingsRook g
  /\ m_fileOfQueensRook g' = m_fileOfQueensRook g.

(** *** The piece-placement field of a FEN *)

(** The squares, armies and pieces that the loops of [setFen] toggle on, in
    the order of the toggles: [parseRank] without the position. *)
Fixpoint rankPlacements (i : Z) (rank : QString) (j blank : Z)
    : list (Square * Army * PieceType) :=
  match rank with
  | [] => []
  | c :: rest =>
      let square := mkSquare (j + blank) (7 - i) in
      if isLetter c && isUpper c then
        (square, White, charToPiece c) :: rankPlacements i rest (j + 1) blank
      else if isLetter c && isLower c then
        (square, Black, charToPiece (toUpper c))
          :: rankPlacements i rest (j + 1) blank
      else if isNumber c then
        rankPlacements i rest (j + 1) (blank + (toInt [c] - 1))
      else rankPlacements i rest (j + 1) blank
  end.

Fixpoint placements (ranks : list QString) (i : Z)
    : list (Square * Army * PieceType) :=
  match ranks with
  | [] => []
  | rank :: rest => rankPlacements i rank 0 0 ++ placements rest (i + 1)
  end.

(** One toggle of the loops of [setFen], with its note of rooks and kings. *)
Definition place (st : Game * Found) (pl : Square * Army * PieceType)
    : exec (Game * Found) :=
  let '(square, army, piece) := pl in
  g <- togglePieceAt (sq_data square) army piece true (fst st) ;;
  Ok (g, note army piece square (snd st)).

Fixpoint placeAll (pls : list (Square * Army * PieceType)) (st : Game * Found)
    : exec (Game * Found) :=
  match pls with
  | [] => Ok st
  | pl :: rest => st <- place st pl ;; placeAll rest st
  end.

(** The cells after the placements. *)
Definition overlay (beta : Z -> Cell) (pls : list (Square * Army * PieceType))
    : Z -> Cell :=
  fold_left (fun b pl => upd b (fst (fst pl)) (Some (snd (fst pl), snd pl)))
            pls beta.

(** The rooks and kings noted along the placements. *)
Definition notes (pls : list (Square * Army * PieceType)) (fd : Found) : Found :=
  fold_left (fun fd pl => note (snd (fst pl)) (snd pl) (fst (fst pl)) fd) pls fd.

(** Placements on squares of the board that are still empty, one after the
    other. *)
Fixpoint freshPlacements (beta : Z -> Cell)
    (pls : list (Square * Army * PieceType)) : Prop :=
  match pls with
  | [] => True
  | pl :: rest =>
      0 <= fst (fst pl) < 64 /\ snd pl <> Unknown /\ beta (fst (fst pl)) = None
      /\ freshPlacements (upd beta (fst (fst pl)) (Some (snd (fst pl), snd pl)))
                         rest
  end.

(** A character of a well-formed rank: a piece letter, or a digit from 1 to
    8. *)
Definition okChar (c : ascii) : bool :=
  (isLetter c && negb (PieceType_eqb (charToPiece (toUpper c)) Unknown))
  || (isNumber c && (1 <=? toInt [c]) && (toInt [c] <=? 8)).

(** The files that a character covers. *)
Definition charWidth (c : ascii) : Z := if isNumber c then toInt [c] else 1.

Definition rankWidth (rank : QString) : Z :=
  fold_right (fun c w => charWidth c + w) 0 rank.

Definition wfRank (rank : QString) : bool :=
  forallb okChar rank && (rankWidth rank =? 8).

Definition countChar (c : ascii) (ranks : list QString) : nat :=
  length (filter (ascii_eqb c) (concat ranks)).

(** A well-formed piece-placement field: eight ranks of eight files each, made
    of piece letters and digits, with one white and one black king. *)
Definition wfPlacementField (ranks : list QString) : bool :=
  (length ranks =? 8)%nat && forallb wfRank ranks
  && (countChar "K" ranks =? 1)%nat && (countChar "k" ranks =? 1)%nat.

(** The piece-placement field of a FEN, as [setFen] splits it off. *)
Definition placementField (fen : QString) : list QString :=
  split "/" (nth 0 (split " " fen) []).

(** Two positions with the same fields other than the bitboards. *)
Definition sameScalars (g g' : Game) : Prop :=
  m_lastMove g' = m_lastMove g
  /\ m_halfMoveClock g' = m_halfMoveClock g
  /\ m_halfMoveNumber g' = m_halfMoveNumber g
  /\ m_fileOfKingsRook g' = m_fileOfKingsRook g
  /\ m_fileOfQueensRook g' = m_fileOfQueensRook g
  /\ m_repetitions g' = m_repetitions g
  /\ m_enPassantTarget g' = m_enPassantTarget g
  /\ m_hasWhiteKingCastle g' = m_hasWhiteKingCastle g
  /\ m_hasBlackKingCastle g' = m_hasBlackKingCastle g
  /\ m_hasWhiteQueenCastle g' = m_hasWhiteQueenCastle g
  /\ m_hasBlackQueenCastle g' = m_hasBlackQueenCastle g
  /\ m_activeArmy g' = m_activeArmy g.

(** The kings of an army among placements. *)
Definition countKings (a : Army) (pls : list (Square * Army * PieceType)) : nat :=
  length (filter (fun pl => isKingOf a (Some (snd (fst pl), snd pl))) pls).

(** *** The round trip through FEN *)

(** The bitboards of the armies have no bit beyond the 64 squares. *)
Definition inRange (b : BitBoard) : bool := (0 <=? b) && (b <? 2 ^ 64).

Definition boardsInRange (g : Game) : bool :=
  inRange (m_whitePositionBoard g) && inRange (m_blackPositionBoard g).

(** Squares in the order of their files. *)
Fixpoint ascending (l : list Square) : Prop :=
  match l with
  | [] => True
  | x :: rest =>
      (forall y, In y rest -> sq_file x <= sq_file y) /\ ascending rest
  end.

(** The rooks and kings that both [setFen] and [stateOfGameToFen] hand to the
    castling code: the rooks sorted by file. *)
Definition sortedFound (fd : Found) : Found :=
  mkFound (sortByFile (whiteRooks fd)) (sortByFile (blackRooks fd))
          (whiteKing fd) (blackKing fd).

(** The position after the character of a castle right is parsed. *)
Definition granted (a : Army) (c : Castle) (file : Z) (g : Game) : Game :=
  match c with
  | KingSide => with_fileOfKingsRook (file mod 256) (with_castle a KingSide true g)
  | QueenSide =>
      with_fileOfQueensRook (file mod 256) (with_castle a QueenSide true g)
  end.

(** An army that holds a castle right still has a rook. *)
Definition castleRooksPresent (g : Game) : bool :=
  forallb (fun a =>
             negb (isCastleAvailable g a KingSide
                   || isCastleAvailable g a QueenSide)
             || negb (isClear (Z.land (boardA g a) (boardP g Rook))))
          [White; Black].

(** The en-passant target is a square of the board or the invalid square. *)
Definition properTarget (g : Game) : bool :=
  sq_isValid (m_enPassantTarget g) || (m_enPassantTarget g =? invalidSquare).

(** Some army holds the castle right of this side. *)
Definition someRight (g : Game) (c : Castle) : bool :=
  isCastleAvailable g White c || isCastleAvailable g Black c.

(** What the position parsed from the FEN of [g] shares with [g]. *)
Definition roundTripAgree (g g' : Game) : Prop :=
  sameBoards g g'
  /\ (forall a c, isCastleAvailable g' a c = isCastleAvailable g a c)
  /\ m_enPassantTarget g' = m_enPassantTarget g
  /\ m_activeArmy g' = m_activeArmy g
  /\ m_fileOfKingsRook g'
     = (if someRight g KingSide then m_fileOfKingsRook g else 0)
  /\ m_fileOfQueensRook g'
     = (if someRight g QueenSide then m_fileOfQueensRook g else 0).

(** The placements of a rank text that starts on file [f]. *)
Definition rp (i : Z) (rank : QString) (f : Z)
    : list (Square * Army * PieceType) :=
  rankPlacements i rank 0 f.

(** The piece on file [j] of the rank with index [i], as a placement. *)
Definition cellPlacement (g : Game) (i j : Z)
    : list (Square * Army * PieceType) :=
  match cellOf g (mkSquare j (7 - i)) with
  | Some (a, p) => [(mkSquare j (7 - i), a, p)]
  | None => []
  end.

Definition files (k : nat) : list Z := map Z.of_nat (seq 0 k).

Definition occRank (g : Game) (i : Z) (k : nat)
    : list (Square * Army * PieceType) :=
  flat_map (cellPlacement g i) (files k).

Definition occAll (g : Game) (k : nat) : list (Square * Army * PieceType) :=
  flat_map (fun i => occRank g i 8) (files k).

(** The letter that [stateOfGameToFen] writes for a piece of an army. *)
Definition letterOf (a : Army) (p : PieceType) : ascii :=
  match a, pieceToChar p with
  | White, Some ch => toUpper ch
  | White, None => "P"%char
  | Black, Some ch => toLower ch
  | Black, None => "p"%char
  end.

(** The digits that [stateOfGameToFen] writes for pending blanks. *)
Definition pending (blank : Z) : QString :=
  if blank >? 0 then number blank else [].

(** No character of the text is the separator. *)
Definition noChar (c : ascii) (s : QString) : bool :=
  forallb (fun x => negb (ascii_eqb x c)) s.

(* ================================================================= *)
(** ** Material *)

(** [Game::materialScore] *)
Definition materialScore (g : Game) (army : Army) : Z :=
  let score := 0 in
  let score := score + bb_count (Z.land (boardA g army) (boardP g Queen)) * 9 in
  let score := score + bb_count (Z.land (boardA g army) (boardP g Rook)) * 5 in
  let score := score + bb_count (Z.land (boardA g army) (boardP g Bishop)) * 3 in
  let score := score + bb_count (Z.land (boardA g army) (boardP g Knight)) * 3 in
  let score := score + bb_count (Z.land (boardA g army) (boardP g Pawn)) * 1 in
  score.

(** [Game::isDeadPosition] *)
Definition isDeadPosition (g : Game) : bool :=
  (* If queens, rooks, or pawns are on the board, then we are good *)
  if negb (isClear (boardP g Queen)) then false
  else if negb (isClear (boardP g Rook)) then false
  else if negb (isClear (boardP g Pawn)) then false
  (* If game has four or more pieces, then usually someone can still mate *)
  else if bb_count (Z.lor (boardA g White) (boardA g Black)) >? 3 then false
  (* If only 3 pieces remain with none of the above, then no one can mate *)
  else true.

(** The capture test of [Game::processMove]. *)
Definition isCaptureOf (g : Game) (army : Army) (mv : Move) : bool :=
  hasPieceAt g (sq_data (mv_end mv)) (otherArmy army) || mv_isEnPassant mv.

(** The piece that a move sets on its end square. *)
Definition landingPiece (mv : Move) : PieceType :=
  if negb (PieceType_eqb (mv_promotion mv) Unknown)
  then mv_promotion mv else mv_piece mv.

(** The last block of [Game::fillOutMove]: a king move that is not yet
    flagged as a castle gets the flag when it is a castle by its squares. *)
Definition castleStage (chess960 : bool) (g : Game) (army : Army)
    (move : Move) : exec (option Move) :=
  if PieceType_eqb (mv_piece move) King && negb (mv_isCastle move) then
    let rankStart := sq_rank (mv_start move) in
    let rankEnd := sq_rank (mv_end move) in
    if ((rankStart =? 0) && (rankEnd =? 0))
       || ((rankStart =? 7) && (rankEnd =? 7)) then
      let fileStart := sq_file (mv_start move) in
      let fileEnd := sq_file (mv_end move) in
      if (fileStart =? 4) && (fileEnd =? 6) then
        Ok (Some (setCastle true (setCastleSide KingSide move)))
      else if (fileStart =? 4) && (fileEnd =? 2) then
        Ok (Some (setCastleSide QueenSide (setCastle true move)))
      else if chess960
              && negb (isClear (Z.land (Z.land (boardA g army) (boardP g Rook))
                                       (squareBoard (mv_end move)))) then
        if fileEnd =? fileOfKingsRook g then
          Ok (Some (setCastle true (setCastleSide KingSide move)))
        else if fileEnd =? fileOfQueensRook g then
          Ok (Some (setCastle true (setCastleSide QueenSide move)))
        else AssertFail (* Q_UNREACHABLE *)
      else Ok (Some move)
    else Ok (Some move)
  else Ok (Some move).

(** A move whose piece, promotion and en-passant flag [fillOutMove] has
    nothing to add to. *)
Definition filledOut (g : Game) (army : Army) (m : Move) : Prop :=
  mv_isValid m = true
  /\ PieceType_eqb (mv_piece m) Unknown = false
  /\ PieceType_eqb (mv_piece m) Pawn
     && PieceType_eqb (mv_promotion m) Unknown
     && (sq_rank (mv_end m) =? lastRank army) = false
  /\ (PieceType_eqb (mv_piece m) Pawn && (mv_end m =? m_enPassantTarget g)
      = true -> mv_isEnPassant m = true).

(** The eight bitboards have no bit beyond the 64 squares. *)
Definition allInRange (g : Game) : bool :=
  boardsInRange g && forallb inRange (pieceBoards g).

(** The position that [setFen] builds from the position after its castling
    loop: the en-passant field and the two counters. *)
Definition setFenTail (list : list QString) (g : Game) : Game :=
  let enPassant := nth 3 list [] in
  let g := if negb (qs_eqb enPassant (qs "-"))
           then with_enPassantTarget (stringToSquare enPassant) g else g in
  let g := if Z.of_nat (length list) >? 4
           then with_halfMoveClock (toInt (nth 4 list []) mod 65536) g else g in
  if Z.of_nat (length list) >? 5
  then with_halfMoveNumber (qCeil (toInt (nth 5 list []) * 2) mod 65536) g
  else g.

(* ================================================================= *)
(** * Properties of [makeMove] *)

Lemma PieceType_eqb_eq (a b : PieceType) : PieceType_eqb a b = true <-> a = b.
Proof. destruct a, b; simpl; split; intros H; congruence. Qed.

Lemma PieceType_eqb_neq (a b : PieceType) : PieceType_eqb a b = false <-> a <> b.
Proof. destruct a, b; simpl; split; intros H; congruence. Qed.

Lemma fillOutStart_valid g army move :
  mv_isValid move = true -> fillOutStart g army move = true.
Proof.
  intros H. unfold fillOutStart. rewrite H. simpl.
  unfold mv_isValid in H. apply andb_prop in H as [-> _]. reflexivity.
Qed.

(** When [fillOutMove] returns [false]: the move is not valid after the end
    square of a castle has been synthesized, or no piece kind is known. *)
Lemma fillOutMove_false_iff chess960 g army move :
  let mv := castleEnd army move in
  fillOutMove chess960 g army move = Ok None
  <-> (mv_isValid mv = false
       \/ (mv_piece mv = Unknown
           /\ pieceTypeAt g (sq_data (mv_start mv)) = Unknown)).
Proof.
  intros mv. unfold fillOutMove. fold mv.
  destruct (mv_isValid mv) eqn:Hv; simpl.
  2:{ split; auto. }
  set (mv1 := if PieceType_eqb (mv_piece mv) Unknown
              then setPiece (pieceTypeAt g (sq_data (mv_start mv))) mv else mv).
  assert (Hv1 : mv_isValid mv1 = true).
  { unfold mv1. destruct (PieceType_eqb (mv_piece mv) Unknown); assumption. }
  assert (Hp : PieceType_eqb (mv_piece mv1) Unknown = true
               <-> mv_piece mv = Unknown
                   /\ pieceTypeAt g (sq_data (mv_start mv)) = Unknown).
  { unfold mv1. destruct (PieceType_eqb (mv_piece mv) Unknown) eqn:E.
    - apply PieceType_eqb_eq in E. simpl. rewrite PieceType_eqb_eq. tauto.
    - rewrite E. apply PieceType_eqb_neq in E. split; [discriminate | tauto]. }
  destruct (PieceType_eqb (mv_piece mv1) Unknown) eqn:E1.
  { split; [intros _; right; apply Hp; reflexivity | reflexivity]. }
  assert (Hs : sq_isValid (mv_start mv1) = true).
  { unfold mv_isValid in Hv1. apply andb_prop in Hv1. tauto. }
  rewrite Hs. simpl.
  split.
  - intros H. exfalso.
    repeat match type of H with
           | context [if ?b then _ else _] => destruct b
           end; discriminate.
  - intros [H | H]; [discriminate | ]. apply Hp in H. discriminate.
Qed.

(** ** C5 *)

(** C5. Whenever [makeMove] cannot fill out the supplied move (after the end
    square of a castle has been synthesized the move still lacks a valid start
    or end square, or the move names no piece kind and no piece sits on its
    start square), [makeMove] returns [false] and the position it returns is
    the position it was given, field for field. *)
Theorem makeMove_malformed_unchanged (chess960 : bool) (g : Game) (move : Move) :
  let mv := castleEnd (activeArmy g) move in
  mv_isValid mv = false
  \/ (mv_piece mv = Unknown /\ pieceTypeAt g (sq_data (mv_start mv)) = Unknown) ->
  makeMove chess960 move g = Ok (false, g).
Proof.
  intros mv H. unfold makeMove.
  apply (fillOutMove_false_iff chess960 g (activeArmy g) move) in H.
  rewrite H. reflexivity.
Qed.

Lemma makeMove_malformed_unchanged_witness :
  makeMove false defaultMove blankGame = Ok (false, blankGame).
Proof.
  apply (makeMove_malformed_unchanged false blankGame defaultMove).
  left. reflexivity.
Defined.

(** ** Moves that the fill-out step accepts *)

Lemma fillOutMove_accepts chess960 g army move :
  mv_isValid move = true ->
  pieceTypeAt g (sq_data (mv_start move)) <> Unknown ->
  fillOutMove chess960 g army move <> Ok None
  /\ (chess960 = false ->
      exists mv, fillOutMove chess960 g army move = Ok (Some mv)).
Proof.
  intros Hv Hp.
  assert (Hce : castleEnd army move = move).
  { unfold castleEnd. rewrite Hv. rewrite andb_false_r. reflexivity. }
  split.
  - intros H. apply fillOutMove_false_iff in H. rewrite Hce in H.
    destruct H as [H | [_ H]]; congruence.
  - intros ->.
    destruct (fillOutMove false g army move) as [[mv | ] | ] eqn:E.
    + exists mv. reflexivity.
    + apply fillOutMove_false_iff in E. rewrite Hce in E.
      destruct E as [E | [_ E]]; congruence.
    + exfalso. unfold fillOutMove in E. simpl in E.
      repeat match type of E with
             | context [if ?b then _ else _] => destruct b
             end; discriminate.
Qed.

(** [makeMove] answers [false] only when the fill-out step fails, and then
    the position is the one it was given. *)
Lemma makeMove_false_inv chess960 move g g' :
  makeMove chess960 move g = Ok (false, g') ->
  fillOutMove chess960 g (activeArmy g) move = Ok None /\ g' = g.
Proof.
  intros H. unfold makeMove in H.
  destruct (fillOutMove chess960 g (activeArmy g) move) as [[mv | ] | ];
    simpl in H; try congruence.
  - destruct (processMove (activeArmy g) mv g); simpl in H; discriminate.
  - split; congruence.
Qed.

(** No movement rule is looked at: the rook "move" [a1a8] from the starting
    position jumps over the own pawn on [a2] and captures on [a8]; it is
    answered [true], and the white rook then stands on [a8]. *)
Example makeMove_rook_jump :
  exists g',
    makeMove false (moveOf "a1" "a8") startPosition = Ok (true, g')
    /\ pieceTypeAt startPosition 8 = Pawn
    /\ pieceTypeAt g' 56 = Rook /\ hasPieceAt g' 56 White = true.
Proof. eexists. vm_compute. repeat split. Qed.

(** ** C1 *)

(** [togglePieceAt] writes the bitboards only. *)
Lemma togglePieceAt_frame index army piece bit g g' :
  togglePieceAt index army piece bit g = Ok g' ->
  m_lastMove g' = m_lastMove g
  /\ m_fileOfKingsRook g' = m_fileOfKingsRook g
  /\ m_fileOfQueensRook g' = m_fileOfQueensRook g
  /\ m_enPassantTarget g' = m_enPassantTarget g
  /\ m_activeArmy g' = m_activeArmy g
  /\ (forall a c, isCastleAvailable g' a c = isCastleAvailable g a c).
Proof.
  unfold togglePieceAt, q_assert. intros H.
  destruct ((0 <=? index) && (index <? 64)); simpl in H; [ | discriminate].
  destruct (negb (PieceType_eqb piece Unknown)); simpl in H; [ | discriminate].
  injection H as <-. simpl.
  repeat (split; [reflexivity | ]). intros [] []; reflexivity.
Qed.

(** What the capture block of [processMove] does to the castle rights of the
    army that loses the piece: a captured rook clears the king-side right when
    the end square is on the file of the king's rook, and the queen-side right
    on every other file; no other right changes. *)
Lemma processCapture_rights army move g g' :
  processCapture army move g = Ok g' ->
  let index :=
    if mv_isEnPassant move
    then sq_data (mkSquare (sq_file (mv_end move))
                           (rankBehind army (sq_rank (mv_end move))))
    else sq_data (mv_end move) in
  let type := pieceTypeAt g index in
  let onKingsFile := sq_file (mv_end move) =? m_fileOfKingsRook g in
  isCastleAvailable g' (otherArmy army) KingSide
  = (if PieceType_eqb type Rook && onKingsFile then false
     else isCastleAvailable g (otherArmy army) KingSide)
  /\ isCastleAvailable g' (otherArmy army) QueenSide
     = (if PieceType_eqb type Rook && negb onKingsFile then false
        else isCastleAvailable g (otherArmy army) QueenSide)
  /\ (forall c, isCastleAvailable g' army c = isCastleAvailable g army c).
Proof.
  unfold processCapture. intros H. cbv zeta.
  set (g1 := with_lastMove (setCapture true (m_lastMove g)) g) in H.
  set (index := if mv_isEnPassant move then _ else _) in *.
  change (pieceTypeAt g1 index) with (pieceTypeAt g index) in H.
  set (type := pieceTypeAt g index) in *.
  destruct (q_assert (negb (PieceType_eqb type Unknown))); simpl in H;
    [ | discriminate].
  destruct (togglePieceAt index (otherArmy army) type false g1) as [g2 | ] eqn:E;
    simpl in H; [ | discriminate].
  apply togglePieceAt_frame in E as (_ & Ek & _ & _ & _ & Ec).
  injection H as <-. rewrite Ek.
  change (m_fileOfKingsRook g1) with (m_fileOfKingsRook g).
  assert (Ec' : forall a c, isCastleAvailable g2 a c = isCastleAvailable g a c).
  { intros a0 c0. rewrite Ec. destruct a0, c0; reflexivity. }
  pose proof (Ec' White KingSide) as E1. pose proof (Ec' White QueenSide) as E2.
  pose proof (Ec' Black KingSide) as E3. pose proof (Ec' Black QueenSide) as E4.
  simpl in E1, E2, E3, E4.
  destruct (PieceType_eqb type Rook); simpl;
    [destruct (sq_file (mv_end move) =? m_fileOfKingsRook g); simpl | ];
    (split; [ | split; [ | intros [] ]]);
    destruct army; simpl; congruence.
Qed.

(** C1 (defect of the code).  White's rook takes a black rook on [d5] while
    Black's castling rook stands untouched on [a8] and Black holds the
    queen-side right: the capture block compares only the file of the end
    square with the file of the king's rook and clears the queen-side right in
    its [else] branch, so Black loses the right although the captured rook did
    not stand on the queen-side castle-rook file. *)
Theorem capture_of_other_rook_clears_queen_right :
  let g := gameOf "r3k3/8/8/3r4/8/8/8/3RK3 w q - 0 1" in
  exists g',
    makeMove false (moveOf "d1" "d5") g = Ok (true, g')
    /\ hasPieceAt g 35 Black = true /\ pieceTypeAt g 35 = Rook
    /\ sq_file 35 = 3 /\ fileOfQueensRook g = 0
    /\ isCastleAvailable g Black QueenSide = true
    /\ isCastleAvailable g' Black QueenSide = false
    /\ hasPieceAt g' 56 Black = true /\ pieceTypeAt g' 56 = Rook
    /\ hasPieceAt g' 60 Black = true /\ pieceTypeAt g' 60 = King.
Proof. eexists. vm_compute. repeat split. Qed.

(* ================================================================= *)
(** * Check *)

Lemma isClear_land_lor k a b :
  isClear (Z.land k (Z.lor a b)) = isClear (Z.land k a) && isClear (Z.land k b).
Proof.
  unfold isClear. rewrite Z.land_lor_distr_r.
  destruct (Z.eqb_spec (Z.land k a) 0) as [Ha | Ha];
    destruct (Z.eqb_spec (Z.land k b) 0) as [Hb | Hb]; simpl.
  - rewrite Ha, Hb. reflexivity.
  - apply Z.eqb_neq. intros H. apply Z.lor_eq_0_iff in H. tauto.
  - apply Z.eqb_neq. intros H. apply Z.lor_eq_0_iff in H. tauto.
  - apply Z.eqb_neq. intros H. apply Z.lor_eq_0_iff in H. tauto.
Qed.

(** A board is not clear iff one of its bits is set. *)
Lemma not_clear_iff_bit (b : BitBoard) :
  isClear b = false <-> exists sq, 0 <= sq /\ testBit b sq = true.
Proof.
  unfold isClear, testBit. split.
  - intros H. apply Z.eqb_neq in H.
    destruct (Z.lt_trichotomy b 0) as [Hneg | [H0 | Hpos]]; [ | contradiction | ].
    + exists (Z.log2 (Z.abs b) + 1). split.
      * pose proof (Z.log2_nonneg (Z.abs b)). lia.
      * apply Z.bits_iff_neg; lia.
    + exists (Z.log2 b). split; [apply Z.log2_nonneg | ].
      apply Z.bit_log2. assumption.
  - intros (sq & _ & Hsq). apply Z.eqb_neq. intros ->.
    rewrite Z.bits_0 in Hsq. discriminate.
Qed.

(** [isChecked] with its two local armies written out. *)
Lemma isChecked_unfold gen g army :
  isChecked gen g army =
  let enemies := otherArmy army in
  let kingBoard := Z.land (boardA g army) (boardP g King) in
  let hit := Ok (true, with_lastMove (setCheck true (m_lastMove g)) g) in
  if negb (isClear (Z.land kingBoard (queenAttackBoard gen g enemies))) then hit
  else if negb (isClear (Z.land kingBoard (rookAttackBoard gen g enemies))) then hit
  else if negb (isClear (Z.land kingBoard (bishopAttackBoard gen g enemies))) then hit
  else if negb (isClear (Z.land kingBoard (knightAttackBoard gen g enemies))) then hit
  else
    kab <- kingAttackBoard gen g enemies ;;
    if negb (isClear (Z.land kingBoard kab)) then hit
    else if negb (isClear (Z.land kingBoard (pawnAttackBoard gen g enemies))) then hit
    else Ok (false, with_lastMove (setCheck false (m_lastMove g)) g).
Proof. destruct army; reflexivity. Qed.

(** C8. For every position and army, when the attack boards of the enemy are
    defined (the enemy has at most one king), [isChecked army] returns [true]
    iff a square of the army's king lies in the union of the enemy's king,
    queen, rook, bishop, knight and pawn attack boards; the position it leaves
    is the given one with the check flag of the last move set to the returned
    value, every other field (bitboards, castle rights, rook files,
    en-passant target, clocks, side to move) being unchanged. *)
Theorem isChecked_spec (gen : Movegen) (g : Game) (army : Army) (atb : BitBoard) :
  attackBoard gen g (otherArmy army) = Ok atb ->
  let kingBoard := Z.land (boardA g army) (boardP g King) in
  let result := negb (isClear (Z.land kingBoard atb)) in
  isChecked gen g army
  = Ok (result, with_lastMove (setCheck result (m_lastMove g)) g)
  /\ (result = true
      <-> exists sq, 0 <= sq /\ testBit kingBoard sq = true
                     /\ testBit atb sq = true).
Proof.
  unfold attackBoard.
  destruct (kingAttackBoard gen g (otherArmy army)) as [kab | ] eqn:Ek;
    intros Hatb; cbn [bind] in Hatb; [ | discriminate].
  injection Hatb as <-.
  set (kingBoard := Z.land (boardA g army) (boardP g King)). split.
  - rewrite !isClear_land_lor.
    rewrite (isChecked_unfold gen g army). cbv zeta. fold kingBoard.
    rewrite Ek.
    destruct (isClear (Z.land kingBoard (queenAttackBoard gen g (otherArmy army))));
      cbn [negb andb bind]; [ | rewrite !andb_false_r; reflexivity].
    destruct (isClear (Z.land kingBoard (rookAttackBoard gen g (otherArmy army))));
      cbn [negb andb bind]; [ | rewrite !andb_false_r; reflexivity].
    destruct (isClear (Z.land kingBoard (bishopAttackBoard gen g (otherArmy army))));
      cbn [negb andb bind]; [ | rewrite !andb_false_r; reflexivity].
    destruct (isClear (Z.land kingBoard (knightAttackBoard gen g (otherArmy army))));
      cbn [negb andb bind]; [ | rewrite !andb_false_r; reflexivity].
    destruct (isClear (Z.land kingBoard kab)); cbn [negb andb bind];
      [ | reflexivity].
    destruct (isClear (Z.land kingBoard (pawnAttackBoard gen g (otherArmy army))));
      reflexivity.
  - rewrite negb_true_iff, not_clear_iff_bit.
    split; intros (sq & H0 & H); exists sq; (split; [exact H0 | ]).
    + unfold testBit in H. rewrite Z.land_spec in H.
      apply andb_prop in H. exact H.
    + destruct H as [H1 H2]. unfold testBit in *. rewrite Z.land_spec, H1, H2.
      reflexivity.
Qed.

(** The black king on [e8] is checked by the rook on [e1]. *)
Lemma isChecked_spec_witness :
  let g := gameOf "4k3/8/8/8/8/8/8/4R2K b - - 0 1" in
  isChecked specMovegen g Black
  = Ok (true, with_lastMove (setCheck true (m_lastMove g)) g).
Proof.
  intros g.
  destruct (isChecked_spec specMovegen g Black
              (Z.lor (specKingMoves 7 (m_whitePositionBoard g) (m_blackPositionBoard g))
                     (specRookMoves 4 (m_whitePositionBoard g) (m_blackPositionBoard g))))
    as [H _].
  - vm_compute. reflexivity.
  - rewrite H. vm_compute. reflexivity.
Defined.

(* ================================================================= *)
(** * Pseudo-legal moves *)

(** ** The squares of a bitboard *)

Lemma In_allSquares x : In x allSquares <-> 0 <= x < 64.
Proof.
  unfold allSquares. rewrite in_map_iff. split.
  - intros (n & <- & Hn). apply in_seq in Hn. lia.
  - intros H. exists (Z.to_nat x). split; [lia | apply in_seq; lia].
Qed.

Lemma NoDup_allSquares : NoDup allSquares.
Proof.
  unfold allSquares. apply Injective_map_NoDup.
  - intros a b H. lia.
  - apply seq_NoDup.
Qed.

Lemma In_occupiedSquares b x :
  In x (occupiedSquares b) <-> 0 <= x < 64 /\ testBit b x = true.
Proof.
  unfold occupiedSquares. rewrite filter_In, In_allSquares. tauto.
Qed.

Lemma NoDup_occupiedSquares b : NoDup (occupiedSquares b).
Proof. apply NoDup_filter, NoDup_allSquares. Qed.

(** ** What [generateMove] writes *)

Lemma generateMove_spec g piece start end_ :
  generateMove g piece start end_ =
  if PieceType_eqb piece Pawn && (sq_rank end_ =? lastRank (activeArmy g))
  then [setPromotion Queen (baseMove g piece start end_);
        setPromotion Knight (baseMove g piece start end_);
        setPromotion Rook (baseMove g piece start end_);
        setPromotion Bishop (baseMove g piece start end_)]
  else [baseMove g piece start end_].
Proof.
  unfold generateMove, baseMove, lastRank.
  destruct (activeArmy g); destruct (PieceType_eqb piece Pawn); simpl;
    try reflexivity;
    match goal with |- context [?a =? ?b] => destruct (a =? b) end; reflexivity.
Qed.

Lemma generateMove_fields g piece start end_ m :
  In m (generateMove g piece start end_) ->
  mv_piece m = piece /\ mv_start m = start /\ mv_end m = end_
  /\ mv_isCastle m = false.
Proof.
  rewrite generateMove_spec.
  destruct (PieceType_eqb piece Pawn && (sq_rank end_ =? lastRank (activeArmy g)));
    simpl; intros H;
    repeat (destruct H as [<- | H]; [repeat split | ]); contradiction.
Qed.

Lemma movesFrom_In g piece sq moves m :
  In m (movesFrom g piece sq moves) ->
  mv_piece m = piece /\ mv_start m = sq /\ mv_isCastle m = false
  /\ 0 <= mv_end m < 64 /\ testBit moves (mv_end m) = true.
Proof.
  unfold movesFrom. rewrite in_flat_map. intros (newSq & Hn & Hm).
  apply generateMove_fields in Hm as (-> & -> & -> & ->).
  apply In_occupiedSquares in Hn. tauto.
Qed.

Lemma movesOfKind_In g piece movesFn pieces m :
  In m (movesOfKind g piece movesFn pieces) ->
  mv_piece m = piece /\ mv_isCastle m = false
  /\ 0 <= mv_start m < 64 /\ testBit pieces (mv_start m) = true
  /\ 0 <= mv_end m < 64 /\ testBit (movesFn (mv_start m)) (mv_end m) = true.
Proof.
  unfold movesOfKind. rewrite in_flat_map. intros (sq & Hs & Hm).
  apply movesFrom_In in Hm as (-> & -> & -> & He).
  apply In_occupiedSquares in Hs. tauto.
Qed.

(** The king loop, when no assertion trips, is the plain loop. *)
Lemma kingLoop_flat_map (F : Square -> list Move) sqs i acc out :
  kingLoop (fun sq out => out ++ F sq) sqs i acc = Ok out ->
  out = acc ++ flat_map F sqs.
Proof.
  revert i acc. induction sqs as [ | sq rest IH]; intros i acc; simpl.
  - intros H. injection H as <-. rewrite app_nil_r. reflexivity.
  - destruct (q_assert (i <? 1)); cbn [bind]; [ | discriminate].
    intros H. apply IH in H. rewrite H, <- app_assoc. reflexivity.
Qed.

Lemma generateCastle_In g army side l m :
  generateCastle g army side = Ok l -> In m l ->
  mv_piece m = King /\ mv_isCastle m = true.
Proof.
  unfold generateCastle.
  destruct (q_first (occupiedSquares (Z.land (boardP g King) (boardA g army))));
    cbn [bind]; [ | discriminate].
  intros H. injection H as <-. intros [<- | []].
  destruct side; split; reflexivity.
Qed.

(** The sink of [pseudoLegalMoves], part by part. *)
Lemma pseudoLegalMoves_parts gen g moves :
  pseudoLegalMoves gen g = Ok moves ->
  let army := activeArmy g in
  let friends := friendsOf g army in
  let enemies := enemiesOf g army in
  exists castles,
    moves =
      movesOfKind g King (fun sq => kingMoves gen sq friends enemies)
        (Z.land friends (boardP g King))
      ++ movesOfKind g Queen (fun sq => queenMoves gen sq friends enemies)
           (Z.land friends (boardP g Queen))
      ++ movesOfKind g Rook (fun sq => rookMoves gen sq friends enemies)
           (Z.land friends (boardP g Rook))
      ++ movesOfKind g Bishop (fun sq => bishopMoves gen sq friends enemies)
           (Z.land friends (boardP g Bishop))
      ++ movesOfKind g Knight (fun sq => knightMoves gen sq friends enemies)
           (Z.land friends (boardP g Knight))
      ++ flat_map (pawnMovesFrom gen g army friends enemies)
           (occupiedSquares (Z.land friends (boardP g Pawn)))
      ++ castles
    /\ forall m, In m castles -> mv_piece m = King /\ mv_isCastle m = true.
Proof.
  unfold pseudoLegalMoves.
  set (army := activeArmy g). set (friends := friendsOf g army).
  set (enemies := enemiesOf g army).
  destruct (kingLoop _ _ 0 []) as [kings | ] eqn:Ek; cbn [bind]; [ | discriminate].
  apply kingLoop_flat_map in Ek. rewrite app_nil_l in Ek.
  destruct (isCastleLegal gen g army KingSide) as [legalK | ]; cbn [bind];
    [ | discriminate].
  destruct (if legalK then generateCastle g army KingSide else Ok [])
    as [castleK | ] eqn:EcK; cbn [bind]; [ | discriminate].
  destruct (isCastleLegal gen g army QueenSide) as [legalQ | ]; cbn [bind];
    [ | discriminate].
  destruct (if legalQ then generateCastle g army QueenSide else Ok [])
    as [castleQ | ] eqn:EcQ; cbn [bind]; [ | discriminate].
  intros H. injection H as <-. exists (castleK ++ castleQ). split.
  - rewrite Ek. unfold movesOfKind, boardP. reflexivity.
  - intros m Hm. apply in_app_or in Hm as [Hm | Hm].
    + destruct legalK.
      * exact (generateCastle_In _ _ _ _ _ EcK Hm).
      * injection EcK as <-. contradiction.
    + destruct legalQ.
      * exact (generateCastle_In _ _ _ _ _ EcQ Hm).
      * injection EcQ as <-. contradiction.
Qed.

(** ** Filtering the sink *)

Lemma filter_nil_all {A : Type} (P : A -> bool) (l : list A) :
  (forall x, In x l -> P x = false) -> filter P l = [].
Proof.
  induction l as [ | a l IH]; simpl; intros H; [reflexivity | ].
  rewrite (H a (or_introl eq_refl)). apply IH. intros x Hx. apply H. right.
  exact Hx.
Qed.

Lemma filter_id_all {A : Type} (P : A -> bool) (l : list A) :
  (forall x, In x l -> P x = true) -> filter P l = l.
Proof.
  induction l as [ | a l IH]; simpl; intros H; [reflexivity | ].
  rewrite (H a (or_introl eq_refl)). f_equal. apply IH. intros x Hx. apply H.
  right. exact Hx.
Qed.

Lemma filter_flat_map_unique {A B : Type} (P : B -> bool) (f : A -> list B)
    (l : list A) (k : A) :
  NoDup l -> In k l ->
  (forall x, In x l -> x <> k -> filter P (f x) = []) ->
  filter P (flat_map f l) = filter P (f k).
Proof.
  induction l as [ | a l IH]; simpl; intros Hnd Hin Hother; [contradiction | ].
  rewrite filter_app. inversion Hnd as [ | ? ? Hnotin Hnd']; subst.
  destruct Hin as [-> | Hin].
  - assert (E : filter P (flat_map f l) = []).
    { apply filter_nil_all. intros y Hy. apply in_flat_map in Hy as (x & Hx & Hy).
      assert (Hxk : x <> k) by (intros ->; contradiction).
      pose proof (Hother x (or_intror Hx) Hxk) as E.
      destruct (P y) eqn:Py; [ | reflexivity].
      assert (Hf : In y (filter P (f x))) by (apply filter_In; auto).
      rewrite E in Hf. contradiction. }
    rewrite E, app_nil_r. reflexivity.
  - assert (Hak : a <> k) by (intros ->; contradiction).
    rewrite (Hother a (or_introl eq_refl) Hak). simpl.
    apply IH; auto.
Qed.

Lemma sameMoveSquares_true m m' :
  sameMoveSquares m m' = true <->
  mv_piece m' = mv_piece m /\ mv_start m' = mv_start m
  /\ mv_end m' = mv_end m /\ mv_isCastle m' = false.
Proof.
  unfold sameMoveSquares.
  rewrite !andb_true_iff, PieceType_eqb_eq, !Z.eqb_eq, negb_true_iff.
  intuition congruence.
Qed.

Lemma sameMoveSquares_generateMove g m :
  filter (sameMoveSquares m)
         (generateMove g (mv_piece m) (mv_start m) (mv_end m))
  = generateMove g (mv_piece m) (mv_start m) (mv_end m).
Proof.
  apply filter_id_all. intros m' Hm'. apply sameMoveSquares_true.
  apply generateMove_fields in Hm'. tauto.
Qed.

Lemma filter_generateMove_other g m piece start end_ :
  (piece, start, end_) <> (mv_piece m, mv_start m, mv_end m) ->
  filter (sameMoveSquares m) (generateMove g piece start end_) = [].
Proof.
  intros Hne. apply filter_nil_all. intros m' Hm'.
  apply generateMove_fields in Hm' as (Hp & Hs & He & _).
  destruct (sameMoveSquares m m') eqn:E; [ | reflexivity].
  apply sameMoveSquares_true in E. exfalso. apply Hne.
  destruct E as (E1 & E2 & E3 & _). congruence.
Qed.

Lemma filter_movesFrom_same g m moves :
  0 <= mv_end m < 64 -> testBit moves (mv_end m) = true ->
  filter (sameMoveSquares m) (movesFrom g (mv_piece m) (mv_start m) moves)
  = generateMove g (mv_piece m) (mv_start m) (mv_end m).
Proof.
  intros Hr Hb. unfold movesFrom.
  rewrite (filter_flat_map_unique _ _ _ (mv_end m)).
  - apply sameMoveSquares_generateMove.
  - apply NoDup_occupiedSquares.
  - apply In_occupiedSquares. tauto.
  - intros x _ Hx. apply filter_generateMove_other. congruence.
Qed.

Lemma filter_movesFrom_other g m piece sq moves :
  (piece, sq) <> (mv_piece m, mv_start m) ->
  filter (sameMoveSquares m) (movesFrom g piece sq moves) = [].
Proof.
  intros Hne. apply filter_nil_all. intros m' Hm'.
  apply movesFrom_In in Hm' as (Hp & Hs & _).
  destruct (sameMoveSquares m m') eqn:E; [ | reflexivity].
  apply sameMoveSquares_true in E. exfalso. apply Hne.
  destruct E as (E1 & E2 & _). congruence.
Qed.

Lemma filter_movesOfKind_same g piece movesFn pieces m :
  In m (movesOfKind g piece movesFn pieces) ->
  filter (sameMoveSquares m) (movesOfKind g piece movesFn pieces)
  = generateMove g (mv_piece m) (mv_start m) (mv_end m).
Proof.
  intros Hm. apply movesOfKind_In in Hm as (Hp & _ & Hs & Hsb & He & Heb).
  unfold movesOfKind.
  rewrite (filter_flat_map_unique _ _ _ (mv_start m)).
  - rewrite <- Hp. apply filter_movesFrom_same; assumption.
  - apply NoDup_occupiedSquares.
  - apply In_occupiedSquares. tauto.
  - intros x _ Hx. apply filter_movesFrom_other. congruence.
Qed.

Lemma filter_movesOfKind_other g piece movesFn pieces m :
  mv_piece m <> piece ->
  filter (sameMoveSquares m) (movesOfKind g piece movesFn pieces) = [].
Proof.
  intros Hne. apply filter_nil_all. intros m' Hm'.
  apply movesOfKind_In in Hm' as (Hp & _).
  destruct (sameMoveSquares m m') eqn:E; [ | reflexivity].
  apply sameMoveSquares_true in E. destruct E as (E1 & _). congruence.
Qed.

Lemma filter_castles m castles :
  (forall m', In m' castles -> mv_piece m' = King /\ mv_isCastle m' = true) ->
  filter (sameMoveSquares m) castles = [].
Proof.
  intros H. apply filter_nil_all. intros m' Hm'. apply H in Hm' as [_ Hc].
  destruct (sameMoveSquares m m') eqn:E; [ | reflexivity].
  apply sameMoveSquares_true in E. destruct E as (_ & _ & _ & E). congruence.
Qed.

(** ** The pawn loop *)

Lemma pawnMovesFrom_In gen g army friends enemies sq m :
  In m (pawnMovesFrom gen g army friends enemies sq) ->
  mv_piece m = Pawn /\ mv_start m = sq /\ mv_isCastle m = false
  /\ 0 <= mv_end m < 64
  /\ ((testBit (pawnMoves gen army sq friends enemies) (mv_end m) = true
       /\ pushBlocked army friends enemies sq (mv_end m) = false)
      \/ testBit (pawnAttacks gen army sq friends (enemiesPlusEnpassant g enemies))
                 (mv_end m) = true).
Proof.
  unfold pawnMovesFrom. intros H. apply in_app_or in H as [H | H].
  - apply in_flat_map in H as (newSq & Hn & Hm).
    destruct (pushBlocked army friends enemies sq newSq) eqn:Eb; [contradiction | ].
    apply generateMove_fields in Hm as (-> & -> & -> & ->).
    apply In_occupiedSquares in Hn. tauto.
  - apply movesFrom_In in H. tauto.
Qed.

Lemma filter_pawnMovesFrom_other gen g army friends enemies sq m :
  (Pawn, sq) <> (mv_piece m, mv_start m) ->
  filter (sameMoveSquares m) (pawnMovesFrom gen g army friends enemies sq) = [].
Proof.
  intros Hne. apply filter_nil_all. intros m' Hm'.
  apply pawnMovesFrom_In in Hm' as (Hp & Hs & _).
  destruct (sameMoveSquares m m') eqn:E; [ | reflexivity].
  apply sameMoveSquares_true in E. exfalso. apply Hne.
  destruct E as (E1 & E2 & _). congruence.
Qed.

Lemma filter_pawnMovesFrom_same gen g army friends enemies m :
  pawnGeometry gen ->
  0 <= mv_start m < 64 ->
  In m (pawnMovesFrom gen g army friends enemies (mv_start m)) ->
  filter (sameMoveSquares m)
         (pawnMovesFrom gen g army friends enemies (mv_start m))
  = generateMove g (mv_piece m) (mv_start m) (mv_end m).
Proof.
  intros Hgeo Hs Hm.
  apply pawnMovesFrom_In in Hm as (Hp & _ & _ & He & Hcase).
  unfold pawnMovesFrom. rewrite filter_app.
  set (pushes := pawnMoves gen army (mv_start m) friends enemies) in *.
  set (attacks := pawnAttacks gen army (mv_start m) friends
                    (enemiesPlusEnpassant g enemies)) in *.
  assert (Hexcl : testBit pushes (mv_end m) = true ->
                  testBit attacks (mv_end m) = true -> False).
  { intros H1 H2.
    destruct (Hgeo army (mv_start m) friends enemies (mv_end m) Hs He) as [G1 _].
    destruct (Hgeo army (mv_start m) friends (enemiesPlusEnpassant g enemies)
                   (mv_end m) Hs He) as [_ G2].
    apply G1 in H1. apply G2 in H2. tauto. }
  destruct Hcase as [[Hpush Hnb] | Hatt].
  - (* the move is a push *)
    rewrite (filter_flat_map_unique _ _ _ (mv_end m)).
    + rewrite Hnb.
      rewrite (filter_nil_all _ (movesFrom g Pawn (mv_start m) attacks)).
      * rewrite app_nil_r, <- Hp. apply sameMoveSquares_generateMove.
      * intros m' Hm'. apply movesFrom_In in Hm' as (_ & _ & _ & _ & Hb).
        destruct (sameMoveSquares m m') eqn:E; [ | reflexivity].
        apply sameMoveSquares_true in E. destruct E as (_ & _ & E & _).
        rewrite E in Hb. exfalso. exact (Hexcl Hpush Hb).
    + apply NoDup_occupiedSquares.
    + apply In_occupiedSquares. tauto.
    + intros x _ Hx.
      destruct (pushBlocked army friends enemies (mv_start m) x);
        [reflexivity | ].
      apply filter_generateMove_other. congruence.
  - (* the move is an attack *)
    rewrite (filter_nil_all _ (flat_map _ (occupiedSquares pushes))).
    + simpl. rewrite <- Hp at 1. apply filter_movesFrom_same; assumption.
    + intros m' Hm'. apply in_flat_map in Hm' as (newSq & Hn & Hm').
      destruct (pushBlocked army friends enemies (mv_start m) newSq);
        [contradiction | ].
      apply generateMove_fields in Hm' as (_ & _ & Hend & _).
      apply In_occupiedSquares in Hn as [_ Hn].
      destruct (sameMoveSquares m m') eqn:E; [ | reflexivity].
      apply sameMoveSquares_true in E. destruct E as (_ & _ & E & _).
      rewrite Hend in E. subst newSq. rewrite E in Hn. exfalso.
      exact (Hexcl Hn Hatt).
Qed.

Lemma filter_pawns_same gen g army friends enemies pieces m :
  pawnGeometry gen ->
  In m (flat_map (pawnMovesFrom gen g army friends enemies)
                 (occupiedSquares pieces)) ->
  filter (sameMoveSquares m)
         (flat_map (pawnMovesFrom gen g army friends enemies)
                   (occupiedSquares pieces))
  = generateMove g (mv_piece m) (mv_start m) (mv_end m).
Proof.
  intros Hgeo Hm. apply in_flat_map in Hm as (sq & Hsq & Hm).
  assert (Hs : mv_start m = sq) by (apply pawnMovesFrom_In in Hm; tauto).
  subst sq.
  rewrite (filter_flat_map_unique _ _ _ (mv_start m)).
  - apply In_occupiedSquares in Hsq.
    apply filter_pawnMovesFrom_same; tauto.
  - apply NoDup_occupiedSquares.
  - exact Hsq.
  - intros x _ Hx. apply filter_pawnMovesFrom_other. congruence.
Qed.

Lemma filter_pawns_other gen g army friends enemies pieces m :
  mv_piece m <> Pawn ->
  filter (sameMoveSquares m)
         (flat_map (pawnMovesFrom gen g army friends enemies)
                   (occupiedSquares pieces)) = [].
Proof.
  intros Hne. apply filter_nil_all. intros m' Hm'.
  apply in_flat_map in Hm' as (sq & _ & Hm').
  apply pawnMovesFrom_In in Hm' as (Hp & _).
  destruct (sameMoveSquares m m') eqn:E; [ | reflexivity].
  apply sameMoveSquares_true in E. destruct E as (E1 & _). congruence.
Qed.

(** ** The pawn tables of the spec meet the contract *)

Lemma onBoard_mkSquare file rank :
  onBoard file rank = true ->
  sq_file (mkSquare file rank) = file /\ sq_rank (mkSquare file rank) = rank
  /\ 0 <= mkSquare file rank < 64.
Proof.
  unfold onBoard, mkSquare, sq_file, sq_rank. intros H.
  apply andb_prop in H as [H H4]. apply andb_prop in H as [H H3].
  apply andb_prop in H as [H1 H2].
  apply Z.leb_le in H1, H3. apply Z.ltb_lt in H2, H4.
  rewrite (Z.mod_small (file + 8 * rank) 256) by lia.
  repeat split; try lia.
  - Z.div_mod_to_equations. lia.
  - Z.div_mod_to_equations. lia.
Qed.

Lemma testBit_squareBoard s n :
  0 <= s -> testBit (squareBoard s) n = true -> n = s.
Proof.
  unfold testBit, squareBoard. intros Hs H.
  rewrite Z.setbit_eqb, Z.bits_0, orb_false_r in H by assumption.
  apply Z.eqb_eq in H. congruence.
Qed.

Lemma testBit_offsetBoard sq offsets n :
  testBit (offsetBoard sq offsets) n = true ->
  exists d, In d offsets
            /\ onBoard (sq_file sq + fst d) (sq_rank sq + snd d) = true
            /\ n = mkSquare (sq_file sq + fst d) (sq_rank sq + snd d).
Proof.
  unfold offsetBoard.
  assert (G : forall acc,
             testBit (fold_left
               (fun bits d =>
                  if onBoard (sq_file sq + fst d) (sq_rank sq + snd d)
                  then setBit bits (mkSquare (sq_file sq + fst d)
                                             (sq_rank sq + snd d)) true
                  else bits) offsets acc) n = true ->
             testBit acc n = true
             \/ exists d, In d offsets
                  /\ onBoard (sq_file sq + fst d) (sq_rank sq + snd d) = true
                  /\ n = mkSquare (sq_file sq + fst d) (sq_rank sq + snd d)).
  { induction offsets as [ | d rest IH]; intros acc H; simpl in H; [auto | ].
    apply IH in H as [H | (d' & Hin & Hd')].
    - destruct (onBoard (sq_file sq + fst d) (sq_rank sq + snd d)) eqn:Eo;
        [ | auto].
      unfold setBit, testBit in H.
      pose proof (onBoard_mkSquare _ _ Eo) as (_ & _ & Hr).
      rewrite Z.setbit_eqb in H by lia.
      apply orb_prop in H as [H | H]; [ | left; exact H].
      apply Z.eqb_eq in H. right. exists d. simpl. auto.
    - right. exists d'. simpl. tauto. }
  intros H. apply G in H as [H | H]; [ | exact H].
  unfold testBit, emptyBoard in H. rewrite Z.bits_0 in H. discriminate.
Qed.

Lemma specPawnAttacks_geometry army sq friends enemies newSq :
  testBit (specPawnAttacks army sq friends enemies) newSq = true ->
  sq_rank newSq = sq_rank sq + pawnDirection army
  /\ sq_file newSq <> sq_file sq.
Proof.
  unfold specPawnAttacks, testBit. rewrite Z.land_spec, Z.ldiff_spec.
  intros H. apply andb_prop in H as [H _]. apply andb_prop in H as [H _].
  apply testBit_offsetBoard in H as (d & Hd & Ho & ->).
  apply onBoard_mkSquare in Ho as (-> & -> & _).
  destruct Hd as [<- | [<- | []]]; simpl; lia.
Qed.

Lemma pushSquares_geometry army sq newSq (c1 c2 : bool) :
  let file := sq_file sq in
  let one := sq_rank sq + pawnDirection army in
  let two := sq_rank sq + 2 * pawnDirection army in
  (c1 = true -> onBoard file one = true) ->
  (c2 = true -> onBoard file two = true) ->
  testBit (Z.lor (if c1 then squareBoard (mkSquare file one) else emptyBoard)
                 (if c2 then squareBoard (mkSquare file two) else emptyBoard))
          newSq = true ->
  sq_file newSq = sq_file sq
  /\ (sq_rank newSq = one \/ sq_rank newSq = two).
Proof.
  intros file one two H1 H2. unfold testBit. rewrite Z.lor_spec.
  intros H. apply orb_prop in H as [H | H].
  - destruct c1; [ | rewrite Z.bits_0 in H; discriminate].
    destruct (onBoard_mkSquare _ _ (H1 eq_refl)) as (Hf & Hr & Hb).
    apply testBit_squareBoard in H; [ | lia]. subst newSq. tauto.
  - destruct c2; [ | rewrite Z.bits_0 in H; discriminate].
    destruct (onBoard_mkSquare _ _ (H2 eq_refl)) as (Hf & Hr & Hb).
    apply testBit_squareBoard in H; [ | lia]. subst newSq. tauto.
Qed.

Lemma specPawnMoves_geometry army sq friends enemies newSq :
  testBit (specPawnMoves army sq friends enemies) newSq = true ->
  sq_file newSq = sq_file sq
  /\ (sq_rank newSq = sq_rank sq + pawnDirection army
      \/ sq_rank newSq = sq_rank sq + 2 * pawnDirection army).
Proof.
  unfold specPawnMoves. apply pushSquares_geometry.
  - intros H. apply andb_prop in H. tauto.
  - intros H. apply andb_prop in H as [H _]. apply andb_prop in H as [H _].
    apply andb_prop in H. tauto.
Qed.

Lemma tablePawnMoves_geometry army sq friends enemies newSq :
  testBit (tablePawnMoves army sq friends enemies) newSq = true ->
  sq_file newSq = sq_file sq
  /\ (sq_rank newSq = sq_rank sq + pawnDirection army
      \/ sq_rank newSq = sq_rank sq + 2 * pawnDirection army).
Proof.
  unfold tablePawnMoves. intros H.
  unfold testBit in H. rewrite !Z.ldiff_spec in H.
  apply andb_prop in H as [H _]. apply andb_prop in H as [H _].
  revert H. apply pushSquares_geometry.
  - intros H. exact H.
  - intros H. apply andb_prop in H. tauto.
Qed.

Lemma pawnGeometry_specMovegen : pawnGeometry specMovegen.
Proof.
  intros army sq friends enemies newSq _ _. split.
  - apply specPawnMoves_geometry.
  - apply specPawnAttacks_geometry.
Qed.

Lemma pawnGeometry_tableMovegen : pawnGeometry tableMovegen.
Proof.
  intros army sq friends enemies newSq _ _. split.
  - apply tablePawnMoves_geometry.
  - apply specPawnAttacks_geometry.
Qed.

(** ** C6 *)

Lemma armies_lor g :
  Z.lor (friendsOf g (activeArmy g)) (enemiesOf g (activeArmy g))
  = Z.lor (m_whitePositionBoard g) (m_blackPositionBoard g).
Proof.
  unfold friendsOf, enemiesOf. destruct (activeArmy g);
    [reflexivity | apply Z.lor_comm].
Qed.

(** C6. For every position, [pseudoLegalMoves] never writes a pawn move of two
    ranks whose intermediate square, the one directly ahead of the pawn, is
    occupied by a piece of either colour ([gen] being any move generator whose
    pawn tables have the geometry of pawn moves). *)
Theorem no_double_push_over_a_piece (gen : Movegen) (g : Game)
    (moves : list Move) (m : Move) :
  pawnGeometry gen ->
  pseudoLegalMoves gen g = Ok moves ->
  In m moves ->
  mv_piece m = Pawn ->
  Z.abs (sq_rank (mv_end m) - sq_rank (mv_start m)) = 2 ->
  testBit (Z.lor (m_whitePositionBoard g) (m_blackPositionBoard g))
          (mkSquare (sq_file (mv_start m))
                    (sq_rank (mv_start m) + pawnDirection (activeArmy g)))
  = false.
Proof.
  intros Hgeo Hmoves Hin Hp Hrank.
  apply pseudoLegalMoves_parts in Hmoves. cbv zeta in Hmoves.
  destruct Hmoves as (castles & -> & Hcastles).
  repeat (apply in_app_or in Hin as [Hin | Hin];
          [apply movesOfKind_In in Hin as (Hk & _); congruence | ]).
  apply in_app_or in Hin as [Hin | Hin];
    [ | apply Hcastles in Hin as (Hk & _); congruence].
  apply in_flat_map in Hin as (sq & Hsq & Hin).
  apply In_occupiedSquares in Hsq as [Hsq _].
  apply pawnMovesFrom_In in Hin as (_ & Hs & _ & He & Hcase).
  subst sq.
  destruct Hcase as [[Hpush Hnb] | Hatt].
  - destruct (Hgeo (activeArmy g) (mv_start m) (friendsOf g (activeArmy g))
                   (enemiesOf g (activeArmy g)) (mv_end m) Hsq He) as [G _].
    apply G in Hpush as (Hfile & Hr).
    unfold pushBlocked in Hnb. rewrite armies_lor in Hnb.
    assert (Htwo : sq_rank (mv_end m)
                   = sq_rank (mv_start m) + 2 * pawnDirection (activeArmy g)).
    { destruct Hr as [Hr | Hr]; [ | exact Hr].
      rewrite Hr in Hrank. destruct (activeArmy g); simpl in Hrank; lia. }
    assert (E : (Z.abs (sq_rank (mv_end m) - sq_rank (mv_start m)) >? 1) = true).
    { rewrite Hrank. reflexivity. }
    rewrite E in Hnb. simpl in Hnb. unfold sq_data in Hnb.
    rewrite <- Hnb. f_equal. rewrite Hfile. f_equal.
    rewrite Htwo. destruct (activeArmy g); simpl; lia.
  - destruct (Hgeo (activeArmy g) (mv_start m) (friendsOf g (activeArmy g))
                   (enemiesPlusEnpassant g (enemiesOf g (activeArmy g)))
                   (mv_end m) Hsq He) as [_ G].
    apply G in Hatt as (Hr & _). rewrite Hr in Hrank.
    destruct (activeArmy g); simpl in Hrank; lia.
Qed.

(** The double push [e2e4] of the starting position is written to the sink,
    and [e3] is indeed empty. *)
Lemma no_double_push_over_a_piece_witness :
  testBit (Z.lor (m_whitePositionBoard startPosition)
                 (m_blackPositionBoard startPosition))
          (mkSquare 4 (1 + 1)) = false.
Proof.
  assert (E : exists moves,
             pseudoLegalMoves tableMovegen startPosition = Ok moves
             /\ In (baseMove startPosition Pawn 12 28) moves).
  { eexists. split; [vm_compute; reflexivity | ].
    vm_compute. repeat (first [left; reflexivity | right]). }
  destruct E as (moves & Hmoves & Hin).
  apply (no_double_push_over_a_piece tableMovegen startPosition moves
           (baseMove startPosition Pawn 12 28)
           pawnGeometry_tableMovegen Hmoves Hin);
    reflexivity.
Defined.

(** In particular: with White to move, a pawn on [e2] and any piece on [e3],
    the move [e2e4] is not written to the sink. *)
Corollary e2e4_not_generated_when_e3_occupied gen g moves m :
  pawnGeometry gen ->
  pseudoLegalMoves gen g = Ok moves ->
  activeArmy g = White ->
  testBit (Z.lor (m_whitePositionBoard g) (m_blackPositionBoard g)) 20 = true ->
  mv_piece m = Pawn -> mv_start m = 12 -> mv_end m = 28 ->
  ~ In m moves.
Proof.
  intros Hgeo Hmoves Ha Hocc Hp Hs He Hin.
  pose proof (no_double_push_over_a_piece gen g moves m Hgeo Hmoves Hin Hp) as H.
  rewrite Hs, He, Ha in H.
  assert (H2 : Z.abs (sq_rank 28 - sq_rank 12) = 2) by reflexivity.
  assert (E20 : mkSquare (sq_file 12) (sq_rank 12 + pawnDirection White) = 20)
    by reflexivity.
  specialize (H H2). rewrite E20 in H. congruence.
Qed.

(** With a knight on [e3], the table of pushes still offers [e4] to the pawn
    on [e2] (the square is empty), and the loop of [pseudoLegalMoves] drops
    it: the pawn has no move at all. *)
Example double_push_dropped_by_the_loop :
  let g := gameOf "4k3/8/8/8/8/4n3/4P3/4K3 w - - 0 1" in
  occupiedSquares (tablePawnMoves White 12 (m_whitePositionBoard g)
                                  (m_blackPositionBoard g)) = [28]
  /\ exists moves,
       pseudoLegalMoves tableMovegen g = Ok moves
       /\ filter (fun m => PieceType_eqb (mv_piece m) Pawn) moves = [].
Proof.
  split; [vm_compute; reflexivity | ].
  eexists. split; vm_compute; reflexivity.
Qed.

(** ** C7 *)

(** C7. Every move that [pseudoLegalMoves] writes through [generateMove] (all
    moves but the castles) comes with exactly the moves of one call of
    [generateMove] for its piece and squares: for a pawn move that ends on the
    last rank of the mover these are exactly four moves, one for each of
    Queen, Knight, Rook and Bishop, in this order; every other move is written
    exactly once, with no promotion set. *)
Theorem promotions_expand_to_four (gen : Movegen) (g : Game)
    (moves : list Move) (m : Move) :
  pawnGeometry gen ->
  pseudoLegalMoves gen g = Ok moves ->
  In m moves ->
  mv_isCastle m = false ->
  let base := baseMove g (mv_piece m) (mv_start m) (mv_end m) in
  mv_promotion base = Unknown
  /\ filter (sameMoveSquares m) moves
     = if PieceType_eqb (mv_piece m) Pawn
          && (sq_rank (mv_end m) =? lastRank (activeArmy g))
       then [setPromotion Queen base; setPromotion Knight base;
             setPromotion Rook base; setPromotion Bishop base]
       else [base].
Proof.
  intros Hgeo Hmoves Hin Hnc base. split; [reflexivity | ].
  unfold base. rewrite <- generateMove_spec.
  apply pseudoLegalMoves_parts in Hmoves. cbv zeta in Hmoves.
  destruct Hmoves as (castles & -> & Hcastles).
  rewrite !filter_app. rewrite (filter_castles m castles Hcastles).
  rewrite app_nil_r.
  apply in_app_or in Hin as [Hin | Hin].
  { pose proof (movesOfKind_In _ _ _ _ _ Hin) as (Hp & _).
    rewrite (filter_movesOfKind_same _ _ _ _ _ Hin).
    rewrite !filter_movesOfKind_other, filter_pawns_other by congruence.
    rewrite !app_nil_r. reflexivity. }
  apply in_app_or in Hin as [Hin | Hin].
  { pose proof (movesOfKind_In _ _ _ _ _ Hin) as (Hp & _).
    rewrite (filter_movesOfKind_same _ _ _ _ _ Hin).
    rewrite !filter_movesOfKind_other, filter_pawns_other by congruence.
    rewrite !app_nil_r. reflexivity. }
  apply in_app_or in Hin as [Hin | Hin].
  { pose proof (movesOfKind_In _ _ _ _ _ Hin) as (Hp & _).
    rewrite (filter_movesOfKind_same _ _ _ _ _ Hin).
    rewrite !filter_movesOfKind_other, filter_pawns_other by congruence.
    rewrite !app_nil_r. reflexivity. }
  apply in_app_or in Hin as [Hin | Hin].
  { pose proof (movesOfKind_In _ _ _ _ _ Hin) as (Hp & _).
    rewrite (filter_movesOfKind_same _ _ _ _ _ Hin).
    rewrite !filter_movesOfKind_other, filter_pawns_other by congruence.
    rewrite !app_nil_r. reflexivity. }
  apply in_app_or in Hin as [Hin | Hin].
  { pose proof (movesOfKind_In _ _ _ _ _ Hin) as (Hp & _).
    rewrite (filter_movesOfKind_same _ _ _ _ _ Hin).
    rewrite !filter_movesOfKind_other, filter_pawns_other by congruence.
    rewrite !app_nil_r. reflexivity. }
  apply in_app_or in Hin as [Hin | Hin].
  { assert (Hp : mv_piece m = Pawn).
    { apply in_flat_map in Hin as (sq & _ & Hin).
      apply pawnMovesFrom_In in Hin. tauto. }
    rewrite (filter_pawns_same _ _ _ _ _ _ _ Hgeo Hin).
    rewrite !filter_movesOfKind_other by congruence. reflexivity. }
  apply Hcastles in Hin as [_ Hc]. congruence.
Qed.

(** The white pawn on [a7] promotes on [a8]: four moves, in the order of the
    calls. *)
Lemma promotions_expand_to_four_witness :
  let g := gameOf "4k3/P7/8/8/8/8/8/4K3 w - - 0 1" in
  let base := baseMove g Pawn 48 56 in
  exists moves,
    pseudoLegalMoves specMovegen g = Ok moves
    /\ filter (sameMoveSquares (setPromotion Knight base)) moves
       = [setPromotion Queen base; setPromotion Knight base;
          setPromotion Rook base; setPromotion Bishop base].
Proof.
  intros g base.
  assert (E : exists moves,
             pseudoLegalMoves specMovegen g = Ok moves
             /\ In (setPromotion Knight base) moves).
  { eexists. split; [vm_compute; reflexivity | ].
    vm_compute. repeat (first [left; reflexivity | right]). }
  destruct E as (moves & Hmoves & Hin).
  exists moves. split; [exact Hmoves | ].
  exact (proj2 (promotions_expand_to_four specMovegen g moves
                  (setPromotion Knight base)
                  pawnGeometry_specMovegen Hmoves Hin eq_refl)).
Defined.

(* ================================================================= *)
(** * Castling *)

(** ** The king path *)

(** The king path of [castlePaths] is the board between the king and its
    castle square, both included. *)
Lemma castlePaths_kingPath g army castle kingPath rookPath :
  castlePaths g army castle = Ok (Some (kingPath, rookPath)) ->
  exists king,
    q_first (occupiedSquares (Z.land (boardP g King) (boardA g army))) = Ok king
    /\ boardBetweenOnSameRank king
         (mkSquare (match castle with KingSide => 6 | QueenSide => 2 end)
                   (sq_rank king)) true = Ok kingPath.
Proof.
  unfold castlePaths.
  destruct (negb (isCastleAvailable g army castle)); [discriminate | ].
  match goal with |- context [isClear ?b] => destruct (isClear b) end;
    [discriminate | ].
  match goal with |- context [q_assert ?b] => destruct (q_assert b) end;
    cbn [bind]; [ | discriminate].
  match goal with |- context [q_first ?l] => destruct (q_first l) as [rook | ] end;
    cbn [bind]; [ | discriminate].
  destruct (q_first (occupiedSquares (Z.land (boardP g King) (boardA g army))))
    as [king | ]; cbn [bind]; [ | discriminate].
  destruct (boardBetweenOnSameRank king rook false) as [bb | ]; cbn [bind];
    [ | discriminate].
  match goal with |- context [isClear ?b] => destruct (isClear b) end;
    cbn [negb]; [ | discriminate].
  destruct (boardBetweenOnSameRank king _ true) as [kp | ] eqn:Ekp; cbn [bind];
    [ | discriminate].
  destruct (boardBetweenOnSameRank rook _ true) as [rp | ]; cbn [bind];
    [ | discriminate].
  match goal with |- context [isClear ?b] => destruct (isClear b) end;
    cbn [negb]; [ | discriminate].
  intros H. injection H as <- <-. exists king. split; [reflexivity | exact Ekp].
Qed.

(** ** C10 *)

Lemma sq_file_byte s : sq_file s mod 256 = sq_file s.
Proof.
  unfold sq_file. apply Z.mod_small.
  pose proof (Z.mod_pos_bound s 8). lia.
Qed.

Lemma parseCastling_snoc chess960 fd cs c g :
  parseCastling chess960 fd (cs ++ [c]) g
  = (g1 <- parseCastling chess960 fd cs g ;; parseCastle chess960 fd c g1).
Proof.
  revert g. induction cs as [ | c' cs IH]; intros g; simpl.
  - destruct (parseCastle chess960 fd c g); reflexivity.
  - destruct (parseCastle chess960 fd c' g) as [g' | ]; simpl;
      [apply IH | reflexivity].
Qed.

(** C10. A position has one [m_fileOfKingsRook] and one [m_fileOfQueensRook],
    shared by both colours.  In the castling field of a FEN the character
    processed last for a side decides the file that is recorded for this
    side, whatever the colour of the earlier characters and the files they
    recorded, while the rights of both colours stay set.  So when the castling
    rooks of White and Black stand on different files ("KQkq", with the white
    rooks on [a1], [h1] and the black ones on [b8], [g8]), the files recorded
    are Black's, and the castle tests and the castle moves of White use them
    too: White holds both rights and neither castle is legal for want of a
    white rook on these files; with the field written "kqKQ" the files
    recorded are White's. *)
Theorem rook_files_are_shared :
  (forall (chess960 : bool) (fd : Found) (cs : QString) (c : ascii)
          (g g1 : Game) (side : Castle) (sq : Square),
      let army := if isUpper c then White else Black in
      parseCastling chess960 fd cs g = Ok g1 ->
      castlingFromFen chess960 (toLower c) (kingOf fd army) (rooksOf fd army)
      = Ok (side, sq) ->
      exists g2,
        parseCastling chess960 fd (cs ++ [c]) g = Ok g2
        /\ isCastleAvailable g2 army side = true
        /\ (forall a s, (a, s) <> (army, side) ->
                        isCastleAvailable g2 a s = isCastleAvailable g1 a s)
        /\ match side with
           | KingSide => m_fileOfKingsRook g2 = sq_file sq
                         /\ m_fileOfQueensRook g2 = m_fileOfQueensRook g1
           | QueenSide => m_fileOfQueensRook g2 = sq_file sq
                          /\ m_fileOfKingsRook g2 = m_fileOfKingsRook g1
           end)
  /\ (let g := gameOf "1rk3r1/8/8/8/8/8/8/R1K4R w KQkq - 0 1" in
      (hasPieceAt g 7 White = true /\ pieceTypeAt g 7 = Rook
       /\ hasPieceAt g 0 White = true /\ pieceTypeAt g 0 = Rook
       /\ hasPieceAt g 62 Black = true /\ pieceTypeAt g 62 = Rook
       /\ hasPieceAt g 57 Black = true /\ pieceTypeAt g 57 = Rook)
      /\ m_fileOfKingsRook g = 6 /\ m_fileOfQueensRook g = 1
      /\ isCastleAvailable g White KingSide = true
      /\ isCastleAvailable g White QueenSide = true
      /\ isCastleAvailable g Black KingSide = true
      /\ isCastleAvailable g Black QueenSide = true
      /\ isCastleLegal specMovegen g White KingSide = Ok false
      /\ isCastleLegal specMovegen g White QueenSide = Ok false
      /\ isCastleLegal specMovegen g Black KingSide = Ok true
      /\ isCastleLegal specMovegen g Black QueenSide = Ok true
      /\ (exists mv, generateCastle g White KingSide = Ok [mv]
                     /\ mv_end mv = mkSquare 6 0))
  /\ (let g := gameOf "1rk3r1/8/8/8/8/8/8/R1K4R w kqKQ - 0 1" in
      m_fileOfKingsRook g = 7 /\ m_fileOfQueensRook g = 0).
Proof.
  split; [ | split].
  - intros chess960 fd cs c g g1 side sq army Hcs Hc.
    rewrite parseCastling_snoc, Hcs. cbn [bind].
    unfold parseCastle. fold army. rewrite Hc. cbn [bind fst snd].
    rewrite sq_file_byte.
    destruct side; eexists; (split; [reflexivity | ]).
    + split; [destruct army; reflexivity | ].
      split; [ | split; reflexivity].
      intros a s Hne. destruct army, a, s; try reflexivity; congruence.
    + split; [destruct army; reflexivity | ].
      split; [ | split; reflexivity].
      intros a s Hne. destruct army, a, s; try reflexivity; congruence.
  - cbv zeta. vm_compute. repeat split. eexists. split; reflexivity.
  - cbv zeta. vm_compute. split; reflexivity.
Qed.

(** The field "KQkq" of the position above: its last character [q] is
    Black's and records the file of the rook on [b8]. *)
Lemma rook_files_are_shared_witness :
  let fd := mkFound [0; 7] [57; 62] 2 58 in
  exists g2,
    parseCastling false fd (qs "KQk" ++ ["q"%char]) blankGame = Ok g2
    /\ isCastleAvailable g2 Black QueenSide = true
    /\ m_fileOfQueensRook g2 = 1.
Proof.
  intros fd.
  assert (E : exists g1, parseCastling false fd (qs "KQk") blankGame = Ok g1).
  { eexists. vm_compute. reflexivity. }
  destruct E as (g1 & Hg1).
  destruct (proj1 rook_files_are_shared false fd (qs "KQk") "q"%char
              blankGame g1 QueenSide 57 Hg1 eq_refl)
    as (g2 & H2 & Hright & _ & Hfile & _).
  exists g2. split; [exact H2 | ]. split; [exact Hright | exact Hfile].
Defined.

(* ================================================================= *)
(** * The board invariants *)

(** ** Bitboards and cells *)

Lemma isClear_land_bits a b :
  isClear (Z.land a b) = true <->
  forall n, 0 <= n -> Z.testbit a n && Z.testbit b n = false.
Proof.
  unfold isClear. rewrite Z.eqb_eq. split.
  - intros H n _. rewrite <- Z.land_spec, H. apply Z.bits_0.
  - intros H. apply Z.bits_inj'. intros n Hn.
    rewrite Z.land_spec, Z.bits_0. apply H. exact Hn.
Qed.

Lemma Zeqb_bits a b :
  (a =? b) = true <-> forall n, 0 <= n -> Z.testbit a n = Z.testbit b n.
Proof.
  rewrite Z.eqb_eq. split.
  - intros -> n _. reflexivity.
  - apply Z.bits_inj'.
Qed.

Lemma testBit_setBit b index bit n :
  0 <= index ->
  testBit (setBit b index bit) n = if n =? index then bit else testBit b n.
Proof.
  intros Hi. unfold testBit, setBit. destruct bit.
  - rewrite Z.setbit_eqb by assumption. rewrite (Z.eqb_sym index n).
    destruct (n =? index); reflexivity.
  - rewrite Z.clearbit_eqb. rewrite (Z.eqb_sym index n).
    destruct (n =? index); simpl; [apply andb_false_r | apply andb_true_r].
Qed.

Lemma Army_eqb_eq a b : Army_eqb a b = true <-> a = b.
Proof. destruct a, b; simpl; split; congruence. Qed.

(** The eight bits of a square under the cell invariants. *)
Lemma cellInvariants_bits g :
  cellInvariants g = true ->
  forall n, 0 <= n ->
    let w := Z.testbit (m_whitePositionBoard g) n in
    let b := Z.testbit (m_blackPositionBoard g) n in
    let k := Z.testbit (m_kingsBoard g) n in
    let q := Z.testbit (m_queensBoard g) n in
    let r := Z.testbit (m_rooksBoard g) n in
    let bi := Z.testbit (m_bishopsBoard g) n in
    let kn := Z.testbit (m_knightsBoard g) n in
    let p := Z.testbit (m_pawnsBoard g) n in
    w && b = false
    /\ (k && q = false /\ k && r = false /\ k && bi = false /\ k && kn = false
        /\ k && p = false)
    /\ (q && r = false /\ q && bi = false /\ q && kn = false /\ q && p = false)
    /\ (r && bi = false /\ r && kn = false /\ r && p = false)
    /\ (bi && kn = false /\ bi && p = false)
    /\ kn && p = false
    /\ (w || b) = (k || (q || (r || (bi || (kn || (p || false)))))).
Proof.
  unfold cellInvariants, pieceBoards. cbn [pairwiseDisjoint forallb fold_right].
  rewrite !andb_true_iff, !isClear_land_bits, Zeqb_bits.
  intros H n Hn. cbv zeta.
  decompose [and] H. clear H.
  repeat match goal with
         | H : forall n, 0 <= n -> _ |- _ => specialize (H n Hn)
         end.
  repeat match goal with
         | H : Z.testbit (Z.lor _ _) _ = _ |- _ => rewrite !Z.lor_spec in H
         end.
  rewrite Z.bits_0 in *.
  repeat split; assumption.
Qed.

Lemma cellInvariants_Repr g : cellInvariants g = true -> Repr g (cellOf g).
Proof.
  intros H n Hn. pose proof (cellInvariants_bits g H n Hn) as B.
  cbv zeta in B.
  unfold cellOf, hasPieceAt, pieceTypeAt, properCell, testBit, boardP.
  rewrite !Z.land_spec.
  destruct (Z.testbit (m_whitePositionBoard g) n) eqn:Ew;
    destruct (Z.testbit (m_blackPositionBoard g) n) eqn:Eb;
    destruct (Z.testbit (m_kingsBoard g) n) eqn:Ek;
    destruct (Z.testbit (m_queensBoard g) n) eqn:Eq;
    destruct (Z.testbit (m_rooksBoard g) n) eqn:Er;
    destruct (Z.testbit (m_bishopsBoard g) n) eqn:Ebi;
    destruct (Z.testbit (m_knightsBoard g) n) eqn:Ekn;
    destruct (Z.testbit (m_pawnsBoard g) n) eqn:Ep;
    simpl in B; try (exfalso; intuition discriminate);
    simpl; (split; [exact I | ]);
    (split; [intros []; simpl; assumption
            | intros []; simpl; rewrite ?Z.bits_0; assumption || reflexivity]).
Qed.

Lemma Repr_hasPieceAt g beta n a :
  Repr g beta -> 0 <= n -> hasPieceAt g n a = armyBit (beta n) a.
Proof.
  intros H Hn. destruct (H n Hn) as (_ & Ha & _).
  rewrite <- Ha. destruct a; reflexivity.
Qed.

Lemma Repr_pieceTypeAt g beta n :
  Repr g beta -> 0 <= n ->
  pieceTypeAt g n = match beta n with Some (_, p) => p | None => Unknown end.
Proof.
  intros H Hn. destruct (H n Hn) as (Hc & Ha & Hp).
  unfold pieceTypeAt, testBit. rewrite !Z.land_spec.
  pose proof (Ha White) as Hw. pose proof (Ha Black) as Hb.
  unfold testBit, boardA in Hw, Hb. rewrite Hw, Hb.
  pose proof (Hp Pawn) as H1. pose proof (Hp Knight) as H2.
  pose proof (Hp Bishop) as H3. pose proof (Hp Rook) as H4.
  pose proof (Hp Queen) as H5. pose proof (Hp King) as H6.
  unfold testBit in H1, H2, H3, H4, H5, H6.
  rewrite H1, H2, H3, H4, H5, H6.
  destruct (beta n) as [[[] []] | ]; simpl in *; try reflexivity; contradiction.
Qed.

Lemma Repr_cellOf g beta n :
  Repr g beta -> 0 <= n -> cellOf g n = beta n.
Proof.
  intros H Hn. unfold cellOf.
  rewrite !(Repr_hasPieceAt g beta n _ H Hn), (Repr_pieceTypeAt g beta n H Hn).
  destruct (H n Hn) as (Hc & _).
  destruct (beta n) as [[[] p] | ]; reflexivity.
Qed.

Lemma Repr_cellInvariants g beta : Repr g beta -> cellInvariants g = true.
Proof.
  intros H. unfold cellInvariants, pieceBoards.
  cbn [pairwiseDisjoint forallb fold_right].
  rewrite !andb_true_iff, !isClear_land_bits, Zeqb_bits.
  assert (B : forall n, 0 <= n ->
            exists c, properCell c
              /\ Z.testbit (m_whitePositionBoard g) n = armyBit c White
              /\ Z.testbit (m_blackPositionBoard g) n = armyBit c Black
              /\ Z.testbit (m_kingsBoard g) n = pieceBit c King
              /\ Z.testbit (m_queensBoard g) n = pieceBit c Queen
              /\ Z.testbit (m_rooksBoard g) n = pieceBit c Rook
              /\ Z.testbit (m_bishopsBoard g) n = pieceBit c Bishop
              /\ Z.testbit (m_knightsBoard g) n = pieceBit c Knight
              /\ Z.testbit (m_pawnsBoard g) n = pieceBit c Pawn).
  { intros n Hn. destruct (H n Hn) as (Hc & Ha & Hp). exists (beta n).
    split; [exact Hc | ].
    split; [exact (Ha White) | ]. split; [exact (Ha Black) | ].
    split; [exact (Hp King) | ]. split; [exact (Hp Queen) | ].
    split; [exact (Hp Rook) | ]. split; [exact (Hp Bishop) | ].
    split; [exact (Hp Knight) | exact (Hp Pawn)]. }
  repeat split; intros n Hn; rewrite ?Z.lor_spec, ?Z.bits_0;
    destruct (B n Hn) as (c & Hc & E1 & E2 & E3 & E4 & E5 & E6 & E7 & E8);
    rewrite ?E1, ?E2, ?E3, ?E4, ?E5, ?E6, ?E7, ?E8;
    destruct c as [[[] []] | ]; simpl in *; try reflexivity; contradiction.
Qed.

(** ** Toggling a piece *)

Lemma togglePieceAt_ok index army piece bit g :
  0 <= index < 64 -> piece <> Unknown ->
  togglePieceAt index army piece bit g = Ok (toggled index army piece bit g).
Proof.
  intros Hi Hp. unfold togglePieceAt, q_assert.
  replace ((0 <=? index) && (index <? 64)) with true
    by (symmetry; apply andb_true_iff; split;
        [apply Z.leb_le | apply Z.ltb_lt]; lia).
  cbn [bind].
  replace (PieceType_eqb piece Unknown) with false
    by (symmetry; apply PieceType_eqb_neq; exact Hp).
  reflexivity.
Qed.

Lemma boardA_toggled index army piece bit g a :
  boardA (toggled index army piece bit g) a
  = if Army_eqb a army then setBit (boardA g army) index bit else boardA g a.
Proof. destruct a, army, piece; reflexivity. Qed.

Lemma boardP_toggled index army piece bit g p :
  piece <> Unknown ->
  boardP (toggled index army piece bit g) p
  = if PieceType_eqb p piece then setBit (boardP g piece) index bit
    else boardP g p.
Proof. intros H. destruct p, army, piece; try reflexivity; contradiction. Qed.

Lemma toggled_Repr_off g beta index a p :
  Repr g beta -> 0 <= index -> beta index = Some (a, p) ->
  Repr (toggled index a p false g) (upd beta index None).
Proof.
  intros H Hi Hb n Hn. destruct (H n Hn) as (Hc & Ha & Hp).
  assert (Hpu : p <> Unknown).
  { destruct (H index Hi) as (Hc' & _). rewrite Hb in Hc'.
    intros ->. exact Hc'. }
  unfold upd. split; [ | split].
  - destruct (n =? index); [exact I | exact Hc].
  - intros a0. rewrite boardA_toggled.
    destruct (Z.eqb_spec n index) as [-> | Hne].
    + destruct (Army_eqb a0 a) eqn:E.
      * rewrite testBit_setBit, Z.eqb_refl by assumption. reflexivity.
      * rewrite Ha, Hb. simpl. exact E.
    + destruct (Army_eqb a0 a) eqn:E; [ | apply Ha].
      apply Army_eqb_eq in E. subst a0.
      rewrite testBit_setBit by assumption.
      destruct (Z.eqb_spec n index); [contradiction | apply Ha].
  - intros p0. rewrite boardP_toggled by assumption.
    destruct (Z.eqb_spec n index) as [-> | Hne].
    + destruct (PieceType_eqb p0 p) eqn:E.
      * rewrite testBit_setBit, Z.eqb_refl by assumption. reflexivity.
      * rewrite Hp, Hb. simpl. exact E.
    + destruct (PieceType_eqb p0 p) eqn:E; [ | apply Hp].
      apply PieceType_eqb_eq in E. subst p0.
      rewrite testBit_setBit by assumption.
      destruct (Z.eqb_spec n index); [contradiction | apply Hp].
Qed.

Lemma toggled_Repr_on g beta index a p :
  Repr g beta -> 0 <= index -> beta index = None -> p <> Unknown ->
  Repr (toggled index a p true g) (upd beta index (Some (a, p))).
Proof.
  intros H Hi Hb Hpu n Hn. destruct (H n Hn) as (Hc & Ha & Hp).
  unfold upd. split; [ | split].
  - destruct (n =? index); [ | exact Hc]. destruct p; try exact I.
    contradiction.
  - intros a0. rewrite boardA_toggled.
    destruct (Z.eqb_spec n index) as [-> | Hne].
    + destruct (Army_eqb a0 a) eqn:E.
      * rewrite testBit_setBit, Z.eqb_refl by assumption. simpl. auto.
      * rewrite Ha, Hb. simpl. auto.
    + destruct (Army_eqb a0 a) eqn:E; [ | apply Ha].
      apply Army_eqb_eq in E. subst a0.
      rewrite testBit_setBit by assumption.
      destruct (Z.eqb_spec n index); [contradiction | apply Ha].
  - intros p0. rewrite boardP_toggled by assumption.
    destruct (Z.eqb_spec n index) as [-> | Hne].
    + destruct (PieceType_eqb p0 p) eqn:E.
      * rewrite testBit_setBit, Z.eqb_refl by assumption. simpl. auto.
      * rewrite Hp, Hb. simpl. auto.
    + destruct (PieceType_eqb p0 p) eqn:E; [ | apply Hp].
      apply PieceType_eqb_eq in E. subst p0.
      rewrite testBit_setBit by assumption.
      destruct (Z.eqb_spec n index); [contradiction | apply Hp].
Qed.

Lemma Repr_sameBoards g g' beta :
  sameBoards g g' -> Repr g beta -> Repr g' beta.
Proof.
  intros [Ha Hp] H n Hn. destruct (H n Hn) as (Hc & Ha' & Hp').
  split; [exact Hc | split].
  - intros a. rewrite Ha. apply Ha'.
  - intros p. rewrite Hp. apply Hp'.
Qed.

(** ** Counting kings *)

Lemma filter_length_upd (P P' : Z -> bool) (l : list Z) (index : Z) :
  NoDup l -> In index l ->
  (forall n, n <> index -> P' n = P n) ->
  (length (filter P' l) + (if P index then 1 else 0)
   = length (filter P l) + (if P' index then 1 else 0))%nat.
Proof.
  intros Hnd Hin Hext. induction l as [ | x l IH]; [contradiction | ].
  inversion Hnd as [ | ? ? Hnotin Hnd']; subst. simpl.
  destruct Hin as [-> | Hin].
  - assert (E : filter P' l = filter P l).
    { apply filter_ext_in. intros n Hn. apply Hext. intros ->. contradiction. }
    rewrite E. destruct (P index), (P' index); simpl; lia.
  - assert (Hx : x <> index) by (intros ->; contradiction).
    rewrite (Hext x Hx). specialize (IH Hnd' Hin).
    destruct (P x); simpl; lia.
Qed.

Lemma kingCount_upd beta index c a :
  0 <= index < 64 ->
  (kingCount (upd beta index c) a + (if isKingOf a (beta index) then 1 else 0)
   = kingCount beta a + (if isKingOf a c then 1 else 0))%nat.
Proof.
  intros Hi. unfold kingCount.
  rewrite (filter_length_upd (fun n => isKingOf a (beta n))
             (fun n => isKingOf a (upd beta index c n)) allSquares index).
  - unfold upd. rewrite Z.eqb_refl. reflexivity.
  - apply NoDup_allSquares.
  - apply In_allSquares. exact Hi.
  - intros n Hn. unfold upd. destruct (Z.eqb_spec n index); [contradiction | ].
    reflexivity.
Qed.

Lemma Repr_oneKing g beta a :
  Repr g beta -> oneKing g a = true <-> kingCount beta a = 1%nat.
Proof.
  intros H. unfold oneKing, bb_count, kingCount, occupiedSquares.
  assert (E : filter (testBit (Z.land (boardP g King) (boardA g a))) allSquares
              = filter (fun n => isKingOf a (beta n)) allSquares).
  { apply filter_ext_in. intros n Hn. apply In_allSquares in Hn.
    destruct (H n (proj1 Hn)) as (Hc & Ha & Hp).
    unfold testBit. rewrite Z.land_spec.
    pose proof (Hp King) as Hk. pose proof (Ha a) as Haa.
    unfold testBit in Hk, Haa. rewrite Hk, Haa.
    destruct (beta n) as [[a' p] | ]; [ | reflexivity].
    destruct p, a, a'; reflexivity. }
  rewrite E. rewrite Z.eqb_eq.
  set (k := length (filter (fun n => isKingOf a (beta n)) allSquares)).
  change (Z.of_nat k = 1 <-> k = 1%nat). split; intros Hk; lia.
Qed.

Lemma boardInvariants_Repr g :
  boardInvariants g = true <->
  exists beta, Repr g beta /\ kingCount beta White = 1%nat
               /\ kingCount beta Black = 1%nat.
Proof.
  unfold boardInvariants. rewrite !andb_true_iff. split.
  - intros [[Hc Hw] Hb]. exists (cellOf g).
    pose proof (cellInvariants_Repr g Hc) as H.
    split; [exact H | ]. split; apply (Repr_oneKing g _ _ H); assumption.
  - intros (beta & H & Hw & Hb).
    split; [split | ].
    + exact (Repr_cellInvariants g beta H).
    + apply (Repr_oneKing g beta White H). exact Hw.
    + apply (Repr_oneKing g beta Black H). exact Hb.
Qed.

(** ** Sound moves keep the invariants *)

Lemma sameBoardsFiles_refl g : sameBoardsFiles g g.
Proof. repeat split. Qed.

Lemma sameBoardsFiles_trans g1 g2 g3 :
  sameBoardsFiles g1 g2 -> sameBoardsFiles g2 g3 -> sameBoardsFiles g1 g3.
Proof.
  intros ((Ha & Hp) & Hk & Hq) ((Ha' & Hp') & Hk' & Hq').
  split; [split | split]; congruence.
Qed.

Lemma sameBoardsFiles_with_castle a c v g :
  sameBoardsFiles g (with_castle a c v g).
Proof. split; [split | split]; try reflexivity; intros []; reflexivity. Qed.

Lemma sameBoardsFiles_updateRights army mv g :
  sameBoardsFiles g (updateRights army mv g).
Proof.
  unfold updateRights.
  repeat match goal with
         | |- context [if ?b then _ else _] => destruct b
         end;
    (split; [split | split]); try reflexivity; intros []; reflexivity.
Qed.

Lemma sameBoardsFiles_tickClock mv capture g :
  sameBoardsFiles g (tickClock mv capture g).
Proof.
  unfold tickClock.
  destruct (negb (PieceType_eqb (mv_piece mv) Pawn) && negb capture);
    (split; [split | split]); try reflexivity; intros []; reflexivity.
Qed.

Lemma sameBoardsFiles_endTurn g : sameBoardsFiles g (endTurn g).
Proof. split; [split | split]; try reflexivity; intros []; reflexivity. Qed.

Lemma sameBoardsFiles_start mv g :
  sameBoardsFiles g (with_enPassantTarget invalidSquare (with_lastMove mv g)).
Proof. split; [split | split]; try reflexivity; intros []; reflexivity. Qed.

Lemma files_toggled index a p bit g :
  m_fileOfKingsRook (toggled index a p bit g) = m_fileOfKingsRook g
  /\ m_fileOfQueensRook (toggled index a p bit g) = m_fileOfQueensRook g.
Proof. destruct a, p; split; reflexivity. Qed.

Lemma bits_cell (c : Cell) a p :
  armyBit c a = true -> pieceBit c p = true -> c = Some (a, p).
Proof.
  destruct c as [[a' p'] | ]; simpl; [ | discriminate].
  intros Ha Hp. apply Army_eqb_eq in Ha. apply PieceType_eqb_eq in Hp.
  congruence.
Qed.

Lemma sq_isValid_range s : sq_isValid s = true <-> 0 <= s < 64.
Proof.
  unfold sq_isValid. rewrite andb_true_iff, Z.leb_le, Z.ltb_lt. tauto.
Qed.

(** One toggle off, on the cells. *)
Lemma step_off g beta index a p :
  Repr g beta -> 0 <= index < 64 -> beta index = Some (a, p) ->
  togglePieceAt index a p false g = Ok (toggled index a p false g)
  /\ Repr (toggled index a p false g) (upd beta index None)
  /\ forall a0,
       (kingCount (upd beta index None) a0
        + (if isKingOf a0 (Some (a, p)) then 1 else 0)
        = kingCount beta a0)%nat.
Proof.
  intros H Hi Hb.
  assert (Hpu : p <> Unknown).
  { destruct (H index (proj1 Hi)) as (Hc' & _). rewrite Hb in Hc'.
    intros ->. exact Hc'. }
  split; [apply togglePieceAt_ok; assumption | ].
  split; [apply toggled_Repr_off; [assumption | lia | assumption] | ].
  intros a0. pose proof (kingCount_upd beta index None a0 Hi) as E.
  rewrite Hb in E. change (isKingOf a0 None) with false in E.
  cbv iota in E. lia.
Qed.

(** One toggle on, on the cells. *)
Lemma step_on g beta index a p :
  Repr g beta -> 0 <= index < 64 -> beta index = None -> p <> Unknown ->
  togglePieceAt index a p true g = Ok (toggled index a p true g)
  /\ Repr (toggled index a p true g) (upd beta index (Some (a, p)))
  /\ forall a0,
       (kingCount (upd beta index (Some (a, p))) a0
        = kingCount beta a0 + (if isKingOf a0 (Some (a, p)) then 1 else 0))%nat.
Proof.
  intros H Hi Hb Hpu.
  split; [apply togglePieceAt_ok; assumption | ].
  split; [apply toggled_Repr_on; [assumption | lia | assumption | assumption] | ].
  intros a0. pose proof (kingCount_upd beta index (Some (a, p)) a0 Hi) as E.
  rewrite Hb in E. change (isKingOf a0 None) with false in E.
  cbv iota in E. lia.
Qed.

(** The capture block on the cells. *)
Lemma processCapture_Repr g beta army mv T :
  let index :=
    if mv_isEnPassant mv
    then sq_data (mkSquare (sq_file (mv_end mv))
                           (rankBehind army (sq_rank (mv_end mv))))
    else sq_data (mv_end mv) in
  Repr g beta -> 0 <= index < 64 ->
  beta index = Some (otherArmy army, T) ->
  exists g1,
    processCapture army mv g = Ok g1
    /\ Repr g1 (upd beta index None)
    /\ m_fileOfKingsRook g1 = m_fileOfKingsRook g
    /\ m_fileOfQueensRook g1 = m_fileOfQueensRook g
    /\ forall a0,
         (kingCount (upd beta index None) a0
          + (if isKingOf a0 (Some (otherArmy army, T)) then 1 else 0)
          = kingCount beta a0)%nat.
Proof.
  intros index H Hi Hb. unfold processCapture. fold index.
  set (g' := with_lastMove (setCapture true (m_lastMove g)) g).
  assert (H' : Repr g' beta).
  { apply (Repr_sameBoards g); [ | exact H].
    split; intros []; reflexivity. }
  rewrite (Repr_pieceTypeAt g' beta index H' (proj1 Hi)), Hb.
  destruct (step_off g' beta index (otherArmy army) T H' Hi Hb)
    as (Et & Hr & Hk).
  assert (Hpu : PieceType_eqb T Unknown = false).
  { apply PieceType_eqb_neq. destruct (H index (proj1 Hi)) as (Hc' & _).
    rewrite Hb in Hc'. intros ->. exact Hc'. }
  rewrite Hpu. cbn [negb q_assert bind]. rewrite Et. cbn [bind].
  set (g2 := toggled index (otherArmy army) T false g') in *.
  destruct (files_toggled index (otherArmy army) T false g') as [Fk Fq].
  fold g2 in Fk, Fq.
  eexists. split; [reflexivity | ].
  split; [ | split; [ | split; [ | exact Hk]]].
  - destruct (PieceType_eqb T Rook); [ | exact Hr].
    destruct (sq_file (mv_end mv) =? m_fileOfKingsRook g2);
      (eapply Repr_sameBoards; [ | exact Hr]);
      apply sameBoardsFiles_with_castle.
  - destruct (PieceType_eqb T Rook); [ | exact Fk].
    destruct (sq_file (mv_end mv) =? m_fileOfKingsRook g2); exact Fk.
  - destruct (PieceType_eqb T Rook); [ | exact Fq].
    destruct (sq_file (mv_end mv) =? m_fileOfKingsRook g2); exact Fq.
Qed.

Lemma cell_none (c : Cell) :
  armyBit c White = false -> armyBit c Black = false -> c = None.
Proof. destruct c as [[[] p] | ]; simpl; intros; congruence. Qed.

Lemma Repr_emptyAt g beta n :
  Repr g beta -> 0 <= n -> emptyAt g n = true -> beta n = None.
Proof.
  intros H Hn He. destruct (H n Hn) as (_ & Ha & _).
  unfold emptyAt, testBit in He. rewrite Z.lor_spec in He.
  apply negb_true_iff, orb_false_elim in He as [Hw Hb].
  apply cell_none.
  - rewrite <- (Ha White). exact Hw.
  - rewrite <- (Ha Black). exact Hb.
Qed.

(** The mover leaves its square and lands on an empty one. *)
Lemma placeMover_plain g beta army mv :
  let piece' := if negb (PieceType_eqb (mv_promotion mv) Unknown)
                then mv_promotion mv else mv_piece mv in
  mv_isCastle mv = false ->
  Repr g beta ->
  0 <= mv_start mv < 64 -> 0 <= mv_end mv < 64 ->
  beta (mv_start mv) = Some (army, mv_piece mv) ->
  beta (mv_end mv) = None ->
  piece' <> Unknown ->
  exists g2,
    placeMover army mv g = Ok g2
    /\ Repr g2 (upd (upd beta (mv_start mv) None) (mv_end mv)
                    (Some (army, piece')))
    /\ forall a0,
         (kingCount (upd (upd beta (mv_start mv) None) (mv_end mv)
                         (Some (army, piece'))) a0
          + (if isKingOf a0 (Some (army, mv_piece mv)) then 1 else 0)
          = kingCount beta a0
            + (if isKingOf a0 (Some (army, piece')) then 1 else 0))%nat.
Proof.
  intros piece' Hnc H Hs He Hbs Hbe Hpu.
  unfold placeMover, sq_data.
  destruct (step_off g beta (mv_start mv) army (mv_piece mv) H Hs Hbs)
    as (E1 & H1 & K1).
  rewrite E1. cbn [bind]. rewrite Hnc.
  assert (Hb1 : upd beta (mv_start mv) None (mv_end mv) = None).
  { unfold upd. destruct (mv_end mv =? mv_start mv); [reflexivity | exact Hbe]. }
  destruct (step_on _ _ (mv_end mv) army piece' H1 He Hb1 Hpu)
    as (E2 & H2 & K2).
  exists (toggled (mv_end mv) army piece' true
            (toggled (mv_start mv) army (mv_piece mv) false g)).
  split; [ | split; [exact H2 | ]].
  - unfold piece' in *.
    destruct (negb (PieceType_eqb (mv_promotion mv) Unknown)); exact E2.
  - intros a0. specialize (K1 a0). specialize (K2 a0). lia.
Qed.

(** The castle on the cells: king and rook leave, rook and king land. *)
Lemma placeMover_castle g beta army mv :
  let rookFrom :=
    mkSquare (match mv_castleSide mv with
              | KingSide => m_fileOfKingsRook g
              | QueenSide => m_fileOfQueensRook g
              end) (homeRank army) in
  let rookTo := mkSquare (match mv_castleSide mv with
                          | KingSide => 5 | QueenSide => 3 end)
                         (homeRank army) in
  let kingTo := mkSquare (match mv_castleSide mv with
                          | KingSide => 6 | QueenSide => 2 end)
                         (homeRank army) in
  mv_isCastle mv = true -> mv_piece mv = King ->
  Repr g beta ->
  0 <= mv_start mv < 64 -> 0 <= rookFrom < 64 ->
  beta (mv_start mv) = Some (army, King) ->
  beta rookFrom = Some (army, Rook) ->
  (rookTo = mv_start mv \/ rookTo = rookFrom \/ beta rookTo = None) ->
  (kingTo = mv_start mv \/ kingTo = rookFrom \/ beta kingTo = None) ->
  exists g2 beta',
    placeMover army mv g = Ok g2 /\ Repr g2 beta'
    /\ forall a0, kingCount beta' a0 = kingCount beta a0.
Proof.
  intros rookFrom rookTo kingTo Hc Hp H Hs Hrf Hbs Hbr Hfr Hfk.
  assert (Hrt : 0 <= rookTo < 64 /\ 0 <= kingTo < 64 /\ kingTo <> rookTo).
  { unfold rookTo, kingTo. destruct army, (mv_castleSide mv); vm_compute;
      repeat split; congruence. }
  destruct Hrt as (Hrt & Hkt & Hne).
  unfold placeMover, sq_data. rewrite Hp.
  destruct (step_off g beta (mv_start mv) army King H Hs Hbs) as (E1 & H1 & K1).
  rewrite E1. cbn [bind]. rewrite Hc.
  set (g1 := toggled (mv_start mv) army King false g) in *.
  set (b1 := upd beta (mv_start mv) None) in *.
  assert (Efile : mkSquare (match mv_castleSide mv with
                            | KingSide => m_fileOfKingsRook g1
                            | QueenSide => m_fileOfQueensRook g1
                            end) (homeRank army) = rookFrom).
  { unfold rookFrom, g1.
    destruct (files_toggled (mv_start mv) army King false g) as [-> ->].
    reflexivity. }
  assert (Hb1 : b1 rookFrom = Some (army, Rook)).
  { unfold b1, upd. destruct (Z.eqb_spec rookFrom (mv_start mv)) as [E | _];
      [ | exact Hbr].
    rewrite E in Hbr. congruence. }
  destruct (step_off g1 b1 rookFrom army Rook H1 Hrf Hb1) as (E2 & H2 & K2).
  set (g2 := toggled rookFrom army Rook false g1) in *.
  set (b2 := upd b1 rookFrom None) in *.
  assert (Hb2 : b2 rookTo = None).
  { unfold b2, b1, upd.
    destruct (Z.eqb_spec rookTo rookFrom); [reflexivity | ].
    destruct (Z.eqb_spec rookTo (mv_start mv)); [reflexivity | ].
    destruct Hfr as [? | [? | ?]]; [contradiction | contradiction | assumption]. }
  assert (Hrook : Rook <> Unknown) by discriminate.
  destruct (step_on g2 b2 rookTo army Rook H2 Hrt Hb2 Hrook) as (E3 & H3 & K3).
  set (g3 := toggled rookTo army Rook true g2) in *.
  set (b3 := upd b2 rookTo (Some (army, Rook))) in *.
  assert (Hb3 : b3 kingTo = None).
  { unfold b3, b2, b1, upd.
    destruct (Z.eqb_spec kingTo rookTo); [contradiction | ].
    destruct (Z.eqb_spec kingTo rookFrom); [reflexivity | ].
    destruct (Z.eqb_spec kingTo (mv_start mv)); [reflexivity | ].
    destruct Hfk as [? | [? | ?]]; [contradiction | contradiction | assumption]. }
  assert (Hking : King <> Unknown) by discriminate.
  destruct (step_on g3 b3 kingTo army King H3 Hkt Hb3 Hking) as (E4 & H4 & K4).
  exists (toggled kingTo army King true g3), (upd b3 kingTo (Some (army, King))).
  split; [ | split; [exact H4 | ]].
  - destruct (mv_castleSide mv); cbn [bind];
      rewrite Efile, E2; cbn [bind]; fold g2;
      unfold rookTo, kingTo in *; rewrite E3; cbn [bind]; exact E4.
  - intros a0. specialize (K1 a0). specialize (K2 a0). specialize (K3 a0).
    specialize (K4 a0).
    change (isKingOf a0 (Some (army, Rook))) with false in K2, K3.
    cbv iota in K2, K3. lia.
Qed.

(** A sound move is applied without tripping an assertion, and the position it
    leaves has one piece at most on each square and the kings it had. *)
Lemma processMove_sound g beta mv :
  Repr g beta -> soundMove g mv = true ->
  exists g' beta',
    processMove (activeArmy g) mv g = Ok g' /\ Repr g' beta'
    /\ forall a0, kingCount beta' a0 = kingCount beta a0.
Proof.
  intros H Hsound. unfold soundMove in Hsound. cbv zeta in Hsound.
  set (army := activeArmy g) in *.
  apply andb_prop in Hsound as [Hsound Hkind].
  apply andb_prop in Hsound as [Hvalid Hstart].
  unfold mv_isValid in Hvalid. apply andb_prop in Hvalid as [Hs He].
  apply sq_isValid_range in Hs, He.
  assert (Hbs : beta (mv_start mv) = Some (army, mv_piece mv)).
  { destruct (H (mv_start mv) (proj1 Hs)) as (_ & Ha & Hp).
    unfold testBit in Hstart. rewrite Z.land_spec in Hstart.
    apply andb_prop in Hstart as [Hsa Hsp].
    apply bits_cell; [rewrite <- Ha | rewrite <- Hp]; assumption. }
  assert (Hpu : mv_piece mv <> Unknown).
  { destruct (H (mv_start mv) (proj1 Hs)) as (Hc & _). rewrite Hbs in Hc.
    intros E. rewrite E in Hc. exact Hc. }
  unfold processMove.
  set (g0 := updateRights army mv
               (with_enPassantTarget invalidSquare (with_lastMove mv g))).
  assert (F0 : sameBoardsFiles g g0).
  { eapply sameBoardsFiles_trans; [apply (sameBoardsFiles_start mv) | ].
    apply sameBoardsFiles_updateRights. }
  assert (H0 : Repr g0 beta) by (apply (Repr_sameBoards g); [apply F0 | exact H]).
  unfold sq_data.
  rewrite (Repr_hasPieceAt g0 beta (mv_end mv) (otherArmy army) H0 (proj1 He)).
  destruct (mv_isCastle mv) eqn:Ecastle.
  - (* a castle *)
    unfold soundCastle in Hkind. cbv zeta in Hkind.
    set (rookFrom := mkSquare (match mv_castleSide mv with
                               | KingSide => m_fileOfKingsRook g
                               | QueenSide => m_fileOfQueensRook g
                               end) (homeRank army)) in *.
    set (rookTo := mkSquare (match mv_castleSide mv with
                             | KingSide => 5 | QueenSide => 3 end)
                            (homeRank army)) in *.
    set (kingTo := mkSquare (match mv_castleSide mv with
                             | KingSide => 6 | QueenSide => 2 end)
                            (homeRank army)) in *.
    apply andb_prop in Hkind as [Hkind Hnep].
    apply andb_prop in Hkind as [Hkind Hncap].
    apply andb_prop in Hkind as [Hkind Hfk].
    apply andb_prop in Hkind as [Hkind Hfr].
    apply andb_prop in Hkind as [Hkind Hrook].
    apply andb_prop in Hkind as [Hking Hrf].
    apply PieceType_eqb_eq in Hking. apply sq_isValid_range in Hrf.
    apply negb_true_iff in Hnep, Hncap.
    rewrite (Repr_hasPieceAt g beta (mv_end mv) (otherArmy army) H (proj1 He))
      in Hncap.
    rewrite Hncap, Hnep. cbn [orb bind].
    assert (Hbr : beta rookFrom = Some (army, Rook)).
    { destruct (H rookFrom (proj1 Hrf)) as (_ & Ha & Hp).
      unfold testBit in Hrook. rewrite Z.land_spec in Hrook.
      apply andb_prop in Hrook as [Hra Hrp].
      apply bits_cell; [rewrite <- Ha | rewrite <- Hp]; assumption. }
    assert (Hfree : forall t, 0 <= t ->
               (t =? mv_start mv) || (t =? rookFrom) || emptyAt g t = true ->
               t = mv_start mv \/ t = rookFrom \/ beta t = None).
    { intros t Ht Hf. apply orb_prop in Hf as [Hf | Hf].
      - apply orb_prop in Hf as [Hf | Hf]; apply Z.eqb_eq in Hf; auto.
      - right. right. exact (Repr_emptyAt g beta t H Ht Hf). }
    assert (Hrt0 : 0 <= rookTo /\ 0 <= kingTo).
    { unfold rookTo, kingTo. destruct army, (mv_castleSide mv); vm_compute;
        split; congruence. }
    set (g1 := tickClock mv false g0).
    assert (F1 : sameBoardsFiles g g1).
    { eapply sameBoardsFiles_trans; [exact F0 | ].
      apply sameBoardsFiles_tickClock. }
    assert (H1 : Repr g1 beta)
      by (apply (Repr_sameBoards g); [apply F1 | exact H]).
    destruct F1 as (_ & Fk & Fq).
    rewrite Hking in Hbs.
    destruct (placeMover_castle g1 beta army mv Ecastle Hking H1 Hs)
      as (g2 & beta' & E2 & H2 & K2).
    + rewrite Fk, Fq. exact Hrf.
    + exact Hbs.
    + rewrite Fk, Fq. exact Hbr.
    + rewrite Fk, Fq. apply Hfree; [apply Hrt0 | exact Hfr].
    + rewrite Fk, Fq. apply Hfree; [apply Hrt0 | exact Hfk].
    + rewrite E2. cbn [bind]. exists (endTurn g2), beta'.
      split; [reflexivity | split; [ | exact K2]].
      apply (Repr_sameBoards g2); [apply sameBoardsFiles_endTurn | exact H2].
  - (* any other move *)
    apply andb_prop in Hkind as [Hcap Hprom].
    set (piece' := if negb (PieceType_eqb (mv_promotion mv) Unknown)
                   then mv_promotion mv else mv_piece mv).
    assert (Hpiece' : piece' <> Unknown
                      /\ forall a0, isKingOf a0 (Some (army, piece'))
                                    = isKingOf a0 (Some (army, mv_piece mv))).
    { unfold piece', soundPromotion in *.
      destruct (mv_promotion mv); simpl in *; try discriminate;
        try (split; [assumption || discriminate | ]);
        try (apply PieceType_eqb_eq in Hprom; rewrite Hprom);
        try reflexivity. }
    destruct Hpiece' as [Hpu' Hsame]. subst piece'.
    (* the cells after the capture block, and what it removed *)
    assert (Hcapture :
      exists g1 beta1,
        (if armyBit (beta (mv_end mv)) (otherArmy army) || mv_isEnPassant mv
         then processCapture army mv g0 else Ok g0) = Ok g1
        /\ Repr g1 beta1
        /\ beta1 (mv_start mv) = Some (army, mv_piece mv)
        /\ beta1 (mv_end mv) = None
        /\ forall a0, kingCount beta1 a0 = kingCount beta a0).
    { unfold soundCapture in Hcap.
      destruct (mv_isEnPassant mv) eqn:Eep.
      - (* en passant *)
        cbv zeta in Hcap.
        set (behind := mkSquare (sq_file (mv_end mv))
                                (rankBehind army (sq_rank (mv_end mv)))) in *.
        apply andb_prop in Hcap as [Hcap HnotKing].
        apply andb_prop in Hcap as [Hcap Henemy].
        apply andb_prop in Hcap as [Hempty Hbv].
        apply sq_isValid_range in Hbv.
        pose proof (Repr_emptyAt g beta (mv_end mv) H (proj1 He) Hempty) as Hbe.
        rewrite (Repr_hasPieceAt g beta behind _ H (proj1 Hbv)) in Henemy.
        rewrite (Repr_pieceTypeAt g beta behind H (proj1 Hbv)) in HnotKing.
        destruct (beta behind) as [[a T] | ] eqn:Ebb; [ | discriminate].
        simpl in Henemy. apply Army_eqb_eq in Henemy. subst a.
        rewrite orb_true_r.
        destruct (processCapture_Repr g0 beta army mv T H0) as
          (g1 & E1 & H1 & _ & _ & K1).
        + rewrite Eep. exact Hbv.
        + rewrite Eep. exact Ebb.
        + rewrite Eep in H1, K1. cbv iota in H1, K1.
          unfold sq_data in H1, K1. fold behind in H1, K1.
          exists g1, (upd beta behind None).
          split; [exact E1 | split; [exact H1 | ]].
          split; [ | split].
          * unfold upd. destruct (Z.eqb_spec (mv_start mv) behind) as [E | _];
              [ | exact Hbs].
            rewrite E, Ebb in Hbs. destruct army; discriminate.
          * unfold upd. destruct (mv_end mv =? behind); [reflexivity | exact Hbe].
          * intros a0. specialize (K1 a0).
            assert (Ek : isKingOf a0 (Some (otherArmy army, T)) = false).
            { destruct T; try reflexivity. discriminate. }
            rewrite Ek in K1. lia.
      - (* no en passant *)
        apply andb_prop in Hcap as [Hown HnotKing].
        apply negb_true_iff in Hown, HnotKing.
        rewrite (Repr_hasPieceAt g beta _ _ H (proj1 He)) in Hown.
        rewrite (Repr_hasPieceAt g beta _ _ H (proj1 He)) in HnotKing.
        rewrite (Repr_pieceTypeAt g beta _ H (proj1 He)) in HnotKing.
        rewrite orb_false_r.
        destruct (beta (mv_end mv)) as [[a T] | ] eqn:Ebe.
        + assert (Ea : a = otherArmy army).
          { simpl in Hown. destruct army, a; simpl in *; congruence. }
          subst a.
          assert (Ee : armyBit (Some (otherArmy army, T)) (otherArmy army) = true).
          { destruct army; reflexivity. }
          rewrite Ee in *. simpl in HnotKing.
          destruct (processCapture_Repr g0 beta army mv T H0) as
            (g1 & E1 & H1 & _ & _ & K1).
          * rewrite Eep. exact He.
          * rewrite Eep. exact Ebe.
          * rewrite Eep in H1, K1. cbv iota in H1, K1.
            unfold sq_data in H1, K1.
            exists g1, (upd beta (mv_end mv) None).
            split; [exact E1 | split; [exact H1 | ]].
            split; [ | split].
            -- unfold upd.
               destruct (Z.eqb_spec (mv_start mv) (mv_end mv)) as [E | _];
                 [ | exact Hbs].
               rewrite E, Ebe in Hbs. destruct army; discriminate.
            -- unfold upd. rewrite Z.eqb_refl. reflexivity.
            -- intros a0. specialize (K1 a0).
               assert (Ek : isKingOf a0 (Some (otherArmy army, T)) = false).
               { destruct T; try reflexivity. discriminate. }
               rewrite Ek in K1. lia.
        + simpl. exists g0, beta.
          split; [reflexivity | split; [exact H0 | ]].
          split; [exact Hbs | split; [exact Ebe | reflexivity]]. }
    destruct Hcapture as (g1 & beta1 & E1 & H1 & Hb1s & Hb1e & K1).
    rewrite E1. cbn [bind].
    set (capture := armyBit (beta (mv_end mv)) (otherArmy army)
                    || mv_isEnPassant mv) in *.
    assert (H1' : Repr (tickClock mv capture g1) beta1).
    { apply (Repr_sameBoards g1); [apply sameBoardsFiles_tickClock | exact H1]. }
    destruct (placeMover_plain (tickClock mv capture g1) beta1 army mv
                Ecastle H1' Hs He Hb1s Hb1e Hpu')
      as (g2 & E2 & H2 & K2).
    rewrite E2. cbn [bind].
    eexists. eexists. split; [reflexivity | split].
    + apply (Repr_sameBoards g2); [apply sameBoardsFiles_endTurn | exact H2].
    + intros a0. specialize (K1 a0). specialize (K2 a0).
      rewrite (Hsame a0) in K2. lia.
Qed.

(** ** The loops of [setFen] as placements *)

Lemma parseRank_placeAll i rank j blank st :
  parseRank i rank j blank st = placeAll (rankPlacements i rank j blank) st.
Proof.
  revert j blank st. induction rank as [ | c rest IH]; intros j blank st;
    [reflexivity | ].
  cbn [parseRank rankPlacements].
  destruct (isLetter c && isUpper c).
  - cbn [placeAll place].
    destruct (togglePieceAt _ White (charToPiece c) true (fst st)); cbn [bind];
      [apply IH | reflexivity].
  - destruct (isLetter c && isLower c).
    + cbn [placeAll place].
      destruct (togglePieceAt _ Black (charToPiece (toUpper c)) true (fst st));
        cbn [bind]; [apply IH | reflexivity].
    + destruct (isNumber c); apply IH.
Qed.

Lemma placeAll_app pls1 pls2 st :
  placeAll (pls1 ++ pls2) st = (st' <- placeAll pls1 st ;; placeAll pls2 st').
Proof.
  revert st. induction pls1 as [ | pl pls1 IH]; intros st; [reflexivity | ].
  cbn [app placeAll]. destruct (place st pl); cbn [bind];
    [apply IH | reflexivity].
Qed.

Lemma parseRanks_placeAll ranks i st :
  parseRanks ranks i st = placeAll (placements ranks i) st.
Proof.
  revert i st. induction ranks as [ | rank rest IH]; intros i st;
    [reflexivity | ].
  cbn [parseRanks placements]. rewrite placeAll_app, parseRank_placeAll.
  destruct (placeAll (rankPlacements i rank 0 0) st); cbn [bind];
    [apply IH | reflexivity].
Qed.

Lemma sameScalars_refl g : sameScalars g g.
Proof. repeat split. Qed.

Lemma sameScalars_toggled index a p bit g :
  sameScalars g (toggled index a p bit g).
Proof. destruct a, p; repeat split. Qed.

Lemma sameScalars_trans g1 g2 g3 :
  sameScalars g1 g2 -> sameScalars g2 g3 -> sameScalars g1 g3.
Proof. unfold sameScalars. intuition congruence. Qed.

(** Fresh placements are all toggled on. *)
Lemma placeAll_Repr pls : forall g fd beta,
  Repr g beta -> freshPlacements beta pls ->
  exists g',
    placeAll pls (g, fd) = Ok (g', notes pls fd)
    /\ Repr g' (overlay beta pls)
    /\ sameScalars g g'
    /\ forall a0,
         (kingCount (overlay beta pls) a0
          = kingCount beta a0 + countKings a0 pls)%nat.
Proof.
  induction pls as [ | [[sq a] p] rest IH]; intros g fd beta H Hfresh.
  - exists g. split; [reflexivity | ]. split; [exact H | ].
    split; [apply sameScalars_refl | ]. intros a0. unfold countKings. simpl. lia.
  - cbn [freshPlacements fst snd] in Hfresh.
    destruct Hfresh as (Hsq & Hp & Hb & Hrest).
    destruct (step_on g beta sq a p H Hsq Hb Hp) as (E & H1 & K1).
    destruct (IH (toggled sq a p true g) (note a p sq fd) _ H1 Hrest)
      as (g' & E' & H' & S' & K').
    exists g'. split; [ | split; [exact H' | split]].
    + cbn [placeAll place fst snd]. unfold sq_data. rewrite E. cbn [bind].
      exact E'.
    + eapply sameScalars_trans; [apply sameScalars_toggled | exact S'].
    + intros a0. specialize (K1 a0). specialize (K' a0).
      unfold overlay in *. cbn [fold_left fst snd]. rewrite K', K1.
      unfold countKings. cbn [filter fst snd].
      destruct (isKingOf a0 (Some (a, p))); simpl; lia.
Qed.

Lemma freshPlacements_NoDup pls : forall beta,
  (forall pl, In pl pls ->
     0 <= fst (fst pl) < 64 /\ snd pl <> Unknown /\ beta (fst (fst pl)) = None) ->
  NoDup (map (fun pl => fst (fst pl)) pls) ->
  freshPlacements beta pls.
Proof.
  induction pls as [ | pl rest IH]; intros beta Hall Hnd; [exact I | ].
  cbn [freshPlacements]. inversion Hnd as [ | ? ? Hnotin Hnd']; subst.
  destruct (Hall pl (or_introl eq_refl)) as (H1 & H2 & H3).
  split; [exact H1 | split; [exact H2 | split; [exact H3 | ]]].
  apply IH; [ | exact Hnd'].
  intros pl' Hin. destruct (Hall pl' (or_intror Hin)) as (G1 & G2 & G3).
  split; [exact G1 | split; [exact G2 | ]].
  unfold upd.
  match goal with |- (if ?c then _ else _) = _ => destruct c eqn:E end;
    [ | exact G3].
  apply Z.eqb_eq in E. exfalso. apply Hnotin.
  apply in_map_iff. exists pl'. split; [exact E | exact Hin].
Qed.

(** ** Well-formed ranks *)

(** The three kinds of characters of a well-formed rank, as [parseRank]
    tells them apart. *)
Lemma okChar_cases c :
  okChar c = true ->
  (isLetter c && isUpper c = true /\ charToPiece c <> Unknown
   /\ charWidth c = 1)
  \/ (isLetter c && isUpper c = false /\ isLetter c && isLower c = true
      /\ charToPiece (toUpper c) <> Unknown /\ charWidth c = 1)
  \/ (isLetter c && isUpper c = false /\ isLetter c && isLower c = false
      /\ isNumber c = true /\ 1 <= toInt [c] <= 8
      /\ charWidth c = toInt [c]).
Proof.
  destruct c as [b0 b1 b2 b3 b4 b5 b6 b7].
  destruct b0, b1, b2, b3, b4, b5, b6, b7; vm_compute; intros H;
    try discriminate H;
    first [ left; repeat split; discriminate
          | right; left; repeat split; discriminate
          | right; right; repeat split; discriminate ].
Qed.

(** The king letters. *)
Lemma king_letter c a :
  (if isLetter c && isUpper c
   then isKingOf a (Some (White, charToPiece c))
   else if isLetter c && isLower c
        then isKingOf a (Some (Black, charToPiece (toUpper c)))
        else false)
  = ascii_eqb (match a with White => "K" | Black => "k" end)%char c.
Proof.
  destruct c as [b0 b1 b2 b3 b4 b5 b6 b7].
  destruct a, b0, b1, b2, b3, b4, b5, b6, b7; vm_compute; reflexivity.
Qed.

Lemma countKings_rank a i rank : forall j blank,
  countKings a (rankPlacements i rank j blank)
  = length (filter (ascii_eqb (match a with White => "K" | Black => "k" end)%char)
                   rank).
Proof.
  induction rank as [ | c rest IH]; intros j blank; [reflexivity | ].
  cbn [rankPlacements filter]. rewrite <- (king_letter c a).
  unfold countKings in *.
  destruct (isLetter c && isUpper c).
  - cbn [filter fst snd].
    destruct (isKingOf a (Some (White, charToPiece c))); cbn [length];
      rewrite IH; reflexivity.
  - destruct (isLetter c && isLower c).
    + cbn [filter fst snd].
      destruct (isKingOf a (Some (Black, charToPiece (toUpper c))));
        cbn [length]; rewrite IH; reflexivity.
    + destruct (isNumber c); apply IH.
Qed.

Lemma countKings_placements a ranks : forall i,
  countKings a (placements ranks i)
  = countChar (match a with White => "K" | Black => "k" end)%char ranks.
Proof.
  induction ranks as [ | rank rest IH]; intros i; [reflexivity | ].
  cbn [placements]. unfold countKings, countChar in *. cbn [concat].
  rewrite !filter_app, !length_app, IH.
  f_equal. apply (countKings_rank a i rank 0 0).
Qed.

Lemma mkSquare_onBoard file rank :
  0 <= file < 8 -> 0 <= rank < 8 -> mkSquare file rank = file + 8 * rank.
Proof. intros Hf Hr. unfold mkSquare. apply Z.mod_small. lia. Qed.

Lemma rankWidth_nonneg rank : forallb okChar rank = true -> 0 <= rankWidth rank.
Proof.
  induction rank as [ | c rest IH]; simpl; intros H; [lia | ].
  apply andb_prop in H as [Hc Hrest]. specialize (IH Hrest).
  apply okChar_cases in Hc as [(_ & _ & W) | [(_ & _ & _ & W) | (_ & _ & _ & R & W)]];
    rewrite W; lia.
Qed.

(** The placements of a well-formed rank stand on this rank, on files that
    grow. *)
Lemma rankPlacements_wf i rank : forall j blank,
  0 <= i <= 7 -> forallb okChar rank = true ->
  0 <= j + blank -> j + blank + rankWidth rank <= 8 ->
  (forall pl, In pl (rankPlacements i rank j blank) ->
     snd pl <> Unknown
     /\ exists f, j + blank <= f < j + blank + rankWidth rank
                  /\ fst (fst pl) = f + 8 * (7 - i))
  /\ NoDup (map (fun pl => fst (fst pl)) (rankPlacements i rank j blank)).
Proof.
  induction rank as [ | c rest IH]; intros j blank Hi Hok H0 H8.
  - split; [intros pl [] | constructor].
  - cbn [forallb] in Hok. apply andb_prop in Hok as [Hc Hrest].
    pose proof (rankWidth_nonneg rest Hrest) as Hw.
    cbn [rankWidth fold_right] in H8. fold (rankWidth rest) in H8.
    cbn [rankPlacements rankWidth fold_right]. fold (rankWidth rest).
    apply okChar_cases in Hc
      as [(L & P & W) | [(L1 & L2 & P & W) | (L1 & L2 & N & R & W)]].
    + rewrite L. rewrite W in *.
      destruct (IH (j + 1) blank Hi Hrest) as [IH1 IH2]; [lia | lia | ].
      assert (Esq : mkSquare (j + blank) (7 - i) = (j + blank) + 8 * (7 - i))
        by (apply mkSquare_onBoard; lia).
      split.
      * intros pl [<- | Hin]; cbn [fst snd].
        -- split; [exact P | ]. exists (j + blank). split; [lia | exact Esq].
        -- destruct (IH1 pl Hin) as (Hp & f & Hf & Ef).
           split; [exact Hp | ]. exists f. split; [lia | exact Ef].
      * cbn [map fst]. constructor; [ | exact IH2].
        intros Hin. apply in_map_iff in Hin as (pl & Epl & Hin).
        destruct (IH1 pl Hin) as (_ & f & Hf & Ef).
        rewrite Esq, Ef in Epl. lia.
    + rewrite L1, L2. rewrite W in *.
      destruct (IH (j + 1) blank Hi Hrest) as [IH1 IH2]; [lia | lia | ].
      assert (Esq : mkSquare (j + blank) (7 - i) = (j + blank) + 8 * (7 - i))
        by (apply mkSquare_onBoard; lia).
      split.
      * intros pl [<- | Hin]; cbn [fst snd].
        -- split; [exact P | ]. exists (j + blank). split; [lia | exact Esq].
        -- destruct (IH1 pl Hin) as (Hp & f & Hf & Ef).
           split; [exact Hp | ]. exists f. split; [lia | exact Ef].
      * cbn [map fst]. constructor; [ | exact IH2].
        intros Hin. apply in_map_iff in Hin as (pl & Epl & Hin).
        destruct (IH1 pl Hin) as (_ & f & Hf & Ef).
        rewrite Esq, Ef in Epl. lia.
    + rewrite L1, L2, N. rewrite W in *.
      destruct (IH (j + 1) (blank + (toInt [c] - 1)) Hi Hrest) as [IH1 IH2];
        [lia | lia | ].
      split; [ | exact IH2].
      intros pl Hin. destruct (IH1 pl Hin) as (Hp & f & Hf & Ef).
      split; [exact Hp | ]. exists f. split; [lia | exact Ef].
Qed.

(** The placements of a well-formed field stand on squares of the board, no
    two on the same square. *)
Lemma placements_wf ranks : forall i,
  0 <= i -> i + Z.of_nat (length ranks) <= 8 ->
  forallb wfRank ranks = true ->
  (forall pl, In pl (placements ranks i) ->
     snd pl <> Unknown
     /\ exists f k, 0 <= f < 8 /\ i <= k < i + Z.of_nat (length ranks)
                    /\ fst (fst pl) = f + 8 * (7 - k))
  /\ NoDup (map (fun pl => fst (fst pl)) (placements ranks i)).
Proof.
  induction ranks as [ | rank rest IH]; intros i Hi H8 Hok.
  - split; [intros pl [] | constructor].
  - cbn [forallb] in Hok. apply andb_prop in Hok as [Hrank Hrest].
    unfold wfRank in Hrank. apply andb_prop in Hrank as [Hchars Hwidth].
    apply Z.eqb_eq in Hwidth.
    cbn [length] in H8. rewrite Nat2Z.inj_succ in H8.
    destruct (rankPlacements_wf i rank 0 0) as [R1 R2]; try assumption; try lia.
    destruct (IH (i + 1)) as [IH1 IH2]; try assumption; try lia.
    cbn [placements length]. rewrite Nat2Z.inj_succ. split.
    + intros pl Hin. apply in_app_or in Hin as [Hin | Hin].
      * destruct (R1 pl Hin) as (Hp & f & Hf & Ef).
        split; [exact Hp | ]. exists f, i. split; [lia | split; [lia | exact Ef]].
      * destruct (IH1 pl Hin) as (Hp & f & k & Hf & Hk & Ef).
        split; [exact Hp | ]. exists f, k. split; [lia | split; [lia | exact Ef]].
    + rewrite map_app. apply NoDup_app; [exact R2 | exact IH2 | ].
      intros sq Hin1 Hin2.
      apply in_map_iff in Hin1 as (pl1 & E1 & Hin1).
      apply in_map_iff in Hin2 as (pl2 & E2 & Hin2).
      destruct (R1 pl1 Hin1) as (_ & f1 & Hf1 & Ef1).
      destruct (IH1 pl2 Hin2) as (_ & f2 & k2 & Hf2 & Hk2 & Ef2).
      rewrite E1 in Ef1. rewrite E2 in Ef2. lia.
Qed.

(** ** C3 *)

Lemma Repr_clearForFen g : Repr (clearForFen g) (fun _ => None).
Proof.
  intros n Hn. split; [exact I | split].
  - intros []; apply Z.bits_0.
  - intros []; apply Z.bits_0.
Qed.

Lemma sameBoards_refl g : sameBoards g g.
Proof. split; reflexivity. Qed.

Lemma sameBoards_trans g1 g2 g3 :
  sameBoards g1 g2 -> sameBoards g2 g3 -> sameBoards g1 g3.
Proof. intros [Ha Hp] [Ha' Hp']. split; congruence. Qed.

Lemma parseCastle_sameBoards chess960 fd c g g' :
  parseCastle chess960 fd c g = Ok g' -> sameBoards g g'.
Proof.
  unfold parseCastle.
  destruct (castlingFromFen chess960 (toLower c) _ _) as [[side sq] | ];
    cbn [bind fst snd]; [ | discriminate].
  destruct side; intros H; injection H as <-; split; intros []; reflexivity.
Qed.

Lemma parseCastling_sameBoards chess960 fd cs : forall g g',
  parseCastling chess960 fd cs g = Ok g' -> sameBoards g g'.
Proof.
  induction cs as [ | c cs IH]; intros g g'; cbn [parseCastling].
  - intros H. injection H as <-. apply sameBoards_refl.
  - destruct (parseCastle chess960 fd c g) as [g1 | ] eqn:E; cbn [bind];
      [ | discriminate].
    intros H. eapply sameBoards_trans; [ | exact (IH _ _ H)].
    exact (parseCastle_sameBoards _ _ _ _ _ E).
Qed.

(** The bitboards that [setFen] leaves are those of its loops over the
    piece-placement field. *)
Lemma setFen_boards chess960 fen g g' :
  setFen chess960 fen g = Ok g' ->
  exists st,
    parseRanks (placementField fen) 0 (clearForFen g, noneFound) = Ok st
    /\ sameBoards (fst st) g'.
Proof.
  unfold setFen, placementField.
  destruct (q_assert (Z.of_nat (length (split " " fen)) >=? 4)); cbn [bind];
    [ | discriminate].
  destruct (q_assert (Z.of_nat (length (split "/" (nth 0 (split " " fen) [])))
                      =? 8)); cbn [bind]; [ | discriminate].
  destruct (parseRanks (split "/" (nth 0 (split " " fen) [])) 0
              (clearForFen g, noneFound)) as [st | ]; cbn [bind];
    [ | discriminate].
  destruct (q_assert (sq_isValid (whiteKing (snd st)))); cbn [bind];
    [ | discriminate].
  destruct (q_assert (sq_isValid (blackKing (snd st)))); cbn [bind];
    [ | discriminate].
  match goal with
  | |- bind ?c _ = _ -> _ => destruct c as [g1 | ] eqn:Ec
  end; cbn [bind]; [ | discriminate].
  intros H. injection H as <-. exists st. split; [reflexivity | ].
  assert (S1 : sameBoards (fst st) g1).
  { destruct (negb (qs_eqb (nth 2 (split " " fen) []) (qs "-"))).
    - apply parseCastling_sameBoards in Ec.
      eapply sameBoards_trans; [ | exact Ec]. split; intros []; reflexivity.
    - injection Ec as <-. split; intros []; reflexivity. }
  eapply sameBoards_trans; [exact S1 | ].
  repeat match goal with
         | |- context [if ?b then _ else _] => destruct b
         end; split; intros []; reflexivity.
Qed.

Lemma kingCount_empty a : kingCount (fun _ => None) a = 0%nat.
Proof. destruct a; vm_compute; reflexivity. Qed.

(** After [setFen] on a well-formed piece-placement field. *)
Lemma setFen_invariants chess960 fen g g' :
  wfPlacementField (placementField fen) = true ->
  setFen chess960 fen g = Ok g' ->
  boardInvariants g' = true.
Proof.
  intros Hwf Hset. apply setFen_boards in Hset as (st & Est & Sst).
  unfold wfPlacementField in Hwf.
  apply andb_prop in Hwf as [Hwf Hk]. apply andb_prop in Hwf as [Hwf HK].
  apply andb_prop in Hwf as [Hlen Hranks].
  apply Nat.eqb_eq in Hlen, Hk, HK.
  rewrite parseRanks_placeAll in Est.
  destruct (placements_wf (placementField fen) 0) as [P1 P2];
    [lia | rewrite Hlen; simpl; lia | exact Hranks | ].
  assert (Hfresh : freshPlacements (fun _ => None)
                     (placements (placementField fen) 0)).
  { apply freshPlacements_NoDup; [ | exact P2].
    intros pl Hin. destruct (P1 pl Hin) as (Hp & f & k & Hf & Hk' & E).
    rewrite Hlen in Hk'. simpl in Hk'. unfold Square in *.
    split; [rewrite E; lia | split; [exact Hp | reflexivity]]. }
  destruct (placeAll_Repr _ (clearForFen g) noneFound _
              (Repr_clearForFen g) Hfresh) as (g1 & E1 & H1 & _ & K1).
  rewrite E1 in Est. injection Est as <-. cbn [fst] in Sst.
  apply boardInvariants_Repr.
  exists (overlay (fun _ => None) (placements (placementField fen) 0)).
  split; [exact (Repr_sameBoards _ _ _ Sst H1) | ].
  split.
  - rewrite K1, kingCount_empty, (countKings_placements White). exact HK.
  - rewrite K1, kingCount_empty, (countKings_placements Black). exact Hk.
Qed.

(** After a sound move. *)
Lemma makeMove_sound_invariants chess960 g move mv :
  boardInvariants g = true ->
  fillOutMove chess960 g (activeArmy g) move = Ok (Some mv) ->
  soundMove g mv = true ->
  exists g', makeMove chess960 move g = Ok (true, g')
             /\ boardInvariants g' = true.
Proof.
  intros Hinv Hfill Hsound.
  apply boardInvariants_Repr in Hinv as (beta & H & Kw & Kb).
  destruct (processMove_sound g beta mv H Hsound) as (g' & beta' & E & H' & K').
  exists g'. split.
  - unfold makeMove. rewrite Hfill. cbn [bind]. rewrite E. reflexivity.
  - apply boardInvariants_Repr. exists beta'. split; [exact H' | ].
    rewrite !K'. split; assumption.
Qed.

(** C3, as the code has it.  The claim fails for the moves that [makeMove]
    accepts without validation: from the starting position, where the
    invariants hold, the king "move" [e1d1] onto the own queen is answered
    [true] and leaves king and queen on the same square. *)
Lemma invariants_broken_by_unsound_move :
  exists g',
    makeMove false (moveOf "e1" "d1") startPosition = Ok (true, g')
    /\ boardInvariants startPosition = true
    /\ boardInvariants g' = false
    /\ testBit (Z.land (m_kingsBoard g') (m_queensBoard g')) 3 = true.
Proof.
  eexists. split; [vm_compute; reflexivity | ].
  split; [vm_compute; reflexivity | ].
  split; vm_compute; reflexivity.
Qed.

(** C3 (amended).  The board invariants (colour boards disjoint, piece boards
    pairwise disjoint, union of the colour boards equal to the union of the
    piece boards, exactly one king of each colour) hold after [setFen] on a
    FEN whose piece-placement field is well formed, and after every successful
    [makeMove], from a position where they hold, of a move that is sound: it
    moves a piece of the side to move, of the kind it names, from its start
    square; it does not end on a piece of the mover nor take the enemy king;
    it promotes a pawn only, to a queen, rook, bishop or knight; and a castle
    or an en-passant capture finds the rook, the empty castle squares, the
    empty end square and the captured piece in place. *)
Theorem invariants_after_setFen_and_sound_moves :
  (forall (chess960 : bool) (fen : QString) (g g' : Game),
      wfPlacementField (placementField fen) = true ->
      setFen chess960 fen g = Ok g' ->
      boardInvariants g' = true)
  /\ (forall (chess960 : bool) (g : Game) (move mv : Move),
         boardInvariants g = true ->
         fillOutMove chess960 g (activeArmy g) move = Ok (Some mv) ->
         soundMove g mv = true ->
         exists g', makeMove chess960 move g = Ok (true, g')
                    /\ boardInvariants g' = true).
Proof.
  split.
  - exact setFen_invariants.
  - exact makeMove_sound_invariants.
Qed.

(** The starting position, and the move [e2e4] from it. *)
Lemma invariants_after_setFen_and_sound_moves_witness :
  boardInvariants startPosition = true
  /\ exists g', makeMove false (moveOf "e2" "e4") startPosition = Ok (true, g')
                /\ boardInvariants g' = true.
Proof.
  destruct invariants_after_setFen_and_sound_moves as [HA HB].
  assert (Hstart : boardInvariants startPosition = true).
  { apply (HA false startFen blankGame startPosition);
      vm_compute; reflexivity. }
  split; [exact Hstart | ].
  apply (HB false startPosition (moveOf "e2" "e4")
            (setPiece Pawn (moveOf "e2" "e4")) Hstart);
    vm_compute; reflexivity.
Defined.

(* ================================================================= *)
(** * The round trip through FEN *)

(** ** The text of a rank *)

Lemma rankPlacements_cursor i rank : forall j blank j' blank',
  j + blank = j' + blank' ->
  rankPlacements i rank j blank = rankPlacements i rank j' blank'.
Proof.
  induction rank as [ | c rest IH]; intros j blank j' blank' E;
    [reflexivity | ].
  cbn [rankPlacements]. rewrite E.
  rewrite (IH (j + 1) blank (j' + 1) blank') by lia.
  rewrite (IH (j + 1) (blank + (toInt [c] - 1))
              (j' + 1) (blank' + (toInt [c] - 1))) by lia.
  reflexivity.
Qed.

Lemma rp_cons i c rest f :
  rp i (c :: rest) f
  = (if isLetter c && isUpper c
     then [(mkSquare f (7 - i), White, charToPiece c)]
     else if isLetter c && isLower c
          then [(mkSquare f (7 - i), Black, charToPiece (toUpper c))]
          else [])
    ++ rp i rest (f + charWidth c).
Proof.
  unfold rp, charWidth. cbn [rankPlacements]. rewrite Z.add_0_l.
  destruct (isLetter c && isUpper c) eqn:U.
  - assert (N : isNumber c = false).
    { unfold isLetter, isUpper, isNumber in *.
      destruct (48 <=? code c) eqn:E1, (code c <=? 57) eqn:E2; try reflexivity.
      apply andb_prop in U as [_ U]. apply andb_prop in U as [U _].
      apply Z.leb_le in E2, U. lia. }
    rewrite N. cbn [app]. f_equal. apply rankPlacements_cursor. lia.
  - destruct (isLetter c && isLower c) eqn:L.
    + assert (N : isNumber c = false).
      { unfold isLetter, isLower, isNumber in *.
        destruct (48 <=? code c) eqn:E1, (code c <=? 57) eqn:E2; try reflexivity.
        apply andb_prop in L as [_ L]. apply andb_prop in L as [L _].
        apply Z.leb_le in E2, L. lia. }
      rewrite N. cbn [app]. f_equal. apply rankPlacements_cursor. lia.
    + cbn [app]. destruct (isNumber c); apply rankPlacements_cursor; lia.
Qed.

Lemma rankWidth_app r1 r2 : rankWidth (r1 ++ r2) = rankWidth r1 + rankWidth r2.
Proof.
  induction r1 as [ | c r1 IH]; [reflexivity | ].
  cbn [app rankWidth fold_right]. fold (rankWidth (r1 ++ r2)).
  fold (rankWidth r1). rewrite IH. lia.
Qed.

Lemma rp_app i r1 r2 : forall f,
  rp i (r1 ++ r2) f = rp i r1 f ++ rp i r2 (f + rankWidth r1).
Proof.
  induction r1 as [ | c r1 IH]; intros f.
  - cbn [app]. unfold rankWidth. cbn [fold_right]. rewrite Z.add_0_r.
    reflexivity.
  - cbn [app]. rewrite !rp_cons, IH, <- app_assoc.
    cbn [rankWidth fold_right]. fold (rankWidth r1).
    rewrite Z.add_assoc. reflexivity.
Qed.

(** The digit written for one to eight pending blanks. *)
Lemma pending_spec i blank f :
  0 <= blank <= 8 ->
  forallb okChar (pending blank) = true
  /\ rankWidth (pending blank) = blank
  /\ rp i (pending blank) f = [].
Proof.
  intros H.
  assert (C : blank = 0 \/ blank = 1 \/ blank = 2 \/ blank = 3 \/ blank = 4
              \/ blank = 5 \/ blank = 6 \/ blank = 7 \/ blank = 8) by lia.
  destruct C as [-> | [-> | [-> | [-> | [-> | [-> | [-> | [-> | ->]]]]]]]];
    repeat split; reflexivity.
Qed.

(** The letter written for a piece reads back as this piece. *)
Lemma letterOf_spec i a p f :
  p <> Unknown ->
  okChar (letterOf a p) = true
  /\ charWidth (letterOf a p) = 1
  /\ rp i [letterOf a p] f = [(mkSquare f (7 - i), a, p)].
Proof.
  intros Hp. destruct a, p; try contradiction; repeat split; reflexivity.
Qed.

(** What [emitSquare] does, told by the cell of the square. *)
Lemma emitSquare_cell g i rank blank fd j :
  properCell (cellOf g (mkSquare j (7 - i))) ->
  emitSquare g i (rank, blank, fd) j
  = match cellOf g (mkSquare j (7 - i)) with
    | Some (a, p) =>
        (rank ++ pending blank ++ [letterOf a p], 0,
         note a p (mkSquare j (7 - i)) fd)
    | None => (rank, blank + 1, fd)
    end.
Proof.
  unfold emitSquare, cellOf, sq_data, pending, letterOf.
  destruct (hasPieceAt g (mkSquare j (7 - i)) White).
  - intros _. destruct (blank >? 0);
      destruct (pieceToChar (pieceTypeAt g (mkSquare j (7 - i))));
      rewrite <- ?app_assoc; reflexivity.
  - destruct (hasPieceAt g (mkSquare j (7 - i)) Black); [ | reflexivity].
    intros _. destruct (blank >? 0);
      destruct (pieceToChar (pieceTypeAt g (mkSquare j (7 - i))));
      rewrite <- ?app_assoc; reflexivity.
Qed.

Lemma files_S k : files (S k) = files k ++ [Z.of_nat k].
Proof. unfold files. rewrite seq_S, map_app. reflexivity. Qed.

Lemma notes_app pls1 pls2 fd :
  notes (pls1 ++ pls2) fd = notes pls2 (notes pls1 fd).
Proof. unfold notes. apply fold_left_app. Qed.

(** The inner loop of [stateOfGameToFen] over the first [k] files. *)
Lemma emitSquares_inv g i fd0 :
  0 <= i <= 7 ->
  (forall n, 0 <= n -> properCell (cellOf g n)) ->
  forall k, (k <= 8)%nat ->
  exists rank blank,
    fold_left (emitSquare g i) (files k) ([], 0, fd0)
    = (rank, blank, notes (occRank g i k) fd0)
    /\ forallb okChar rank = true
    /\ 0 <= blank /\ rankWidth rank + blank = Z.of_nat k
    /\ rp i rank 0 = occRank g i k.
Proof.
  intros Hi Hproper k. induction k as [ | k IH]; intros Hk.
  - exists [], 0. repeat split; reflexivity || lia.
  - destruct IH as (rank & blank & E & Hok & Hb & Hw & Hrp); [lia | ].
    pose proof (rankWidth_nonneg rank Hok) as Hw0.
    rewrite files_S, fold_left_app, E. cbn [fold_left].
    assert (Hsq : 0 <= mkSquare (Z.of_nat k) (7 - i)).
    { rewrite mkSquare_onBoard; lia. }
    rewrite emitSquare_cell by (apply Hproper; exact Hsq).
    unfold occRank. rewrite files_S, flat_map_app. cbn [flat_map].
    rewrite app_nil_r. fold (occRank g i k). unfold cellPlacement.
    pose proof (Hproper _ Hsq) as Hc.
    destruct (cellOf g (mkSquare (Z.of_nat k) (7 - i))) as [[a p] | ].
    + assert (Hp : p <> Unknown) by (intros ->; exact Hc).
      destruct (pending_spec i blank (0 + rankWidth rank)) as (P1 & P2 & P3); [lia | ].
      destruct (letterOf_spec i a p (Z.of_nat k) Hp) as (L1 & L2 & L3).
      exists (rank ++ pending blank ++ [letterOf a p]), 0.
      split; [ | split; [ | split; [lia | split]]].
      * rewrite notes_app. reflexivity.
      * rewrite !forallb_app, Hok, P1. cbn [forallb]. rewrite L1. reflexivity.
      * rewrite !rankWidth_app, P2. cbn [rankWidth fold_right]. rewrite L2. lia.
      * rewrite !rp_app, Hrp, P3, P2.
        replace (0 + rankWidth rank + blank) with (Z.of_nat k) by lia.
        rewrite L3. reflexivity.
    + exists rank, (blank + 1).
      split; [ | split; [exact Hok | split; [lia | split; [lia | ]]]].
      * rewrite notes_app. reflexivity.
      * rewrite app_nil_r. exact Hrp.
Qed.

(** The text of one rank, as the outer loop appends it. *)
Lemma emitRank_spec g i rl fd :
  0 <= i <= 7 ->
  (forall n, 0 <= n -> properCell (cellOf g n)) ->
  exists rank,
    emitRank g (rl, fd) i = (rl ++ [rank], notes (occRank g i 8) fd)
    /\ wfRank rank = true
    /\ rp i rank 0 = occRank g i 8.
Proof.
  intros Hi Hproper.
  destruct (emitSquares_inv g i fd Hi Hproper 8 (le_n 8))
    as (rank & blank & E & Hok & Hb & Hw & Hrp).
  pose proof (rankWidth_nonneg rank Hok) as Hw0.
  destruct (pending_spec i blank (0 + rankWidth rank)) as (P1 & P2 & P3);
    [lia | ].
  exists (rank ++ pending blank).
  split; [ | split].
  - unfold emitRank. cbn [fst snd]. change upto8 with (files 8). rewrite E.
    unfold pending. destruct (blank >? 0); rewrite ?app_nil_r; reflexivity.
  - unfold wfRank. rewrite forallb_app, Hok, P1, rankWidth_app, P2.
    apply Z.eqb_eq. lia.
  - rewrite rp_app, P3, app_nil_r. exact Hrp.
Qed.

Lemma placements_snoc rl r : forall i,
  placements (rl ++ [r]) i
  = placements rl i ++ rp (i + Z.of_nat (length rl)) r 0.
Proof.
  induction rl as [ | x rl IH]; intros i.
  - cbn [app placements length]. rewrite app_nil_r, Z.add_0_r. reflexivity.
  - cbn [app placements length]. rewrite IH, <- app_assoc, Nat2Z.inj_succ.
    replace (i + 1 + Z.of_nat (length rl)) with (i + Z.succ (Z.of_nat (length rl)))
      by lia.
    reflexivity.
Qed.

(** The outer loop of [stateOfGameToFen] over the first [k] ranks. *)
Lemma emitRanks_inv g :
  (forall n, 0 <= n -> properCell (cellOf g n)) ->
  forall k, (k <= 8)%nat ->
  exists rl,
    fold_left (emitRank g) (files k) ([], noneFound)
    = (rl, notes (occAll g k) noneFound)
    /\ length rl = k
    /\ forallb wfRank rl = true
    /\ placements rl 0 = occAll g k.
Proof.
  intros Hproper k. induction k as [ | k IH]; intros Hk.
  - exists []. repeat split; reflexivity.
  - destruct IH as (rl & E & Hlen & Hwf & Hpl); [lia | ].
    rewrite files_S, fold_left_app, E. cbn [fold_left].
    destruct (emitRank_spec g (Z.of_nat k) rl (notes (occAll g k) noneFound))
      as (rank & E1 & W1 & R1); [lia | exact Hproper | ].
    exists (rl ++ [rank]). rewrite E1.
    unfold occAll. rewrite files_S, flat_map_app. cbn [flat_map].
    rewrite app_nil_r. fold (occAll g k).
    split; [rewrite notes_app; reflexivity | ].
    split; [rewrite length_app, Hlen; simpl; lia | ].
    split; [rewrite forallb_app, Hwf; cbn [forallb]; rewrite W1; reflexivity | ].
    rewrite placements_snoc, Hpl, Hlen, Z.add_0_l, R1. reflexivity.
Qed.

Lemma In_files k x : In x (files k) <-> 0 <= x < Z.of_nat k.
Proof.
  unfold files. rewrite in_map_iff. split.
  - intros (n & <- & Hn). apply in_seq in Hn. lia.
  - intros H. exists (Z.to_nat x). split; [lia | ]. apply in_seq. lia.
Qed.

(** The placements of the emitted ranks are the occupied cells. *)
Lemma In_occAll g n a p :
  In (n, a, p) (occAll g 8) <-> 0 <= n < 64 /\ cellOf g n = Some (a, p).
Proof.
  unfold occAll, occRank. rewrite in_flat_map. split.
  - intros (i & Hi & Hin). apply in_flat_map in Hin as (j & Hj & Hin).
    apply In_files in Hi, Hj. change (Z.of_nat 8) with 8 in Hi, Hj.
    unfold cellPlacement in Hin.
    assert (E : mkSquare j (7 - i) = j + 8 * (7 - i))
      by (apply mkSquare_onBoard; lia).
    destruct (cellOf g (mkSquare j (7 - i))) as [[a' p'] | ] eqn:Ec;
      [ | contradiction].
    destruct Hin as [Hin | []].
    assert (En : n = mkSquare j (7 - i)) by congruence.
    assert (Eap : Some (a', p') = Some (a, p)) by congruence.
    split; [rewrite En, E; lia | rewrite En, Ec; exact Eap].
  - intros [Hn Hc]. unfold Square in *.
    assert (Hq : 0 <= n / 8 < 8 /\ 0 <= n mod 8 < 8 /\ n = 8 * (n / 8) + n mod 8).
    { pose proof (Z.div_mod n 8 ltac:(lia)) as D.
      pose proof (Z.mod_pos_bound n 8 ltac:(lia)) as M.
      split; [ | split; [exact M | exact D]]. lia. }
    destruct Hq as (Hq & Hm & En).
    exists (7 - n / 8). split; [apply In_files; change (Z.of_nat 8) with 8; lia | ].
    apply in_flat_map. exists (n mod 8).
    split; [apply In_files; change (Z.of_nat 8) with 8; lia | ].
    unfold cellPlacement.
    assert (E : mkSquare (n mod 8) (7 - (7 - n / 8)) = n).
    { rewrite mkSquare_onBoard by lia. lia. }
    rewrite E, Hc. left. reflexivity.
Qed.

Lemma overlay_notin pls : forall beta n,
  (forall pl, In pl pls -> fst (fst pl) <> n) ->
  overlay beta pls n = beta n.
Proof.
  induction pls as [ | pl rest IH]; intros beta n H; [reflexivity | ].
  unfold overlay in *. cbn [fold_left]. rewrite IH.
  - unfold upd.
    match goal with |- (if ?c then _ else _) = _ => destruct c eqn:E end;
      [ | reflexivity].
    apply Z.eqb_eq in E.
    exfalso. apply (H pl (or_introl eq_refl)). symmetry. exact E.
  - intros pl' Hin. apply H. right. exact Hin.
Qed.

Lemma overlay_in pls : forall beta n a p,
  NoDup (map (fun pl => fst (fst pl)) pls) ->
  In (n, a, p) pls ->
  overlay beta pls n = Some (a, p).
Proof.
  induction pls as [ | pl rest IH]; intros beta n a p Hnd Hin; [contradiction | ].
  inversion Hnd as [ | ? ? Hnotin Hnd']; subst.
  unfold overlay in *. cbn [fold_left]. destruct Hin as [-> | Hin].
  - cbn [fst snd]. fold (overlay (upd beta n (Some (a, p))) rest).
    rewrite overlay_notin.
    + unfold upd. rewrite Z.eqb_refl. reflexivity.
    + intros pl' Hin' E. apply Hnotin. apply in_map_iff.
      exists pl'. split; [exact E | exact Hin'].
  - apply IH; assumption.
Qed.

Lemma inRange_bits b n : inRange b = true -> 64 <= n -> Z.testbit b n = false.
Proof.
  unfold inRange. intros H Hn. apply andb_prop in H as [H0 H1].
  apply Z.leb_le in H0. apply Z.ltb_lt in H1.
  destruct (Z.eq_dec b 0) as [-> | Hb]; [apply Z.bits_0 | ].
  apply Z.bits_above_log2; [exact H0 | ].
  assert (Z.log2 b < 64) by (apply Z.log2_lt_pow2; lia). lia.
Qed.

Lemma cellOf_beyond g n :
  boardsInRange g = true -> 64 <= n -> cellOf g n = None.
Proof.
  unfold boardsInRange. intros H Hn. apply andb_prop in H as [Hw Hb].
  unfold cellOf, hasPieceAt, testBit.
  rewrite (inRange_bits _ n Hw Hn), (inRange_bits _ n Hb Hn). reflexivity.
Qed.

(** The cells that the placements of the emitted ranks build are those of the
    position. *)
Lemma overlay_occAll g n :
  cellInvariants g = true -> boardsInRange g = true ->
  NoDup (map (fun pl => fst (fst pl)) (occAll g 8)) ->
  0 <= n ->
  overlay (fun _ => None) (occAll g 8) n = cellOf g n.
Proof.
  intros Hc Hr Hnd Hn.
  destruct (cellOf g n) as [[a p] | ] eqn:E.
  - apply overlay_in; [exact Hnd | ]. apply In_occAll. split; [ | exact E].
    destruct (Z.lt_ge_cases n 64) as [ | Hge]; [lia | ].
    rewrite (cellOf_beyond g n Hr Hge) in E. discriminate.
  - apply overlay_notin. intros [[sq a] p] Hin Esq. cbn [fst] in Esq. subst sq.
    apply In_occAll in Hin as [_ Hin]. congruence.
Qed.

Lemma Repr_unique g g' beta beta' :
  Repr g beta -> Repr g' beta' ->
  (forall n, 0 <= n -> beta' n = beta n) ->
  sameBoards g g'.
Proof.
  intros H H' Hext. split.
  - intros a. apply Z.bits_inj'. intros n Hn.
    destruct (H n Hn) as (_ & Ha & _). destruct (H' n Hn) as (_ & Ha' & _).
    unfold testBit in *. rewrite Ha, Ha', (Hext n Hn). reflexivity.
  - intros p. apply Z.bits_inj'. intros n Hn.
    destruct (H n Hn) as (_ & _ & Hp). destruct (H' n Hn) as (_ & _ & Hp').
    unfold testBit in *. rewrite Hp, Hp', (Hext n Hn). reflexivity.
Qed.

(** ** The characters of the castling field *)

Lemma code_chr n : 0 <= n < 256 -> code (chr n) = n.
Proof.
  intros H. unfold code, chr. rewrite N_ascii_embedding by lia. lia.
Qed.

Lemma lower_letter c :
  isLower c = true ->
  isUpper (toUpper c) = true /\ toLower (toUpper c) = c
  /\ isUpper c = false /\ toLower c = c
  /\ isLetter c = true /\ isLetter (toUpper c) = true.
Proof.
  destruct c as [b0 b1 b2 b3 b4 b5 b6 b7].
  destruct b0, b1, b2, b3, b4, b5, b6, b7; vm_compute; intros H;
    try discriminate H; repeat split; reflexivity.
Qed.

Lemma letter_not_separator c :
  isLetter c || isNumber c = true ->
  ascii_eqb c "-" = false /\ ascii_eqb c " " = false /\ ascii_eqb c "/" = false.
Proof.
  unfold isLetter, isUpper, isLower, isNumber, ascii_eqb.
  change (code "-") with 45. change (code " ") with 32. change (code "/") with 47.
  intros H. repeat split; apply Z.eqb_neq; intros E; rewrite E in H;
    discriminate H.
Qed.

Lemma fileToChar_code file : 0 <= file < 8 -> code (fileToChar file) = 97 + file.
Proof. intros H. unfold fileToChar. apply code_chr. lia. Qed.

Lemma sq_file_range sq : 0 <= sq_file sq < 8.
Proof. unfold sq_file. apply Z.mod_pos_bound. lia. Qed.

Lemma fileToChar_lower file : 0 <= file < 8 -> isLower (fileToChar file) = true.
Proof.
  intros H. unfold isLower. rewrite fileToChar_code by exact H.
  apply andb_true_iff. split; apply Z.leb_le; lia.
Qed.

Lemma fileToChar_not_kq file :
  0 <= file < 8 ->
  ascii_eqb (fileToChar file) "k" = false
  /\ ascii_eqb (fileToChar file) "q" = false.
Proof.
  intros H. unfold ascii_eqb. rewrite fileToChar_code by exact H.
  change (code "k") with 107. change (code "q") with 113.
  split; apply Z.eqb_neq; lia.
Qed.

Lemma fileToChar_eqb f f' :
  0 <= f < 8 -> 0 <= f' < 8 ->
  ascii_eqb (fileToChar f) (fileToChar f') = (f =? f').
Proof.
  intros H H'. unfold ascii_eqb. rewrite !fileToChar_code by assumption.
  destruct (Z.eqb_spec f f') as [-> | N]; [apply Z.eqb_refl | ].
  apply Z.eqb_neq. lia.
Qed.

(** ** The rooks sorted by file *)

Lemma In_insertByFile s l x : In x (insertByFile s l) <-> x = s \/ In x l.
Proof.
  induction l as [ | y l IH]; cbn [insertByFile In].
  - intuition congruence.
  - destruct (sq_file s <=? sq_file y); cbn [In]; [intuition congruence | ].
    rewrite IH. intuition congruence.
Qed.

Lemma ascending_insertByFile s l : ascending l -> ascending (insertByFile s l).
Proof.
  induction l as [ | y l IH]; cbn [insertByFile ascending].
  - intros _. split; [intros ? [] | exact I].
  - intros [Hy Hl]. destruct (sq_file s <=? sq_file y) eqn:E; cbn [ascending].
    + apply Z.leb_le in E. split; [ | split; assumption].
      intros z [<- | Hz]; [lia | ]. specialize (Hy z Hz). lia.
    + apply Z.leb_gt in E. split; [ | apply IH; exact Hl].
      intros z Hz. apply In_insertByFile in Hz as [-> | Hz];
        [lia | exact (Hy z Hz)].
Qed.

Lemma In_sortByFile l x : In x (sortByFile l) <-> In x l.
Proof.
  induction l as [ | y l IH]; [reflexivity | ].
  unfold sortByFile in *. cbn [fold_right In].
  rewrite In_insertByFile, IH. intuition congruence.
Qed.

Lemma ascending_sortByFile l : ascending (sortByFile l).
Proof.
  induction l as [ | y l IH]; [exact I | ].
  unfold sortByFile in *. cbn [fold_right]. apply ascending_insertByFile.
  exact IH.
Qed.

Lemma q_last_snoc (l : list Square) x : q_last (l ++ [x]) = Ok x.
Proof. unfold q_last. rewrite rev_unit. reflexivity. Qed.

Lemma q_last_inv (l : list Square) x :
  q_last l = Ok x -> exists l0, l = l0 ++ [x].
Proof.
  unfold q_last. intros H. destruct (rev l) as [ | y r] eqn:E;
    [discriminate H | ].
  injection H as ->. exists (rev r).
  rewrite <- (rev_involutive l), E. reflexivity.
Qed.

Lemma q_last_nonempty (l : list Square) : l <> [] -> exists x, q_last l = Ok x.
Proof.
  intros H. destruct (exists_last H) as (l0 & x & ->). exists x.
  apply q_last_snoc.
Qed.

Lemma ascending_last l0 : forall x y,
  ascending (l0 ++ [x]) -> In y (l0 ++ [x]) -> sq_file y <= sq_file x.
Proof.
  induction l0 as [ | a l0 IH]; intros x y; cbn [app ascending In].
  - intros _ [<- | []]. lia.
  - intros [Ha Hl] [<- | Hy].
    + apply Ha. apply in_or_app. right. left. reflexivity.
    + exact (IH x y Hl Hy).
Qed.

(** ** [castlingFromFen] on what [fenFromCastling] writes *)

Lemma castlingFromFen_k chess960 king rooks sq :
  rooks <> [] -> sq_isValid king = true ->
  q_last rooks = Ok sq -> sq_file sq > sq_file king -> sq_isValid sq = true ->
  castlingFromFen chess960 "k" king rooks = Ok (KingSide, sq).
Proof.
  intros Hne Hk Hl Hf Hv. unfold castlingFromFen.
  destruct rooks as [ | r0 rs]; [contradiction | ].
  rewrite Hk. cbn [negb orb]. change (ascii_eqb "k" "k") with true. cbv iota.
  rewrite Hl. cbn [bind].
  replace (sq_file sq >? sq_file king) with true
    by (symmetry; apply Z.gtb_lt; lia).
  cbn [q_assert bind snd]. rewrite Hv. cbn [q_assert bind].
  replace (sq_file sq =? sq_file king) with false
    by (symmetry; apply Z.eqb_neq; lia).
  reflexivity.
Qed.

Lemma castlingFromFen_q chess960 king rooks sq :
  rooks <> [] -> sq_isValid king = true ->
  q_first rooks = Ok sq -> sq_file sq < sq_file king -> sq_isValid sq = true ->
  castlingFromFen chess960 "q" king rooks = Ok (QueenSide, sq).
Proof.
  intros Hne Hk Hl Hf Hv. unfold castlingFromFen.
  destruct rooks as [ | r0 rs]; [contradiction | ].
  rewrite Hk. cbn [negb orb]. change (ascii_eqb "q" "k") with false.
  change (ascii_eqb "q" "q") with true. cbv iota.
  rewrite Hl. cbn [bind].
  replace (sq_file sq <? sq_file king) with true
    by (symmetry; apply Z.ltb_lt; lia).
  cbn [q_assert bind snd]. rewrite Hv. cbn [q_assert bind].
  replace (sq_file sq =? sq_file king) with false
    by (symmetry; apply Z.eqb_neq; lia).
  reflexivity.
Qed.

Lemma castlingFromFen_file king rooks file :
  sq_isValid king = true ->
  (forall sq, In sq rooks -> sq_isValid sq = true) ->
  (forall sq, In sq rooks -> sq_file sq <> sq_file king) ->
  (exists sq, In sq rooks /\ sq_file sq = file) ->
  exists sq,
    castlingFromFen true (fileToChar file) king rooks
    = Ok (if sq_file sq >? sq_file king then KingSide else QueenSide, sq)
    /\ sq_file sq = file.
Proof.
  intros Hk Hv Hnk (sq0 & Hin0 & Hf0).
  assert (Hfile : 0 <= file < 8) by (rewrite <- Hf0; apply sq_file_range).
  destruct (fileToChar_not_kq file Hfile) as [Nk Nq].
  destruct (find (fun sq => ascii_eqb (fileToChar (sq_file sq)) (fileToChar file))
                 rooks) as [sq | ] eqn:Efind.
  - apply find_some in Efind as Hsq. destruct Hsq as [Hin Hsq].
    rewrite fileToChar_eqb in Hsq by (exact Hfile || apply sq_file_range).
    apply Z.eqb_eq in Hsq. exists sq. split; [ | exact Hsq].
    unfold castlingFromFen. destruct rooks as [ | r0 rs]; [contradiction | ].
    rewrite Hk. cbn [negb orb]. rewrite Nk, Nq. cbn [q_assert bind].
    rewrite Efind. cbn [snd]. rewrite (Hv sq Hin). cbn [q_assert bind].
    replace (sq_file sq =? sq_file king) with false
      by (symmetry; apply Z.eqb_neq; exact (Hnk sq Hin)).
    reflexivity.
  - exfalso. pose proof (find_none _ _ Efind sq0 Hin0) as N. cbv beta in N.
    rewrite fileToChar_eqb in N by (exact Hfile || apply sq_file_range).
    apply Z.eqb_neq in N. contradiction.
Qed.

(** The character that [fenFromCastling] writes for a right is read back by
    [castlingFromFen] as this right, with a rook on the file of the right. *)
Lemma castling_char chess960 castle king rooks file c :
  rooks <> [] -> sq_isValid king = true ->
  (forall sq, In sq rooks -> sq_isValid sq = true) ->
  ascending rooks ->
  fenFromCastling chess960 castle king rooks file = Ok c ->
  isLower c = true
  /\ exists sq, castlingFromFen chess960 c king rooks = Ok (castle, sq)
                /\ sq_file sq = file.
Proof.
  intros Hne Hk Hv Hasc. unfold fenFromCastling.
  destruct rooks as [ | r0 rs] eqn:Er; [contradiction | ]. rewrite <- Er in *.
  destruct (forallb (fun sq => negb (sq_file sq =? sq_file king)) rooks) eqn:Hnk;
    cbn [q_assert bind]; [ | discriminate].
  assert (Hnk' : forall sq, In sq rooks -> sq_file sq <> sq_file king).
  { intros sq Hin. rewrite forallb_forall in Hnk. specialize (Hnk sq Hin).
    apply negb_true_iff in Hnk. apply Z.eqb_neq in Hnk. exact Hnk. }
  destruct castle.
  - destruct (q_last (filter (fun sq => sq_file sq >? sq_file king) rooks))
      as [outer | ] eqn:El; cbn [bind]; [ | discriminate].
    apply q_last_inv in El as (r1 & Er1).
    assert (Hout : In outer (filter (fun sq => sq_file sq >? sq_file king) rooks)).
    { rewrite Er1. apply in_or_app. right. left. reflexivity. }
    apply filter_In in Hout as [Hin Hgt]. apply Z.gtb_lt in Hgt.
    destruct (sq_file outer =? file) eqn:Ef.
    + intros H. injection H as <-. apply Z.eqb_eq in Ef.
      split; [reflexivity | ]. exists outer. split; [ | exact Ef].
      destruct (q_last_nonempty rooks Hne) as (x & Ex).
      pose proof Ex as Ex'. apply q_last_inv in Ex' as (r2 & Er2).
      assert (Hx : sq_file outer <= sq_file x).
      { apply (ascending_last r2); rewrite <- Er2; assumption. }
      assert (Exo : x = outer).
      { assert (Efl : filter (fun sq => sq_file sq >? sq_file king) rooks
                      = filter (fun sq => sq_file sq >? sq_file king) r2 ++ [x]).
        { rewrite Er2 at 1. rewrite filter_app. cbn [filter].
          replace (sq_file x >? sq_file king) with true
            by (symmetry; apply Z.gtb_lt; lia).
          reflexivity. }
        rewrite Efl in Er1. apply app_inj_tail in Er1 as [_ E]. exact E. }
      subst x. apply castlingFromFen_k; try assumption; [lia | ].
      apply Hv. exact Hin.
    + destruct chess960; cbn [q_assert bind]; [ | discriminate].
      destruct (existsb (fun sq => sq_file sq =? file)
                  (filter (fun sq => sq_file sq >? sq_file king) rooks)) eqn:Ex;
        [ | discriminate].
      intros H. injection H as <-.
      apply existsb_exists in Ex as (sq0 & Hin0 & Hf0).
      apply filter_In in Hin0 as [Hin0 Hgt0]. apply Z.eqb_eq in Hf0.
      destruct (castlingFromFen_file king rooks file Hk Hv Hnk')
        as (sq & Esq & Hsq); [exists sq0; split; assumption | ].
      split; [apply fileToChar_lower; rewrite <- Hf0; apply sq_file_range | ].
      exists sq. split; [ | exact Hsq]. rewrite Esq, Hsq, <- Hf0, Hgt0.
      reflexivity.
  - destruct (q_first (filter (fun sq => sq_file sq <? sq_file king) rooks))
      as [outer | ] eqn:El; cbn [bind]; [ | discriminate].
    assert (Hout : In outer (filter (fun sq => sq_file sq <? sq_file king) rooks)).
    { destruct (filter (fun sq => sq_file sq <? sq_file king) rooks);
        [discriminate El | ]. injection El as ->. left. reflexivity. }
    apply filter_In in Hout as [Hin Hlt]. apply Z.ltb_lt in Hlt.
    destruct (sq_file outer =? file) eqn:Ef.
    + intros H. injection H as <-. apply Z.eqb_eq in Ef.
      split; [reflexivity | ]. exists outer. split; [ | exact Ef].
      assert (Hx : sq_file r0 <= sq_file outer).
      { rewrite Er in Hasc, Hin. cbn [ascending] in Hasc.
        destruct Hin as [<- | Hin]; [lia | ]. apply Hasc. exact Hin. }
      assert (Exo : r0 = outer).
      { rewrite Er in El. cbn [filter] in El.
        replace (sq_file r0 <? sq_file king) with true in El
          by (symmetry; apply Z.ltb_lt; lia).
        injection El as E. exact E. }
      apply castlingFromFen_q; try assumption; [ | apply Hv; exact Hin].
      rewrite Er. rewrite Exo. reflexivity.
    + destruct chess960; cbn [q_assert bind]; [ | discriminate].
      destruct (existsb (fun sq => sq_file sq =? file)
                  (filter (fun sq => sq_file sq <? sq_file king) rooks)) eqn:Ex;
        [ | discriminate].
      intros H. injection H as <-.
      apply existsb_exists in Ex as (sq0 & Hin0 & Hf0).
      apply filter_In in Hin0 as [Hin0 Hlt0]. apply Z.eqb_eq in Hf0.
      apply Z.ltb_lt in Hlt0.
      destruct (castlingFromFen_file king rooks file Hk Hv Hnk')
        as (sq & Esq & Hsq); [exists sq0; split; assumption | ].
      split; [apply fileToChar_lower; rewrite <- Hf0; apply sq_file_range | ].
      exists sq. split; [ | exact Hsq]. rewrite Esq, Hsq, <- Hf0.
      replace (sq_file sq0 >? sq_file king) with false
        by (symmetry; rewrite Z.gtb_ltb; apply Z.ltb_ge; lia).
      reflexivity.
Qed.

(** ** The castling field *)

Lemma emitCastle_step chess960 g fd a side cs0 cs1 :
  sq_isValid (kingOf fd a) = true ->
  (forall sq, In sq (rooksOf fd a) -> sq_isValid sq = true) ->
  ascending (rooksOf fd a) ->
  (isCastleAvailable g a side = true -> rooksOf fd a <> []) ->
  emitCastle chess960 g fd a side cs0 = Ok cs1 ->
  (isCastleAvailable g a side = false /\ cs1 = cs0)
  \/ (isCastleAvailable g a side = true
      /\ exists c,
           cs1 = cs0 ++ [c] /\ isLetter c = true
           /\ (forall g',
                 parseCastle chess960 fd c g'
                 = Ok (granted a side
                         match side with
                         | KingSide => m_fileOfKingsRook g
                         | QueenSide => m_fileOfQueensRook g
                         end g'))
           /\ match side with
              | KingSide => m_fileOfKingsRook g
              | QueenSide => m_fileOfQueensRook g
              end mod 256
              = match side with
                | KingSide => m_fileOfKingsRook g
                | QueenSide => m_fileOfQueensRook g
                end).
Proof.
  intros Hk Hv Hasc Hne. unfold emitCastle.
  destruct (isCastleAvailable g a side) eqn:Hav.
  - destruct (fenFromCastling chess960 side (kingOf fd a) (rooksOf fd a) _)
      as [c | ] eqn:Ec; cbn [bind]; [ | discriminate].
    intros H. injection H as <-. right. split; [reflexivity | ].
    destruct (castling_char _ _ _ _ _ _ (Hne eq_refl) Hk Hv Hasc Ec)
      as (Hlow & sq & Ecf & Hf).
    destruct (lower_letter c Hlow) as (U1 & U2 & U3 & U4 & U5 & U6).
    exists (match a with White => toUpper c | Black => c end).
    split; [reflexivity | ]. split; [destruct a; assumption | ]. split.
    + intros g'. unfold parseCastle. destruct a.
      * rewrite U1, U2. cbv iota. rewrite Ecf. cbn [bind fst snd].
        rewrite Hf. destruct side; reflexivity.
      * rewrite U3, U4. cbv iota. rewrite Ecf. cbn [bind fst snd].
        rewrite Hf. destruct side; reflexivity.
    + rewrite <- Hf. apply Z.mod_small. pose proof (sq_file_range sq). lia.
  - intros H. injection H as <-. left. split; reflexivity.
Qed.

Ltac castle_step E Hk Hv Hasc Hne :=
  apply emitCastle_step in E;
    [ | apply Hk | apply Hv | apply Hasc | apply Hne ];
  destruct E as [[? ?] | (? & ? & ? & ? & ? & ?)]; subst.

(** The castling field that [stateOfGameToFen] writes is read back by
    [setFen] as the same rights, with the rook files of the position. *)
Lemma castling_roundtrip chess960 g fd cs1 cs2 cs3 cs4 g1 :
  (forall a, sq_isValid (kingOf fd a) = true) ->
  (forall a sq, In sq (rooksOf fd a) -> sq_isValid sq = true) ->
  (forall a, ascending (rooksOf fd a)) ->
  (forall a c, isCastleAvailable g a c = true -> rooksOf fd a <> []) ->
  emitCastle chess960 g fd White KingSide [] = Ok cs1 ->
  emitCastle chess960 g fd White QueenSide cs1 = Ok cs2 ->
  emitCastle chess960 g fd Black KingSide cs2 = Ok cs3 ->
  emitCastle chess960 g fd Black QueenSide cs3 = Ok cs4 ->
  (forall a c, isCastleAvailable g1 a c = false) ->
  m_fileOfKingsRook g1 = 0 -> m_fileOfQueensRook g1 = 0 ->
  noChar " " (match cs4 with [] => qs "-" | _ => cs4 end) = true
  /\ exists g2,
       (if negb (qs_eqb (match cs4 with [] => qs "-" | _ => cs4 end) (qs "-"))
        then parseCastling chess960 fd
               (match cs4 with [] => qs "-" | _ => cs4 end) g1
        else Ok g1) = Ok g2
       /\ sameBoards g1 g2
       /\ m_enPassantTarget g2 = m_enPassantTarget g1
       /\ m_activeArmy g2 = m_activeArmy g1
       /\ (forall a c, isCastleAvailable g2 a c = isCastleAvailable g a c)
       /\ m_fileOfKingsRook g2
          = (if someRight g KingSide then m_fileOfKingsRook g else 0)
       /\ m_fileOfQueensRook g2
          = (if someRight g QueenSide then m_fileOfQueensRook g else 0).
Proof.
  intros Hk Hv Hasc Hne E1 E2 E3 E4 R1 F1 F2.
  pose proof (R1 White KingSide) as R1a. pose proof (R1 White QueenSide) as R1b.
  pose proof (R1 Black KingSide) as R1c. pose proof (R1 Black QueenSide) as R1d.
  clear R1.
  castle_step E1 Hk Hv Hasc Hne; castle_step E2 Hk Hv Hasc Hne;
    castle_step E3 Hk Hv Hasc Hne; castle_step E4 Hk Hv Hasc Hne;
    cbn [app];
    repeat match goal with
           | H : isLetter ?c = true |- _ =>
               let N := fresh "N" in
               assert (N : isLetter c || isNumber c = true)
                 by (rewrite H; reflexivity);
               apply letter_not_separator in N; destruct N as (? & ? & ?);
               clear H
           end;
    (split;
     [ unfold noChar; cbn [forallb qs list_ascii_of_string];
       repeat match goal with H : ascii_eqb _ " " = false |- _ =>
                rewrite H; clear H end;
       reflexivity
     | ]);
    cbn [qs list_ascii_of_string qs_eqb];
    repeat match goal with H : ascii_eqb _ "-" = false |- _ =>
             rewrite H end;
    cbn [andb negb parseCastling];
    repeat (match goal with H : forall g', parseCastle _ _ _ g' = _ |- _ =>
              rewrite H; clear H end;
            cbn [bind]);
    (eexists; split; [reflexivity | ]);
    unfold someRight, granted, isCastleAvailable in *;
    repeat match goal with H : _ mod 256 = _ |- _ => rewrite H; clear H end;
    (split; [split; intros []; reflexivity | ]);
    (split; [reflexivity | ]); (split; [reflexivity | ]);
    (split; [intros [] []; cbn; congruence | ]);
    cbn;
    repeat match goal with H : _ = true |- _ => rewrite H; clear H end;
    repeat match goal with H : _ = false |- _ => rewrite H; clear H end;
    cbn [orb]; split; congruence.
Qed.

(** ** The fields of the text *)

Lemma ascii_eqb_refl c : ascii_eqb c c = true.
Proof. apply Z.eqb_refl. Qed.

Lemma split_nosep sep x : noChar sep x = true -> split sep x = [x].
Proof.
  induction x as [ | c x IH]; cbn [noChar forallb split]; [reflexivity | ].
  intros H. apply andb_prop in H as [Hc Hx]. apply negb_true_iff in Hc.
  rewrite Hc, (IH Hx). reflexivity.
Qed.

Lemma split_sep sep x r :
  noChar sep x = true -> split sep (x ++ sep :: r) = x :: split sep r.
Proof.
  induction x as [ | c x IH]; cbn [noChar forallb split app].
  - intros _. rewrite ascii_eqb_refl. reflexivity.
  - intros H. apply andb_prop in H as [Hc Hx]. apply negb_true_iff in Hc.
    rewrite Hc, (IH Hx). reflexivity.
Qed.

Lemma split_join sep fields :
  fields <> [] ->
  (forall x, In x fields -> noChar sep x = true) ->
  split sep (join [sep] fields) = fields.
Proof.
  induction fields as [ | x rest IH]; intros Hne H; [contradiction | ].
  destruct rest as [ | y rest'].
  - cbn [join]. apply split_nosep. apply H. left. reflexivity.
  - change (join [sep] (x :: y :: rest'))
      with (x ++ sep :: join [sep] (y :: rest')).
    rewrite split_sep by (apply H; left; reflexivity).
    rewrite IH; [reflexivity | discriminate | ].
    intros z Hz. apply H. right. exact Hz.
Qed.

Lemma noChar_app c a b : noChar c (a ++ b) = noChar c a && noChar c b.
Proof. apply forallb_app. Qed.

Lemma noChar_join c sep l :
  noChar c sep = true ->
  (forall x, In x l -> noChar c x = true) ->
  noChar c (join sep l) = true.
Proof.
  intros Hsep. induction l as [ | x rest IH]; intros H; [reflexivity | ].
  destruct rest as [ | y rest'].
  - cbn [join]. apply H. left. reflexivity.
  - change (join sep (x :: y :: rest'))
      with (x ++ sep ++ join sep (y :: rest')).
    rewrite !noChar_app, Hsep, (H x (or_introl eq_refl)), IH; [reflexivity | ].
    intros z Hz. apply H. right. exact Hz.
Qed.

Lemma okChar_letter_or_number c :
  okChar c = true -> isLetter c || isNumber c = true.
Proof.
  unfold okChar. destruct (isLetter c), (isNumber c); simpl; congruence.
Qed.

Lemma okChars_noChar rank :
  forallb okChar rank = true ->
  noChar " " rank = true /\ noChar "/" rank = true.
Proof.
  induction rank as [ | c rank IH]; cbn [forallb noChar]; [split; reflexivity | ].
  intros H. apply andb_prop in H as [Hc Hr]. destruct (IH Hr) as [I1 I2].
  apply okChar_letter_or_number, letter_not_separator in Hc as (_ & C1 & C2).
  unfold noChar in I1, I2. rewrite C1, C2, I1, I2. split; reflexivity.
Qed.

Lemma numberAux_noChar fuel : forall n acc,
  noChar " " acc = true -> noChar " " (numberAux fuel n acc) = true.
Proof.
  induction fuel as [ | fuel IH]; intros n acc Hacc; cbn [numberAux];
    [exact Hacc | ].
  assert (H : noChar " " (chr (48 + n mod 10) :: acc) = true).
  { cbn [noChar forallb]. fold (noChar " " acc). rewrite Hacc.
    unfold ascii_eqb. rewrite code_chr
      by (pose proof (Z.mod_pos_bound n 10 ltac:(lia)); lia).
    change (code " ") with 32.
    replace (48 + n mod 10 =? 32) with false; [reflexivity | ].
    symmetry. apply Z.eqb_neq.
    pose proof (Z.mod_pos_bound n 10 ltac:(lia)). lia. }
  destruct (n / 10 =? 0); [exact H | apply IH; exact H].
Qed.

Lemma number_noChar n : noChar " " (number n) = true.
Proof. apply numberAux_noChar. reflexivity. Qed.

(** The text of a square of the board reads back as this square. *)
Lemma squareToString_roundtrip t :
  sq_isValid t = true ->
  stringToSquare (squareToString t) = t
  /\ qs_eqb (squareToString t) (qs "-") = false
  /\ noChar " " (squareToString t) = true.
Proof.
  intros H. unfold sq_isValid in H. apply andb_prop in H as [H0 H1].
  apply Z.leb_le in H0. apply Z.ltb_lt in H1.
  assert (Hin : In t allSquares) by (apply In_allSquares; lia).
  assert (A : forallb (fun t => (stringToSquare (squareToString t) =? t)
                                && negb (qs_eqb (squareToString t) (qs "-"))
                                && noChar " " (squareToString t))
                      allSquares = true) by (vm_compute; reflexivity).
  rewrite forallb_forall in A. specialize (A t Hin).
  apply andb_prop in A as [A A3]. apply andb_prop in A as [A1 A2].
  apply Z.eqb_eq in A1. apply negb_true_iff in A2.
  split; [exact A1 | split; [exact A2 | exact A3]].
Qed.

(** ** The rooks and kings found *)

Lemma note_rooks a' p' sq' fd a sq :
  In sq (rooksOf (note a' p' sq' fd) a)
  <-> In sq (rooksOf fd a) \/ (a', p', sq') = (a, Rook, sq).
Proof.
  destruct a', p', a; cbn [note rooksOf whiteRooks blackRooks];
    rewrite ?in_app_iff; cbn [In]; intuition congruence.
Qed.

Lemma notes_rooks pls : forall fd a sq,
  In sq (rooksOf (notes pls fd) a)
  <-> In sq (rooksOf fd a) \/ In (sq, a, Rook) pls.
Proof.
  induction pls as [ | [[sq' a'] p'] rest IH]; intros fd a sq.
  - cbn [notes fold_left In]. tauto.
  - unfold notes in *. cbn [fold_left fst snd In]. rewrite IH, note_rooks.
    intuition congruence.
Qed.

Lemma rooksOf_sortedFound fd a :
  rooksOf (sortedFound fd) a = sortByFile (rooksOf fd a).
Proof. destruct a; reflexivity. Qed.

Lemma kingOf_sortedFound fd a : kingOf (sortedFound fd) a = kingOf fd a.
Proof. destruct a; reflexivity. Qed.

(** The rooks found on the board of [g]. *)
Lemma In_rooks_found g a sq :
  In sq (rooksOf (sortedFound (notes (occAll g 8) noneFound)) a)
  <-> 0 <= sq < 64 /\ cellOf g sq = Some (a, Rook).
Proof.
  rewrite rooksOf_sortedFound, In_sortByFile, notes_rooks, In_occAll.
  split; [ | tauto]. intros [H | H]; [destruct a; contradiction | exact H].
Qed.

Lemma rooks_found_nonempty g a :
  cellInvariants g = true -> boardsInRange g = true ->
  isClear (Z.land (boardA g a) (boardP g Rook)) = false ->
  rooksOf (sortedFound (notes (occAll g 8) noneFound)) a <> [].
Proof.
  intros Hc Hr Hclear Hnil.
  assert (E : isClear (Z.land (boardA g a) (boardP g Rook)) = true);
    [ | congruence].
  apply isClear_land_bits. intros n Hn.
  destruct (cellInvariants_Repr g Hc n Hn) as (_ & Ha & Hp).
  unfold testBit in *. rewrite Ha, Hp.
  destruct (cellOf g n) as [[a' p'] | ] eqn:Ecell; [ | reflexivity].
  cbn [armyBit pieceBit].
  destruct (Army_eqb a a') eqn:Ea; [ | reflexivity].
  destruct (PieceType_eqb Rook p') eqn:Ep; [ | reflexivity].
  exfalso. apply Army_eqb_eq in Ea. subst a'.
  assert (p' = Rook) by (destruct p'; try discriminate Ep; reflexivity).
  subst p'.
  assert (Hin : In n (rooksOf (sortedFound (notes (occAll g 8) noneFound)) a)).
  { apply In_rooks_found. split; [ | exact Ecell].
    destruct (Z.lt_ge_cases n 64) as [ | Hge]; [lia | ].
    rewrite (cellOf_beyond g n Hr Hge) in Ecell. discriminate. }
  rewrite Hnil in Hin. exact Hin.
Qed.

(** ** [setFen] on the fields of a text *)

Lemma setFen_fields chess960 fen g0 ranks active castling ep rest g1 fd g2 :
  split " " fen = ranks :: active :: castling :: ep :: rest ->
  length (split "/" ranks) = 8%nat ->
  parseRanks (split "/" ranks) 0 (clearForFen g0, noneFound) = Ok (g1, fd) ->
  sq_isValid (whiteKing fd) = true -> sq_isValid (blackKing fd) = true ->
  (if negb (qs_eqb castling (qs "-"))
   then parseCastling chess960 (sortedFound fd) castling
          (with_activeArmy (if qs_eqb active (qs "w") then White else Black) g1)
   else Ok (with_activeArmy (if qs_eqb active (qs "w") then White else Black)
              g1)) = Ok g2 ->
  exists g',
    setFen chess960 fen g0 = Ok g'
    /\ sameBoards g2 g'
    /\ (forall a c, isCastleAvailable g' a c = isCastleAvailable g2 a c)
    /\ m_activeArmy g' = m_activeArmy g2
    /\ m_fileOfKingsRook g' = m_fileOfKingsRook g2
    /\ m_fileOfQueensRook g' = m_fileOfQueensRook g2
    /\ m_enPassantTarget g'
       = (if negb (qs_eqb ep (qs "-")) then stringToSquare ep
          else m_enPassantTarget g2).
Proof.
  intros Hs Hl Hp Hkw Hkb Hc. unfold sortedFound in Hc. unfold setFen.
  rewrite Hs. cbn [nth]. rewrite Hl.
  replace (Z.of_nat (length (ranks :: active :: castling :: ep :: rest)) >=? 4)
    with true
    by (symmetry; apply Z.geb_le; cbn [length]; lia).
  change (Z.of_nat 8 =? 8) with true. cbn [q_assert bind].
  rewrite Hp. cbn [bind fst snd]. rewrite Hkw, Hkb. cbn [q_assert bind].
  rewrite Hc. cbn [bind].
  eexists. split; [reflexivity | ].
  destruct (negb (qs_eqb ep (qs "-")));
    destruct (Z.of_nat (length (ranks :: active :: castling :: ep :: rest)) >? 4);
    destruct (Z.of_nat (length (ranks :: active :: castling :: ep :: rest)) >? 5);
    (split; [split; intros []; reflexivity | ]);
    (split; [intros [] []; reflexivity | ]);
    repeat split; reflexivity.
Qed.

(** ** C2 *)

(** [isSamePosition] between positions that agree as after a round trip is
    the comparison of the rook files. *)
Lemma isSamePosition_roundTripAgree g g' :
  roundTripAgree g g' ->
  isSamePosition g' g
  = (m_fileOfKingsRook g' =? m_fileOfKingsRook g)
    && (m_fileOfQueensRook g' =? m_fileOfQueensRook g).
Proof.
  intros ([Ha Hp] & Hr & Hep & Hact & _ & _).
  pose proof (Ha White) as A1. pose proof (Ha Black) as A2.
  pose proof (Hp King) as P1. pose proof (Hp Queen) as P2.
  pose proof (Hp Rook) as P3. pose proof (Hp Bishop) as P4.
  pose proof (Hp Knight) as P5. pose proof (Hp Pawn) as P6.
  pose proof (Hr White KingSide) as R1. pose proof (Hr White QueenSide) as R2.
  pose proof (Hr Black KingSide) as R3. pose proof (Hr Black QueenSide) as R4.
  cbn [boardA boardP isCastleAvailable] in *.
  unfold isSamePosition.
  rewrite A1, A2, P1, P2, P3, P4, P5, P6, R1, R2, R3, R4, Hep, Hact.
  rewrite !Z.eqb_refl, !Bool.eqb_reflx, !andb_true_r.
  destruct (m_activeArmy g); reflexivity.
Qed.

(** The text that [stateOfGameToFen] writes parses, and the position parsed
    agrees with the one written. *)
Lemma roundTrip_agrees chess960 incl g g0 s :
  cellInvariants g = true -> boardsInRange g = true ->
  properTarget g = true -> castleRooksPresent g = true ->
  stateOfGameToFen chess960 g incl = Ok s ->
  exists g', setFen chess960 s g0 = Ok g' /\ roundTripAgree g g'.
Proof.
  intros Hc Hr Ht Hrk.
  pose proof (cellInvariants_Repr g Hc) as HR.
  assert (Hproper : forall n, 0 <= n -> properCell (cellOf g n))
    by (intros n Hn; apply (HR n Hn)).
  destruct (emitRanks_inv g Hproper 8 (le_n 8)) as (rl & E & Hlen & Hwf & Hpl).
  destruct (placements_wf rl 0) as [P1 P2];
    [lia | rewrite Hlen; simpl; lia | exact Hwf | ].
  rewrite Hpl in P1, P2.
  assert (Hfresh : freshPlacements (fun _ => None) (occAll g 8)).
  { apply freshPlacements_NoDup; [ | exact P2]. intros [[sq a] p] Hin.
    destruct (P1 _ Hin) as (Hp & _). apply In_occAll in Hin as [Hsq _].
    cbn [fst snd] in *. split; [exact Hsq | split; [exact Hp | reflexivity]]. }
  destruct (placeAll_Repr _ (clearForFen g0) noneFound _
              (Repr_clearForFen g0) Hfresh) as (g1 & Ep & H1 & S1 & _).
  assert (SB : sameBoards g g1).
  { apply (Repr_unique g g1 _ _ HR H1). intros n Hn.
    apply overlay_occAll; assumption. }
  remember (notes (occAll g 8) noneFound) as F eqn:EF.
  unfold stateOfGameToFen. change upto8 with (files 8). rewrite E.
  destruct (sq_isValid (whiteKing F)) eqn:HKw; cbn [q_assert bind];
    [ | discriminate].
  destruct (sq_isValid (blackKing F)) eqn:HKb; cbn [q_assert bind];
    [ | discriminate].
  change (mkFound (sortByFile (whiteRooks F)) (sortByFile (blackRooks F))
                  (whiteKing F) (blackKing F)) with (sortedFound F).
  destruct (emitCastle chess960 g (sortedFound F) White KingSide [])
    as [cs1 | ] eqn:E1; cbn [bind]; [ | discriminate].
  destruct (emitCastle chess960 g (sortedFound F) White QueenSide cs1)
    as [cs2 | ] eqn:E2; cbn [bind]; [ | discriminate].
  destruct (emitCastle chess960 g (sortedFound F) Black KingSide cs2)
    as [cs3 | ] eqn:E3; cbn [bind]; [ | discriminate].
  destruct (emitCastle chess960 g (sortedFound F) Black QueenSide cs3)
    as [cs4 | ] eqn:E4; cbn [bind]; [ | discriminate].
  intros H. injection H as <-.
  remember (match m_activeArmy g with White => qs "w" | Black => qs "b" end)
    as active eqn:Eactive.
  remember (if qs_eqb active (qs "w") then White else Black) as A eqn:EA.
  assert (HA : A = m_activeArmy g).
  { rewrite EA, Eactive. destruct (m_activeArmy g); reflexivity. }
  destruct S1 as (_ & _ & _ & S1k & S1q & _ & S1e & S1a & S1b & S1c & S1d & _).
  cbn [clearForFen m_fileOfKingsRook m_fileOfQueensRook m_enPassantTarget
       m_hasWhiteKingCastle m_hasBlackKingCastle m_hasWhiteQueenCastle
       m_hasBlackQueenCastle] in S1k, S1q, S1e, S1a, S1b, S1c, S1d.
  destruct (castling_roundtrip chess960 g (sortedFound F) cs1 cs2 cs3 cs4
              (with_activeArmy A g1))
    as (Hno & g2 & Ec & SB2 & Hep2 & Hact2 & Hr2 & Hk2 & Hq2);
    try assumption.
  { intros []; rewrite kingOf_sortedFound; assumption. }
  { intros a sq Hin. rewrite EF in Hin. apply In_rooks_found in Hin as [Hsq _].
    unfold sq_isValid. apply andb_true_iff.
    split; [apply Z.leb_le | apply Z.ltb_lt]; lia. }
  { intros a. rewrite rooksOf_sortedFound. apply ascending_sortByFile. }
  { intros a c Hav. rewrite EF. apply rooks_found_nonempty; try assumption.
    unfold castleRooksPresent in Hrk. cbn [forallb] in Hrk.
    apply andb_prop in Hrk as [Hw Hb]. apply andb_prop in Hb as [Hb _].
    destruct a, c; cbn [isCastleAvailable] in Hav;
      [ clear Hb; rename Hw into Hx | clear Hb; rename Hw into Hx
      | clear Hw; rename Hb into Hx | clear Hw; rename Hb into Hx ];
      cbn [isCastleAvailable] in Hx; rewrite Hav in Hx;
      rewrite ?orb_true_r in Hx; cbn [orb negb] in Hx;
      apply negb_true_iff in Hx; exact Hx. }
  { intros [] []; cbn; assumption. }
  remember (join (qs "/") rl) as ranks eqn:Eranks.
  remember (match cs4 with [] => qs "-" | _ :: _ => cs4 end) as castling
    eqn:Ecastling.
  remember (if sq_isValid (enPassantTarget g)
            then squareToString (enPassantTarget g) else qs "-") as ep eqn:Eep.
  assert (Hrl : forall x, In x rl ->
                  noChar " " x = true /\ noChar "/" x = true).
  { intros x Hx. rewrite forallb_forall in Hwf. specialize (Hwf x Hx).
    unfold wfRank in Hwf. apply andb_prop in Hwf as [Hok _].
    apply okChars_noChar. exact Hok. }
  assert (Hrl0 : rl <> []) by (intros ->; discriminate Hlen).
  assert (Nranks : noChar " " ranks = true).
  { rewrite Eranks. apply noChar_join; [reflexivity | ].
    intros x Hx. apply (Hrl x Hx). }
  assert (Nactive : noChar " " active = true).
  { rewrite Eactive. destruct (m_activeArmy g); reflexivity. }
  assert (Nep : noChar " " ep = true).
  { rewrite Eep. destruct (sq_isValid (enPassantTarget g)) eqn:Hv;
      [apply squareToString_roundtrip; exact Hv | reflexivity]. }
  assert (Hsplit : exists rest,
            split " " (join (qs " ")
                         (if incl
                          then [ranks; active; castling; ep]
                               ++ [number (m_halfMoveClock g);
                                   number ((m_halfMoveNumber g + 1) / 2)]
                          else [ranks; active; castling; ep]))
            = ranks :: active :: castling :: ep :: rest).
  { change (qs " ") with [" "%char]. destruct incl; eexists;
      (rewrite split_join; [reflexivity | discriminate | ]);
      intros x Hx; cbn [app In] in Hx;
      repeat (destruct Hx as [<- | Hx]; [assumption || apply number_noChar | ]);
      contradiction. }
  destruct Hsplit as (rest & Hsplit).
  assert (Hranks : split "/" ranks = rl).
  { rewrite Eranks. change (qs "/") with ["/"%char].
    apply split_join; [exact Hrl0 | ]. intros x Hx. apply (Hrl x Hx). }
  destruct (setFen_fields chess960 _ g0 ranks active castling ep rest g1 F g2
              Hsplit)
    as (g' & Eset & SB' & Hr' & Hact' & Hk' & Hq' & Hep').
  { rewrite Hranks. exact Hlen. }
  { rewrite Hranks, parseRanks_placeAll, Hpl. exact Ep. }
  { exact HKw. }
  { exact HKb. }
  { rewrite <- EA. exact Ec. }
  exists g'.
  split; [rewrite Eranks, Eactive, Ecastling, Eep in Eset; exact Eset | ].
  unfold roundTripAgree.
  split; [ | split; [ | split; [ | split; [ | split]]]].
  - eapply sameBoards_trans; [exact SB | ].
    eapply sameBoards_trans; [ | exact SB'].
    eapply sameBoards_trans; [ | exact SB2].
    split; intros []; reflexivity.
  - intros a c. rewrite Hr'. apply Hr2.
  - rewrite Hep', Hep2, Eep. cbn [with_activeArmy m_enPassantTarget].
    unfold enPassantTarget.
    destruct (sq_isValid (m_enPassantTarget g)) eqn:Hv.
    + destruct (squareToString_roundtrip _ Hv) as (T1 & T2 & _).
      rewrite T2. cbn [negb]. exact T1.
    + change (qs_eqb (qs "-") (qs "-")) with true. cbn [negb].
      unfold properTarget in Ht. rewrite Hv in Ht. cbn [orb] in Ht.
      apply Z.eqb_eq in Ht. rewrite S1e. symmetry. exact Ht.
  - rewrite Hact', Hact2. cbn [with_activeArmy m_activeArmy]. exact HA.
  - rewrite Hk'. exact Hk2.
  - rewrite Hq'. exact Hq2.
Qed.

(** C2, counterexample: from the position [4k3/8/8/8/8/8/8/4K2R w K - 0 1]
    the rook move [h1h2] is made.  The position reached keeps [7] as the file
    of the king-side rook, although no army holds the king-side right any
    more; the text written for it has the castling field [-], [setFen] resets
    the rook files to [0] and reads no castling character, and
    [isSamePosition] between the position parsed and the position written is
    false. *)
Lemma round_trip_forgets_stale_rook_file :
  exists g p s p',
    newGame false (qs "4k3/8/8/8/8/8/8/4K2R w K - 0 1") = Ok g
    /\ makeMove false (moveOf "h1" "h2") g = Ok (true, p)
    /\ stateOfGameToFen false p true = Ok s
    /\ s = qs "4k3/8/8/8/8/8/7R/4K3 b - - 1 2"
    /\ setFen false s blankGame = Ok p'
    /\ m_fileOfKingsRook p = 7 /\ m_fileOfKingsRook p' = 0
    /\ isSamePosition p' p = false.
Proof.
  eexists. eexists. eexists. eexists.
  split; [vm_compute; reflexivity | ].
  split; [vm_compute; reflexivity | ].
  split; [vm_compute; reflexivity | ].
  split; [vm_compute; reflexivity | ].
  split; [vm_compute; reflexivity | ].
  split; [vm_compute; reflexivity | ].
  split; vm_compute; reflexivity.
Qed.

(** C2 (amended): let [g] be a position whose bitboards satisfy the cell
    invariants and lie within the 64 squares, whose en-passant target is a
    square of the board or the invalid square, and in which an army that
    holds a castle right has a rook.  If [stateOfGameToFen] writes a text for
    [g], then [setFen] parses this text, from any position [g0], and the
    position parsed agrees with [g] on the eight bitboards, the four castle
    rights, the en-passant target and the side to move; the rook file of a
    side is the one of [g] when some army holds the right of this side, and
    [0] otherwise.  Hence [isSamePosition] holds between the two exactly
    when the rook file of [g] is [0] on each side whose right no army
    holds. *)
Theorem fen_round_trip_up_to_stale_rook_files
    (chess960 incl : bool) (g g0 : Game) (s : QString) :
  cellInvariants g = true -> boardsInRange g = true ->
  properTarget g = true -> castleRooksPresent g = true ->
  stateOfGameToFen chess960 g incl = Ok s ->
  exists g',
    setFen chess960 s g0 = Ok g'
    /\ roundTripAgree g g'
    /\ (isSamePosition g' g = true
        <-> (someRight g KingSide = false -> m_fileOfKingsRook g = 0)
            /\ (someRight g QueenSide = false -> m_fileOfQueensRook g = 0)).
Proof.
  intros Hc Hr Ht Hrk Hs.
  destruct (roundTrip_agrees chess960 incl g g0 s Hc Hr Ht Hrk Hs)
    as (g' & E & Hag).
  exists g'. split; [exact E | ]. split; [exact Hag | ].
  rewrite (isSamePosition_roundTripAgree g g' Hag).
  destruct Hag as (_ & _ & _ & _ & Hk & Hq). rewrite Hk, Hq.
  rewrite andb_true_iff, !Z.eqb_eq.
  destruct (someRight g KingSide), (someRight g QueenSide); split.
  all: try (intros _; split; intros; (discriminate || reflexivity)).
  all: try (intros [A B]; split; intros; try discriminate; try reflexivity;
            symmetry; assumption).
  all: intros [A B]; split; try reflexivity; symmetry; (apply A || apply B);
    reflexivity.
Qed.

Lemma fen_round_trip_up_to_stale_rook_files_witness :
  exists g',
    setFen false
      (qs "rnbqkbnr/pppppppp/8/8/4P3/8/PPPP1PPP/RNBQKBNR b KQkq e3 0 2")
      blankGame = Ok g'
    /\ roundTripAgree afterE2E4 g'
    /\ (isSamePosition g' afterE2E4 = true
        <-> (someRight afterE2E4 KingSide = false
             -> m_fileOfKingsRook afterE2E4 = 0)
            /\ (someRight afterE2E4 QueenSide = false
                -> m_fileOfQueensRook afterE2E4 = 0)).
Proof.
  apply (fen_round_trip_up_to_stale_rook_files false true afterE2E4 blankGame);
    vm_compute; reflexivity.
Defined.

(* ================================================================= *)
(** * Further properties of the code *)

(** ** The bookkeeping of [processMove] *)

Lemma togglePieceAt_scalars index army piece bit g g' :
  togglePieceAt index army piece bit g = Ok g' -> sameScalars g g'.
Proof.
  unfold togglePieceAt.
  destruct (q_assert ((0 <=? index) && (index <? 64))); cbn [bind];
    [ | discriminate].
  destruct (q_assert (negb (PieceType_eqb piece Unknown))); cbn [bind];
    [ | discriminate].
  intros H. injection H as <-. apply (sameScalars_toggled index army piece bit g).
Qed.

Lemma togglePieceAt_boards index army piece bit g g' :
  togglePieceAt index army piece bit g = Ok g' ->
  0 <= index < 64 /\ g' = toggled index army piece bit g.
Proof.
  unfold togglePieceAt, q_assert.
  destruct ((0 <=? index) && (index <? 64)) eqn:E; cbn [bind];
    [ | discriminate].
  destruct (negb (PieceType_eqb piece Unknown)); cbn [bind]; [ | discriminate].
  intros H. injection H as <-. split; [ | reflexivity].
  apply andb_prop in E as [E1 E2]. apply Z.leb_le in E1. apply Z.ltb_lt in E2.
  lia.
Qed.

Lemma placeMover_scalars army mv g g' :
  placeMover army mv g = Ok g' -> sameScalars g g'.
Proof.
  unfold placeMover.
  destruct (togglePieceAt (sq_data (mv_start mv)) army (mv_piece mv) false g)
    as [g1 | ] eqn:E1; cbn [bind]; [ | discriminate].
  apply togglePieceAt_scalars in E1.
  destruct (mv_isCastle mv).
  - destruct (mv_castleSide mv).
    + destruct (togglePieceAt _ army Rook false g1) as [g2 | ] eqn:E2;
        cbn [bind]; [ | discriminate].
      destruct (togglePieceAt _ army Rook true g2) as [g3 | ] eqn:E3;
        cbn [bind]; [ | discriminate].
      intros E4. apply togglePieceAt_scalars in E2, E3, E4.
      eauto using sameScalars_trans.
    + destruct (togglePieceAt _ army Rook false g1) as [g2 | ] eqn:E2;
        cbn [bind]; [ | discriminate].
      destruct (togglePieceAt _ army Rook true g2) as [g3 | ] eqn:E3;
        cbn [bind]; [ | discriminate].
      intros E4. apply togglePieceAt_scalars in E2, E3, E4.
      eauto using sameScalars_trans.
  - destruct (negb (PieceType_eqb (mv_promotion mv) Unknown)); intros E2;
      apply togglePieceAt_scalars in E2; eauto using sameScalars_trans.
Qed.

(** The fields other than the bitboards after the capture block. *)
Lemma processCapture_scalars army mv g g' :
  processCapture army mv g = Ok g' ->
  m_lastMove g' = setCapture true (m_lastMove g)
  /\ m_halfMoveClock g' = m_halfMoveClock g
  /\ m_halfMoveNumber g' = m_halfMoveNumber g
  /\ m_fileOfKingsRook g' = m_fileOfKingsRook g
  /\ m_fileOfQueensRook g' = m_fileOfQueensRook g
  /\ m_repetitions g' = m_repetitions g
  /\ m_enPassantTarget g' = m_enPassantTarget g
  /\ m_activeArmy g' = m_activeArmy g
  /\ (forall a c, isCastleAvailable g' a c = true ->
                  isCastleAvailable g a c = true)
  /\ (forall c, isCastleAvailable g' army c = isCastleAvailable g army c).
Proof.
  unfold processCapture.
  match goal with
  | |- bind (q_assert ?c) _ = _ -> _ => destruct c
  end; cbn [q_assert bind]; [ | discriminate].
  match goal with
  | |- bind ?t _ = _ -> _ => destruct t as [g1 | ] eqn:E1
  end; cbn [bind]; [ | discriminate].
  apply togglePieceAt_scalars in E1.
  destruct E1 as (S1 & S2 & S3 & S4 & S5 & S6 & S7 & S8 & S9 & S10 & S11 & S12).
  cbn [with_lastMove m_lastMove m_halfMoveClock m_halfMoveNumber
       m_fileOfKingsRook m_fileOfQueensRook m_repetitions m_enPassantTarget
       m_hasWhiteKingCastle m_hasBlackKingCastle m_hasWhiteQueenCastle
       m_hasBlackQueenCastle m_activeArmy] in *.
  intros H. injection H as <-.
  repeat match goal with
         | |- context [if ?b then _ else _] => destruct b
         end;
    (repeat split; try assumption;
     [ intros [] []; destruct army; cbn; congruence
     | intros []; destruct army; cbn; congruence ]).
Qed.

(** The position after the first part of [processMove]. *)
Lemma updateRights_scalars army mv g :
  let g0 := updateRights army mv
              (with_enPassantTarget invalidSquare (with_lastMove mv g)) in
  let qcorner := mkSquare (m_fileOfQueensRook g) (homeRank army) in
  let kcorner := mkSquare (m_fileOfKingsRook g) (homeRank army) in
  m_lastMove g0 = mv
  /\ m_halfMoveClock g0 = m_halfMoveClock g
  /\ m_halfMoveNumber g0 = m_halfMoveNumber g
  /\ m_fileOfKingsRook g0 = m_fileOfKingsRook g
  /\ m_fileOfQueensRook g0 = m_fileOfQueensRook g
  /\ m_activeArmy g0 = m_activeArmy g
  /\ m_enPassantTarget g0
     = (if PieceType_eqb (mv_piece mv) Pawn
           && (Z.abs (sq_rank (mv_start mv) - sq_rank (mv_end mv)) =? 2)
        then mkSquare (sq_file (mv_end mv))
                      (rankBehind army (sq_rank (mv_end mv)))
        else invalidSquare)
  /\ (forall n a, hasPieceAt g0 n a = hasPieceAt g n a)
  /\ isCastleAvailable g0 army QueenSide
     = isCastleAvailable g army QueenSide
       && negb (PieceType_eqb (mv_piece mv) King)
       && negb (PieceType_eqb (mv_piece mv) Rook && (mv_start mv =? qcorner))
  /\ isCastleAvailable g0 army KingSide
     = isCastleAvailable g army KingSide
       && negb (PieceType_eqb (mv_piece mv) King)
       && negb (PieceType_eqb (mv_piece mv) Rook
                && negb (mv_start mv =? qcorner) && (mv_start mv =? kcorner))
  /\ (forall c, isCastleAvailable g0 (otherArmy army) c
                = isCastleAvailable g (otherArmy army) c).
Proof.
  cbv zeta. unfold updateRights.
  cbn [with_enPassantTarget with_lastMove m_fileOfQueensRook m_fileOfKingsRook].
  destruct (mv_piece mv); cbn [PieceType_eqb andb negb];
    repeat match goal with
           | |- context [if ?b then _ else _] => destruct b
           end;
    rewrite ?andb_true_r, ?andb_false_r;
    (repeat split;
     try (intros n []; reflexivity);
     try (intros []; destruct army; reflexivity);
     try (destruct army; reflexivity)).
Qed.

(** The fields other than the bitboards after [processMove]. *)
Lemma processMove_scalars army mv g g' :
  processMove army mv g = Ok g' ->
  let qcorner := mkSquare (m_fileOfQueensRook g) (homeRank army) in
  let kcorner := mkSquare (m_fileOfKingsRook g) (homeRank army) in
  m_lastMove g' = (if isCaptureOf g army mv then setCapture true mv else mv)
  /\ m_halfMoveClock g'
     = (if negb (PieceType_eqb (mv_piece mv) Pawn)
           && negb (isCaptureOf g army mv)
        then (m_halfMoveClock g + 1) mod 65536 else 0)
  /\ m_halfMoveNumber g' = (m_halfMoveNumber g + 1) mod 65536
  /\ m_fileOfKingsRook g' = m_fileOfKingsRook g
  /\ m_fileOfQueensRook g' = m_fileOfQueensRook g
  /\ m_repetitions g' = -1
  /\ m_activeArmy g' = otherArmy (m_activeArmy g)
  /\ m_enPassantTarget g'
     = (if PieceType_eqb (mv_piece mv) Pawn
           && (Z.abs (sq_rank (mv_start mv) - sq_rank (mv_end mv)) =? 2)
        then mkSquare (sq_file (mv_end mv))
                      (rankBehind army (sq_rank (mv_end mv)))
        else invalidSquare)
  /\ (forall a c, isCastleAvailable g' a c = true ->
                  isCastleAvailable g a c = true)
  /\ isCastleAvailable g' army QueenSide
     = isCastleAvailable g army QueenSide
       && negb (PieceType_eqb (mv_piece mv) King)
       && negb (PieceType_eqb (mv_piece mv) Rook && (mv_start mv =? qcorner))
  /\ isCastleAvailable g' army KingSide
     = isCastleAvailable g army KingSide
       && negb (PieceType_eqb (mv_piece mv) King)
       && negb (PieceType_eqb (mv_piece mv) Rook
                && negb (mv_start mv =? qcorner) && (mv_start mv =? kcorner)).
Proof.
  unfold processMove, isCaptureOf.
  pose proof (updateRights_scalars army mv g) as U. cbv zeta in U.
  remember (updateRights army mv
              (with_enPassantTarget invalidSquare (with_lastMove mv g)))
    as g0 eqn:Eg0.
  destruct U as (U1 & U2 & U3 & U4 & U5 & U6 & U7 & U8 & U9 & U10 & U11).
  rewrite U8.
  remember (hasPieceAt g (sq_data (mv_end mv)) (otherArmy army)
            || mv_isEnPassant mv) as capture eqn:Ecap.
  match goal with
  | |- bind ?t _ = _ -> _ => destruct t as [g1 | ] eqn:E1
  end; cbn [bind]; [ | discriminate].
  match goal with
  | |- bind ?t _ = _ -> _ => destruct t as [g2 | ] eqn:E2
  end; cbn [bind]; [ | discriminate].
  intros H. injection H as <-.
  apply placeMover_scalars in E2.
  destruct E2 as (S1 & S2 & S3 & S4 & S5 & S6 & S7 & S8 & S9 & S10 & S11 & S12).
  assert (C : m_lastMove g1 = (if capture then setCapture true mv else mv)
              /\ m_halfMoveClock g1 = m_halfMoveClock g
              /\ m_halfMoveNumber g1 = m_halfMoveNumber g
              /\ m_fileOfKingsRook g1 = m_fileOfKingsRook g
              /\ m_fileOfQueensRook g1 = m_fileOfQueensRook g
              /\ m_enPassantTarget g1 = m_enPassantTarget g0
              /\ m_activeArmy g1 = m_activeArmy g
              /\ (forall a c, isCastleAvailable g1 a c = true ->
                              isCastleAvailable g0 a c = true)
              /\ (forall c, isCastleAvailable g1 army c
                            = isCastleAvailable g0 army c)).
  { destruct capture.
    - apply processCapture_scalars in E1.
      destruct E1 as (C1 & C2 & C3 & C4 & C5 & C6 & C7 & C8 & C9 & C10).
      rewrite C1, C2, C3, C4, C5, C7, C8, U1, U2, U3, U4, U5, U6.
      repeat split; assumption.
    - injection E1 as <-. rewrite U1, U2, U3, U4, U5, U6.
      repeat split; auto. }
  destruct C as (C1 & C2 & C3 & C4 & C5 & C6 & C7 & C8 & C9).
  assert (R : forall a c, isCastleAvailable (endTurn g2) a c
                          = isCastleAvailable g1 a c).
  { intros [] []; cbn [endTurn isCastleAvailable with_activeArmy
                       with_halfMoveNumber with_repetitions
                       m_hasWhiteKingCastle m_hasBlackKingCastle
                       m_hasWhiteQueenCastle m_hasBlackQueenCastle];
      unfold tickClock in *;
      destruct (negb (PieceType_eqb (mv_piece mv) Pawn) && negb capture);
      cbn [with_halfMoveClock m_hasWhiteKingCastle m_hasBlackKingCastle
           m_hasWhiteQueenCastle m_hasBlackQueenCastle] in *; assumption. }
  cbn [endTurn with_activeArmy with_halfMoveNumber with_repetitions
       m_lastMove m_halfMoveClock m_halfMoveNumber m_fileOfKingsRook
       m_fileOfQueensRook m_repetitions m_activeArmy m_enPassantTarget].
  unfold tickClock in S1, S2, S3, S4, S5, S7, S12.
  split; [ | split; [ | split; [ | split; [ | split; [ | split; [ | split;
    [ | split; [ | split; [ | split]]]]]]]]].
  - destruct (negb (PieceType_eqb (mv_piece mv) Pawn) && negb capture);
      cbn [with_halfMoveClock m_lastMove] in S1; congruence.
  - destruct (negb (PieceType_eqb (mv_piece mv) Pawn) && negb capture);
      cbn [with_halfMoveClock m_halfMoveClock] in S2; congruence.
  - destruct (negb (PieceType_eqb (mv_piece mv) Pawn) && negb capture);
      cbn [with_halfMoveClock m_halfMoveNumber] in S3; congruence.
  - destruct (negb (PieceType_eqb (mv_piece mv) Pawn) && negb capture);
      cbn [with_halfMoveClock m_fileOfKingsRook] in S4; congruence.
  - destruct (negb (PieceType_eqb (mv_piece mv) Pawn) && negb capture);
      cbn [with_halfMoveClock m_fileOfQueensRook] in S5; congruence.
  - reflexivity.
  - destruct (negb (PieceType_eqb (mv_piece mv) Pawn) && negb capture);
      cbn [with_halfMoveClock m_activeArmy] in S12; congruence.
  - destruct (negb (PieceType_eqb (mv_piece mv) Pawn) && negb capture);
      cbn [with_halfMoveClock m_enPassantTarget] in S7; congruence.
  - intros a c Hav. rewrite R in Hav. apply C8 in Hav.
    destruct (Army_eqb a army) eqn:Ea.
    + apply Army_eqb_eq in Ea. subst a. destruct c.
      * rewrite U10 in Hav. apply andb_prop in Hav as [Hav _].
        apply andb_prop in Hav as [Hav _]. exact Hav.
      * rewrite U9 in Hav. apply andb_prop in Hav as [Hav _].
        apply andb_prop in Hav as [Hav _]. exact Hav.
    + assert (a = otherArmy army) by (destruct a, army; try discriminate; reflexivity).
      subst a. rewrite U11 in Hav. exact Hav.
  - rewrite R, C9. exact U9.
  - rewrite R, C9. exact U10.
Qed.

Lemma makeMove_true_inv chess960 move g g' :
  makeMove chess960 move g = Ok (true, g') ->
  exists mv,
    fillOutMove chess960 g (activeArmy g) move = Ok (Some mv)
    /\ processMove (activeArmy g) mv g = Ok g'.
Proof.
  unfold makeMove.
  destruct (fillOutMove chess960 g (activeArmy g) move) as [[mv | ] | ];
    cbn [bind]; [ | discriminate | discriminate].
  destruct (processMove (activeArmy g) mv g) as [g1 | ] eqn:E; cbn [bind];
    [ | discriminate].
  intros H. injection H as <-. exists mv. split; [reflexivity | exact E].
Qed.

(** Every move that [makeMove] applies passes the turn to the other army,
    counts one more half move (a 16-bit counter), resets the repetition count
    to [-1] and leaves the two castle-rook files as they are. *)
Theorem makeMove_passes_the_turn (chess960 : bool) (move : Move) (g g' : Game) :
  makeMove chess960 move g = Ok (true, g') ->
  m_activeArmy g' = otherArmy (m_activeArmy g)
  /\ m_halfMoveNumber g' = (m_halfMoveNumber g + 1) mod 65536
  /\ m_repetitions g' = -1
  /\ m_fileOfKingsRook g' = m_fileOfKingsRook g
  /\ m_fileOfQueensRook g' = m_fileOfQueensRook g.
Proof.
  intros H. apply makeMove_true_inv in H as (mv & _ & H).
  apply processMove_scalars in H. cbv zeta in H.
  destruct H as (_ & _ & H3 & H4 & H5 & H6 & H7 & _).
  repeat split; assumption.
Qed.

Lemma makeMove_passes_the_turn_witness :
  m_activeArmy afterE2E4 = otherArmy (m_activeArmy startPosition)
  /\ m_halfMoveNumber afterE2E4 = (m_halfMoveNumber startPosition + 1) mod 65536
  /\ m_repetitions afterE2E4 = -1
  /\ m_fileOfKingsRook afterE2E4 = m_fileOfKingsRook startPosition
  /\ m_fileOfQueensRook afterE2E4 = m_fileOfQueensRook startPosition.
Proof.
  apply (makeMove_passes_the_turn false (moveOf "e2" "e4")).
  vm_compute. reflexivity.
Defined.

(** [makeMove] never grants a castle right.  The rights of the mover after
    the move: a king move clears both; a rook move from the corner of the
    queen's rook clears the queen-side right, and otherwise a rook move from
    the corner of the king's rook clears the king-side right; any other move
    leaves them. *)
Theorem makeMove_castle_rights_only_shrink
    (chess960 : bool) (move mv : Move) (g g' : Game) :
  fillOutMove chess960 g (activeArmy g) move = Ok (Some mv) ->
  makeMove chess960 move g = Ok (true, g') ->
  let army := activeArmy g in
  let qcorner := mkSquare (m_fileOfQueensRook g) (homeRank army) in
  let kcorner := mkSquare (m_fileOfKingsRook g) (homeRank army) in
  (forall a c, isCastleAvailable g' a c = true -> isCastleAvailable g a c = true)
  /\ isCastleAvailable g' army QueenSide
     = isCastleAvailable g army QueenSide
       && negb (PieceType_eqb (mv_piece mv) King)
       && negb (PieceType_eqb (mv_piece mv) Rook && (mv_start mv =? qcorner))
  /\ isCastleAvailable g' army KingSide
     = isCastleAvailable g army KingSide
       && negb (PieceType_eqb (mv_piece mv) King)
       && negb (PieceType_eqb (mv_piece mv) Rook
                && negb (mv_start mv =? qcorner) && (mv_start mv =? kcorner)).
Proof.
  intros Hf H. apply makeMove_true_inv in H as (mv' & Hf' & H).
  rewrite Hf in Hf'. injection Hf' as <-.
  apply processMove_scalars in H. cbv zeta in H. cbv zeta.
  destruct H as (_ & _ & _ & _ & _ & _ & _ & _ & H9 & H10 & H11).
  repeat split; assumption.
Qed.

(** The king move [e1e2] in [r3k2r/8/8/8/8/8/8/R3K2R w KQkq - 0 1]. *)
Lemma makeMove_castle_rights_only_shrink_witness :
  let g := gameOf "r3k2r/8/8/8/8/8/8/R3K2R w KQkq - 0 1" in
  exists g',
    makeMove false (moveOf "e1" "e2") g = Ok (true, g')
    /\ isCastleAvailable g' White QueenSide = false
    /\ isCastleAvailable g' White KingSide = false
    /\ isCastleAvailable g' Black KingSide = true.
Proof.
  cbv zeta. eexists. split; [vm_compute; reflexivity | ].
  match goal with
  | |- isCastleAvailable ?g' _ _ = _ /\ _ =>
      destruct (makeMove_castle_rights_only_shrink false (moveOf "e1" "e2")
                  (setPiece King (moveOf "e1" "e2"))
                  (gameOf "r3k2r/8/8/8/8/8/8/R3K2R w KQkq - 0 1") g')
        as (_ & HQ & HK); [vm_compute; reflexivity | vm_compute; reflexivity | ]
  end.
  split; [exact HQ | ]. split; [exact HK | reflexivity].
Defined.

(** The half-move clock after a move that [makeMove] applies is [0] when the
    move is a pawn move or a capture (an enemy piece on the end square, or the
    en-passant flag), and one more than before otherwise; the last move is
    the filled-out move, with its capture flag set on a capture. *)
Theorem makeMove_halfMoveClock
    (chess960 : bool) (move mv : Move) (g g' : Game) :
  fillOutMove chess960 g (activeArmy g) move = Ok (Some mv) ->
  makeMove chess960 move g = Ok (true, g') ->
  m_halfMoveClock g'
  = (if negb (PieceType_eqb (mv_piece mv) Pawn)
        && negb (isCaptureOf g (activeArmy g) mv)
     then (m_halfMoveClock g + 1) mod 65536 else 0)
  /\ m_lastMove g'
     = (if isCaptureOf g (activeArmy g) mv then setCapture true mv else mv).
Proof.
  intros Hf H. apply makeMove_true_inv in H as (mv' & Hf' & H).
  rewrite Hf in Hf'. injection Hf' as <-.
  apply processMove_scalars in H. cbv zeta in H.
  destruct H as (H1 & H2 & _). split; assumption.
Qed.

Lemma makeMove_halfMoveClock_witness :
  m_halfMoveClock afterE2E4 = 0
  /\ m_lastMove afterE2E4 = setPiece Pawn (moveOf "e2" "e4").
Proof.
  apply (makeMove_halfMoveClock false (moveOf "e2" "e4")
           (setPiece Pawn (moveOf "e2" "e4")) startPosition afterE2E4);
    vm_compute; reflexivity.
Defined.

(** The en-passant target after a move that [makeMove] applies is the square
    behind the end square when the move is a pawn move over two ranks, and
    the invalid square after any other move. *)
Theorem makeMove_enPassantTarget
    (chess960 : bool) (move mv : Move) (g g' : Game) :
  fillOutMove chess960 g (activeArmy g) move = Ok (Some mv) ->
  makeMove chess960 move g = Ok (true, g') ->
  m_enPassantTarget g'
  = (if PieceType_eqb (mv_piece mv) Pawn
        && (Z.abs (sq_rank (mv_start mv) - sq_rank (mv_end mv)) =? 2)
     then mkSquare (sq_file (mv_end mv))
                   (rankBehind (activeArmy g) (sq_rank (mv_end mv)))
     else invalidSquare).
Proof.
  intros Hf H. apply makeMove_true_inv in H as (mv' & Hf' & H).
  rewrite Hf in Hf'. injection Hf' as <-.
  apply processMove_scalars in H. cbv zeta in H.
  destruct H as (_ & _ & _ & _ & _ & _ & _ & H8 & _). exact H8.
Qed.

Lemma makeMove_enPassantTarget_witness :
  m_enPassantTarget afterE2E4 = stringToSquare (qs "e3").
Proof.
  apply (makeMove_enPassantTarget false (moveOf "e2" "e4")
           (setPiece Pawn (moveOf "e2" "e4")) startPosition afterE2E4);
    vm_compute; reflexivity.
Defined.

(** ** The squares after a sound move *)

(** The cells after [processMove] on a sound move that is not a castle. *)
Lemma processMove_plain_cells g beta mv :
  Repr g beta -> soundMove g mv = true -> mv_isCastle mv = false ->
  let army := activeArmy g in
  let behind := mkSquare (sq_file (mv_end mv))
                         (rankBehind army (sq_rank (mv_end mv))) in
  exists g' beta',
    processMove army mv g = Ok g' /\ Repr g' beta'
    /\ forall n,
         beta' n
         = (if n =? mv_end mv then Some (army, landingPiece mv)
            else if n =? mv_start mv then None
            else if mv_isEnPassant mv && (n =? behind) then None
            else beta n).
Proof.
  intros H Hsound Ecastle. cbv zeta.
  unfold soundMove in Hsound. cbv zeta in Hsound.
  set (army := activeArmy g) in *.
  apply andb_prop in Hsound as [Hsound Hkind].
  apply andb_prop in Hsound as [Hvalid Hstart].
  unfold mv_isValid in Hvalid. apply andb_prop in Hvalid as [Hs He].
  apply sq_isValid_range in Hs, He.
  assert (Hbs : beta (mv_start mv) = Some (army, mv_piece mv)).
  { destruct (H (mv_start mv) (proj1 Hs)) as (_ & Ha & Hp).
    unfold testBit in Hstart. rewrite Z.land_spec in Hstart.
    apply andb_prop in Hstart as [Hsa Hsp].
    apply bits_cell; [rewrite <- Ha | rewrite <- Hp]; assumption. }
  unfold processMove.
  set (g0 := updateRights army mv
               (with_enPassantTarget invalidSquare (with_lastMove mv g))).
  assert (F0 : sameBoardsFiles g g0).
  { eapply sameBoardsFiles_trans; [apply (sameBoardsFiles_start mv) | ].
    apply sameBoardsFiles_updateRights. }
  assert (H0 : Repr g0 beta) by (apply (Repr_sameBoards g); [apply F0 | exact H]).
  unfold sq_data.
  rewrite (Repr_hasPieceAt g0 beta (mv_end mv) (otherArmy army) H0 (proj1 He)).
  rewrite Ecastle in Hkind.
  apply andb_prop in Hkind as [Hcap Hprom].
  assert (Hpu' : landingPiece mv <> Unknown).
  { assert (Hpu : mv_piece mv <> Unknown).
    { destruct (H (mv_start mv) (proj1 Hs)) as (Hc & _). rewrite Hbs in Hc.
      intros E. rewrite E in Hc. exact Hc. }
    unfold landingPiece, soundPromotion in *.
    destruct (mv_promotion mv); simpl in *; try discriminate; assumption. }
  set (behind := mkSquare (sq_file (mv_end mv))
                          (rankBehind army (sq_rank (mv_end mv)))) in *.
  assert (Hcapture :
    exists g1 beta1,
      (if armyBit (beta (mv_end mv)) (otherArmy army) || mv_isEnPassant mv
       then processCapture army mv g0 else Ok g0) = Ok g1
      /\ Repr g1 beta1
      /\ beta1 (mv_start mv) = Some (army, mv_piece mv)
      /\ beta1 (mv_end mv) = None
      /\ forall n, (n =? mv_end mv) = false ->
           beta1 n = (if mv_isEnPassant mv && (n =? behind) then None
                      else beta n)).
  { unfold soundCapture in Hcap.
    destruct (mv_isEnPassant mv) eqn:Eep.
    - (* en passant *)
      cbv zeta in Hcap. fold army in Hcap. fold behind in Hcap.
      apply andb_prop in Hcap as [Hcap HnotKing].
      apply andb_prop in Hcap as [Hcap Henemy].
      apply andb_prop in Hcap as [Hempty Hbv].
      apply sq_isValid_range in Hbv.
      pose proof (Repr_emptyAt g beta (mv_end mv) H (proj1 He) Hempty) as Hbe.
      rewrite (Repr_hasPieceAt g beta behind _ H (proj1 Hbv)) in Henemy.
      destruct (beta behind) as [[a T] | ] eqn:Ebb; [ | discriminate].
      simpl in Henemy. apply Army_eqb_eq in Henemy. subst a.
      rewrite orb_true_r.
      destruct (processCapture_Repr g0 beta army mv T H0) as
        (g1 & E1 & H1 & _); [rewrite Eep; exact Hbv | rewrite Eep; exact Ebb | ].
      rewrite Eep in H1. cbv iota in H1. unfold sq_data in H1. fold behind in H1.
      exists g1, (upd beta behind None).
      split; [exact E1 | split; [exact H1 | ]].
      split; [ | split].
      + unfold upd. destruct (Z.eqb_spec (mv_start mv) behind) as [E | _];
          [ | exact Hbs].
        rewrite E, Ebb in Hbs. destruct army; discriminate.
      + unfold upd. destruct (mv_end mv =? behind); [reflexivity | exact Hbe].
      + intros n _. reflexivity.
    - (* no en passant *)
      apply andb_prop in Hcap as [Hown HnotKing].
      apply negb_true_iff in Hown.
      rewrite (Repr_hasPieceAt g beta _ _ H (proj1 He)) in Hown.
      rewrite orb_false_r.
      destruct (beta (mv_end mv)) as [[a T] | ] eqn:Ebe.
      + assert (Ea : a = otherArmy army).
        { simpl in Hown. destruct army, a; simpl in *; congruence. }
        subst a.
        assert (Ee : armyBit (Some (otherArmy army, T)) (otherArmy army) = true).
        { destruct army; reflexivity. }
        rewrite Ee.
        destruct (processCapture_Repr g0 beta army mv T H0) as
          (g1 & E1 & H1 & _); [rewrite Eep; exact He | rewrite Eep; exact Ebe | ].
        rewrite Eep in H1. cbv iota in H1. unfold sq_data in H1.
        exists g1, (upd beta (mv_end mv) None).
        split; [exact E1 | split; [exact H1 | ]].
        split; [ | split].
        * unfold upd.
          destruct (Z.eqb_spec (mv_start mv) (mv_end mv)) as [E | _];
            [ | exact Hbs].
          rewrite E, Ebe in Hbs. destruct army; discriminate.
        * unfold upd. rewrite Z.eqb_refl. reflexivity.
        * intros n Hn. unfold upd. rewrite Hn. reflexivity.
      + simpl. exists g0, beta.
        split; [reflexivity | split; [exact H0 | ]].
        split; [exact Hbs | split; [exact Ebe | reflexivity]]. }
  destruct Hcapture as (g1 & beta1 & E1 & H1 & Hb1s & Hb1e & K1).
  rewrite E1. cbn [bind].
  set (capture := armyBit (beta (mv_end mv)) (otherArmy army)
                  || mv_isEnPassant mv) in *.
  assert (H1' : Repr (tickClock mv capture g1) beta1).
  { apply (Repr_sameBoards g1); [apply sameBoardsFiles_tickClock | exact H1]. }
  destruct (placeMover_plain (tickClock mv capture g1) beta1 army mv
              Ecastle H1' Hs He Hb1s Hb1e Hpu')
    as (g2 & E2 & H2 & _).
  rewrite E2. cbn [bind].
  eexists. eexists. split; [reflexivity | split].
  - apply (Repr_sameBoards g2); [apply sameBoardsFiles_endTurn | exact H2].
  - intros n. unfold upd. fold (landingPiece mv).
    destruct (n =? mv_end mv) eqn:En; [reflexivity | ].
    destruct (n =? mv_start mv); [reflexivity | ].
    apply K1. exact En.
Qed.

(** A sound move that is not a castle, once applied by [makeMove]: the end
    square holds the mover (the promotion piece on a promotion), the start
    square is empty, on an en-passant capture the square behind the end
    square is empty, and every other square holds what it held. *)
Theorem makeMove_moves_the_piece
    (chess960 : bool) (g : Game) (move mv : Move) :
  cellInvariants g = true ->
  fillOutMove chess960 g (activeArmy g) move = Ok (Some mv) ->
  soundMove g mv = true ->
  mv_isCastle mv = false ->
  let army := activeArmy g in
  let behind := mkSquare (sq_file (mv_end mv))
                         (rankBehind army (sq_rank (mv_end mv))) in
  exists g',
    makeMove chess960 move g = Ok (true, g')
    /\ forall n, 0 <= n ->
         cellOf g' n
         = (if n =? mv_end mv then Some (army, landingPiece mv)
            else if n =? mv_start mv then None
            else if mv_isEnPassant mv && (n =? behind) then None
            else cellOf g n).
Proof.
  intros Hc Hfill Hsound Hnc. cbv zeta.
  destruct (processMove_plain_cells g (cellOf g) mv
              (cellInvariants_Repr g Hc) Hsound Hnc)
    as (g' & beta' & E & H' & Hcells).
  exists g'. split.
  - unfold makeMove. rewrite Hfill. cbn [bind]. rewrite E. reflexivity.
  - intros n Hn. rewrite (Repr_cellOf g' beta' n H' Hn). apply Hcells.
Qed.

(** The en-passant capture [e5d6] in
    [4k3/8/8/3pP3/8/8/8/4K3 w - d6 0 1]. *)
Lemma makeMove_moves_the_piece_witness :
  let g := gameOf "4k3/8/8/3pP3/8/8/8/4K3 w - d6 0 1" in
  exists g',
    makeMove false (moveOf "e5" "d6") g = Ok (true, g')
    /\ cellOf g' 43 = Some (White, Pawn)
    /\ cellOf g' 36 = None
    /\ cellOf g 35 = Some (Black, Pawn) /\ cellOf g' 35 = None.
Proof.
  cbv zeta.
  destruct (makeMove_moves_the_piece false
              (gameOf "4k3/8/8/3pP3/8/8/8/4K3 w - d6 0 1")
              (moveOf "e5" "d6")
              (setEnPassant true (setPiece Pawn (moveOf "e5" "d6"))))
    as (g' & E & Hcells); try (vm_compute; reflexivity).
  exists g'. split; [exact E | ].
  split; [exact (Hcells 43 ltac:(lia)) | ].
  split; [exact (Hcells 36 ltac:(lia)) | ].
  split; [vm_compute; reflexivity | exact (Hcells 35 ltac:(lia))].
Defined.

(** The castle on the cells, toggle by toggle. *)
Lemma placeMover_castle_cells g beta army mv :
  let rookFrom :=
    mkSquare (match mv_castleSide mv with
              | KingSide => m_fileOfKingsRook g
              | QueenSide => m_fileOfQueensRook g
              end) (homeRank army) in
  let rookTo := mkSquare (match mv_castleSide mv with
                          | KingSide => 5 | QueenSide => 3 end)
                         (homeRank army) in
  let kingTo := mkSquare (match mv_castleSide mv with
                          | KingSide => 6 | QueenSide => 2 end)
                         (homeRank army) in
  mv_isCastle mv = true -> mv_piece mv = King ->
  Repr g beta ->
  0 <= mv_start mv < 64 -> 0 <= rookFrom < 64 ->
  beta (mv_start mv) = Some (army, King) ->
  beta rookFrom = Some (army, Rook) ->
  (rookTo = mv_start mv \/ rookTo = rookFrom \/ beta rookTo = None) ->
  (kingTo = mv_start mv \/ kingTo = rookFrom \/ beta kingTo = None) ->
  exists g2,
    placeMover army mv g = Ok g2
    /\ Repr g2 (upd (upd (upd (upd beta (mv_start mv) None) rookFrom None)
                         rookTo (Some (army, Rook)))
                    kingTo (Some (army, King))).
Proof.
  intros rookFrom rookTo kingTo Hc Hp H Hs Hrf Hbs Hbr Hfr Hfk.
  assert (Hrt : 0 <= rookTo < 64 /\ 0 <= kingTo < 64 /\ kingTo <> rookTo).
  { unfold rookTo, kingTo. destruct army, (mv_castleSide mv); vm_compute;
      repeat split; congruence. }
  destruct Hrt as (Hrt & Hkt & Hne).
  unfold placeMover, sq_data. rewrite Hp.
  destruct (step_off g beta (mv_start mv) army King H Hs Hbs) as (E1 & H1 & _).
  rewrite E1. cbn [bind]. rewrite Hc.
  set (g1 := toggled (mv_start mv) army King false g) in *.
  set (b1 := upd beta (mv_start mv) None) in *.
  assert (Efile : mkSquare (match mv_castleSide mv with
                            | KingSide => m_fileOfKingsRook g1
                            | QueenSide => m_fileOfQueensRook g1
                            end) (homeRank army) = rookFrom).
  { unfold rookFrom, g1.
    destruct (files_toggled (mv_start mv) army King false g) as [-> ->].
    reflexivity. }
  assert (Hb1 : b1 rookFrom = Some (army, Rook)).
  { unfold b1, upd. destruct (Z.eqb_spec rookFrom (mv_start mv)) as [E | _];
      [ | exact Hbr].
    rewrite E in Hbr. congruence. }
  destruct (step_off g1 b1 rookFrom army Rook H1 Hrf Hb1) as (E2 & H2 & _).
  set (g2 := toggled rookFrom army Rook false g1) in *.
  set (b2 := upd b1 rookFrom None) in *.
  assert (Hb2 : b2 rookTo = None).
  { unfold b2, b1, upd.
    destruct (Z.eqb_spec rookTo rookFrom); [reflexivity | ].
    destruct (Z.eqb_spec rookTo (mv_start mv)); [reflexivity | ].
    destruct Hfr as [? | [? | ?]]; [contradiction | contradiction | assumption]. }
  assert (Hrook : Rook <> Unknown) by discriminate.
  destruct (step_on g2 b2 rookTo army Rook H2 Hrt Hb2 Hrook) as (E3 & H3 & _).
  set (g3 := toggled rookTo army Rook true g2) in *.
  set (b3 := upd b2 rookTo (Some (army, Rook))) in *.
  assert (Hb3 : b3 kingTo = None).
  { unfold b3, b2, b1, upd.
    destruct (Z.eqb_spec kingTo rookTo); [contradiction | ].
    destruct (Z.eqb_spec kingTo rookFrom); [reflexivity | ].
    destruct (Z.eqb_spec kingTo (mv_start mv)); [reflexivity | ].
    destruct Hfk as [? | [? | ?]]; [contradiction | contradiction | assumption]. }
  assert (Hking : King <> Unknown) by discriminate.
  destruct (step_on g3 b3 kingTo army King H3 Hkt Hb3 Hking) as (E4 & H4 & _).
  exists (toggled kingTo army King true g3).
  split; [ | exact H4].
  destruct (mv_castleSide mv); cbn [bind];
    rewrite Efile, E2; cbn [bind]; fold g2;
    unfold rookTo, kingTo in *; rewrite E3; cbn [bind]; exact E4.
Qed.

(** A sound castle, once applied by [makeMove]: the king stands on the g-file
    or c-file square of the home rank and the rook on the f-file or d-file
    square; the squares that king and rook left are empty unless one of the
    two landed there; every other square holds what it held. *)
Theorem makeMove_castles
    (chess960 : bool) (g : Game) (move mv : Move) :
  cellInvariants g = true ->
  fillOutMove chess960 g (activeArmy g) move = Ok (Some mv) ->
  soundMove g mv = true ->
  mv_isCastle mv = true ->
  let army := activeArmy g in
  let rookFrom :=
    mkSquare (match mv_castleSide mv with
              | KingSide => m_fileOfKingsRook g
              | QueenSide => m_fileOfQueensRook g
              end) (homeRank army) in
  let rookTo := mkSquare (match mv_castleSide mv with
                          | KingSide => 5 | QueenSide => 3 end)
                         (homeRank army) in
  let kingTo := mkSquare (match mv_castleSide mv with
                          | KingSide => 6 | QueenSide => 2 end)
                         (homeRank army) in
  exists g',
    makeMove chess960 move g = Ok (true, g')
    /\ forall n, 0 <= n ->
         cellOf g' n
         = (if n =? kingTo then Some (army, King)
            else if n =? rookTo then Some (army, Rook)
            else if n =? rookFrom then None
            else if n =? mv_start mv then None
            else cellOf g n).
Proof.
  intros Hc Hfill Hsound Ecastle. cbv zeta.
  pose proof (cellInvariants_Repr g Hc) as H.
  set (beta := cellOf g) in *.
  unfold soundMove in Hsound. cbv zeta in Hsound.
  set (army := activeArmy g) in *.
  apply andb_prop in Hsound as [Hsound Hkind].
  apply andb_prop in Hsound as [Hvalid Hstart].
  unfold mv_isValid in Hvalid. apply andb_prop in Hvalid as [Hs He].
  apply sq_isValid_range in Hs, He.
  assert (Hbs : beta (mv_start mv) = Some (army, mv_piece mv)).
  { destruct (H (mv_start mv) (proj1 Hs)) as (_ & Ha & Hp).
    unfold testBit in Hstart. rewrite Z.land_spec in Hstart.
    apply andb_prop in Hstart as [Hsa Hsp].
    apply bits_cell; [rewrite <- Ha | rewrite <- Hp]; assumption. }
  rewrite Ecastle in Hkind.
  unfold soundCastle in Hkind. cbv zeta in Hkind. fold army in Hkind.
  set (rookFrom := mkSquare (match mv_castleSide mv with
                             | KingSide => m_fileOfKingsRook g
                             | QueenSide => m_fileOfQueensRook g
                             end) (homeRank army)) in *.
  set (rookTo := mkSquare (match mv_castleSide mv with
                           | KingSide => 5 | QueenSide => 3 end)
                          (homeRank army)) in *.
  set (kingTo := mkSquare (match mv_castleSide mv with
                           | KingSide => 6 | QueenSide => 2 end)
                          (homeRank army)) in *.
  apply andb_prop in Hkind as [Hkind Hnep].
  apply andb_prop in Hkind as [Hkind Hncap].
  apply andb_prop in Hkind as [Hkind Hfk].
  apply andb_prop in Hkind as [Hkind Hfr].
  apply andb_prop in Hkind as [Hkind Hrook].
  apply andb_prop in Hkind as [Hking Hrf].
  apply PieceType_eqb_eq in Hking. apply sq_isValid_range in Hrf.
  apply negb_true_iff in Hnep, Hncap.
  assert (Hbr : beta rookFrom = Some (army, Rook)).
  { destruct (H rookFrom (proj1 Hrf)) as (_ & Ha & Hp).
    unfold testBit in Hrook. rewrite Z.land_spec in Hrook.
    apply andb_prop in Hrook as [Hra Hrp].
    apply bits_cell; [rewrite <- Ha | rewrite <- Hp]; assumption. }
  assert (Hfree : forall t, 0 <= t ->
             (t =? mv_start mv) || (t =? rookFrom) || emptyAt g t = true ->
             t = mv_start mv \/ t = rookFrom \/ beta t = None).
  { intros t Ht Hf. apply orb_prop in Hf as [Hf | Hf].
    - apply orb_prop in Hf as [Hf | Hf]; apply Z.eqb_eq in Hf; auto.
    - right. right. exact (Repr_emptyAt g beta t H Ht Hf). }
  assert (Hrt0 : 0 <= rookTo /\ 0 <= kingTo).
  { unfold rookTo, kingTo. destruct army, (mv_castleSide mv); vm_compute;
      split; congruence. }
  set (g0 := updateRights army mv
               (with_enPassantTarget invalidSquare (with_lastMove mv g))).
  assert (F0 : sameBoardsFiles g g0).
  { eapply sameBoardsFiles_trans; [apply (sameBoardsFiles_start mv) | ].
    apply sameBoardsFiles_updateRights. }
  set (g1 := tickClock mv false g0).
  assert (F1 : sameBoardsFiles g g1).
  { eapply sameBoardsFiles_trans; [exact F0 | ].
    apply sameBoardsFiles_tickClock. }
  assert (H1 : Repr g1 beta)
    by (apply (Repr_sameBoards g); [apply F1 | exact H]).
  assert (Hcap0 : hasPieceAt g0 (sq_data (mv_end mv)) (otherArmy army) = false).
  { assert (H0 : Repr g0 beta)
      by (apply (Repr_sameBoards g); [apply F0 | exact H]).
    unfold sq_data.
    rewrite (Repr_hasPieceAt g0 beta _ _ H0 (proj1 He)).
    rewrite <- (Repr_hasPieceAt g beta _ _ H (proj1 He)). exact Hncap. }
  destruct F1 as (_ & Fk & Fq).
  rewrite Hking in Hbs.
  destruct (placeMover_castle_cells g1 beta army mv Ecastle Hking H1 Hs)
    as (g2 & E2 & H2).
  { rewrite Fk, Fq. exact Hrf. }
  { exact Hbs. }
  { rewrite Fk, Fq. exact Hbr. }
  { rewrite Fk, Fq. apply Hfree; [apply Hrt0 | exact Hfr]. }
  { rewrite Fk, Fq. apply Hfree; [apply Hrt0 | exact Hfk]. }
  rewrite Fk, Fq in H2. fold rookFrom rookTo kingTo in H2.
  exists (endTurn g2). split.
  - unfold makeMove. fold army. rewrite Hfill. cbn [bind].
    unfold processMove. fold g0. rewrite Hcap0, Hnep. cbn [orb bind].
    fold g1. rewrite E2. reflexivity.
  - intros n Hn.
    rewrite (Repr_cellOf (endTurn g2) _ n
               (Repr_sameBoards g2 _ _ (proj1 (sameBoardsFiles_endTurn g2)) H2)
               Hn).
    unfold upd. reflexivity.
Qed.

(** The king-side castle [e1g1] in [4k3/8/8/8/8/8/8/4K2R w K - 0 1]. *)
Lemma makeMove_castles_witness :
  let g := gameOf "4k3/8/8/8/8/8/8/4K2R w K - 0 1" in
  exists g',
    makeMove false (moveOf "e1" "g1") g = Ok (true, g')
    /\ cellOf g' 6 = Some (White, King) /\ cellOf g' 5 = Some (White, Rook)
    /\ cellOf g' 7 = None /\ cellOf g' 4 = None.
Proof.
  cbv zeta.
  destruct (makeMove_castles false
              (gameOf "4k3/8/8/8/8/8/8/4K2R w K - 0 1")
              (moveOf "e1" "g1")
              (setCastle true
                 (setCastleSide KingSide (setPiece King (moveOf "e1" "g1")))))
    as (g' & E & Hcells); try (vm_compute; reflexivity).
  exists g'. split; [exact E | ].
  split; [exact (Hcells 6 ltac:(lia)) | ].
  split; [exact (Hcells 5 ltac:(lia)) | ].
  split; [exact (Hcells 7 ltac:(lia)) | exact (Hcells 4 ltac:(lia))].
Defined.

(** ** [fillOutMove] *)

Ltac left_case :=
  left; split;
  [ reflexivity
  | let X := fresh in let Y := fresh in let Z := fresh in
    intros X Y Z; try discriminate X; try discriminate Y; try discriminate Z;
    clear X Y Z;
    repeat match goal with
           | E : ?b = false |- context [?b] => rewrite E
           | E : ?b = true |- context [?b] => rewrite E
           end;
    cbn [andb orb]; rewrite ?andb_false_r; reflexivity ].

(** The fields of a move that [fillOutMove] accepts. *)
Lemma fillOutMove_fields chess960 g army move mv :
  fillOutMove chess960 g army move = Ok (Some mv) ->
  let m0 := castleEnd army move in
  let homeRanks :=
    ((sq_rank (mv_start mv) =? 0) && (sq_rank (mv_end mv) =? 0))
    || ((sq_rank (mv_start mv) =? 7) && (sq_rank (mv_end mv) =? 7)) in
  mv_start mv = mv_start move
  /\ mv_end mv = mv_end m0
  /\ mv_isValid mv = true
  /\ mv_piece mv <> Unknown
  /\ mv_piece mv
     = (if PieceType_eqb (mv_piece move) Unknown
        then pieceTypeAt g (sq_data (mv_start move)) else mv_piece move)
  /\ mv_promotion mv
     = (if PieceType_eqb (mv_piece mv) Pawn
           && PieceType_eqb (mv_promotion move) Unknown
           && (sq_rank (mv_end mv) =? lastRank army)
        then Queen else mv_promotion move)
  /\ mv_isEnPassant mv
     = (mv_isEnPassant move
        || (PieceType_eqb (mv_piece mv) Pawn
            && (mv_end mv =? m_enPassantTarget g)))
  /\ mv_isCapture mv = mv_isCapture move
  /\ mv_isCheck mv = mv_isCheck move
  /\ mv_isCheckMate mv = mv_isCheckMate move
  /\ mv_isStaleMate mv = mv_isStaleMate move
  /\ (chess960 = false ->
      mv_isCastle mv
      = (mv_isCastle move
         || (PieceType_eqb (mv_piece mv) King && homeRanks
             && (sq_file (mv_start mv) =? 4)
             && ((sq_file (mv_end mv) =? 6) || (sq_file (mv_end mv) =? 2))))
      /\ mv_castleSide mv
         = (if negb (mv_isCastle move) && PieceType_eqb (mv_piece mv) King
               && homeRanks && (sq_file (mv_start mv) =? 4)
            then if sq_file (mv_end mv) =? 6 then KingSide
                 else if sq_file (mv_end mv) =? 2 then QueenSide
                 else mv_castleSide move
            else mv_castleSide move)).
Proof.
  assert (E0 : mv_start (castleEnd army move) = mv_start move
               /\ mv_piece (castleEnd army move) = mv_piece move
               /\ mv_promotion (castleEnd army move) = mv_promotion move
               /\ mv_isEnPassant (castleEnd army move) = mv_isEnPassant move
               /\ mv_isCapture (castleEnd army move) = mv_isCapture move
               /\ mv_isCheck (castleEnd army move) = mv_isCheck move
               /\ mv_isCheckMate (castleEnd army move) = mv_isCheckMate move
               /\ mv_isStaleMate (castleEnd army move) = mv_isStaleMate move
               /\ mv_isCastle (castleEnd army move) = mv_isCastle move
               /\ mv_castleSide (castleEnd army move) = mv_castleSide move).
  { unfold castleEnd. destruct (mv_isCastle move && negb (mv_isValid move));
      [destruct (mv_castleSide move) eqn:Eside | ]; repeat split;
      cbn [mv_castleSide setEnd]; congruence. }
  destruct E0 as (A1 & A2 & A3 & A4 & A5 & A6 & A7 & A8 & A9 & A10).
  unfold fillOutMove, lastRank, sq_data. cbv zeta.
  rewrite <- A1, <- A2, <- A3, <- A4, <- A5, <- A6, <- A7, <- A8, <- A9, <- A10.
  generalize (castleEnd army move) as m0. clear. intros m0.
  destruct (mv_isValid m0) eqn:Hvalid; cbn [negb]; [ | discriminate].
  set (m1 := if PieceType_eqb (mv_piece m0) Unknown
             then setPiece (pieceTypeAt g (mv_start m0)) m0 else m0).
  assert (F1 : mv_start m1 = mv_start m0 /\ mv_end m1 = mv_end m0
               /\ mv_piece m1
                  = (if PieceType_eqb (mv_piece m0) Unknown
                     then pieceTypeAt g (mv_start m0) else mv_piece m0)
               /\ mv_promotion m1 = mv_promotion m0
               /\ mv_isEnPassant m1 = mv_isEnPassant m0
               /\ mv_isCapture m1 = mv_isCapture m0
               /\ mv_isCheck m1 = mv_isCheck m0
               /\ mv_isCheckMate m1 = mv_isCheckMate m0
               /\ mv_isStaleMate m1 = mv_isStaleMate m0
               /\ mv_isCastle m1 = mv_isCastle m0
               /\ mv_castleSide m1 = mv_castleSide m0).
  { unfold m1. destruct (PieceType_eqb (mv_piece m0) Unknown); repeat split. }
  clearbody m1.
  destruct F1 as (B1 & B2 & B3 & B4 & B5 & B6 & B7 & B8 & B9 & B10 & B11).
  destruct (PieceType_eqb (mv_piece m1) Unknown) eqn:Hknown; [discriminate | ].
  assert (Hvs : sq_isValid (mv_start m1) = true).
  { rewrite B1. unfold mv_isValid in Hvalid.
    apply andb_prop in Hvalid as [Hvs _]. exact Hvs. }
  rewrite Hvs. cbn [negb andb].
  set (m2 := if PieceType_eqb (mv_piece m1) Pawn
                && PieceType_eqb (mv_promotion m1) Unknown
                && (Army_eqb army White && (sq_rank (mv_end m1) =? 7)
                    || Army_eqb army Black && (sq_rank (mv_end m1) =? 0))
             then setPromotion Queen m1 else m1).
  assert (F2 : mv_start m2 = mv_start m1 /\ mv_end m2 = mv_end m1
               /\ mv_piece m2 = mv_piece m1
               /\ mv_promotion m2
                  = (if PieceType_eqb (mv_piece m1) Pawn
                        && PieceType_eqb (mv_promotion m1) Unknown
                        && (sq_rank (mv_end m1)
                            =? match army with White => 7 | Black => 0 end)
                     then Queen else mv_promotion m1)
               /\ mv_isEnPassant m2 = mv_isEnPassant m1
               /\ mv_isCapture m2 = mv_isCapture m1
               /\ mv_isCheck m2 = mv_isCheck m1
               /\ mv_isCheckMate m2 = mv_isCheckMate m1
               /\ mv_isStaleMate m2 = mv_isStaleMate m1
               /\ mv_isCastle m2 = mv_isCastle m1
               /\ mv_castleSide m2 = mv_castleSide m1).
  { unfold m2.
    replace (Army_eqb army White && (sq_rank (mv_end m1) =? 7)
             || Army_eqb army Black && (sq_rank (mv_end m1) =? 0))
      with (sq_rank (mv_end m1) =? match army with White => 7 | Black => 0 end)
      by (destruct army; cbn [Army_eqb andb orb];
          rewrite ?orb_false_r; reflexivity).
    destruct (PieceType_eqb (mv_piece m1) Pawn
              && PieceType_eqb (mv_promotion m1) Unknown
              && (sq_rank (mv_end m1)
                  =? match army with White => 7 | Black => 0 end));
      repeat split. }
  clearbody m2.
  destruct F2 as (C1 & C2 & C3 & C4 & C5 & C6 & C7 & C8 & C9 & C10 & C11).
  set (m3 := if PieceType_eqb (mv_piece m2) Pawn
                && (mv_end m2 =? m_enPassantTarget g)
             then setEnPassant true m2 else m2).
  assert (F3 : mv_start m3 = mv_start m2 /\ mv_end m3 = mv_end m2
               /\ mv_piece m3 = mv_piece m2
               /\ mv_promotion m3 = mv_promotion m2
               /\ mv_isEnPassant m3
                  = (mv_isEnPassant m2
                     || (PieceType_eqb (mv_piece m2) Pawn
                         && (mv_end m2 =? m_enPassantTarget g)))
               /\ mv_isCapture m3 = mv_isCapture m2
               /\ mv_isCheck m3 = mv_isCheck m2
               /\ mv_isCheckMate m3 = mv_isCheckMate m2
               /\ mv_isStaleMate m3 = mv_isStaleMate m2
               /\ mv_isCastle m3 = mv_isCastle m2
               /\ mv_castleSide m3 = mv_castleSide m2).
  { unfold m3.
    destruct (PieceType_eqb (mv_piece m2) Pawn
              && (mv_end m2 =? m_enPassantTarget g));
      cbn [mv_isEnPassant setEnPassant];
      rewrite ?orb_true_r, ?orb_false_r; repeat split. }
  clearbody m3.
  destruct F3 as (D1 & D2 & D3 & D4 & D5 & D6 & D7 & D8 & D9 & D10 & D11).
  assert (Hv3 : mv_isValid m3 = true).
  { unfold mv_isValid in *. rewrite D1, D2, C1, C2, B1, B2. exact Hvalid. }
  assert (Hp3 : mv_piece m3 <> Unknown).
  { rewrite D3, C3. intros E. rewrite E in Hknown. discriminate. }
  intros H.
  assert (Hmv : (mv = m3
                 /\ (chess960 = false ->
                     PieceType_eqb (mv_piece m3) King = true ->
                     mv_isCastle m3 = false ->
                     (((sq_rank (mv_start m3) =? 0)
                       && (sq_rank (mv_end m3) =? 0))
                      || ((sq_rank (mv_start m3) =? 7)
                          && (sq_rank (mv_end m3) =? 7)))
                     && (sq_file (mv_start m3) =? 4)
                     && ((sq_file (mv_end m3) =? 6)
                         || (sq_file (mv_end m3) =? 2)) = false))
                \/ (PieceType_eqb (mv_piece m3) King = true
                    /\ mv_isCastle m3 = false
                    /\ exists side,
                         (mv = setCastle true (setCastleSide side m3)
                          \/ mv = setCastleSide side (setCastle true m3))
                         /\ (chess960 = false ->
                             (((sq_rank (mv_start m3) =? 0)
                               && (sq_rank (mv_end m3) =? 0))
                              || ((sq_rank (mv_start m3) =? 7)
                                  && (sq_rank (mv_end m3) =? 7))) = true
                             /\ (sq_file (mv_start m3) =? 4) = true
                             /\ ((sq_file (mv_end m3) =? 6) = true
                                 /\ side = KingSide
                                 \/ (sq_file (mv_end m3) =? 6) = false
                                    /\ (sq_file (mv_end m3) =? 2) = true
                                    /\ side = QueenSide)))).
  { destruct (PieceType_eqb (mv_piece m3) King) eqn:Ek;
      destruct (mv_isCastle m3) eqn:Ec; cbn [negb andb] in H;
      try (injection H as <-; left_case).
    destruct (((sq_rank (mv_start m3) =? 0) && (sq_rank (mv_end m3) =? 0))
              || ((sq_rank (mv_start m3) =? 7) && (sq_rank (mv_end m3) =? 7)))
      eqn:Eh; [ | injection H as <-; left_case].
    destruct (sq_file (mv_start m3) =? 4) eqn:E4; cbn [andb] in H.
    - destruct (sq_file (mv_end m3) =? 6) eqn:E6.
      + injection H as <-. right. split; [reflexivity | split; [reflexivity | ]].
        exists KingSide. split; [left; reflexivity | ]. intros _.
        split; [reflexivity | split; [reflexivity | left; split; reflexivity]].
      + destruct (sq_file (mv_end m3) =? 2) eqn:E2.
        * injection H as <-. right.
          split; [reflexivity | split; [reflexivity | ]].
          exists QueenSide. split; [right; reflexivity | ]. intros _.
          split; [reflexivity | split; [reflexivity | ]].
          right. repeat split; reflexivity.
        * destruct chess960; cbn [andb] in H;
            [ | injection H as <-; left_case].
          destruct (negb (isClear _)) in H;
            [ | injection H as <-; left_case].
          destruct (sq_file (mv_end m3) =? fileOfKingsRook g).
          -- injection H as <-. right.
             split; [reflexivity | split; [reflexivity | ]].
             exists KingSide. split; [left; reflexivity | discriminate].
          -- destruct (sq_file (mv_end m3) =? fileOfQueensRook g);
               [ | discriminate H].
             injection H as <-. right.
             split; [reflexivity | split; [reflexivity | ]].
             exists QueenSide. split; [left; reflexivity | discriminate].
    - destruct chess960; cbn [andb] in H;
        [ | injection H as <-; left_case].
      destruct (negb (isClear _)) in H;
        [ | injection H as <-; left_case].
      destruct (sq_file (mv_end m3) =? fileOfKingsRook g).
      + injection H as <-. right.
        split; [reflexivity | split; [reflexivity | ]].
        exists KingSide. split; [left; reflexivity | discriminate].
      + destruct (sq_file (mv_end m3) =? fileOfQueensRook g);
          [ | discriminate H].
        injection H as <-. right.
        split; [reflexivity | split; [reflexivity | ]].
        exists QueenSide. split; [left; reflexivity | discriminate]. }
  clear H.
  assert (G : mv_start mv = mv_start m3 /\ mv_end mv = mv_end m3
              /\ mv_piece mv = mv_piece m3
              /\ mv_promotion mv = mv_promotion m3
              /\ mv_isEnPassant mv = mv_isEnPassant m3
              /\ mv_isCapture mv = mv_isCapture m3
              /\ mv_isCheck mv = mv_isCheck m3
              /\ mv_isCheckMate mv = mv_isCheckMate m3
              /\ mv_isStaleMate mv = mv_isStaleMate m3).
  { destruct Hmv as [[-> _] | (_ & _ & side & [-> | ->] & _)]; repeat split. }
  destruct G as (G1 & G2 & G3 & G4 & G5 & G6 & G7 & G8 & G9).
  split; [congruence | ]. split; [congruence | ].
  split; [unfold mv_isValid in *; rewrite G1, G2; exact Hv3 | ].
  split; [rewrite G3; exact Hp3 | ].
  split; [congruence | ].
  split; [rewrite G4, D4, C4, G3, D3, C3, G2, D2, C2, B4; reflexivity | ].
  split; [rewrite G5, D5, C5, B5, G3, D3, G2, D2; reflexivity | ].
  split; [congruence | ]. split; [congruence | ]. split; [congruence | ].
  split; [congruence | ].
  intros E960.
  assert (Ecm : mv_isCastle m0 = mv_isCastle m3) by congruence.
  assert (Esm : mv_castleSide m0 = mv_castleSide m3) by congruence.
  rewrite G1, G2, G3, Ecm, Esm. clear G1 G2 G3 G4 G5 G6 G7 G8 G9.
  destruct Hmv as [[-> Hno] | (Ek & Ec & side & Emv & Hside)].
  - (* no castle flag was set *)
    destruct (mv_isCastle m3) eqn:Ec; cbn [orb negb andb];
      [split; reflexivity | ].
    destruct (PieceType_eqb (mv_piece m3) King) eqn:Ek; cbn [andb];
      [ | split; reflexivity].
    specialize (Hno E960 eq_refl eq_refl).
    split; [symmetry; exact Hno | ].
    destruct (((sq_rank (mv_start m3) =? 0) && (sq_rank (mv_end m3) =? 0))
              || ((sq_rank (mv_start m3) =? 7) && (sq_rank (mv_end m3) =? 7)));
      cbn [andb] in *; [ | reflexivity].
    destruct (sq_file (mv_start m3) =? 4); cbn [andb] in *; [ | reflexivity].
    destruct (sq_file (mv_end m3) =? 6); cbn [orb] in *; [discriminate Hno | ].
    destruct (sq_file (mv_end m3) =? 2); [discriminate Hno | reflexivity].
  - destruct (Hside E960) as (Eh & E4 & Hfile).
    rewrite Ek, Ec, Eh, E4. cbn [orb negb andb].
    destruct Hfile as [(E6 & ->) | (E6 & E2 & ->)];
      rewrite E6, ?E2; cbn [orb];
      destruct Emv as [-> | ->]; split; reflexivity.
Qed.

Lemma move_eta (m : Move) :
  m = mkMove (mv_start m) (mv_end m) (mv_piece m) (mv_promotion m)
             (mv_isCapture m) (mv_isCheck m) (mv_isCheckMate m)
             (mv_isStaleMate m) (mv_isEnPassant m) (mv_isCastle m)
             (mv_castleSide m).
Proof. destruct m. reflexivity. Qed.

(** On a filled-out move only the last block of [fillOutMove] is left to
    run. *)
Lemma fillOutMove_on_filledOut chess960 g army m :
  filledOut g army m ->
  fillOutMove chess960 g army m = castleStage chess960 g army m.
Proof.
  intros (Hv & Hk & Hpr & Hep).
  unfold fillOutMove, castleStage, sq_data. cbv zeta.
  assert (E0 : castleEnd army m = m).
  { unfold castleEnd. rewrite Hv. rewrite andb_false_r. reflexivity. }
  rewrite E0, Hv, Hk. cbn [negb]. rewrite Hk.
  assert (Hvs : sq_isValid (mv_start m) = true).
  { unfold mv_isValid in Hv. apply andb_prop in Hv as [Hvs _]. exact Hvs. }
  rewrite Hvs. cbn [negb andb].
  replace (Army_eqb army White && (sq_rank (mv_end m) =? 7)
           || Army_eqb army Black && (sq_rank (mv_end m) =? 0))
    with (sq_rank (mv_end m) =? lastRank army)
    by (destruct army; cbn [Army_eqb andb orb lastRank];
        rewrite ?orb_false_r; reflexivity).
  rewrite Hpr.
  destruct (PieceType_eqb (mv_piece m) Pawn && (mv_end m =? m_enPassantTarget g))
    eqn:Eep; [ | reflexivity].
  assert (Em : setEnPassant true m = m).
  { unfold setEnPassant. rewrite <- (Hep eq_refl). symmetry. apply move_eta. }
  rewrite Em. reflexivity.
Qed.

(** The stages of [fillOutMove] before its last block. *)
Lemma fillOutMove_stages chess960 g army move mv :
  fillOutMove chess960 g army move = Ok (Some mv) ->
  exists m3,
    castleStage chess960 g army m3 = Ok (Some mv) /\ filledOut g army m3.
Proof.
  unfold fillOutMove, sq_data. cbv zeta.
  generalize (castleEnd army move) as m0. intros m0.
  destruct (mv_isValid m0) eqn:Hvalid; cbn [negb]; [ | discriminate].
  set (m1 := if PieceType_eqb (mv_piece m0) Unknown
             then setPiece (pieceTypeAt g (mv_start m0)) m0 else m0).
  assert (F1 : mv_start m1 = mv_start m0 /\ mv_end m1 = mv_end m0).
  { unfold m1. destruct (PieceType_eqb (mv_piece m0) Unknown); split; reflexivity. }
  clearbody m1. destruct F1 as (B1 & B2).
  destruct (PieceType_eqb (mv_piece m1) Unknown) eqn:Hknown; [discriminate | ].
  assert (Hvs : sq_isValid (mv_start m1) = true).
  { rewrite B1. unfold mv_isValid in Hvalid.
    apply andb_prop in Hvalid as [Hvs _]. exact Hvs. }
  rewrite Hvs. cbn [negb andb].
  replace (Army_eqb army White && (sq_rank (mv_end m1) =? 7)
           || Army_eqb army Black && (sq_rank (mv_end m1) =? 0))
    with (sq_rank (mv_end m1) =? lastRank army)
    by (destruct army; cbn [Army_eqb andb orb lastRank];
        rewrite ?orb_false_r; reflexivity).
  set (m2 := if PieceType_eqb (mv_piece m1) Pawn
                && PieceType_eqb (mv_promotion m1) Unknown
                && (sq_rank (mv_end m1) =? lastRank army)
             then setPromotion Queen m1 else m1).
  assert (F2 : mv_start m2 = mv_start m1 /\ mv_end m2 = mv_end m1
               /\ mv_piece m2 = mv_piece m1
               /\ PieceType_eqb (mv_piece m2) Pawn
                  && PieceType_eqb (mv_promotion m2) Unknown
                  && (sq_rank (mv_end m2) =? lastRank army) = false).
  { unfold m2.
    destruct (PieceType_eqb (mv_piece m1) Pawn
              && PieceType_eqb (mv_promotion m1) Unknown
              && (sq_rank (mv_end m1) =? lastRank army)) eqn:E;
      cbn [mv_start mv_end mv_piece mv_promotion setPromotion PieceType_eqb];
      rewrite ?andb_false_r; repeat split; assumption. }
  clearbody m2. destruct F2 as (C1 & C2 & C3 & C4).
  set (m3 := if PieceType_eqb (mv_piece m2) Pawn
                && (mv_end m2 =? m_enPassantTarget g)
             then setEnPassant true m2 else m2).
  assert (F3 : mv_start m3 = mv_start m2 /\ mv_end m3 = mv_end m2
               /\ mv_piece m3 = mv_piece m2
               /\ mv_promotion m3 = mv_promotion m2
               /\ (PieceType_eqb (mv_piece m2) Pawn
                   && (mv_end m2 =? m_enPassantTarget g) = true ->
                   mv_isEnPassant m3 = true)).
  { unfold m3.
    destruct (PieceType_eqb (mv_piece m2) Pawn
              && (mv_end m2 =? m_enPassantTarget g));
      repeat split; try reflexivity; discriminate. }
  clearbody m3. destruct F3 as (D1 & D2 & D3 & D4 & D5).
  intros H. exists m3. split; [exact H | ].
  unfold filledOut, mv_isValid in *.
  rewrite D1, D2, D3, D4.
  split; [rewrite C1, C2, B1, B2; exact Hvalid | ].
  split; [rewrite C3; exact Hknown | ].
  split; [exact C4 | exact D5].
Qed.

(** What the last block of [fillOutMove] returns. *)
Lemma castleStage_out chess960 g army m3 mv :
  castleStage chess960 g army m3 = Ok (Some mv) ->
  mv = m3
  \/ (mv_isCastle mv = true
      /\ mv_start mv = mv_start m3 /\ mv_end mv = mv_end m3
      /\ mv_piece mv = mv_piece m3 /\ mv_promotion mv = mv_promotion m3
      /\ mv_isEnPassant mv = mv_isEnPassant m3).
Proof.
  unfold castleStage. cbv zeta.
  repeat match goal with
         | |- context [if ?b then _ else _] =>
             lazymatch b with
             | context [if _ then _ else _] => fail
             | _ => destruct b
             end
         end;
    intros H; try discriminate H; injection H as <-;
    first [left; reflexivity | right; repeat split].
Qed.

(** Filling out a move that [fillOutMove] has filled out gives the same
    move. *)
Theorem fillOutMove_idempotent
    (chess960 : bool) (g : Game) (army : Army) (move mv : Move) :
  fillOutMove chess960 g army move = Ok (Some mv) ->
  fillOutMove chess960 g army mv = Ok (Some mv).
Proof.
  intros H. apply fillOutMove_stages in H as (m3 & Hc & Hf).
  destruct (castleStage_out _ _ _ _ _ Hc)
    as [-> | (Ecastle & E1 & E2 & E3 & E4 & E5)].
  - rewrite (fillOutMove_on_filledOut chess960 g army m3 Hf). exact Hc.
  - assert (Hf' : filledOut g army mv).
    { unfold filledOut, mv_isValid in *. rewrite E1, E2, E3, E4, E5. exact Hf. }
    rewrite (fillOutMove_on_filledOut chess960 g army mv Hf').
    unfold castleStage. rewrite Ecastle, andb_false_r. reflexivity.
Qed.

Lemma fillOutMove_idempotent_witness :
  fillOutMove false startPosition White (setPiece Pawn (moveOf "e2" "e4"))
  = Ok (Some (setPiece Pawn (moveOf "e2" "e4"))).
Proof.
  apply (fillOutMove_idempotent false startPosition White (moveOf "e2" "e4")).
  vm_compute. reflexivity.
Defined.

(** A move that [fillOutMove] accepts keeps its start square, its end square
    (a move flagged as a castle that lacks a valid square gets the castle
    square of the king as its end), its piece when it names one (the piece on
    the start square otherwise), and its capture, check, check-mate and
    stale-mate flags; both squares are valid and the piece is known. *)
Theorem fillOutMove_keeps_the_move
    (chess960 : bool) (g : Game) (army : Army) (move mv : Move) :
  fillOutMove chess960 g army move = Ok (Some mv) ->
  mv_start mv = mv_start move
  /\ mv_end mv = mv_end (castleEnd army move)
  /\ mv_isValid mv = true
  /\ mv_piece mv <> Unknown
  /\ mv_piece mv
     = (if PieceType_eqb (mv_piece move) Unknown
        then pieceTypeAt g (sq_data (mv_start move)) else mv_piece move)
  /\ mv_isCapture mv = mv_isCapture move
  /\ mv_isCheck mv = mv_isCheck move
  /\ mv_isCheckMate mv = mv_isCheckMate move
  /\ mv_isStaleMate mv = mv_isStaleMate move.
Proof.
  intros H. apply fillOutMove_fields in H. cbv zeta in H.
  destruct H as (H1 & H2 & H3 & H4 & H5 & _ & _ & H8 & H9 & H10 & H11 & _).
  repeat split; assumption.
Qed.

Lemma fillOutMove_keeps_the_move_witness :
  exists mv,
    fillOutMove false startPosition White (moveOf "g1" "f3") = Ok (Some mv)
    /\ mv_start mv = 6 /\ mv_end mv = 21 /\ mv_piece mv = Knight.
Proof.
  eexists. split; [vm_compute; reflexivity | ].
  match goal with
  | |- mv_start ?mv = _ /\ _ =>
      destruct (fillOutMove_keeps_the_move false startPosition White
                  (moveOf "g1" "f3") mv)
        as (H1 & H2 & _ & _ & H5 & _); [vm_compute; reflexivity | ]
  end.
  split; [exact H1 | split; [exact H2 | exact H5]].
Defined.

(** A pawn move to the last rank of the army that names no promotion piece is
    filled out as a promotion to a queen, and any other move keeps its
    promotion piece; a pawn move that ends on the en-passant target of the
    position gets the en-passant flag, which is never cleared. *)
Theorem fillOutMove_promotion_and_en_passant
    (chess960 : bool) (g : Game) (army : Army) (move mv : Move) :
  fillOutMove chess960 g army move = Ok (Some mv) ->
  mv_promotion mv
  = (if PieceType_eqb (mv_piece mv) Pawn
        && PieceType_eqb (mv_promotion move) Unknown
        && (sq_rank (mv_end mv) =? lastRank army)
     then Queen else mv_promotion move)
  /\ mv_isEnPassant mv
     = (mv_isEnPassant move
        || (PieceType_eqb (mv_piece mv) Pawn
            && (mv_end mv =? m_enPassantTarget g))).
Proof.
  intros H. apply fillOutMove_fields in H. cbv zeta in H.
  destruct H as (_ & _ & _ & _ & _ & H6 & H7 & _). split; assumption.
Qed.

Lemma fillOutMove_promotion_and_en_passant_witness :
  exists mv,
    fillOutMove false (gameOf "4k3/P7/8/8/8/8/8/4K3 w - - 0 1") White
      (moveOf "a7" "a8") = Ok (Some mv)
    /\ mv_promotion mv = Queen /\ mv_isEnPassant mv = false.
Proof.
  eexists. split; [vm_compute; reflexivity | ].
  match goal with
  | |- mv_promotion ?mv = _ /\ _ =>
      destruct (fillOutMove_promotion_and_en_passant false
                  (gameOf "4k3/P7/8/8/8/8/8/4K3 w - - 0 1") White
                  (moveOf "a7" "a8") mv)
        as (H1 & H2); [vm_compute; reflexivity | ]
  end.
  split; [exact H1 | exact H2].
Defined.

(** Outside Chess960 mode [fillOutMove] flags a move as a castle exactly when
    it came flagged, or when it is a king move within rank 1 or within rank 8
    from the e-file to the g-file or the c-file; the castle rights and the
    rooks of the position are not looked at. *)
Theorem fillOutMove_flags_castles_by_squares
    (g : Game) (army : Army) (move mv : Move) :
  fillOutMove false g army move = Ok (Some mv) ->
  let homeRanks :=
    ((sq_rank (mv_start mv) =? 0) && (sq_rank (mv_end mv) =? 0))
    || ((sq_rank (mv_start mv) =? 7) && (sq_rank (mv_end mv) =? 7)) in
  mv_isCastle mv
  = (mv_isCastle move
     || (PieceType_eqb (mv_piece mv) King && homeRanks
         && (sq_file (mv_start mv) =? 4)
         && ((sq_file (mv_end mv) =? 6) || (sq_file (mv_end mv) =? 2))))
  /\ mv_castleSide mv
     = (if negb (mv_isCastle move) && PieceType_eqb (mv_piece mv) King
           && homeRanks && (sq_file (mv_start mv) =? 4)
        then if sq_file (mv_end mv) =? 6 then KingSide
             else if sq_file (mv_end mv) =? 2 then QueenSide
             else mv_castleSide move
        else mv_castleSide move).
Proof.
  intros H. apply fillOutMove_fields in H. cbv zeta in H. cbv zeta.
  destruct H as (_ & _ & _ & _ & _ & _ & _ & _ & _ & _ & _ & H12).
  exact (H12 eq_refl).
Qed.

(** The king move [e1c1] with no rook on the board and no castle right. *)
Lemma fillOutMove_flags_castles_by_squares_witness :
  let g := gameOf "4k3/8/8/8/8/8/8/4K3 w - - 0 1" in
  isCastleAvailable g White QueenSide = false
  /\ exists mv,
       fillOutMove false g White (moveOf "e1" "c1") = Ok (Some mv)
       /\ mv_isCastle mv = true /\ mv_castleSide mv = QueenSide.
Proof.
  cbv zeta. split; [vm_compute; reflexivity | ].
  eexists. split; [vm_compute; reflexivity | ].
  match goal with
  | |- mv_isCastle ?mv = _ /\ _ =>
      destruct (fillOutMove_flags_castles_by_squares
                  (gameOf "4k3/8/8/8/8/8/8/4K3 w - - 0 1") White
                  (moveOf "e1" "c1") mv)
        as (H1 & H2); [vm_compute; reflexivity | ]
  end.
  split; [exact H1 | exact H2].
Defined.

(** [fillOutMove] never fills in a start square: a move without a valid start
    square is rejected, also when it is flagged as a castle, for which only
    the end square is filled in; [fillOutStart] answers whether the move has
    both squares. *)
Theorem fillOutMove_start_is_never_filled
    (chess960 : bool) (g : Game) (army : Army) (move : Move) :
  fillOutStart g army move = mv_isValid move
  /\ (sq_isValid (mv_start move) = false ->
      fillOutMove chess960 g army move = Ok None).
Proof.
  split.
  - unfold fillOutStart, mv_isValid.
    destruct (sq_isValid (mv_start move)), (sq_isValid (mv_end move));
      reflexivity.
  - intros H. apply fillOutMove_false_iff. cbv zeta. left.
    unfold castleEnd, mv_isValid.
    destruct (mv_isCastle move && negb _);
      [destruct (mv_castleSide move) | ];
      cbn [mv_start setEnd]; rewrite H; reflexivity.
Qed.

Lemma fillOutMove_start_is_never_filled_witness :
  fillOutMove false startPosition White
    (setCastleSide KingSide (setCastle true defaultMove)) = Ok None.
Proof.
  apply (fillOutMove_start_is_never_filled false startPosition White
           (setCastleSide KingSide (setCastle true defaultMove))).
  vm_compute. reflexivity.
Defined.

(** ** The castling characters of a FEN *)

Lemma q_last_In (l : list Square) x : q_last l = Ok x -> In x l.
Proof.
  intros H. apply q_last_inv in H as (l0 & ->). apply in_or_app.
  right. left. reflexivity.
Qed.

Lemma q_first_In (l : list Square) x : q_first l = Ok x -> In x l.
Proof.
  destruct l as [ | y l]; [discriminate | ]. intros H. injection H as ->.
  left. reflexivity.
Qed.

(** When there are rooks and a king, the rook that [castlingFromFen] returns
    is one of the rooks, stands on the board and on the side of the king that
    the returned castle side names: the last rook for ['k'], the first rook
    for ['q'], and for any other character, which only Chess960 mode admits,
    the first rook on the file that the character names. *)
Theorem castlingFromFen_chooses_a_rook
    (chess960 : bool) (c : ascii) (king : Square) (rooks : list Square)
    (side : Castle) (sq : Square) :
  rooks <> [] -> sq_isValid king = true ->
  castlingFromFen chess960 c king rooks = Ok (side, sq) ->
  In sq rooks /\ sq_isValid sq = true
  /\ (side = KingSide /\ sq_file sq > sq_file king
      \/ side = QueenSide /\ sq_file sq < sq_file king)
  /\ (ascii_eqb c "k" = true -> side = KingSide /\ q_last rooks = Ok sq)
  /\ (ascii_eqb c "k" = false -> ascii_eqb c "q" = true ->
      side = QueenSide /\ q_first rooks = Ok sq)
  /\ (ascii_eqb c "k" = false -> ascii_eqb c "q" = false ->
      chess960 = true
      /\ find (fun s => ascii_eqb (fileToChar (sq_file s)) c) rooks = Some sq).
Proof.
  intros Hne Hk. unfold castlingFromFen.
  destruct rooks as [ | r0 rs] eqn:Er; [contradiction | ]. rewrite <- Er.
  rewrite Hk. cbn [negb orb].
  destruct (ascii_eqb c "k") eqn:Eck.
  - destruct (q_last rooks) as [x | ] eqn:El; cbn [bind]; [ | discriminate].
    destruct (sq_file x >? sq_file king) eqn:Eg; cbn [q_assert bind snd];
      [ | discriminate].
    destruct (sq_isValid x) eqn:Ev; cbn [q_assert bind]; [ | discriminate].
    destruct (negb (sq_file x =? sq_file king)); cbn [q_assert bind];
      [ | discriminate].
    intros H. injection H as <- <-. apply Z.gtb_lt in Eg.
    split; [exact (q_last_In _ _ El) | ]. split; [exact Ev | ].
    split; [left; split; [reflexivity | lia] | ].
    split; [intros _; split; reflexivity | ].
    split; intros; discriminate.
  - destruct (ascii_eqb c "q") eqn:Ecq.
    + destruct (q_first rooks) as [x | ] eqn:El; cbn [bind]; [ | discriminate].
      destruct (sq_file x <? sq_file king) eqn:Eg; cbn [q_assert bind snd];
        [ | discriminate].
      destruct (sq_isValid x) eqn:Ev; cbn [q_assert bind]; [ | discriminate].
      destruct (negb (sq_file x =? sq_file king)); cbn [q_assert bind];
        [ | discriminate].
      intros H. injection H as <- <-. apply Z.ltb_lt in Eg.
      split; [exact (q_first_In _ _ El) | ]. split; [exact Ev | ].
      split; [right; split; [reflexivity | lia] | ].
      split; [intros; discriminate | ].
      split; [intros _ _; split; reflexivity | intros; discriminate].
    + destruct chess960; cbn [q_assert bind]; [ | discriminate].
      destruct (find (fun s => ascii_eqb (fileToChar (sq_file s)) c) rooks)
        as [x | ] eqn:Ef; cbn [snd].
      * destruct (sq_isValid x) eqn:Ev; cbn [q_assert bind]; [ | discriminate].
        destruct (sq_file x =? sq_file king) eqn:En; cbn [negb q_assert bind];
          [discriminate | ].
        intros H. injection H as <- <-. apply Z.eqb_neq in En.
        apply find_some in Ef as Hin. destruct Hin as [Hin _].
        split; [exact Hin | ]. split; [exact Ev | ].
        split.
        { destruct (sq_file x >? sq_file king) eqn:Eg.
          - left. apply Z.gtb_lt in Eg. split; [reflexivity | lia].
          - right. rewrite Z.gtb_ltb in Eg. apply Z.ltb_ge in Eg.
            split; [reflexivity | lia]. }
        split; [intros; discriminate | ].
        split; [intros; discriminate | ].
        intros _ _. split; reflexivity.
      * change (sq_isValid invalidSquare) with false. cbn [q_assert bind].
        discriminate.
Qed.

Lemma castlingFromFen_chooses_a_rook_witness :
  castlingFromFen false "k" 4 [0; 7] = Ok (KingSide, 7)
  /\ In 7 [0; 7] /\ sq_isValid 7 = true.
Proof.
  assert (E : castlingFromFen false "k" 4 [0; 7] = Ok (KingSide, 7))
    by (vm_compute; reflexivity).
  split; [exact E | ].
  destruct (castlingFromFen_chooses_a_rook false "k" 4 [0; 7] KingSide 7)
    as (H1 & H2 & _);
    [discriminate | vm_compute; reflexivity | exact E | ].
  split; [exact H1 | exact H2].
Defined.

(** Without rooks, or without a king on the board, [castlingFromFen] stops
    on no assertion and returns no rook: the invalid square, with the king
    side for ['k'] and the queen side for any other character.  The body of
    the castling loop of [setFen] then grants the right all the same. *)
Theorem castlingFromFen_without_rook_or_king
    (chess960 : bool) (c : ascii) (fd : Found) (g : Game) :
  let army := if isUpper c then White else Black in
  let side := if ascii_eqb (toLower c) "k" then KingSide else QueenSide in
  rooksOf fd army = [] \/ sq_isValid (kingOf fd army) = false ->
  castlingFromFen chess960 (toLower c) (kingOf fd army) (rooksOf fd army)
  = Ok (side, invalidSquare)
  /\ exists g',
       parseCastle chess960 fd c g = Ok g'
       /\ isCastleAvailable g' army side = true.
Proof.
  cbv zeta. intros H.
  assert (E : castlingFromFen chess960 (toLower c)
                (kingOf fd (if isUpper c then White else Black))
                (rooksOf fd (if isUpper c then White else Black))
              = Ok (if ascii_eqb (toLower c) "k" then KingSide else QueenSide,
                    invalidSquare)).
  { unfold castlingFromFen. destruct H as [-> | ->].
    - reflexivity.
    - cbn [negb]. rewrite orb_true_r. reflexivity. }
  split; [exact E | ].
  unfold parseCastle. rewrite E. cbn [bind fst snd].
  destruct (ascii_eqb (toLower c) "k"); eexists; (split; [reflexivity | ]);
    destruct (isUpper c); reflexivity.
Qed.

(** The castling field [K] for a board without a white rook. *)
Lemma castlingFromFen_without_rook_or_king_witness :
  exists g',
    parseCastle false (mkFound [] [] 4 60) "K" blankGame = Ok g'
    /\ isCastleAvailable g' White KingSide = true.
Proof.
  apply (castlingFromFen_without_rook_or_king false "K" (mkFound [] [] 4 60)
           blankGame).
  left. reflexivity.
Defined.

(** Outside Chess960 mode, and for an army without rooks in any mode,
    [fenFromCastling] only ever writes ['k'] for the king side and ['q'] for
    the queen side: whenever it returns a character, it is that one. *)
Theorem fenFromCastling_standard_letters
    (chess960 : bool) (castle : Castle) (king : Square) (rooks : list Square)
    (file : Z) (c : ascii) :
  chess960 = false \/ rooks = [] ->
  fenFromCastling chess960 castle king rooks file = Ok c ->
  c = match castle with KingSide => "k"%char | QueenSide => "q"%char end.
Proof.
  intros Hmode. unfold fenFromCastling.
  destruct rooks as [ | r0 rs] eqn:Er.
  - intros H. injection H as <-. reflexivity.
  - destruct Hmode as [-> | Hnil]; [ | discriminate Hnil]. rewrite <- Er.
    destruct (q_assert _); cbn [bind]; [ | discriminate].
    destruct castle.
    + destruct (q_last _) as [outer | ]; cbn [bind]; [ | discriminate].
      destruct (sq_file outer =? file); [ | discriminate].
      intros H. injection H as <-. reflexivity.
    + destruct (q_first _) as [outer | ]; cbn [bind]; [ | discriminate].
      destruct (sq_file outer =? file); [ | discriminate].
      intros H. injection H as <-. reflexivity.
Qed.

Lemma fenFromCastling_standard_letters_witness :
  fenFromCastling false QueenSide 4 [0; 7] 0 = Ok "q"%char
  /\ "q"%char
     = match QueenSide with KingSide => "k"%char | QueenSide => "q"%char end.
Proof.
  assert (E : fenFromCastling false QueenSide 4 [0; 7] 0 = Ok "q"%char)
    by (vm_compute; reflexivity).
  split; [exact E | ].
  exact (fenFromCastling_standard_letters false QueenSide 4 [0; 7] 0 "q"
           (or_introl eq_refl) E).
Defined.

(** The character that [fenFromCastling] writes for a castle right is read
    back by [castlingFromFen], over the same king and the same rooks sorted
    by file, as the same castle side with a rook on the castle-rook file. *)
Theorem castling_character_round_trip
    (chess960 : bool) (castle : Castle) (king : Square) (rooks : list Square)
    (file : Z) (c : ascii) :
  rooks <> [] -> sq_isValid king = true ->
  (forall sq, In sq rooks -> sq_isValid sq = true) ->
  ascending rooks ->
  fenFromCastling chess960 castle king rooks file = Ok c ->
  exists sq,
    castlingFromFen chess960 c king rooks = Ok (castle, sq)
    /\ sq_file sq = file.
Proof.
  intros Hne Hk Hv Hasc H.
  destruct (castling_char chess960 castle king rooks file c Hne Hk Hv Hasc H)
    as (_ & sq & E & Hf).
  exists sq. split; assumption.
Qed.

(** Chess960: the king on d1, rooks on b1, f1 and g1, and the king-side right
    on the rook of the f-file. *)
Lemma castling_character_round_trip_witness :
  fenFromCastling true KingSide 3 [1; 5; 6] 5 = Ok "f"%char
  /\ exists sq,
       castlingFromFen true "f" 3 [1; 5; 6] = Ok (KingSide, sq)
       /\ sq_file sq = 5.
Proof.
  split; [vm_compute; reflexivity | ].
  apply (castling_character_round_trip true KingSide 3 [1; 5; 6] 5 "f").
  - discriminate.
  - reflexivity.
  - intros sq Hin. simpl in Hin.
    repeat (destruct Hin as [<- | Hin]; [reflexivity | ]). contradiction.
  - simpl. repeat split; intros y Hy;
      repeat (destruct Hy as [<- | Hy]; [vm_compute; discriminate | ]);
      contradiction.
  - vm_compute. reflexivity.
Defined.

(** ** [setFen] *)

(** The steps of a [setFen] that returns. *)
Lemma setFen_inv chess960 fen g g' :
  setFen chess960 fen g = Ok g' ->
  let list := split " " fen in
  let army := if qs_eqb (nth 1 list []) (qs "w") then White else Black in
  exists g1 fd g2,
    (4 <= length list)%nat /\ length (placementField fen) = 8%nat
    /\ parseRanks (placementField fen) 0 (clearForFen g, noneFound)
       = Ok (g1, fd)
    /\ sq_isValid (whiteKing fd) = true /\ sq_isValid (blackKing fd) = true
    /\ (if negb (qs_eqb (nth 2 list []) (qs "-"))
        then parseCastling chess960 (sortedFound fd) (nth 2 list [])
               (with_activeArmy army g1)
        else Ok (with_activeArmy army g1)) = Ok g2
    /\ g' = setFenTail list g2.
Proof.
  unfold setFen, placementField, setFenTail, sortedFound, q_assert. cbv zeta.
  destruct (Z.of_nat (length (split " " fen)) >=? 4) eqn:E4; cbn [bind];
    [ | discriminate].
  destruct (Z.of_nat (length (split "/" (nth 0 (split " " fen) []))) =? 8)
    eqn:E8; cbn [bind]; [ | discriminate].
  destruct (parseRanks (split "/" (nth 0 (split " " fen) [])) 0
              (clearForFen g, noneFound)) as [[g1 fd] | ]; cbn [bind fst snd];
    [ | discriminate].
  destruct (sq_isValid (whiteKing fd)) eqn:Ekw; cbn [bind]; [ | discriminate].
  destruct (sq_isValid (blackKing fd)) eqn:Ekb; cbn [bind]; [ | discriminate].
  match goal with
  | |- bind ?c _ = _ -> _ => destruct c as [g2 | ] eqn:Ec
  end; cbn [bind]; [ | discriminate].
  intros H. injection H as <-. exists g1, fd, g2.
  apply Z.geb_le in E4. apply Z.eqb_eq in E8.
  split; [lia | ]. split; [lia | ]. split; [reflexivity | ].
  split; [exact Ekw | ]. split; [exact Ekb | ].
  split; [exact Ec | reflexivity].
Qed.

Lemma placeAll_scalars pls : forall st st',
  placeAll pls st = Ok st' -> sameScalars (fst st) (fst st').
Proof.
  induction pls as [ | [[sq a] p] rest IH]; intros st st'; cbn [placeAll place].
  - intros H. injection H as <-. apply sameScalars_refl.
  - destruct (togglePieceAt (sq_data sq) a p true (fst st)) as [g1 | ] eqn:E;
      cbn [bind]; [ | discriminate].
    intros H. apply IH in H. cbn [fst] in H.
    apply togglePieceAt_scalars in E.
    eapply sameScalars_trans; [exact E | exact H].
Qed.

(** What the castling loop of [setFen] leaves alone, and the castle-rook
    files it sets only along with a right. *)
Lemma parseCastling_frame chess960 fd cs : forall g g',
  parseCastling chess960 fd cs g = Ok g' ->
  m_lastMove g' = m_lastMove g
  /\ m_halfMoveClock g' = m_halfMoveClock g
  /\ m_halfMoveNumber g' = m_halfMoveNumber g
  /\ m_repetitions g' = m_repetitions g
  /\ m_enPassantTarget g' = m_enPassantTarget g
  /\ m_activeArmy g' = m_activeArmy g
  /\ (someRight g' KingSide = false ->
      someRight g KingSide = false
      /\ m_fileOfKingsRook g' = m_fileOfKingsRook g)
  /\ (someRight g' QueenSide = false ->
      someRight g QueenSide = false
      /\ m_fileOfQueensRook g' = m_fileOfQueensRook g).
Proof.
  induction cs as [ | c cs IH]; intros g g'; cbn [parseCastling].
  - intros H. injection H as <-. repeat split; auto.
  - destruct (parseCastle chess960 fd c g) as [g1 | ] eqn:E; cbn [bind];
      [ | discriminate].
    intros H. apply IH in H.
    destruct H as (H1 & H2 & H3 & H4 & H5 & H6 & H7 & H8).
    unfold parseCastle in E.
    destruct (castlingFromFen chess960 (toLower c) _ _) as [[side sq] | ];
      cbn [bind fst snd] in E; [ | discriminate].
    assert (F : m_lastMove g1 = m_lastMove g
                /\ m_halfMoveClock g1 = m_halfMoveClock g
                /\ m_halfMoveNumber g1 = m_halfMoveNumber g
                /\ m_repetitions g1 = m_repetitions g
                /\ m_enPassantTarget g1 = m_enPassantTarget g
                /\ m_activeArmy g1 = m_activeArmy g
                /\ (someRight g1 KingSide = false ->
                    someRight g KingSide = false
                    /\ m_fileOfKingsRook g1 = m_fileOfKingsRook g)
                /\ (someRight g1 QueenSide = false ->
                    someRight g QueenSide = false
                    /\ m_fileOfQueensRook g1 = m_fileOfQueensRook g)).
    { unfold someRight.
      destruct side; injection E as <-; destruct (isUpper c);
        cbn [with_fileOfKingsRook with_fileOfQueensRook with_castle
             isCastleAvailable m_lastMove m_halfMoveClock m_halfMoveNumber
             m_repetitions m_enPassantTarget m_activeArmy m_fileOfKingsRook
             m_fileOfQueensRook m_hasWhiteKingCastle m_hasBlackKingCastle
             m_hasWhiteQueenCastle m_hasBlackQueenCastle orb];
        rewrite ?orb_true_r;
        repeat split; try reflexivity; try discriminate; tauto. }
    destruct F as (F1 & F2 & F3 & F4 & F5 & F6 & F7 & F8).
    split; [congruence | ]. split; [congruence | ]. split; [congruence | ].
    split; [congruence | ]. split; [congruence | ]. split; [congruence | ].
    split.
    + intros X. destruct (H7 X) as [X1 X2]. destruct (F7 X1) as [Y1 Y2].
      split; congruence.
    + intros X. destruct (H8 X) as [X1 X2]. destruct (F8 X1) as [Y1 Y2].
      split; congruence.
Qed.

(** [setFen] stops on an assertion when the text has fewer than four fields
    separated by single spaces, or when its first field has not exactly eight
    parts separated by [/]. *)
Theorem setFen_needs_four_fields_and_eight_ranks
    (chess960 : bool) (fen : QString) (g : Game) :
  (length (split " " fen) < 4)%nat \/ length (placementField fen) <> 8%nat ->
  setFen chess960 fen g = AssertFail.
Proof.
  unfold setFen, placementField, q_assert. intros [H | H].
  - replace (Z.of_nat (length (split " " fen)) >=? 4) with false;
      [reflexivity | ].
    symmetry. rewrite Z.geb_leb. apply Z.leb_gt. lia.
  - destruct (Z.of_nat (length (split " " fen)) >=? 4); cbn [bind];
      [ | reflexivity].
    replace (Z.of_nat (length (split "/" (nth 0 (split " " fen) []))) =? 8)
      with false; [reflexivity | ].
    symmetry. apply Z.eqb_neq. lia.
Qed.

Lemma setFen_needs_four_fields_and_eight_ranks_witness :
  setFen false (qs "8/8/8/8/8/8/8/8 w -") blankGame = AssertFail
  /\ setFen false (qs "4k3/8/8/8/8/8/4K3 w - - 0 1") blankGame = AssertFail.
Proof.
  split.
  - apply (setFen_needs_four_fields_and_eight_ranks false
             (qs "8/8/8/8/8/8/8/8 w -") blankGame).
    left. vm_compute. lia.
  - apply (setFen_needs_four_fields_and_eight_ranks false
             (qs "4k3/8/8/8/8/8/4K3 w - - 0 1") blankGame).
    right. vm_compute. discriminate.
Defined.

Lemma setFenTail_frame list g :
  m_lastMove (setFenTail list g) = m_lastMove g
  /\ m_repetitions (setFenTail list g) = m_repetitions g
  /\ m_activeArmy (setFenTail list g) = m_activeArmy g
  /\ m_fileOfKingsRook (setFenTail list g) = m_fileOfKingsRook g
  /\ m_fileOfQueensRook (setFenTail list g) = m_fileOfQueensRook g
  /\ (forall a c, isCastleAvailable (setFenTail list g) a c
                  = isCastleAvailable g a c)
  /\ sameBoards g (setFenTail list g)
  /\ m_enPassantTarget (setFenTail list g)
     = (if negb (qs_eqb (nth 3 list []) (qs "-"))
        then stringToSquare (nth 3 list []) else m_enPassantTarget g)
  /\ m_halfMoveClock (setFenTail list g)
     = (if Z.of_nat (length list) >? 4
        then toInt (nth 4 list []) mod 65536 else m_halfMoveClock g)
  /\ m_halfMoveNumber (setFenTail list g)
     = (if Z.of_nat (length list) >? 5
        then qCeil (toInt (nth 5 list []) * 2) mod 65536
        else m_halfMoveNumber g).
Proof.
  unfold setFenTail. cbv zeta.
  destruct (negb (qs_eqb (nth 3 list []) (qs "-")));
    destruct (Z.of_nat (length list) >? 4);
    destruct (Z.of_nat (length list) >? 5);
    repeat split; try (intros [] []; reflexivity);
    try (intros []; reflexivity).
Qed.

(** The scalars of the position after the loops of [setFen] over the piece
    placement and over the castling field. *)
Lemma setFen_scalars chess960 fen g g' :
  setFen chess960 fen g = Ok g' ->
  let list := split " " fen in
  exists g2,
    g' = setFenTail list g2
    /\ m_lastMove g2 = m_lastMove g /\ m_repetitions g2 = m_repetitions g
    /\ m_halfMoveClock g2 = 0 /\ m_halfMoveNumber g2 = 2
    /\ m_enPassantTarget g2 = invalidSquare
    /\ m_activeArmy g2
       = (if qs_eqb (nth 1 list []) (qs "w") then White else Black)
    /\ (someRight g2 KingSide = false -> m_fileOfKingsRook g2 = 0)
    /\ (someRight g2 QueenSide = false -> m_fileOfQueensRook g2 = 0)
    /\ (qs_eqb (nth 2 list []) (qs "-") = true ->
        forall a c, isCastleAvailable g2 a c = false).
Proof.
  intros H. apply setFen_inv in H. cbv zeta in H. cbv zeta.
  destruct H as (g1 & fd & g2 & _ & _ & Hp & _ & _ & Hc & ->).
  rewrite parseRanks_placeAll in Hp. apply placeAll_scalars in Hp.
  cbn [fst] in Hp.
  destruct Hp as (S1 & S2 & S3 & S4 & S5 & S6 & S7 & S8 & S9 & S10 & S11 & S12).
  cbn [clearForFen m_lastMove m_halfMoveClock m_halfMoveNumber
       m_fileOfKingsRook m_fileOfQueensRook m_repetitions m_enPassantTarget
       m_hasWhiteKingCastle m_hasBlackKingCastle m_hasWhiteQueenCastle
       m_hasBlackQueenCastle m_activeArmy] in *.
  exists g2. split; [reflexivity | ].
  destruct (negb (qs_eqb (nth 2 (split " " fen) []) (qs "-"))) eqn:Edash.
  - apply parseCastling_frame in Hc.
    destruct Hc as (H1 & H2 & H3 & H4 & H5 & H6 & H7 & H8).
    cbn [with_activeArmy m_lastMove m_halfMoveClock m_halfMoveNumber
         m_fileOfKingsRook m_fileOfQueensRook m_repetitions m_enPassantTarget
         m_activeArmy] in *.
    split; [congruence | ]. split; [congruence | ]. split; [congruence | ].
    split; [congruence | ]. split; [congruence | ]. split; [exact H6 | ].
    split; [intros X; destruct (H7 X) as [_ Y]; congruence | ].
    split; [intros X; destruct (H8 X) as [_ Y]; congruence | ].
    intros E. rewrite E in Edash. discriminate.
  - injection Hc as <-.
    cbn [with_activeArmy m_lastMove m_halfMoveClock m_halfMoveNumber
         m_fileOfKingsRook m_fileOfQueensRook m_repetitions m_enPassantTarget
         m_activeArmy isCastleAvailable].
    split; [assumption | ]. split; [assumption | ]. split; [assumption | ].
    split; [assumption | ]. split; [assumption | ]. split; [reflexivity | ].
    split; [intros _; assumption | ]. split; [intros _; assumption | ].
    intros _ [] []; cbn [isCastleAvailable with_activeArmy m_hasWhiteKingCastle
                         m_hasBlackKingCastle m_hasWhiteQueenCastle
                         m_hasBlackQueenCastle]; assumption.
Qed.

(** [setFen] overwrites the position but for its last move and its repetition
    count: these two are kept, and nothing else of the previous position has
    an influence on the result. *)
Theorem setFen_forgets_the_previous_position
    (chess960 : bool) (fen : QString) (g1 g2 : Game) :
  (forall g', setFen chess960 fen g1 = Ok g' ->
              m_lastMove g' = m_lastMove g1
              /\ m_repetitions g' = m_repetitions g1)
  /\ (m_lastMove g1 = m_lastMove g2 -> m_repetitions g1 = m_repetitions g2 ->
      setFen chess960 fen g1 = setFen chess960 fen g2).
Proof.
  split.
  - intros g' H. apply setFen_scalars in H. cbv zeta in H.
    destruct H as (g3 & -> & H1 & H2 & _).
    destruct (setFenTail_frame (split " " fen) g3) as (F1 & F2 & _).
    split; congruence.
  - intros E1 E2. unfold setFen.
    assert (E : clearForFen g1 = clearForFen g2).
    { unfold clearForFen. rewrite E1, E2. reflexivity. }
    rewrite E. reflexivity.
Qed.

Lemma setFen_forgets_the_previous_position_witness :
  setFen false startFen (with_repetitions (-1) (with_lastMove defaultMove afterE2E4))
  = setFen false startFen blankGame.
Proof.
  apply (setFen_forgets_the_previous_position false startFen
           (with_repetitions (-1) (with_lastMove defaultMove afterE2E4))
           blankGame); reflexivity.
Defined.

Lemma qCeil_in_range v :
  -2147483648 <= v <= 2147483647 -> qCeil v = v.
Proof.
  intros H. unfold qCeil.
  destruct (Z.leb_spec (-2147483648) v); [ | lia].
  destruct (Z.leb_spec v 2147483647); [reflexivity | lia].
Qed.

(** How [setFen] reads the fields after the piece placement: the side to
    move is White for the field [w] and Black for anything else; a castling
    field [-] leaves no right, and a castle-rook file is [0] unless a right of
    its side was read; the en-passant target is the invalid square for the
    field [-]; the half-move clock is the fifth field as a 16-bit value, and
    [0] when the field is missing; the half-move number is [2] when the sixth
    field is missing, and twice the sixth field as a 16-bit value when the
    number read lies from [- 2 ^ 30] to [2 ^ 30 - 1], so that its double is
    an [int]. *)
Theorem setFen_reads_the_fields
    (chess960 : bool) (fen : QString) (g g' : Game) :
  setFen chess960 fen g = Ok g' ->
  let list := split " " fen in
  m_activeArmy g' = (if qs_eqb (nth 1 list []) (qs "w") then White else Black)
  /\ (qs_eqb (nth 2 list []) (qs "-") = true ->
      forall a c, isCastleAvailable g' a c = false)
  /\ (someRight g' KingSide = false -> m_fileOfKingsRook g' = 0)
  /\ (someRight g' QueenSide = false -> m_fileOfQueensRook g' = 0)
  /\ m_enPassantTarget g'
     = (if negb (qs_eqb (nth 3 list []) (qs "-"))
        then stringToSquare (nth 3 list []) else invalidSquare)
  /\ m_halfMoveClock g'
     = (if Z.of_nat (length list) >? 4
        then toInt (nth 4 list []) mod 65536 else 0)
  /\ ((length list <= 5)%nat -> m_halfMoveNumber g' = 2)
  /\ ((length list > 5)%nat ->
      -1073741824 <= toInt (nth 5 list []) < 1073741824 ->
      m_halfMoveNumber g' = (toInt (nth 5 list []) * 2) mod 65536).
Proof.
  intros H. apply setFen_scalars in H. cbv zeta in H. cbv zeta.
  destruct H as (g2 & -> & _ & _ & H3 & H4 & H5 & H6 & H7 & H8 & H9).
  destruct (setFenTail_frame (split " " fen) g2)
    as (_ & _ & F3 & F4 & F5 & F6 & _ & F8 & F9 & F10).
  unfold someRight in *. rewrite !F6, F3, F4, F5, F8, F9, F10, H3, H4, H5.
  split; [exact H6 | ].
  split; [intros E a c; rewrite F6; apply H9; exact E | ].
  split; [exact H7 | ]. split; [exact H8 | ].
  split; [reflexivity | ]. split; [reflexivity | ].
  split.
  - intros Hlen.
    destruct (Z.gtb_spec (Z.of_nat (length (split " " fen))) 5);
      [lia | reflexivity].
  - intros Hlen Hrange.
    destruct (Z.gtb_spec (Z.of_nat (length (split " " fen))) 5); [ | lia].
    rewrite qCeil_in_range by lia. reflexivity.
Qed.

Lemma setFen_reads_the_fields_witness :
  (exists g',
     setFen false (qs "4k3/8/8/8/8/8/8/4K3 x - zz 7") blankGame = Ok g'
     /\ m_activeArmy g' = Black /\ m_enPassantTarget g' = invalidSquare
     /\ m_halfMoveClock g' = 7 /\ m_halfMoveNumber g' = 2)
  /\ (exists g',
        setFen false (qs "4k3/8/8/8/8/8/8/4K3 w - - 3 41") blankGame = Ok g'
        /\ m_halfMoveClock g' = 3 /\ m_halfMoveNumber g' = 82).
Proof.
  split.
  - eexists. split; [vm_compute; reflexivity | ].
    match goal with
    | |- m_activeArmy ?g' = _ /\ _ =>
        destruct (setFen_reads_the_fields false
                    (qs "4k3/8/8/8/8/8/8/4K3 x - zz 7") blankGame g')
          as (H1 & _ & _ & _ & H5 & H6 & H7 & _); [vm_compute; reflexivity | ]
    end.
    split; [exact H1 | ]. split; [exact H5 | ]. split; [exact H6 | ].
    apply H7. vm_compute. lia.
  - eexists. split; [vm_compute; reflexivity | ].
    match goal with
    | |- m_halfMoveClock ?g' = _ /\ _ =>
        destruct (setFen_reads_the_fields false
                    (qs "4k3/8/8/8/8/8/8/4K3 w - - 3 41") blankGame g')
          as (_ & _ & _ & _ & _ & H6 & _ & H8); [vm_compute; reflexivity | ]
    end.
    split; [exact H6 | ].
    apply H8; [vm_compute; lia | vm_compute; split; [discriminate | reflexivity]].
Defined.

(** ** The bitboards stay within the 64 squares *)

Lemma inRange_iff b :
  inRange b = true
  <-> 0 <= b /\ forall n, 64 <= n -> Z.testbit b n = false.
Proof.
  split.
  - intros H. split; [ | intros n Hn; exact (inRange_bits b n H Hn)].
    unfold inRange in H. apply andb_prop in H as [H _]. apply Z.leb_le. exact H.
  - intros [H0 Hbits]. unfold inRange. apply andb_true_iff.
    split; [apply Z.leb_le; exact H0 | ]. apply Z.ltb_lt.
    destruct (Z.eq_dec b 0) as [-> | Hb]; [reflexivity | ].
    apply Z.log2_lt_pow2; [lia | ].
    destruct (Z.lt_ge_cases (Z.log2 b) 64) as [ | Hge]; [assumption | ].
    pose proof (Z.bit_log2 b ltac:(lia)) as Hbit.
    rewrite (Hbits _ Hge) in Hbit. discriminate.
Qed.

Lemma inRange_setBit b index bit :
  0 <= index < 64 -> inRange b = true -> inRange (setBit b index bit) = true.
Proof.
  intros Hi H. apply inRange_iff in H as [H0 Hbits]. apply inRange_iff. split.
  - unfold setBit. destruct bit.
    + rewrite Z.setbit_spec'. apply Z.lor_nonneg. split; [exact H0 | ].
      first [apply Z.pow_nonneg; lia | apply Z.shiftl_nonneg; lia].
    + rewrite Z.clearbit_spec'. apply Z.ldiff_nonneg. left. exact H0.
  - intros n Hn.
    pose proof (testBit_setBit b index bit n (proj1 Hi)) as E.
    unfold testBit in E. rewrite E.
    replace (n =? index) with false by (symmetry; apply Z.eqb_neq; lia).
    apply Hbits. exact Hn.
Qed.

Lemma allInRange_iff g :
  allInRange g = true
  <-> (forall a, inRange (boardA g a) = true)
      /\ (forall p, inRange (boardP g p) = true).
Proof.
  unfold allInRange, boardsInRange, pieceBoards. cbn [forallb].
  rewrite !andb_true_iff. split.
  - intros [[Hw Hb] (Hk & Hq & Hr & Hbi & Hn & Hp & _)].
    split; [intros []; assumption | ].
    intros []; try assumption. reflexivity.
  - intros [Ha Hp].
    split; [split; [exact (Ha White) | exact (Ha Black)] | ].
    repeat split;
      [ exact (Hp King) | exact (Hp Queen) | exact (Hp Rook)
      | exact (Hp Bishop) | exact (Hp Knight) | exact (Hp Pawn) ].
Qed.

Lemma allInRange_sameBoards g g' :
  sameBoards g g' -> allInRange g = true -> allInRange g' = true.
Proof.
  intros [Ha Hp] H. apply allInRange_iff in H as [H1 H2].
  apply allInRange_iff. split.
  - intros a. rewrite Ha. apply H1.
  - intros p. rewrite Hp. apply H2.
Qed.

Lemma togglePieceAt_allInRange index army piece bit g g' :
  togglePieceAt index army piece bit g = Ok g' ->
  allInRange g = true -> allInRange g' = true.
Proof.
  unfold togglePieceAt, q_assert.
  destruct ((0 <=? index) && (index <? 64)) eqn:E; cbn [bind];
    [ | discriminate].
  destruct (negb (PieceType_eqb piece Unknown)) eqn:Ep; cbn [bind];
    [ | discriminate].
  intros H. injection H as <-. intros Hr.
  apply andb_prop in E as [E1 E2]. apply Z.leb_le in E1. apply Z.ltb_lt in E2.
  apply negb_true_iff, PieceType_eqb_neq in Ep.
  apply allInRange_iff in Hr as [H1 H2]. fold (toggled index army piece bit g).
  apply allInRange_iff. split.
  - intros a. rewrite boardA_toggled. destruct (Army_eqb a army); [ | apply H1].
    apply inRange_setBit; [lia | apply H1].
  - intros p. rewrite boardP_toggled by exact Ep.
    destruct (PieceType_eqb p piece); [ | apply H2].
    apply inRange_setBit; [lia | apply H2].
Qed.

Lemma placeAll_allInRange pls : forall st st',
  placeAll pls st = Ok st' ->
  allInRange (fst st) = true -> allInRange (fst st') = true.
Proof.
  induction pls as [ | [[sq a] p] rest IH]; intros st st'; cbn [placeAll place].
  - intros H. injection H as <-. auto.
  - destruct (togglePieceAt (sq_data sq) a p true (fst st)) as [g1 | ] eqn:E;
      cbn [bind]; [ | discriminate].
    intros H Hr. apply IH in H; [exact H | ]. cbn [fst].
    exact (togglePieceAt_allInRange _ _ _ _ _ _ E Hr).
Qed.

(** After [setFen] no bitboard has a bit beyond the 64 squares. *)
Theorem setFen_boards_in_range
    (chess960 : bool) (fen : QString) (g g' : Game) :
  setFen chess960 fen g = Ok g' -> allInRange g' = true.
Proof.
  intros H. apply setFen_boards in H as (st & Hp & SB).
  apply (allInRange_sameBoards (fst st)); [exact SB | ].
  rewrite parseRanks_placeAll in Hp.
  apply (placeAll_allInRange _ _ _ Hp). reflexivity.
Qed.

Lemma setFen_boards_in_range_witness : allInRange startPosition = true.
Proof.
  apply (setFen_boards_in_range false startFen blankGame startPosition).
  vm_compute. reflexivity.
Defined.

Lemma placeMover_allInRange army mv g g' :
  placeMover army mv g = Ok g' -> allInRange g = true -> allInRange g' = true.
Proof.
  unfold placeMover.
  destruct (togglePieceAt (sq_data (mv_start mv)) army (mv_piece mv) false g)
    as [g1 | ] eqn:E1; cbn [bind]; [ | discriminate].
  intros H Hr. pose proof (togglePieceAt_allInRange _ _ _ _ _ _ E1 Hr) as H1.
  destruct (mv_isCastle mv).
  - destruct (mv_castleSide mv).
    + destruct (togglePieceAt _ army Rook false g1) as [g2 | ] eqn:E2;
        cbn [bind] in H; [ | discriminate].
      destruct (togglePieceAt _ army Rook true g2) as [g3 | ] eqn:E3;
        cbn [bind] in H; [ | discriminate].
      eauto using togglePieceAt_allInRange.
    + destruct (togglePieceAt _ army Rook false g1) as [g2 | ] eqn:E2;
        cbn [bind] in H; [ | discriminate].
      destruct (togglePieceAt _ army Rook true g2) as [g3 | ] eqn:E3;
        cbn [bind] in H; [ | discriminate].
      eauto using togglePieceAt_allInRange.
  - destruct (negb (PieceType_eqb (mv_promotion mv) Unknown));
      eauto using togglePieceAt_allInRange.
Qed.

Lemma processCapture_allInRange army mv g g' :
  processCapture army mv g = Ok g' -> allInRange g = true ->
  allInRange g' = true.
Proof.
  unfold processCapture.
  match goal with
  | |- bind (q_assert ?c) _ = _ -> _ => destruct c
  end; cbn [q_assert bind]; [ | discriminate].
  match goal with
  | |- bind ?t _ = _ -> _ => destruct t as [g1 | ] eqn:E1
  end; cbn [bind]; [ | discriminate].
  intros H Hr. injection H as <-.
  assert (H1 : allInRange g1 = true).
  { apply (togglePieceAt_allInRange _ _ _ _ _ _ E1).
    apply (allInRange_sameBoards g); [ | exact Hr].
    split; intros []; reflexivity. }
  repeat match goal with
         | |- context [if ?b then _ else _] => destruct b
         end;
    try exact H1;
    (apply (allInRange_sameBoards g1); [ | exact H1]);
    apply sameBoardsFiles_with_castle.
Qed.

(** [makeMove] keeps every bitboard within the 64 squares, whatever the
    move. *)
Theorem makeMove_boards_in_range
    (chess960 : bool) (move : Move) (g g' : Game) (ok : bool) :
  allInRange g = true ->
  makeMove chess960 move g = Ok (ok, g') ->
  allInRange g' = true.
Proof.
  intros Hr. unfold makeMove.
  destruct (fillOutMove chess960 g (activeArmy g) move) as [[mv | ] | ];
    cbn [bind]; [ | intros H; injection H as <- <-; exact Hr | discriminate].
  destruct (processMove (activeArmy g) mv g) as [g1 | ] eqn:E; cbn [bind];
    [ | discriminate].
  intros H. injection H as <- <-.
  unfold processMove in E.
  set (g0 := updateRights (activeArmy g) mv
               (with_enPassantTarget invalidSquare (with_lastMove mv g))) in *.
  assert (H0 : allInRange g0 = true).
  { apply (allInRange_sameBoards g); [ | exact Hr].
    eapply sameBoards_trans;
      [apply (sameBoardsFiles_start mv) | apply sameBoardsFiles_updateRights]. }
  match type of E with
  | bind ?t _ = _ => destruct t as [g2 | ] eqn:E1
  end; cbn [bind] in E; [ | discriminate].
  assert (H2 : allInRange g2 = true).
  { match type of E1 with
    | (if ?c then _ else _) = _ => destruct c
    end.
    - exact (processCapture_allInRange _ _ _ _ E1 H0).
    - injection E1 as <-. exact H0. }
  match type of E with
  | bind ?t _ = _ => destruct t as [g3 | ] eqn:E2
  end; cbn [bind] in E; [ | discriminate].
  injection E as <-.
  apply (allInRange_sameBoards g3); [apply sameBoardsFiles_endTurn | ].
  apply (placeMover_allInRange _ _ _ _ E2).
  apply (allInRange_sameBoards g2); [apply sameBoardsFiles_tickClock | exact H2].
Qed.

Lemma makeMove_boards_in_range_witness : allInRange afterE2E4 = true.
Proof.
  apply (makeMove_boards_in_range false (moveOf "e2" "e4") startPosition
           afterE2E4 true); vm_compute; reflexivity.
Defined.

(** ** Positions fresh from [setFen] *)

Lemma stringToSquare_proper s :
  sq_isValid (stringToSquare s) || (stringToSquare s =? invalidSquare) = true.
Proof.
  unfold stringToSquare.
  destruct s as [ | f [ | r [ | x rest]]]; try reflexivity.
  destruct ((97 <=? code f) && (code f <=? 104) && (49 <=? code r)
            && (code r <=? 56)) eqn:E; [ | reflexivity].
  apply andb_prop in E as [E E4]. apply andb_prop in E as [E E3].
  apply andb_prop in E as [E1 E2].
  apply Z.leb_le in E1, E2, E3, E4.
  rewrite mkSquare_onBoard by lia.
  apply orb_true_iff. left. apply sq_isValid_range. lia.
Qed.

(** A position that [setFen] has just parsed from a text with a well-formed
    piece placement, in which every army that holds a castle right has a
    rook, goes through [stateOfGameToFen] and [setFen] unchanged as far as
    [isSamePosition] looks, whenever [stateOfGameToFen] writes a text for
    it. *)
Theorem setFen_positions_round_trip
    (chess960 incl : bool) (fen s : QString) (g0 g1 g : Game) :
  wfPlacementField (placementField fen) = true ->
  setFen chess960 fen g0 = Ok g ->
  castleRooksPresent g = true ->
  stateOfGameToFen chess960 g incl = Ok s ->
  exists g', setFen chess960 s g1 = Ok g' /\ isSamePosition g' g = true.
Proof.
  intros Hwf Hset Hrk Hemit.
  pose proof (setFen_invariants chess960 fen g0 g Hwf Hset) as Hinv.
  unfold boardInvariants in Hinv. apply andb_prop in Hinv as [Hinv _].
  apply andb_prop in Hinv as [Hc _].
  pose proof Hset as Hrange. apply setFen_boards in Hrange as (st & Hp & SB).
  assert (Hall : allInRange g = true).
  { apply (allInRange_sameBoards (fst st)); [exact SB | ].
    rewrite parseRanks_placeAll in Hp.
    apply (placeAll_allInRange _ _ _ Hp). reflexivity. }
  unfold allInRange in Hall. apply andb_prop in Hall as [Hr _].
  apply setFen_scalars in Hset. cbv zeta in Hset.
  destruct Hset as (g2 & Eg & _ & _ & _ & _ & H5 & _ & H7 & H8 & _).
  destruct (setFenTail_frame (split " " fen) g2)
    as (_ & _ & _ & F4 & F5 & F6 & _ & F8 & _).
  rewrite <- Eg in F4, F5, F6, F8.
  assert (Ht : properTarget g = true).
  { unfold properTarget. rewrite F8.
    destruct (negb (qs_eqb (nth 3 (split " " fen) []) (qs "-")));
      [apply stringToSquare_proper | ].
    rewrite H5. reflexivity. }
  destruct (roundTrip_agrees chess960 incl g g1 s Hc Hr Ht Hrk Hemit)
    as (g' & Eset & Hag).
  exists g'. split; [exact Eset | ].
  rewrite (isSamePosition_roundTripAgree g g' Hag).
  destruct Hag as (_ & _ & _ & _ & Hk & Hq). rewrite Hk, Hq.
  unfold someRight in *. rewrite !F6.
  destruct (isCastleAvailable g2 White KingSide
            || isCastleAvailable g2 Black KingSide) eqn:EK;
    destruct (isCastleAvailable g2 White QueenSide
              || isCastleAvailable g2 Black QueenSide) eqn:EQ;
    rewrite ?Z.eqb_refl; cbn [andb];
    rewrite ?F4, ?F5, ?(H7 eq_refl), ?(H8 eq_refl); reflexivity.
Qed.

Lemma setFen_positions_round_trip_witness :
  exists g',
    setFen false startFen blankGame = Ok g'
    /\ isSamePosition g' startPosition = true.
Proof.
  apply (setFen_positions_round_trip false true startFen startFen blankGame
           blankGame startPosition); vm_compute; reflexivity.
Defined.

(** ** The attack boards *)

Lemma unionOver_bits moves pieces n :
  Z.testbit (unionOver moves pieces) n
  = existsb (fun sq => Z.testbit (moves sq) n) (occupiedSquares pieces).
Proof.
  unfold unionOver.
  assert (G : forall l acc,
            Z.testbit (fold_left (fun bits sq => Z.lor bits (moves sq)) l acc) n
            = Z.testbit acc n || existsb (fun sq => Z.testbit (moves sq) n) l).
  { induction l as [ | sq l IH]; intros acc; cbn [fold_left existsb].
    - rewrite orb_false_r. reflexivity.
    - rewrite IH, Z.lor_spec, orb_assoc. reflexivity. }
  rewrite G, Z.bits_0. reflexivity.
Qed.

Lemma unionOver_spec moves pieces n :
  testBit (unionOver moves pieces) n = true
  <-> exists sq, 0 <= sq < 64 /\ testBit pieces sq = true
                 /\ testBit (moves sq) n = true.
Proof.
  unfold testBit at 1. rewrite unionOver_bits, existsb_exists. split.
  - intros (sq & Hin & H). apply In_occupiedSquares in Hin. exists sq. tauto.
  - intros (sq & H1 & H2 & H3). exists sq.
    split; [apply In_occupiedSquares; tauto | exact H3].
Qed.

(** A square is on the queen, rook, bishop, knight or pawn attack board of an
    army exactly when the table of [Movegen] for a piece of that kind and
    army, standing on one of the 64 squares, holds the square.  The pawn
    tables are asked with the en-passant target added to the enemies. *)
Theorem attack_boards_are_unions
    (gen : Movegen) (g : Game) (army : Army) (n : Z) :
  let friends := friendsOf g army in
  let enemies := enemiesOf g army in
  let stands p sq :=
    0 <= sq < 64 /\ testBit (Z.land friends (boardP g p)) sq = true in
  (testBit (queenAttackBoard gen g army) n = true
   <-> exists sq, stands Queen sq
                  /\ testBit (queenMoves gen sq friends enemies) n = true)
  /\ (testBit (rookAttackBoard gen g army) n = true
      <-> exists sq, stands Rook sq
                     /\ testBit (rookMoves gen sq friends enemies) n = true)
  /\ (testBit (bishopAttackBoard gen g army) n = true
      <-> exists sq, stands Bishop sq
                     /\ testBit (bishopMoves gen sq friends enemies) n = true)
  /\ (testBit (knightAttackBoard gen g army) n = true
      <-> exists sq, stands Knight sq
                     /\ testBit (knightMoves gen sq friends enemies) n = true)
  /\ (testBit (pawnAttackBoard gen g army) n = true
      <-> exists sq, stands Pawn sq
                     /\ testBit (pawnAttacks gen army sq friends
                                   (enemiesPlusEnpassant g enemies)) n = true).
Proof.
  cbv zeta.
  unfold queenAttackBoard, rookAttackBoard, bishopAttackBoard,
    knightAttackBoard, pawnAttackBoard.
  repeat split; intros H;
    first [ apply unionOver_spec in H; destruct H as (sq & H1 & H2 & H3);
            exists sq; tauto
          | apply unionOver_spec; destruct H as (sq & (H1 & H2) & H3);
            exists sq; tauto ].
Qed.

Lemma kingLoop_cases {A : Type} (body : Square -> A -> A) sqs acc :
  kingLoop body sqs 0 acc
  = match sqs with
    | [] => Ok acc
    | [sq] => Ok (body sq acc)
    | _ :: _ :: _ => AssertFail
    end.
Proof. destruct sqs as [ | sq [ | sq' rest]]; reflexivity. Qed.

(** The loops over the kings of an army assert that they run once at most:
    with no king of the army the king attack board is empty, with one king it
    is the king table of its square, and with two or more kings
    [kingAttackBoard] stops on the assertion, as does [pseudoLegalMoves] for
    the side to move. *)
Theorem two_kings_trip_the_assertion
    (gen : Movegen) (g : Game) (army : Army) :
  let friends := friendsOf g army in
  let enemies := enemiesOf g army in
  let kings := occupiedSquares (Z.land friends (boardP g King)) in
  kingAttackBoard gen g army
  = match kings with
    | [] => Ok 0
    | [sq] => Ok (kingMoves gen sq friends enemies)
    | _ :: _ :: _ => AssertFail
    end
  /\ ((2 <= length kings)%nat -> army = activeArmy g ->
      pseudoLegalMoves gen g = AssertFail).
Proof.
  cbv zeta. split.
  - unfold kingAttackBoard.
    generalize (occupiedSquares (Z.land (friendsOf g army) (boardP g King))).
    intros l. rewrite kingLoop_cases.
    destruct l as [ | sq [ | sq' rest]]; reflexivity.
  - intros H ->. revert H. unfold pseudoLegalMoves.
    generalize (occupiedSquares
                  (Z.land (friendsOf g (activeArmy g)) (boardP g King))).
    intros l H. rewrite kingLoop_cases.
    destruct l as [ | sq [ | sq' rest]];
      [simpl in H; lia | simpl in H; lia | reflexivity].
Qed.

Lemma two_kings_trip_the_assertion_witness :
  pseudoLegalMoves specMovegen (gameOf "4k3/8/8/8/8/8/8/K3K3 w - - 0 1")
  = AssertFail.
Proof.
  apply (two_kings_trip_the_assertion specMovegen
           (gameOf "4k3/8/8/8/8/8/8/K3K3 w - - 0 1") White);
    [vm_compute; lia | reflexivity].
Defined.

(** ** The moves of [pseudoLegalMoves] *)

Lemma movesOfKind_generated g piece movesFn pieces m :
  In m (movesOfKind g piece movesFn pieces) ->
  exists sq newSq,
    0 <= sq < 64 /\ testBit pieces sq = true /\ 0 <= newSq < 64
    /\ In m (generateMove g piece sq newSq).
Proof.
  unfold movesOfKind, movesFrom. rewrite in_flat_map.
  intros (sq & Hsq & Hm). apply in_flat_map in Hm as (newSq & Hn & Hm).
  apply In_occupiedSquares in Hsq, Hn. exists sq, newSq. tauto.
Qed.

Lemma pawnMovesFrom_generated gen g army friends enemies sq m :
  In m (pawnMovesFrom gen g army friends enemies sq) ->
  exists newSq, 0 <= newSq < 64 /\ In m (generateMove g Pawn sq newSq).
Proof.
  unfold pawnMovesFrom, movesFrom. intros H.
  apply in_app_or in H as [H | H]; apply in_flat_map in H as (newSq & Hn & Hm);
    apply In_occupiedSquares in Hn; exists newSq.
  - destruct (pushBlocked army friends enemies sq newSq); [contradiction | ].
    tauto.
  - tauto.
Qed.

(** Every move of the sink that is not a castle comes from one call of
    [generateMove] for a piece of the side to move. *)
Lemma pseudoLegalMoves_generated gen g moves m :
  pseudoLegalMoves gen g = Ok moves -> In m moves -> mv_isCastle m = false ->
  exists piece sq newSq,
    piece <> Unknown /\ 0 <= sq < 64
    /\ testBit (Z.land (friendsOf g (activeArmy g)) (boardP g piece)) sq = true
    /\ 0 <= newSq < 64
    /\ In m (generateMove g piece sq newSq).
Proof.
  intros H Hin Hnc. apply pseudoLegalMoves_parts in H. cbv zeta in H.
  destruct H as (castles & -> & Hc).
  repeat (apply in_app_or in Hin as [Hin | Hin]).
  - apply movesOfKind_generated in Hin as (sq & newSq & H1 & H2 & H3 & H4).
    exists King, sq, newSq. repeat split; try tauto; discriminate.
  - apply movesOfKind_generated in Hin as (sq & newSq & H1 & H2 & H3 & H4).
    exists Queen, sq, newSq. repeat split; try tauto; discriminate.
  - apply movesOfKind_generated in Hin as (sq & newSq & H1 & H2 & H3 & H4).
    exists Rook, sq, newSq. repeat split; try tauto; discriminate.
  - apply movesOfKind_generated in Hin as (sq & newSq & H1 & H2 & H3 & H4).
    exists Bishop, sq, newSq. repeat split; try tauto; discriminate.
  - apply movesOfKind_generated in Hin as (sq & newSq & H1 & H2 & H3 & H4).
    exists Knight, sq, newSq. repeat split; try tauto; discriminate.
  - apply in_flat_map in Hin as (sq & Hsq & Hm).
    apply In_occupiedSquares in Hsq.
    apply pawnMovesFrom_generated in Hm as (newSq & H3 & H4).
    exists Pawn, sq, newSq. repeat split; try tauto; discriminate.
  - destruct (Hc m Hin) as [_ E]. congruence.
Qed.

Lemma generateMove_flags g piece start end_ m :
  In m (generateMove g piece start end_) ->
  mv_piece m = piece /\ mv_start m = start /\ mv_end m = end_
  /\ mv_isCapture m = testBit (boardA g (otherArmy (activeArmy g))) end_
  /\ mv_isEnPassant m = false /\ mv_isCheck m = false
  /\ mv_isCheckMate m = false /\ mv_isStaleMate m = false.
Proof.
  rewrite generateMove_spec. unfold baseMove.
  destruct (PieceType_eqb piece Pawn && (sq_rank end_ =? lastRank (activeArmy g)));
    cbn [In]; intros H;
    repeat (destruct H as [<- | H]; [repeat split | ]); contradiction.
Qed.

(** A move of the sink that is not a castle starts on a square of the board
    where a piece of the side to move stands, of the kind that the move
    names, and ends on a square of the board.  Its capture flag tells whether
    an enemy piece stands on the end square, so that an en-passant capture
    comes without capture flag; the en-passant, check, check-mate and
    stale-mate flags are not set. *)
Theorem generated_moves_shape
    (gen : Movegen) (g : Game) (moves : list Move) (m : Move) :
  pseudoLegalMoves gen g = Ok moves -> In m moves -> mv_isCastle m = false ->
  mv_piece m <> Unknown
  /\ 0 <= mv_start m < 64 /\ 0 <= mv_end m < 64
  /\ testBit (friendsOf g (activeArmy g)) (mv_start m) = true
  /\ testBit (boardP g (mv_piece m)) (mv_start m) = true
  /\ mv_isCapture m = testBit (enemiesOf g (activeArmy g)) (mv_end m)
  /\ mv_isEnPassant m = false /\ mv_isCheck m = false
  /\ mv_isCheckMate m = false /\ mv_isStaleMate m = false.
Proof.
  intros H Hin Hnc.
  destruct (pseudoLegalMoves_generated gen g moves m H Hin Hnc)
    as (piece & sq & newSq & Hp & Hsq & Hbit & Hn & Hm).
  apply generateMove_flags in Hm
    as (E1 & E2 & E3 & E4 & E5 & E6 & E7 & E8).
  unfold testBit in Hbit. rewrite Z.land_spec in Hbit.
  apply andb_prop in Hbit as [Hb1 Hb2].
  rewrite E1, E2, E3, E4.
  split; [exact Hp | ]. split; [exact Hsq | ]. split; [exact Hn | ].
  split; [exact Hb1 | ]. split; [exact Hb2 | ].
  split; [destruct (activeArmy g); reflexivity | ].
  repeat split; assumption.
Qed.

(** The en-passant capture [e5xd6] in
    [4k3/8/8/3pP3/8/8/8/4K3 w - d6 0 1]. *)
Lemma generated_moves_shape_witness :
  let g := gameOf "4k3/8/8/3pP3/8/8/8/4K3 w - d6 0 1" in
  let m := setPiece Pawn (moveOf "e5" "d6") in
  exists moves,
    pseudoLegalMoves specMovegen g = Ok moves /\ In m moves
    /\ mv_isCapture m = testBit (enemiesOf g (activeArmy g)) (mv_end m)
    /\ mv_isCapture m = false.
Proof.
  cbv zeta. eexists. split; [vm_compute; reflexivity | ].
  assert (Hin : In (setPiece Pawn (moveOf "e5" "d6"))
                   (match pseudoLegalMoves specMovegen
                            (gameOf "4k3/8/8/3pP3/8/8/8/4K3 w - d6 0 1") with
                    | Ok l => l
                    | AssertFail => []
                    end)).
  { vm_compute. tauto. }
  split; [vm_compute; tauto | ].
  split; [ | reflexivity].
  destruct (generated_moves_shape specMovegen
              (gameOf "4k3/8/8/3pP3/8/8/8/4K3 w - d6 0 1")
              (match pseudoLegalMoves specMovegen
                       (gameOf "4k3/8/8/3pP3/8/8/8/4K3 w - d6 0 1") with
               | Ok l => l
               | AssertFail => []
               end)
              (setPiece Pawn (moveOf "e5" "d6")))
    as (_ & _ & _ & _ & _ & H6 & _);
    [vm_compute; reflexivity | exact Hin | reflexivity | exact H6].
Defined.

Lemma generateCastle_fields g army side l m :
  generateCastle g army side = Ok l -> In m l ->
  l = [m]
  /\ mv_piece m = King /\ mv_isCastle m = true /\ mv_castleSide m = side
  /\ q_first (occupiedSquares (Z.land (boardP g King) (boardA g army)))
     = Ok (mv_start m)
  /\ mv_end m
     = mkSquare (match side with
                 | KingSide => fileOfKingsRook g
                 | QueenSide => fileOfQueensRook g
                 end) (homeRank army)
  /\ mv_isCapture m = false /\ mv_promotion m = Unknown.
Proof.
  unfold generateCastle.
  generalize (occupiedSquares (Z.land (boardP g King) (boardA g army))).
  intros l0. destruct l0 as [ | k rest]; cbn [q_first bind]; [discriminate | ].
  intros H. injection H as <-. intros [<- | []].
  destruct side; repeat split.
Qed.

(** The castles of the sink, found in [pseudoLegalMoves]. *)
Lemma pseudoLegalMoves_castle gen g moves m :
  pseudoLegalMoves gen g = Ok moves -> In m moves -> mv_isCastle m = true ->
  exists side l,
    isCastleLegal gen g (activeArmy g) side = Ok true
    /\ generateCastle g (activeArmy g) side = Ok l /\ In m l.
Proof.
  unfold pseudoLegalMoves.
  set (army := activeArmy g). set (friends := friendsOf g army).
  set (enemies := enemiesOf g army).
  destruct (kingLoop _ _ 0 []) as [kings | ] eqn:Ek; cbn [bind]; [ | discriminate].
  apply kingLoop_flat_map in Ek. rewrite app_nil_l in Ek.
  destruct (isCastleLegal gen g army KingSide) as [legalK | ] eqn:ElK;
    cbn [bind]; [ | discriminate].
  destruct (if legalK then generateCastle g army KingSide else Ok [])
    as [castleK | ] eqn:EcK; cbn [bind]; [ | discriminate].
  destruct (isCastleLegal gen g army QueenSide) as [legalQ | ] eqn:ElQ;
    cbn [bind]; [ | discriminate].
  destruct (if legalQ then generateCastle g army QueenSide else Ok [])
    as [castleQ | ] eqn:EcQ; cbn [bind]; [ | discriminate].
  intros H. injection H as <-. intros Hin Hc.
  repeat (apply in_app_or in Hin as [Hin | Hin]).
  - rewrite Ek in Hin. apply in_flat_map in Hin as (sq & _ & Hm).
    apply movesFrom_In in Hm as (_ & _ & E & _). congruence.
  - apply movesOfKind_In in Hin as (_ & E & _). congruence.
  - apply movesOfKind_In in Hin as (_ & E & _). congruence.
  - apply movesOfKind_In in Hin as (_ & E & _). congruence.
  - apply movesOfKind_In in Hin as (_ & E & _). congruence.
  - apply in_flat_map in Hin as (sq & _ & Hm).
    apply pawnMovesFrom_In in Hm as (_ & _ & E & _). congruence.
  - destruct legalK; [ | injection EcK as <-; contradiction].
    exists KingSide, castleK. split; [exact ElK | split; assumption].
  - destruct legalQ; [ | injection EcQ as <-; contradiction].
    exists QueenSide, castleQ. split; [exact ElQ | split; assumption].
Qed.

(** A castle is written to the sink only when [isCastleLegal] holds for its
    side, once per side, as the move of the king from its square onto the
    square of the castle-rook file on the home rank ("king takes rook"), with
    no capture flag and no promotion. *)
Theorem generated_castles
    (gen : Movegen) (g : Game) (moves : list Move) (m : Move) :
  pseudoLegalMoves gen g = Ok moves -> In m moves -> mv_isCastle m = true ->
  let army := activeArmy g in
  isCastleLegal gen g army (mv_castleSide m) = Ok true
  /\ mv_piece m = King
  /\ q_first (occupiedSquares (Z.land (boardP g King) (boardA g army)))
     = Ok (mv_start m)
  /\ mv_end m
     = mkSquare (match mv_castleSide m with
                 | KingSide => fileOfKingsRook g
                 | QueenSide => fileOfQueensRook g
                 end) (homeRank army)
  /\ mv_isCapture m = false /\ mv_promotion m = Unknown
  /\ filter (fun m' => mv_isCastle m'
                       && Castle_eqb (mv_castleSide m') (mv_castleSide m))
            moves = [m].
Proof.
  intros H Hin Hc. cbv zeta.
  destruct (pseudoLegalMoves_castle gen g moves m H Hin Hc)
    as (side & l & Hlegal & Hgen & Hl).
  destruct (generateCastle_fields g (activeArmy g) side l m Hgen Hl)
    as (El & F1 & F2 & F3 & F4 & F5 & F6 & F7).
  rewrite F3.
  split; [exact Hlegal | ]. split; [exact F1 | ]. split; [exact F4 | ].
  split; [exact F5 | ]. split; [exact F6 | ]. split; [exact F7 | ].
  (* once per side *)
  revert H. unfold pseudoLegalMoves.
  set (army := activeArmy g) in *. set (friends := friendsOf g army).
  set (enemies := enemiesOf g army).
  destruct (kingLoop _ _ 0 []) as [kings | ] eqn:Ek; cbn [bind]; [ | discriminate].
  apply kingLoop_flat_map in Ek. rewrite app_nil_l in Ek.
  destruct (isCastleLegal gen g army KingSide) as [legalK | ] eqn:ElK;
    cbn [bind]; [ | discriminate].
  destruct (if legalK then generateCastle g army KingSide else Ok [])
    as [castleK | ] eqn:EcK; cbn [bind]; [ | discriminate].
  destruct (isCastleLegal gen g army QueenSide) as [legalQ | ] eqn:ElQ;
    cbn [bind]; [ | discriminate].
  destruct (if legalQ then generateCastle g army QueenSide else Ok [])
    as [castleQ | ] eqn:EcQ; cbn [bind]; [ | discriminate].
  intros H. injection H as <-.
  assert (Nk : filter (fun m' => mv_isCastle m' && Castle_eqb (mv_castleSide m') side)
                      kings = []).
  { apply filter_nil_all. intros x Hx. rewrite Ek in Hx.
    apply in_flat_map in Hx as (sq & _ & Hm).
    apply movesFrom_In in Hm as (_ & _ & E & _). rewrite E. reflexivity. }
  assert (Nm : forall piece fn pieces,
             filter (fun m' => mv_isCastle m'
                               && Castle_eqb (mv_castleSide m') side)
                    (movesOfKind g piece fn pieces) = []).
  { intros piece fn pieces. apply filter_nil_all. intros x Hx.
    apply movesOfKind_In in Hx as (_ & E & _). rewrite E. reflexivity. }
  assert (Np : forall pieces,
             filter (fun m' => mv_isCastle m'
                               && Castle_eqb (mv_castleSide m') side)
                    (flat_map (pawnMovesFrom gen g army friends enemies) pieces)
             = []).
  { intros pieces. apply filter_nil_all. intros x Hx.
    apply in_flat_map in Hx as (sq & _ & Hm).
    apply pawnMovesFrom_In in Hm as (_ & _ & E & _). rewrite E. reflexivity. }
  rewrite !filter_app, Nk, !Nm, Np. cbn [app].
  assert (HK : filter (fun m' => mv_isCastle m'
                                 && Castle_eqb (mv_castleSide m') side) castleK
               = match side with KingSide => castleK | QueenSide => [] end).
  { destruct legalK.
    - destruct castleK as [ | x rest] eqn:Ex.
      + destruct side; reflexivity.
      + destruct (generateCastle_fields g army KingSide _ x EcK
                    (or_introl eq_refl)) as (El' & _ & G2 & G3 & _).
        injection El' as ->. cbn [filter]. rewrite G2, G3.
        destruct side; reflexivity.
    - injection EcK as <-. destruct side; reflexivity. }
  assert (HQ : filter (fun m' => mv_isCastle m'
                                 && Castle_eqb (mv_castleSide m') side) castleQ
               = match side with KingSide => [] | QueenSide => castleQ end).
  { destruct legalQ.
    - destruct castleQ as [ | x rest] eqn:Ex.
      + destruct side; reflexivity.
      + destruct (generateCastle_fields g army QueenSide _ x EcQ
                    (or_introl eq_refl)) as (El' & _ & G2 & G3 & _).
        injection El' as ->. cbn [filter]. rewrite G2, G3.
        destruct side; reflexivity.
    - injection EcQ as <-. destruct side; reflexivity. }
  rewrite HK, HQ. rewrite El in Hgen.
  destruct side.
  - rewrite ElK in Hlegal. injection Hlegal as ->. rewrite Hgen in EcK.
    injection EcK as <-. reflexivity.
  - rewrite ElQ in Hlegal. injection Hlegal as ->. rewrite Hgen in EcQ.
    injection EcQ as <-. reflexivity.
Qed.

Lemma generated_castles_witness :
  let g := gameOf "4k3/8/8/8/8/8/8/4K2R w K - 0 1" in
  let m := setCastleSide KingSide
             (setCastle true (setPiece King (moveOf "e1" "h1"))) in
  isCastleLegal specMovegen g White KingSide = Ok true /\ mv_end m = 7.
Proof.
  cbv zeta.
  destruct (generated_castles specMovegen
              (gameOf "4k3/8/8/8/8/8/8/4K2R w K - 0 1")
              (match pseudoLegalMoves specMovegen
                       (gameOf "4k3/8/8/8/8/8/8/4K2R w K - 0 1") with
               | Ok l => l
               | AssertFail => []
               end)
              (setCastleSide KingSide
                 (setCastle true (setPiece King (moveOf "e1" "h1")))))
    as (H1 & _ & _ & H4 & _);
    [vm_compute; reflexivity | vm_compute; tauto | reflexivity | ].
  split; [exact H1 | exact H4].
Defined.

Lemma pieceTypeAt_known g n p a :
  p <> Unknown -> testBit (boardA g a) n = true ->
  testBit (boardP g p) n = true -> pieceTypeAt g n <> Unknown.
Proof.
  intros Hp Ha Hb. unfold pieceTypeAt, testBit in *. rewrite !Z.land_spec.
  assert (Hany : Z.testbit (m_whitePositionBoard g) n
                 || Z.testbit (m_blackPositionBoard g) n = true).
  { destruct a; cbn [boardA] in Ha; rewrite Ha; rewrite ?orb_true_r;
      reflexivity. }
  rewrite <- !andb_orb_distrib_r, Hany, !andb_true_r.
  destruct p; try contradiction; cbn [boardP] in *;
    repeat match goal with
           | |- context [if ?c then _ else _] => destruct c eqn:?
           end; try discriminate; congruence.
Qed.

(** [makeMove] never answers [false] to a move of the sink that is not a
    castle: [fillOutMove] accepts it, and outside Chess960 mode it returns
    the move with its squares and its piece. *)
Theorem generated_moves_are_accepted
    (gen : Movegen) (chess960 : bool) (g : Game) (moves : list Move)
    (m : Move) :
  pseudoLegalMoves gen g = Ok moves -> In m moves -> mv_isCastle m = false ->
  (forall g', makeMove chess960 m g <> Ok (false, g'))
  /\ (chess960 = false ->
      exists mv,
        fillOutMove chess960 g (activeArmy g) m = Ok (Some mv)
        /\ mv_start mv = mv_start m /\ mv_end mv = mv_end m
        /\ mv_piece mv = mv_piece m).
Proof.
  intros H Hin Hnc.
  destruct (pseudoLegalMoves_generated gen g moves m H Hin Hnc)
    as (piece & sq & newSq & Hp & Hsq & Hbit & Hn & Hm).
  apply generateMove_flags in Hm as (E1 & E2 & E3 & _).
  assert (Hv : mv_isValid m = true).
  { unfold mv_isValid. rewrite E2, E3. apply andb_true_iff.
    split; apply sq_isValid_range; assumption. }
  assert (Hat : pieceTypeAt g (sq_data (mv_start m)) <> Unknown).
  { rewrite E2. unfold sq_data. unfold testBit in Hbit.
    rewrite Z.land_spec in Hbit. apply andb_prop in Hbit as [Hb1 Hb2].
    apply (pieceTypeAt_known g sq piece (activeArmy g) Hp);
      [destruct (activeArmy g); exact Hb1 | exact Hb2]. }
  destruct (fillOutMove_accepts chess960 g (activeArmy g) m Hv Hat)
    as [Hnot Hex].
  split.
  - intros g' Hmk. unfold makeMove in Hmk.
    destruct (fillOutMove chess960 g (activeArmy g) m) as [[mv | ] | ];
      cbn [bind] in Hmk.
    + destruct (processMove (activeArmy g) mv g); cbn [bind] in Hmk;
        discriminate Hmk.
    + apply Hnot. reflexivity.
    + discriminate Hmk.
  - intros E960. destruct (Hex E960) as (mv & Hfill). exists mv.
    split; [exact Hfill | ].
    apply fillOutMove_fields in Hfill. cbv zeta in Hfill.
    destruct Hfill as (F1 & F2 & _ & _ & F5 & _).
    assert (Ece : castleEnd (activeArmy g) m = m).
    { unfold castleEnd. rewrite Hnc. reflexivity. }
    rewrite Ece in F2. split; [exact F1 | split; [exact F2 | ]].
    rewrite F5, E1.
    destruct piece; try contradiction; reflexivity.
Qed.

Lemma generated_moves_are_accepted_witness :
  let m := setPiece Pawn (moveOf "e2" "e4") in
  In m (match pseudoLegalMoves specMovegen startPosition with
        | Ok l => l
        | AssertFail => []
        end)
  /\ exists mv,
       fillOutMove false startPosition (activeArmy startPosition) m
       = Ok (Some mv)
       /\ mv_start mv = mv_start m /\ mv_end mv = mv_end m
       /\ mv_piece mv = mv_piece m.
Proof.
  cbv zeta. split; [vm_compute; tauto | ].
  apply (generated_moves_are_accepted specMovegen false startPosition
           (match pseudoLegalMoves specMovegen startPosition with
            | Ok l => l
            | AssertFail => []
            end)
           (setPiece Pawn (moveOf "e2" "e4")));
    [vm_compute; reflexivity | vm_compute; tauto | reflexivity | reflexivity].
Defined.

(** ** [pieceTypeAt], [hasPieceAt] and [hasPieceTypeAt] *)

(** In a position that satisfies the cell invariants the three queries of a
    square agree: [pieceTypeAt] answers a piece kind exactly when
    [hasPieceTypeAt] holds for this kind, it answers [Unknown] exactly when
    no army has a piece on the square, and the two armies never both have
    one. *)
Theorem square_queries_agree (g : Game) (n : Z) (p : PieceType) :
  cellInvariants g = true -> 0 <= n ->
  (p <> Unknown -> (pieceTypeAt g n = p <-> hasPieceTypeAt g n p = true))
  /\ (pieceTypeAt g n = Unknown
      <-> hasPieceAt g n White = false /\ hasPieceAt g n Black = false)
  /\ (hasPieceAt g n White = true -> hasPieceAt g n Black = false).
Proof.
  intros Hc Hn. pose proof (cellInvariants_Repr g Hc) as H.
  destruct (H n Hn) as (Hproper & Ha & Hp).
  rewrite (Repr_pieceTypeAt g _ n H Hn).
  rewrite !(Repr_hasPieceAt g _ n _ H Hn).
  unfold hasPieceTypeAt. rewrite Hp.
  destruct (cellOf g n) as [[a q] | ]; cbn [armyBit pieceBit properCell] in *.
  - split; [ | split].
    + intros _. destruct p, q; cbn [PieceType_eqb]; split; congruence.
    + destruct a, q; cbn [Army_eqb]; try contradiction;
        split; try discriminate; intros [? ?]; discriminate.
    + destruct a; cbn [Army_eqb]; congruence.
  - split; [ | split].
    + intros Hq. split; [congruence | discriminate].
    + split; auto.
    + discriminate.
Qed.

Lemma square_queries_agree_witness :
  pieceTypeAt startPosition 4 = King <-> hasPieceTypeAt startPosition 4 King = true.
Proof.
  destruct (square_queries_agree startPosition 4 King) as (H & _);
    [vm_compute; reflexivity | lia | ].
  apply H. discriminate.
Defined.

(** ** [isSamePosition] *)

Lemma isSamePosition_true_iff g h :
  isSamePosition g h = true
  <-> m_activeArmy g = m_activeArmy h
      /\ m_fileOfKingsRook g = m_fileOfKingsRook h
      /\ m_fileOfQueensRook g = m_fileOfQueensRook h
      /\ m_enPassantTarget g = m_enPassantTarget h
      /\ m_whitePositionBoard g = m_whitePositionBoard h
      /\ m_blackPositionBoard g = m_blackPositionBoard h
      /\ m_kingsBoard g = m_kingsBoard h
      /\ m_queensBoard g = m_queensBoard h
      /\ m_rooksBoard g = m_rooksBoard h
      /\ m_bishopsBoard g = m_bishopsBoard h
      /\ m_knightsBoard g = m_knightsBoard h
      /\ m_pawnsBoard g = m_pawnsBoard h
      /\ m_hasWhiteKingCastle g = m_hasWhiteKingCastle h
      /\ m_hasBlackKingCastle g = m_hasBlackKingCastle h
      /\ m_hasWhiteQueenCastle g = m_hasWhiteQueenCastle h
      /\ m_hasBlackQueenCastle g = m_hasBlackQueenCastle h.
Proof.
  unfold isSamePosition.
  rewrite !andb_true_iff, !Z.eqb_eq, !Bool.eqb_true_iff, Army_eqb_eq.
  tauto.
Qed.

(** [isSamePosition] is an equivalence between positions, and it does not
    look at the last move, the half-move clock, the half-move number or the
    repetition count. *)
Theorem isSamePosition_equivalence :
  (forall g, isSamePosition g g = true)
  /\ (forall g h, isSamePosition g h = isSamePosition h g)
  /\ (forall g h k, isSamePosition g h = true -> isSamePosition h k = true ->
                    isSamePosition g k = true)
  /\ (forall g mv clock number reps,
        isSamePosition
          (with_repetitions reps
             (with_halfMoveNumber number
                (with_halfMoveClock clock (with_lastMove mv g)))) g = true).
Proof.
  split; [ | split; [ | split]].
  - intros g. apply isSamePosition_true_iff. repeat split.
  - intros g h.
    destruct (isSamePosition g h) eqn:E1, (isSamePosition h g) eqn:E2;
      try reflexivity.
    + rewrite <- E2. symmetry. apply isSamePosition_true_iff.
      apply isSamePosition_true_iff in E1. intuition congruence.
    + rewrite <- E1. apply isSamePosition_true_iff.
      apply isSamePosition_true_iff in E2. intuition congruence.
  - intros g h k H1 H2. apply isSamePosition_true_iff in H1, H2.
    apply isSamePosition_true_iff. intuition congruence.
  - intros g mv clock number reps. apply isSamePosition_true_iff.
    repeat split.
Qed.

Lemma isSamePosition_equivalence_witness :
  isSamePosition afterE2E4 (with_halfMoveClock 5 afterE2E4) = true.
Proof.
  destruct isSamePosition_equivalence as (_ & Hsym & Htrans & Hignore).
  apply (Htrans afterE2E4 afterE2E4 (with_halfMoveClock 5 afterE2E4));
    vm_compute; reflexivity.
Defined.

(** ** [boardBetweenOnSameRank] *)

Lemma fold_setBit_bits {A : Type} (sqOf : A -> Z) (fs : list A) :
  (forall f, 0 <= sqOf f) ->
  forall acc n,
    testBit (fold_left (fun r f => setBit r (sqOf f) true) fs acc) n
    = testBit acc n || existsb (fun f => n =? sqOf f) fs.
Proof.
  intros Hpos. induction fs as [ | f fs IH]; intros acc n; cbn [fold_left existsb].
  - rewrite orb_false_r. reflexivity.
  - rewrite IH, testBit_setBit by apply Hpos.
    destruct (n =? sqOf f); cbn [orb]; rewrite ?orb_true_r; reflexivity.
Qed.

Lemma mkSquare_nonneg f r : 0 <= mkSquare f r.
Proof. unfold mkSquare. apply Z.mod_pos_bound. lia. Qed.

Lemma square_coordinates n f r :
  0 <= n -> 0 <= f < 8 -> (n = f + 8 * r <-> sq_file n = f /\ sq_rank n = r).
Proof.
  intros Hn Hf. unfold sq_file, sq_rank.
  pose proof (Z.div_mod n 8 ltac:(lia)) as D.
  pose proof (Z.mod_pos_bound n 8 ltac:(lia)) as M.
  split.
  - intros ->. clear D M. Z.div_mod_to_equations. lia.
  - intros [<- <-]. lia.
Qed.

(** For two squares of the board on the same rank, [boardBetweenOnSameRank]
    returns the squares of that rank whose file lies strictly between the two
    files, together with the two squares themselves when [inclusive] is set;
    the order of the two squares does not matter.  For squares on different
    ranks it stops on its assertion. *)
Theorem boardBetweenOnSameRank_spec (a b : Square) (inclusive : bool) :
  (sq_rank a <> sq_rank b -> boardBetweenOnSameRank a b inclusive = AssertFail)
  /\ (0 <= a < 64 -> 0 <= b < 64 -> sq_rank a = sq_rank b ->
      exists bb,
        boardBetweenOnSameRank a b inclusive = Ok bb
        /\ forall n, 0 <= n ->
             (testBit bb n = true
              <-> (inclusive = true /\ (n = a \/ n = b))
                  \/ (sq_rank n = sq_rank a
                      /\ Z.min (sq_file a) (sq_file b) < sq_file n
                         < Z.max (sq_file a) (sq_file b)))).
Proof.
  split.
  - intros H. unfold boardBetweenOnSameRank, q_assert.
    replace (sq_rank a =? sq_rank b) with false
      by (symmetry; apply Z.eqb_neq; exact H).
    reflexivity.
  - intros Ha Hb Hr. unfold boardBetweenOnSameRank, q_assert, sq_data.
    rewrite Hr, Z.eqb_refl. cbn [bind]. eexists. split; [reflexivity | ].
    intros n Hn.
    rewrite (fold_setBit_bits (fun f => mkSquare f (sq_rank b)))
      by (intros f; apply mkSquare_nonneg).
    assert (Hfa : 0 <= sq_file a < 8) by apply sq_file_range.
    assert (Hfb : 0 <= sq_file b < 8) by apply sq_file_range.
    assert (Hrb : 0 <= sq_rank b < 8).
    { unfold sq_rank. split; [apply Z.div_pos; lia | ].
      apply Z.div_lt_upper_bound; lia. }
    assert (Hinit :
      testBit (if inclusive
               then setBit (setBit emptyBoard a true) b true
               else emptyBoard) n
      = inclusive && ((n =? a) || (n =? b))).
    { destruct inclusive; cbn [andb].
      - rewrite !testBit_setBit by lia. unfold testBit, emptyBoard.
        rewrite Z.bits_0.
        destruct (n =? b), (n =? a); reflexivity.
      - apply Z.bits_0. }
    rewrite Hinit, orb_true_iff, andb_true_iff, orb_true_iff, !Z.eqb_eq,
      existsb_exists.
    set (start := (if sq_file a <? sq_file b then sq_file a else sq_file b) + 1).
    set (files := Z.abs (sq_file a - sq_file b) - 1).
    assert (Hstart : start = Z.min (sq_file a) (sq_file b) + 1).
    { unfold start. destruct (Z.ltb_spec (sq_file a) (sq_file b)); lia. }
    assert (Hend : start + files = Z.max (sq_file a) (sq_file b)).
    { unfold files. lia. }
    split.
    + intros [H | (f & Hin & E)]; [left; exact H | right].
      apply in_map_iff in Hin as (k & <- & Hk). apply in_seq in Hk.
      apply Z.eqb_eq in E.
      assert (Hf : 0 <= start + Z.of_nat k < 8) by lia.
      rewrite mkSquare_onBoard in E by lia.
      apply square_coordinates in E; [ | exact Hn | exact Hf].
      destruct E as [E1 E2]. split; [exact E2 | lia].
    + intros [H | (E2 & Hlt)]; [left; exact H | right].
      exists (sq_file n). split.
      * apply in_map_iff. exists (Z.to_nat (sq_file n - start)).
        split; [lia | ]. apply in_seq. lia.
      * apply Z.eqb_eq. rewrite mkSquare_onBoard by lia.
        apply square_coordinates; [exact Hn | lia | ].
        split; [reflexivity | exact E2].
Qed.

(** The squares between e1 and h1. *)
Lemma boardBetweenOnSameRank_spec_witness :
  exists bb,
    boardBetweenOnSameRank 4 7 false = Ok bb
    /\ testBit bb 5 = true /\ testBit bb 6 = true.
Proof.
  destruct (boardBetweenOnSameRank_spec 4 7 false) as [_ H].
  destruct H as (bb & E & Hbits); [lia | lia | reflexivity | ].
  exists bb. split; [exact E | ].
  split; apply Hbits; try lia; right; vm_compute; repeat split; congruence.
Defined.

(** ** [materialScore] and [isDeadPosition] *)

Lemma bb_count_cells g beta a p :
  Repr g beta ->
  bb_count (Z.land (boardA g a) (boardP g p))
  = Z.of_nat (length (filter (fun n => armyBit (beta n) a && pieceBit (beta n) p)
                             allSquares)).
Proof.
  intros H. unfold bb_count, occupiedSquares. f_equal. f_equal.
  apply filter_ext_in. intros n Hn. apply In_allSquares in Hn.
  destruct (H n (proj1 Hn)) as (_ & Ha & Hp).
  unfold testBit in *. rewrite Z.land_spec, Ha, Hp. reflexivity.
Qed.

Lemma bb_count_occupied g beta :
  Repr g beta ->
  bb_count (Z.lor (boardA g White) (boardA g Black))
  = Z.of_nat (length (filter (fun n => armyBit (beta n) White
                                       || armyBit (beta n) Black)
                             allSquares)).
Proof.
  intros H. unfold bb_count, occupiedSquares. f_equal. f_equal.
  apply filter_ext_in. intros n Hn. apply In_allSquares in Hn.
  destruct (H n (proj1 Hn)) as (_ & Ha & _).
  unfold testBit in *. rewrite Z.lor_spec, !Ha. reflexivity.
Qed.

Lemma bb_count_clear : bb_count 0 = 0.
Proof. vm_compute. reflexivity. Qed.

Lemma material_bound (kw kb bw bb nw nb occ : nat) :
  Z.of_nat kw = 1 -> Z.of_nat kb = 1 -> Z.of_nat occ <= 3 ->
  (kw + kb + bw + bb + nw + nb <= occ)%nat ->
  (0 + 0 * 9 + 0 * 5 + Z.of_nat bw * 3 + Z.of_nat nw * 3 + 0 * 1)
  + (0 + 0 * 9 + 0 * 5 + Z.of_nat bb * 3 + Z.of_nat nb * 3 + 0 * 1) <= 3.
Proof. lia. Qed.

(** Kings, bishops and knights of the two armies are counted among the
    occupied squares, each square once. *)
Lemma minor_pieces_among_occupied (beta : Z -> Cell) (l : list Z) :
  let cnt a p :=
    length (filter (fun n => armyBit (beta n) a && pieceBit (beta n) p) l) in
  (cnt White King + cnt Black King + cnt White Bishop + cnt Black Bishop
   + cnt White Knight + cnt Black Knight
   <= length (filter (fun n => armyBit (beta n) White || armyBit (beta n) Black)
                     l))%nat.
Proof.
  cbv zeta. induction l as [ | x l IH]; [reflexivity | ].
  cbn [filter].
  destruct (beta x) as [[[] []] | ];
    cbn [armyBit pieceBit Army_eqb PieceType_eqb andb orb length]; lia.
Qed.

Lemma isDeadPosition_true_inv (g : Game) :
  isDeadPosition g = true ->
  boardP g Queen = 0 /\ boardP g Rook = 0 /\ boardP g Pawn = 0
  /\ bb_count (Z.lor (boardA g White) (boardA g Black)) <= 3.
Proof.
  unfold isDeadPosition, isClear. intros Hdead.
  destruct (boardP g Queen =? 0) eqn:EQ; [ | discriminate Hdead].
  destruct (boardP g Rook =? 0) eqn:ER; [ | discriminate Hdead].
  destruct (boardP g Pawn =? 0) eqn:EP; [ | discriminate Hdead].
  generalize dependent (bb_count (Z.lor (boardA g White) (boardA g Black))).
  intros k Hdead.
  destruct (k >? 3) eqn:E3; [discriminate Hdead | ].
  apply Z.eqb_eq in EQ, ER, EP. rewrite Z.gtb_ltb in E3. apply Z.ltb_ge in E3.
  repeat split; assumption.
Qed.

Lemma materialScore_minor (g : Game) (army : Army) :
  cellInvariants g = true ->
  boardP g Queen = 0 -> boardP g Rook = 0 -> boardP g Pawn = 0 ->
  materialScore g army
  = 0 + 0 * 9 + 0 * 5
    + Z.of_nat (length (filter (fun n => armyBit (cellOf g n) army
                                         && pieceBit (cellOf g n) Bishop)
                               allSquares)) * 3
    + Z.of_nat (length (filter (fun n => armyBit (cellOf g n) army
                                         && pieceBit (cellOf g n) Knight)
                               allSquares)) * 3
    + 0 * 1.
Proof.
  intros Hc EQ ER EP. pose proof (cellInvariants_Repr g Hc) as H.
  unfold materialScore. cbv zeta. rewrite EQ, ER, EP, !Z.land_0_r.
  rewrite bb_count_clear.
  rewrite !(bb_count_cells g (cellOf g) _ _ H). reflexivity.
Qed.

Lemma oneKing_cells (g : Game) (army : Army) :
  cellInvariants g = true -> oneKing g army = true ->
  Z.of_nat (length (filter (fun n => armyBit (cellOf g n) army
                                     && pieceBit (cellOf g n) King)
                           allSquares)) = 1.
Proof.
  intros Hc. pose proof (cellInvariants_Repr g Hc) as H.
  unfold oneKing. rewrite Z.land_comm, (bb_count_cells g (cellOf g) _ _ H).
  intros Hk. apply Z.eqb_eq. exact Hk.
Qed.

(** A position with one king of each army and at most one piece on each
    square that [isDeadPosition] reports as dead has a bishop or a knight
    at most besides the kings: the material scores of the two armies add up to
    [3] at most. *)
Theorem dead_position_has_little_material (g : Game) :
  boardInvariants g = true -> isDeadPosition g = true ->
  materialScore g White + materialScore g Black <= 3.
Proof.
  intros Hinv Hdead.
  unfold boardInvariants in Hinv. apply andb_prop in Hinv as [Hinv Hkb].
  apply andb_prop in Hinv as [Hc Hkw].
  destruct (isDeadPosition_true_inv g Hdead) as (EQ & ER & EP & E3).
  rewrite (bb_count_occupied g (cellOf g) (cellInvariants_Repr g Hc)) in E3.
  rewrite (materialScore_minor g White Hc EQ ER EP).
  rewrite (materialScore_minor g Black Hc EQ ER EP).
  exact (material_bound _ _ _ _ _ _ _
           (oneKing_cells g White Hc Hkw) (oneKing_cells g Black Hc Hkb) E3
           (minor_pieces_among_occupied (cellOf g) allSquares)).
Qed.

Lemma dead_position_has_little_material_witness :
  let g := gameOf "4k3/8/8/8/8/8/8/4KB2 w - - 0 1" in
  materialScore g White + materialScore g Black <= 3.
Proof.
  apply (dead_position_has_little_material
           (gameOf "4k3/8/8/8/8/8/8/4KB2 w - - 0 1"));
    vm_compute; reflexivity.
Defined.

(* ================================================================= *)
(** * Pawns next to the path of a castling king *)

(** The pawn-attack table of the spec hands back captures only. *)
Lemma pawnCaptures_specMovegen : pawnCaptures specMovegen.
Proof.
  intros army sq friends enemies n.
  cbn [pawnAttacks specMovegen]. unfold specPawnAttacks, testBit.
  rewrite Z.land_spec. intros H. apply andb_prop in H. tauto.
Qed.

(** With such a table, a square on the pawn attack board of an army holds a
    piece of the other army or is the en-passant target: an empty square
    next to a pawn is never on it. *)
Lemma pawnAttackBoard_only_captures gen g army n :
  pawnCaptures gen -> 0 <= n ->
  testBit (pawnAttackBoard gen g army) n = true ->
  hasPieceAt g n (otherArmy army) = true
  \/ (sq_isValid (m_enPassantTarget g) = true /\ n = m_enPassantTarget g).
Proof.
  intros Hgen Hn. unfold pawnAttackBoard. cbv zeta.
  rewrite unionOver_spec. intros (sq & _ & _ & H). apply Hgen in H.
  revert H.
  replace (enemiesOf g army) with (boardA g (otherArmy army))
    by (destruct army; reflexivity).
  replace (hasPieceAt g n (otherArmy army))
    with (testBit (boardA g (otherArmy army)) n)
    by (destruct army; reflexivity).
  generalize (boardA g (otherArmy army)) as enemies. intros enemies.
  unfold enemiesPlusEnpassant, sq_data.
  destruct (sq_isValid (m_enPassantTarget g)) eqn:Ev; [ | intros H; left; exact H].
  apply sq_isValid_range in Ev.
  rewrite testBit_setBit by lia.
  destruct (Z.eqb_spec n (m_enPassantTarget g)) as [E | _]; intros H;
    [right; split; [reflexivity | exact E] | left; exact H].
Qed.

(** C4 (defect of the code).  White may castle king side in
    ["4k3/8/8/8/8/8/6p1/4K2R w K - 0 1"]: the king goes from [e1] over [f1]
    to [g1], and the black pawn on [g2] attacks [f1].  [isCastleLegal] answers
    [true]: [f1] is empty, so it is not on the pawn attack board, which holds
    captures only (here the rook on [h1]).  By the code's own test the square
    is attacked: with the king on [f1], [isChecked] answers [true].  With the
    pawn on [h2] the castle is accepted as well, and after it the king stands
    in check on [g1].  The position of the claim, where a queen attacks [f1],
    behaves as the claim says. *)
Theorem castle_across_pawn_attack_is_accepted :
  let g := gameOf "4k3/8/8/8/8/8/6p1/4K2R w K - 0 1" in
  let kingOnF1 := gameOf "4k3/8/8/8/8/8/6p1/5K1R w - - 0 1" in
  let h := gameOf "4k3/8/8/8/8/8/7p/4K2R w K - 0 1" in
  let c := gameOf "4k3/6q1/8/8/8/8/8/R3K2R w KQ - 0 1" in
  (hasPieceAt g 14 Black = true /\ pieceTypeAt g 14 = Pawn
   /\ (exists kingPath rookPath,
         castlePaths g White KingSide = Ok (Some (kingPath, rookPath))
         /\ occupiedSquares kingPath = [4; 5; 6])
   /\ pieceTypeAt g 5 = Unknown
   /\ occupiedSquares (pawnAttackBoard specMovegen g Black) = [7]
   /\ isCastleLegal specMovegen g White KingSide = Ok true
   /\ exists g', isChecked specMovegen kingOnF1 White = Ok (true, g'))
  /\ (isCastleLegal specMovegen h White KingSide = Ok true
      /\ exists h' h'',
           makeMove false (moveOf "e1" "g1") h = Ok (true, h')
           /\ pieceTypeAt h' 6 = King
           /\ isChecked specMovegen h' White = Ok (true, h''))
  /\ (isCastleAvailable c White KingSide = true
      /\ isCastleLegal specMovegen c White KingSide = Ok false
      /\ isCastleLegal specMovegen c White QueenSide = Ok true).
Proof.
  cbv zeta. split; [ | split].
  - split; [vm_compute; reflexivity | ].
    split; [vm_compute; reflexivity | ].
    split; [eexists; eexists;
            split; [vm_compute; reflexivity | vm_compute; reflexivity] | ].
    split; [vm_compute; reflexivity | ].
    split; [vm_compute; reflexivity | ].
    split; [vm_compute; reflexivity | ].
    eexists. vm_compute. reflexivity.
  - split; [vm_compute; reflexivity | ].
    eexists. eexists.
    split; [vm_compute; reflexivity | ].
    split; [vm_compute; reflexivity | ].
    vm_compute. reflexivity.
  - repeat split; vm_compute; reflexivity.
Qed.

(* ================================================================= *)
(** * Moves that [makeMove] applies unchecked *)

(** ** The bits after a toggle *)

Lemma testBit_boardA_toggled index army piece bit g a n :
  0 <= index ->
  testBit (boardA (toggled index army piece bit g) a) n
  = if Army_eqb a army && (n =? index) then bit else testBit (boardA g a) n.
Proof.
  intros Hi. rewrite boardA_toggled.
  destruct (Army_eqb a army) eqn:E; cbn [andb]; [ | reflexivity].
  apply Army_eqb_eq in E. subst a. apply testBit_setBit. exact Hi.
Qed.

Lemma testBit_boardP_toggled index army piece bit g p n :
  0 <= index -> piece <> Unknown ->
  testBit (boardP (toggled index army piece bit g) p) n
  = if PieceType_eqb p piece && (n =? index) then bit
    else testBit (boardP g p) n.
Proof.
  intros Hi Hp. rewrite boardP_toggled by exact Hp.
  destruct (PieceType_eqb p piece) eqn:E; cbn [andb]; [ | reflexivity].
  apply PieceType_eqb_eq in E. subst p. apply testBit_setBit. exact Hi.
Qed.

Lemma pieceTypeAt_sameBoards g g' n :
  sameBoards g g' -> pieceTypeAt g' n = pieceTypeAt g n.
Proof.
  intros [Ha Hp]. unfold pieceTypeAt. cbv zeta.
  change (m_whitePositionBoard g') with (boardA g' White).
  change (m_blackPositionBoard g') with (boardA g' Black).
  rewrite !Ha, !Hp. reflexivity.
Qed.

Lemma hasPieceAt_sameBoards g g' n a :
  sameBoards g g' -> hasPieceAt g' n a = hasPieceAt g n a.
Proof.
  intros [Ha _]. specialize (Ha a). destruct a; cbn [boardA hasPieceAt] in *;
    rewrite Ha; reflexivity.
Qed.

Lemma sameBoardsFiles_toggled index a p bit g g' :
  sameBoardsFiles g g' ->
  sameBoardsFiles (toggled index a p bit g) (toggled index a p bit g').
Proof.
  intros ((Ha & Hp) & Hk & Hq).
  pose proof (Ha White) as HW. pose proof (Ha Black) as HB.
  pose proof (Hp King) as H1. pose proof (Hp Queen) as H2.
  pose proof (Hp Rook) as H3. pose proof (Hp Bishop) as H4.
  pose proof (Hp Knight) as H5. pose proof (Hp Pawn) as H6.
  cbn [boardA boardP] in HW, HB, H1, H2, H3, H4, H5, H6.
  split; [split | split].
  - intros a0. destruct a, a0, p; cbn; congruence.
  - intros p0. destruct a, p0, p; cbn; congruence.
  - destruct a, p; cbn; exact Hk.
  - destruct a, p; cbn; exact Hq.
Qed.

(** ** The capture block *)

Lemma processCapture_applies army mv g :
  let taken :=
    if mv_isEnPassant mv
    then mkSquare (sq_file (mv_end mv)) (rankBehind army (sq_rank (mv_end mv)))
    else mv_end mv in
  sq_isValid taken = true -> pieceTypeAt g taken <> Unknown ->
  exists g1,
    processCapture army mv g = Ok g1
    /\ sameBoardsFiles
         (toggled taken (otherArmy army) (pieceTypeAt g taken) false g) g1.
Proof.
  cbv zeta. unfold processCapture, sq_data. cbv zeta.
  set (taken := if mv_isEnPassant mv then _ else _).
  intros Hv Hk.
  change (pieceTypeAt (with_lastMove (setCapture true (m_lastMove g)) g) taken)
    with (pieceTypeAt g taken).
  apply sq_isValid_range in Hv.
  apply PieceType_eqb_neq in Hk as Hk'. rewrite Hk'. cbn [negb q_assert bind].
  rewrite togglePieceAt_ok by assumption. cbn [bind].
  eexists. split; [reflexivity | ].
  assert (S0 : sameBoardsFiles
                 (toggled taken (otherArmy army) (pieceTypeAt g taken) false g)
                 (toggled taken (otherArmy army) (pieceTypeAt g taken) false
                    (with_lastMove (setCapture true (m_lastMove g)) g))).
  { apply sameBoardsFiles_toggled.
    split; [split | split]; try reflexivity; intros []; reflexivity. }
  destruct (PieceType_eqb (pieceTypeAt g taken) Rook); [ | exact S0].
  match goal with
  | |- context [if ?b then _ else _] => destruct b
  end; (eapply sameBoardsFiles_trans; [exact S0 | ]);
    apply sameBoardsFiles_with_castle.
Qed.

(** ** The mover *)

Lemma homeRank_square army file :
  0 <= file < 8 -> 0 <= mkSquare file (homeRank army) < 64.
Proof.
  intros H. rewrite mkSquare_onBoard by (destruct army; cbn; lia).
  destruct army; cbn [homeRank]; lia.
Qed.

Lemma placeMover_applies army mv g :
  mv_isValid mv = true -> mv_piece mv <> Unknown ->
  0 <= m_fileOfKingsRook g < 8 -> 0 <= m_fileOfQueensRook g < 8 ->
  let left := toggled (mv_start mv) army (mv_piece mv) false g in
  let rookFrom :=
    mkSquare (match mv_castleSide mv with
              | KingSide => m_fileOfKingsRook g
              | QueenSide => m_fileOfQueensRook g
              end) (homeRank army) in
  let rookTo := mkSquare (match mv_castleSide mv with
                          | KingSide => 5 | QueenSide => 3 end)
                         (homeRank army) in
  let kingTo := mkSquare (match mv_castleSide mv with
                          | KingSide => 6 | QueenSide => 2 end)
                         (homeRank army) in
  landingPiece mv <> Unknown
  /\ 0 <= rookFrom < 64 /\ 0 <= rookTo < 64 /\ 0 <= kingTo < 64
  /\ placeMover army mv g
     = Ok (if mv_isCastle mv
           then toggled kingTo army King true
                  (toggled rookTo army Rook true
                     (toggled rookFrom army Rook false left))
           else toggled (mv_end mv) army (landingPiece mv) true left).
Proof.
  intros Hv Hp HK HQ. cbv zeta.
  unfold mv_isValid in Hv. apply andb_prop in Hv as [Hs He].
  apply sq_isValid_range in Hs, He.
  assert (Hl : landingPiece mv <> Unknown).
  { unfold landingPiece.
    destruct (PieceType_eqb (mv_promotion mv) Unknown) eqn:E; cbn [negb];
      [exact Hp | apply PieceType_eqb_neq; exact E]. }
  split; [exact Hl | ].
  split; [destruct (mv_castleSide mv); apply homeRank_square; assumption | ].
  split; [destruct (mv_castleSide mv); apply homeRank_square; lia | ].
  split; [destruct (mv_castleSide mv); apply homeRank_square; lia | ].
  unfold placeMover, sq_data.
  rewrite togglePieceAt_ok by assumption. cbn [bind].
  destruct (files_toggled (mv_start mv) army (mv_piece mv) false g) as [Fk Fq].
  rewrite Fk, Fq.
  destruct (mv_isCastle mv).
  - destruct (mv_castleSide mv);
      rewrite togglePieceAt_ok
        by (try apply homeRank_square; try assumption; discriminate);
      cbn [bind];
      rewrite togglePieceAt_ok
        by (try apply homeRank_square; try lia; discriminate);
      cbn [bind];
      apply togglePieceAt_ok;
      try apply homeRank_square; try lia; discriminate.
  - unfold landingPiece in *.
    destruct (negb (PieceType_eqb (mv_promotion mv) Unknown));
      apply togglePieceAt_ok; assumption.
Qed.

(** ** [processMove] on any filled-out move *)

(** [processMove] succeeds on a filled-out move as soon as a capture finds a
    piece to take and the castle-rook files are files of the board; the
    bitboards afterwards, bit by bit. *)
Lemma processMove_applies army mv g :
  mv_isValid mv = true -> mv_piece mv <> Unknown ->
  let enemy := otherArmy army in
  let capture := hasPieceAt g (mv_end mv) enemy || mv_isEnPassant mv in
  let taken :=
    if mv_isEnPassant mv
    then mkSquare (sq_file (mv_end mv)) (rankBehind army (sq_rank (mv_end mv)))
    else mv_end mv in
  (capture = true ->
   sq_isValid taken = true /\ pieceTypeAt g taken <> Unknown) ->
  0 <= m_fileOfKingsRook g < 8 -> 0 <= m_fileOfQueensRook g < 8 ->
  let rookFrom :=
    mkSquare (match mv_castleSide mv with
              | KingSide => m_fileOfKingsRook g
              | QueenSide => m_fileOfQueensRook g
              end) (homeRank army) in
  let rookTo := mkSquare (match mv_castleSide mv with
                          | KingSide => 5 | QueenSide => 3 end)
                         (homeRank army) in
  let kingTo := mkSquare (match mv_castleSide mv with
                          | KingSide => 6 | QueenSide => 2 end)
                         (homeRank army) in
  exists g',
    processMove army mv g = Ok g'
    /\ forall n, 0 <= n ->
         (forall a,
             testBit (boardA g' a) n
             = (if mv_isCastle mv then
                  if Army_eqb a army && (n =? kingTo) then true
                  else if Army_eqb a army && (n =? rookTo) then true
                  else if Army_eqb a army && (n =? rookFrom) then false
                  else if Army_eqb a army && (n =? mv_start mv) then false
                  else if capture && (Army_eqb a enemy && (n =? taken))
                       then false else testBit (boardA g a) n
                else
                  if Army_eqb a army && (n =? mv_end mv) then true
                  else if Army_eqb a army && (n =? mv_start mv) then false
                  else if capture && (Army_eqb a enemy && (n =? taken))
                       then false else testBit (boardA g a) n))
         /\ (forall p,
                testBit (boardP g' p) n
                = (if mv_isCastle mv then
                     if PieceType_eqb p King && (n =? kingTo) then true
                     else if PieceType_eqb p Rook && (n =? rookTo) then true
                     else if PieceType_eqb p Rook && (n =? rookFrom) then false
                     else if PieceType_eqb p (mv_piece mv) && (n =? mv_start mv)
                          then false
                     else if capture
                             && (PieceType_eqb p (pieceTypeAt g taken)
                                 && (n =? taken))
                          then false else testBit (boardP g p) n
                   else
                     if PieceType_eqb p (landingPiece mv) && (n =? mv_end mv)
                     then true
                     else if PieceType_eqb p (mv_piece mv) && (n =? mv_start mv)
                          then false
                     else if capture
                             && (PieceType_eqb p (pieceTypeAt g taken)
                                 && (n =? taken))
                          then false else testBit (boardP g p) n)).
Proof.
  intros Hv Hp. cbv zeta.
  set (enemy := otherArmy army).
  set (taken := if mv_isEnPassant mv then _ else _).
  intros Hcap HK HQ.
  unfold processMove, sq_data. cbv zeta.
  set (g0 := updateRights army mv
               (with_enPassantTarget invalidSquare (with_lastMove mv g))).
  assert (F0 : sameBoardsFiles g g0).
  { eapply sameBoardsFiles_trans; [apply (sameBoardsFiles_start mv) | ].
    apply sameBoardsFiles_updateRights. }
  rewrite (hasPieceAt_sameBoards g g0 _ _ (proj1 F0)).
  fold enemy.
  set (capture := hasPieceAt g (mv_end mv) enemy || mv_isEnPassant mv) in *.
  set (base := if capture
               then toggled taken enemy (pieceTypeAt g taken) false g
               else g).
  assert (Hc1 : exists g1,
             (if capture then processCapture army mv g0 else Ok g0) = Ok g1
             /\ sameBoardsFiles base g1).
  { unfold base. destruct capture.
    - destruct (Hcap eq_refl) as [Htv Htk].
      destruct (processCapture_applies army mv g0) as (g1 & E1 & S1).
      + exact Htv.
      + fold taken. rewrite (pieceTypeAt_sameBoards g g0 _ (proj1 F0)).
        exact Htk.
      + fold taken in S1. fold enemy in S1.
        rewrite (pieceTypeAt_sameBoards g g0 _ (proj1 F0)) in S1.
        exists g1. split; [exact E1 | ].
        eapply sameBoardsFiles_trans; [ | exact S1].
        apply sameBoardsFiles_toggled. exact F0.
    - exists g0. split; [reflexivity | exact F0]. }
  destruct Hc1 as (g1 & E1 & S1). rewrite E1. cbn [bind].
  assert (St : sameBoardsFiles base (tickClock mv capture g1)).
  { eapply sameBoardsFiles_trans; [exact S1 | ].
    apply sameBoardsFiles_tickClock. }
  set (gt := tickClock mv capture g1) in *.
  assert (Fb : m_fileOfKingsRook base = m_fileOfKingsRook g
               /\ m_fileOfQueensRook base = m_fileOfQueensRook g).
  { unfold base. destruct capture; [apply files_toggled | split; reflexivity]. }
  destruct Fb as [Fbk Fbq].
  destruct St as (Sb & Sk & Sq). rewrite Fbk in Sk. rewrite Fbq in Sq.
  destruct (placeMover_applies army mv gt Hv Hp) as (Hl & R1 & R2 & R3 & E2);
    [rewrite Sk; exact HK | rewrite Sq; exact HQ | ].
  rewrite Sk, Sq in *. rewrite E2. cbn [bind].
  eexists. split; [reflexivity | ].
  unfold mv_isValid in Hv. apply andb_prop in Hv as [Hs He].
  apply sq_isValid_range in Hs, He.
  destruct Sb as [SbA SbP].
  assert (BA : forall a n, 0 <= n ->
             testBit (boardA gt a) n
             = (if capture && (Army_eqb a enemy && (n =? taken)) then false
                else testBit (boardA g a) n)).
  { intros a n Hn. rewrite SbA. unfold base. destruct capture; cbn [andb].
    - destruct (Hcap eq_refl) as [Htv _]. apply sq_isValid_range in Htv.
      apply testBit_boardA_toggled. lia.
    - reflexivity. }
  assert (BP : forall p n, 0 <= n ->
             testBit (boardP gt p) n
             = (if capture
                   && (PieceType_eqb p (pieceTypeAt g taken) && (n =? taken))
                then false else testBit (boardP g p) n)).
  { intros p n Hn. rewrite SbP. unfold base. destruct capture; cbn [andb].
    - destruct (Hcap eq_refl) as [Htv Htk]. apply sq_isValid_range in Htv.
      apply testBit_boardP_toggled; [lia | exact Htk].
    - reflexivity. }
  intros n Hn.
  destruct (sameBoardsFiles_endTurn
              (if mv_isCastle mv
               then toggled
                      (mkSquare (match mv_castleSide mv with
                                 | KingSide => 6 | QueenSide => 2 end)
                                (homeRank army)) army King true
                      (toggled
                         (mkSquare (match mv_castleSide mv with
                                    | KingSide => 5 | QueenSide => 3 end)
                                   (homeRank army)) army Rook true
                         (toggled
                            (mkSquare (match mv_castleSide mv with
                                       | KingSide => m_fileOfKingsRook g
                                       | QueenSide => m_fileOfQueensRook g
                                       end) (homeRank army)) army Rook false
                            (toggled (mv_start mv) army (mv_piece mv) false gt)))
               else toggled (mv_end mv) army (landingPiece mv) true
                      (toggled (mv_start mv) army (mv_piece mv) false gt)))
    as ((EA & EP) & _).
  split.
  - intros a. rewrite EA. destruct (mv_isCastle mv).
    + rewrite !testBit_boardA_toggled by lia. rewrite BA by exact Hn.
      reflexivity.
    + rewrite !testBit_boardA_toggled by lia. rewrite BA by exact Hn.
      reflexivity.
  - intros p. rewrite EP. destruct (mv_isCastle mv).
    + rewrite !testBit_boardP_toggled by (try lia; try assumption; discriminate).
      rewrite BP by exact Hn. reflexivity.
    + rewrite !testBit_boardP_toggled by (try lia; try assumption; discriminate).
      rewrite BP by exact Hn. reflexivity.
Qed.

(** ** The assertion of [fillOutMove] *)

(** [fillOutMove] either answers [false] or ends in its last block. *)
Lemma fillOutMove_last_block chess960 g army move :
  fillOutMove chess960 g army move = Ok None
  \/ exists m3,
       fillOutMove chess960 g army move = castleStage chess960 g army m3
       /\ mv_end m3 = mv_end (castleEnd army move).
Proof.
  unfold fillOutMove, sq_data. cbv zeta.
  generalize (castleEnd army move) as m0. intros m0.
  destruct (mv_isValid m0) eqn:Hvalid; cbn [negb]; [ | left; reflexivity].
  set (m1 := if PieceType_eqb (mv_piece m0) Unknown
             then setPiece (pieceTypeAt g (mv_start m0)) m0 else m0).
  assert (F1 : mv_start m1 = mv_start m0 /\ mv_end m1 = mv_end m0).
  { unfold m1. destruct (PieceType_eqb (mv_piece m0) Unknown); split; reflexivity. }
  clearbody m1. destruct F1 as (B1 & B2).
  destruct (PieceType_eqb (mv_piece m1) Unknown) eqn:Hknown;
    [left; reflexivity | ].
  assert (Hvs : sq_isValid (mv_start m1) = true).
  { rewrite B1. unfold mv_isValid in Hvalid.
    apply andb_prop in Hvalid as [Hvs _]. exact Hvs. }
  rewrite Hvs. cbn [negb andb].
  set (m2 := if PieceType_eqb (mv_piece m1) Pawn
                && PieceType_eqb (mv_promotion m1) Unknown
                && ((Army_eqb army White && (sq_rank (mv_end m1) =? 7))
                    || (Army_eqb army Black && (sq_rank (mv_end m1) =? 0)))
             then setPromotion Queen m1 else m1).
  assert (F2 : mv_end m2 = mv_end m1).
  { unfold m2.
    match goal with
    | |- context [if ?b then _ else _] => destruct b
    end; reflexivity. }
  clearbody m2.
  set (m3 := if PieceType_eqb (mv_piece m2) Pawn
                && (mv_end m2 =? m_enPassantTarget g)
             then setEnPassant true m2 else m2).
  assert (F3 : mv_end m3 = mv_end m2).
  { unfold m3.
    match goal with
    | |- context [if ?b then _ else _] => destruct b
    end; reflexivity. }
  clearbody m3.
  right. exists m3. split; [reflexivity | congruence].
Qed.

(** The last block stops only in Chess960 mode, on a move that ends on a
    rook of the mover standing on neither castle-rook file. *)
Lemma castleStage_stops chess960 g army m :
  sq_isValid (mv_end m) = true ->
  castleStage chess960 g army m = AssertFail ->
  chess960 = true
  /\ testBit (Z.land (boardA g army) (boardP g Rook)) (mv_end m) = true
  /\ sq_file (mv_end m) <> fileOfKingsRook g
  /\ sq_file (mv_end m) <> fileOfQueensRook g.
Proof.
  intros Hv. apply sq_isValid_range in Hv. unfold castleStage. cbv zeta.
  destruct (PieceType_eqb (mv_piece m) King && negb (mv_isCastle m));
    [ | discriminate].
  match goal with
  | |- context [if ?b || ?c then _ else _] => destruct (b || c)
  end; [ | discriminate].
  destruct ((sq_file (mv_start m) =? 4) && (sq_file (mv_end m) =? 6));
    [discriminate | ].
  destruct ((sq_file (mv_start m) =? 4) && (sq_file (mv_end m) =? 2));
    [discriminate | ].
  destruct chess960; cbn [andb]; [ | discriminate].
  match goal with
  | |- context [isClear ?b] => destruct (isClear b) eqn:Eclear
  end; cbn [negb]; [discriminate | ].
  destruct (Z.eqb_spec (sq_file (mv_end m)) (fileOfKingsRook g)) as [ | Nk];
    [discriminate | ].
  destruct (Z.eqb_spec (sq_file (mv_end m)) (fileOfQueensRook g)) as [ | Nq];
    [discriminate | ].
  intros _. split; [reflexivity | ]. split; [ | split; assumption].
  apply not_clear_iff_bit in Eclear as (sq & H0 & Hsq).
  unfold testBit in *. rewrite Z.land_spec in Hsq.
  apply andb_prop in Hsq as [Hb Hs].
  apply (testBit_squareBoard (mv_end m) sq) in Hs; [ | lia].
  rewrite <- Hs. exact Hb.
Qed.

Lemma Army_eqb_refl a : Army_eqb a a = true.
Proof. destruct a; reflexivity. Qed.

Lemma Army_eqb_other a :
  Army_eqb (otherArmy a) a = false /\ Army_eqb a (otherArmy a) = false.
Proof. destruct a; split; reflexivity. Qed.

(** ** C9 *)

(** The claim as worded fails: [makeMove] can stop on an assertion for a move
    with two valid squares and a piece on its start square.  Outside Chess960
    mode the pawn move [e5d6] onto an en-passant target with nothing behind it
    finds no piece to take; in Chess960 mode the king move [e1f1] onto the own
    rook, which stands on neither castle-rook file, reaches the unreachable
    branch of [fillOutMove]. *)
Theorem makeMove_stops_on_an_assertion :
  let g := gameOf "4k3/8/8/4P3/8/8/8/4K3 w - d6 0 1" in
  let h := gameOf "4k3/8/8/8/8/8/8/4KR1R w - - 0 1" in
  (mv_isValid (moveOf "e5" "d6") = true
   /\ pieceTypeAt g (mv_start (moveOf "e5" "d6")) = Pawn
   /\ makeMove false (moveOf "e5" "d6") g = AssertFail)
  /\ (mv_isValid (moveOf "e1" "f1") = true
      /\ pieceTypeAt h (mv_start (moveOf "e1" "f1")) = King
      /\ pieceTypeAt h (mv_end (moveOf "e1" "f1")) = Rook
      /\ hasPieceAt h (mv_end (moveOf "e1" "f1")) White = true
      /\ makeMove true (moveOf "e1" "f1") h = AssertFail).
Proof. cbv zeta. repeat split; vm_compute; reflexivity. Qed.

(** C9, amended.  [makeMove] answers [false] only when the fill-out step
    fails, and then leaves the position as it was.  For a supplied move with
    two valid squares and a piece on its start square it never answers
    [false].  It answers [true] and applies the move, whatever the movement
    rules of the piece say and whatever stands on the end square, as soon as
    no assertion of the code is met: a capture (an enemy piece on the end
    square, or an en-passant capture: the flag, or a pawn move onto the
    en-passant target) finds a piece on the square of the piece taken; in
    Chess960 mode a move that ends on a rook of the mover ends on a
    castle-rook file; the castle-rook files are files of the board.  Applied
    means: the turn passes, the move is recorded as the last move, the piece
    taken leaves the bitboards, and the mover leaves its start square and is
    set on its end square (a castle sets king and rook on their castle
    squares), bit by bit as stated. *)
Theorem makeMove_applies_unvalidated_moves
    (chess960 : bool) (g : Game) (move : Move) :
  let army := activeArmy g in
  let enemy := otherArmy army in
  let piece := if PieceType_eqb (mv_piece move) Unknown
               then pieceTypeAt g (mv_start move) else mv_piece move in
  let enPassant :=
    mv_isEnPassant move
    || (PieceType_eqb piece Pawn && (mv_end move =? m_enPassantTarget g)) in
  let capture := hasPieceAt g (mv_end move) enemy || enPassant in
  let taken :=
    if enPassant
    then mkSquare (sq_file (mv_end move))
                  (rankBehind army (sq_rank (mv_end move)))
    else mv_end move in
  (forall g', makeMove chess960 move g = Ok (false, g') ->
              fillOutMove chess960 g army move = Ok None /\ g' = g)
  /\ (mv_isValid move = true ->
      pieceTypeAt g (mv_start move) <> Unknown ->
      (forall g', makeMove chess960 move g <> Ok (false, g'))
      /\ ((capture = true ->
           sq_isValid taken = true /\ pieceTypeAt g taken <> Unknown) ->
          (chess960 = true ->
           testBit (Z.land (boardA g army) (boardP g Rook)) (mv_end move) = true ->
           sq_file (mv_end move) = fileOfKingsRook g
           \/ sq_file (mv_end move) = fileOfQueensRook g) ->
          0 <= fileOfKingsRook g < 8 -> 0 <= fileOfQueensRook g < 8 ->
          exists mv g',
            fillOutMove chess960 g army move = Ok (Some mv)
            /\ makeMove chess960 move g = Ok (true, g')
            /\ mv_start mv = mv_start move /\ mv_end mv = mv_end move
            /\ mv_piece mv = piece /\ mv_isEnPassant mv = enPassant
            /\ m_activeArmy g' = enemy
            /\ m_lastMove g' = (if capture then setCapture true mv else mv)
            /\ let rookFrom :=
                 mkSquare (match mv_castleSide mv with
                           | KingSide => fileOfKingsRook g
                           | QueenSide => fileOfQueensRook g
                           end) (homeRank army) in
               let rookTo := mkSquare (match mv_castleSide mv with
                                       | KingSide => 5 | QueenSide => 3 end)
                                      (homeRank army) in
               let kingTo := mkSquare (match mv_castleSide mv with
                                       | KingSide => 6 | QueenSide => 2 end)
                                      (homeRank army) in
               forall n, 0 <= n ->
                 testBit (boardA g' enemy) n
                 = (if capture && (n =? taken) then false
                    else testBit (boardA g enemy) n)
                 /\ testBit (boardA g' army) n
                    = (if mv_isCastle mv then
                         if n =? kingTo then true
                         else if n =? rookTo then true
                         else if n =? rookFrom then false
                         else if n =? mv_start move then false
                         else testBit (boardA g army) n
                       else
                         if n =? mv_end move then true
                         else if n =? mv_start move then false
                         else testBit (boardA g army) n)
                 /\ forall p,
                      testBit (boardP g' p) n
                      = (let before :=
                           if capture
                              && (PieceType_eqb p (pieceTypeAt g taken)
                                  && (n =? taken))
                           then false else testBit (boardP g p) n in
                         if mv_isCastle mv then
                           if PieceType_eqb p King && (n =? kingTo) then true
                           else if PieceType_eqb p Rook && (n =? rookTo)
                                then true
                           else if PieceType_eqb p Rook && (n =? rookFrom)
                                then false
                           else if PieceType_eqb p piece && (n =? mv_start move)
                                then false
                           else before
                         else
                           if PieceType_eqb p (landingPiece mv)
                              && (n =? mv_end move) then true
                           else if PieceType_eqb p piece && (n =? mv_start move)
                                then false
                           else before))).
Proof.
  cbv zeta. split; [intros g'; apply makeMove_false_inv | ].
  intros Hv Hp.
  assert (Hce : castleEnd (activeArmy g) move = move).
  { unfold castleEnd. rewrite Hv. rewrite andb_false_r. reflexivity. }
  destruct (fillOutMove_accepts chess960 g (activeArmy g) move Hv Hp)
    as [Hne _].
  split.
  { intros g' H. apply makeMove_false_inv in H. destruct H as [H _].
    contradiction. }
  intros Hcap H960 HK HQ. unfold fileOfKingsRook, fileOfQueensRook in *.
  destruct (fillOutMove chess960 g (activeArmy g) move) as [[mv | ] | ]
    eqn:Efill.
  - pose proof (fillOutMove_fields chess960 g (activeArmy g) move mv Efill)
      as F.
    cbv zeta in F. rewrite Hce in F.
    destruct F as (F1 & F2 & F3 & F4 & F5 & _ & F7 & _).
    unfold sq_data in F5.
    assert (Eep : mv_isEnPassant mv
                  = mv_isEnPassant move
                    || (PieceType_eqb
                          (if PieceType_eqb (mv_piece move) Unknown
                           then pieceTypeAt g (mv_start move)
                           else mv_piece move) Pawn
                        && (mv_end move =? m_enPassantTarget g))).
    { rewrite F7, F5, F2. reflexivity. }
    pose proof (processMove_applies (activeArmy g) mv g F3 F4) as P.
    cbv zeta in P. rewrite F1, F2, F5, Eep in P.
    destruct (P Hcap HK HQ) as (g' & Eproc & Hbits). clear P.
    exists mv, g'.
    split; [reflexivity | ].
    split; [unfold makeMove; rewrite Efill; cbn [bind]; rewrite Eproc;
            reflexivity | ].
    split; [exact F1 | ]. split; [exact F2 | ]. split; [exact F5 | ].
    split; [exact Eep | ].
    pose proof (processMove_scalars (activeArmy g) mv g g' Eproc) as S.
    cbv zeta in S. destruct S as (S1 & _ & _ & _ & _ & _ & S7 & _).
    split; [exact S7 | ].
    split.
    { rewrite S1. unfold isCaptureOf, sq_data. rewrite F2, Eep. reflexivity. }
    intros n Hn. destruct (Hbits n Hn) as [HA HP].
    destruct (Army_eqb_other (activeArmy g)) as [O1 O2].
    split; [ | split].
    + rewrite HA, O1, Army_eqb_refl. cbn [andb].
      destruct (mv_isCastle mv); reflexivity.
    + rewrite HA, O2, Army_eqb_refl. cbn [andb]. rewrite andb_false_r.
      reflexivity.
    + intros p. rewrite HP. reflexivity.
  - contradiction.
  - exfalso.
    destruct (fillOutMove_last_block chess960 g (activeArmy g) move)
      as [E | (m3 & E & Eend)]; [congruence | ].
    rewrite Efill, Hce in *. symmetry in E.
    unfold mv_isValid in Hv. apply andb_prop in Hv as [_ Hve].
    apply castleStage_stops in E; [ | rewrite Eend; exact Hve].
    rewrite Eend in E. destruct E as (E960 & Hrook & Nk & Nq).
    unfold fileOfKingsRook, fileOfQueensRook in *.
    destruct (H960 E960 Hrook); contradiction.
Qed.

(** The king "move" [e1d1] from the starting position, onto the own queen: it
    is answered [true]; afterwards [e1] is empty and [d1] is a square of both
    the king bitboard and the queen bitboard. *)
Lemma makeMove_applies_unvalidated_moves_witness :
  hasPieceAt startPosition 3 White = true
  /\ pieceTypeAt startPosition 3 = Queen
  /\ exists g',
       makeMove false (moveOf "e1" "d1") startPosition = Ok (true, g')
       /\ m_activeArmy g' = Black
       /\ testBit (boardA g' White) 4 = false
       /\ testBit (boardA g' White) 3 = true
       /\ testBit (boardP g' King) 4 = false
       /\ testBit (boardP g' King) 3 = true
       /\ testBit (boardP g' Queen) 3 = true.
Proof.
  split; [reflexivity | split; [reflexivity | ]].
  destruct (makeMove_applies_unvalidated_moves false startPosition
              (moveOf "e1" "d1")) as [_ H].
  destruct H as [_ H]; [reflexivity | vm_compute; discriminate | ].
  destruct H as (mv & g' & Efill & Emake & _ & _ & _ & _ & Harmy & _ & Hbits).
  - intros C. vm_compute in C. discriminate C.
  - intros C. discriminate C.
  - change (0 <= 7 < 8). lia.
  - change (0 <= 0 < 8). lia.
  - assert (E : Some mv = Some (setPiece King (moveOf "e1" "d1"))).
    { assert (E' : Ok (Some mv)
                   = @Ok (option Move) (Some (setPiece King (moveOf "e1" "d1")))).
      { rewrite <- Efill. vm_compute. reflexivity. }
      congruence. }
    injection E as ->.
    exists g'. split; [exact Emake | ]. split; [exact Harmy | ].
    destruct (Hbits 4 ltac:(lia)) as (_ & HA4 & HP4).
    destruct (Hbits 3 ltac:(lia)) as (_ & HA3 & HP3).
    split; [refine (eq_trans HA4 _); vm_compute; reflexivity | ].
    split; [refine (eq_trans HA3 _); vm_compute; reflexivity | ].
    split; [refine (eq_trans (HP4 King) _); vm_compute; reflexivity | ].
    split; [refine (eq_trans (HP3 King) _); vm_compute; reflexivity | ].
    refine (eq_trans (HP3 Queen) _). vm_compute. reflexivity.
Defined.
